(** * backend-pms: availability, reservation lifecycle and folio ledger

    A shallow embedding of the booking and financial core of the
    property-management backend:

    - [services/reservationService.ts]: [nightsBetween], [rangesOverlap],
      [computeBilling], [ensureRoomAvailable], [ensureAvailabilityForType],
      [listReservations], [getReservationById], [updateReservation],
      [deleteReservation], [getAvailability];
    - [services/checkinService.ts]: [assignRoom], [checkIn], [checkOut];
    - [services/billingService.js]: [enumerateStayNights], [calculateTax],
      [ensureBillForReservation], [resolveFolio], [computeTotals],
      [syncReservationBilling], [postRoomCharges], [addAddonCharge],
      [getBillSummary], [settleBill], [settleReservation];
    - [services/alertService.ts]: [buildFingerprint],
      [evaluateLateCheckoutAlerts], [evaluatePaymentPendingAlerts],
      [mergeTriggers];
    - [services/propertyService.ts]: [ROOM_STATUS_TRANSITIONS],
      [assertValidRoomStatusTransition], [listRooms], [getTaxConfig];
    - [db/jsonTable.ts]: the record store ([getAll], [getById], [insert],
      [update], [delete]).

    Conventions of the embedding.

    - A JavaScript number is a [num]: [NaN], an infinity, or the rational
      value of a finite double.  Every operation computes the exact result
      and rounds it to binary64 ([binary64]), as IEEE 754 has it, and
      returns a reduced fraction, so that equal numbers are equal terms.
      The decimal literal 0.7 is [of_Q (7 # 10)], the double nearest to
      7/10; a rational that is no double is read as the double nearest to
      it wherever it is used ([dbl]).
    - A table keeps a number as it is written.  The JSON round trip of
      [JsonTable] ([clone]) hands a [NaN] and an [Infinity] back as [null];
      what is proved about amounts is proved of the stores that hold finite
      numbers only ([Storable]), on which the round trip changes nothing.
    - A [Date] is its time value, [option Z] in milliseconds, [None] for an
      Invalid Date.
    - What the JavaScript runtime supplies (date parsing and printing, the
      clock, [nanoid], number formatting, [toLowerCase]) is a [Platform].
    - An async function is a computation [M A] over the [Store]: it returns
      the store it leaves behind together with either the thrown exception
      or the value.  The store outlives a throw, as the table caches do.
    - A table keeps its records in insertion order, as the [Map] of
      [JsonTable] does. *)

From Stdlib Require Import ZArith QArith Qround Qreduction Qabs Qpower Lqa.
From Stdlib Require Import List String Ascii Bool Lia.
From Stdlib Require Import DecimalString.
Import ListNotations.

Local Open Scope list_scope.
Local Open Scope string_scope.

(** ** JavaScript numbers *)

(** A number is a double: [NaN], an infinity, or a finite value, kept as
    the rational it is.  [0] and [-0] are one number (the code compares
    with [<=], [>] and [===] and divides by 100 only). *)
Inductive num : Type :=
| NaN
| Inf (negative : bool)
| Fin (q : Q).

(** The exponent of the power of two at or below a positive rational. *)
Definition ilog2 (a : Q) : Z :=
  let e := (Z.log2 (Qnum a) - Z.log2 (Zpos (Qden a)))%Z in
  if Qle_bool (2 ^ e) a then e else (e - 1)%Z.

(** The nearest integer, a tie going to the even one. *)
Definition rne (q : Q) : Z :=
  let f := Qfloor q in
  match Qcompare (q - inject_Z f) (1 # 2) with
  | Lt => f
  | Gt => (f + 1)%Z
  | Eq => if Z.even f then f else (f + 1)%Z
  end.

(** Rounding to binary64, the one rounding of IEEE 754 that JavaScript
    uses: to the nearest number with a significand of 53 bits and an
    exponent of at least -1074, a tie going to the even significand, and
    to an infinity from [2 ^ 1024] on. *)
Definition binary64 (x : Q) : num :=
  let q := Qred x in
  if Qeq_bool q 0 then Fin 0
  else
    let a := Qabs q in
    let e := Z.max (ilog2 a - 52) (-1074) in
    let r := (inject_Z (rne (a / 2 ^ e)) * 2 ^ e)%Q in
    if Qle_bool (2 ^ 1024) r then Inf (negb (Qle_bool 0 q))
    else Fin (Qred (if Qle_bool 0 q then r else (- r)%Q)).

(** The double a number stands for.  What [binary64] returns stands for
    itself; a [Fin q] whose [q] is no double, as the [7 # 10] of the
    decimal 0.7, stands for the double nearest to [q], as a literal does in
    the program.  Every operation reads its operands so. *)
Definition dbl (a : num) : num :=
  match a with
  | Fin q => binary64 q
  | other => other
  end.

(** An integer literal and a decimal literal. *)
Definition of_Z (z : Z) : num := Fin (inject_Z z).
Definition of_Q (q : Q) : num := binary64 q.

(** [a + b], [a - b], [a * b]: the exact result, rounded. *)
Definition nadd (a b : num) : num :=
  match dbl a, dbl b with
  | Fin x, Fin y => binary64 (x + y)
  | Inf s, Fin _ | Fin _, Inf s => Inf s
  | Inf s, Inf t => if Bool.eqb s t then Inf s else NaN
  | _, _ => NaN
  end.

Definition nsub (a b : num) : num :=
  match dbl a, dbl b with
  | Fin x, Fin y => binary64 (x - y)
  | Inf s, Fin _ => Inf s
  | Fin _, Inf s => Inf (negb s)
  | Inf s, Inf t => if Bool.eqb s t then NaN else Inf s
  | _, _ => NaN
  end.

Definition nmul (a b : num) : num :=
  match dbl a, dbl b with
  | Fin x, Fin y => binary64 (x * y)
  | Inf s, Fin y | Fin y, Inf s =>
      if Qeq_bool y 0 then NaN else Inf (xorb s (negb (Qle_bool 0 y)))
  | Inf s, Inf t => Inf (xorb s t)
  | _, _ => NaN
  end.

(** [a / 100], the only division of the ledger. *)
Definition ndiv100 (a : num) : num :=
  match dbl a with
  | Fin x => binary64 (x / 100)
  | Inf s => Inf s
  | NaN => NaN
  end.

(** [a <= 0] and [a > 0]; every comparison with [NaN] is false. *)
Definition nle0 (a : num) : bool :=
  match dbl a with
  | Fin x => Qle_bool x 0
  | Inf s => s
  | NaN => false
  end.

Definition ngt0 (a : num) : bool :=
  match dbl a with
  | Fin x => negb (Qle_bool x 0)
  | Inf s => negb s
  | NaN => false
  end.

(** [a > b] *)
Definition ngt (a b : num) : bool :=
  match dbl a, dbl b with
  | Fin x, Fin y => negb (Qle_bool x y)
  | Inf s, Fin _ => negb s
  | Fin _, Inf s => s
  | Inf s, Inf t => negb s && t
  | _, _ => false
  end.

(** Truthiness of a number: neither [0] nor [NaN]. *)
Definition ntruthy (a : num) : bool :=
  match dbl a with
  | Fin x => negb (Qeq_bool x 0)
  | Inf _ => true
  | NaN => false
  end.

(** The number that [q.toFixed(2)] prints: the multiple of 1/100 nearest to
    the value of [q], a tie going away from zero ([toFixed] works on the
    absolute value and picks the larger candidate). *)
Definition round2 (q : Q) : Q :=
  let n := Qfloor (Qabs q * 100 + (1 # 2)) in
  Qred ((if Qle_bool 0 q then n else (- n)%Z) # 100).

(** [const roundCurrency = (amount) => Number(amount.toFixed(2))]: the
    decimal that [toFixed] prints is read back as the nearest double;
    [NaN] and the infinities print as their names and are read back as
    themselves. *)
Definition roundCurrency (amount : num) : num :=
  match dbl amount with
  | Fin q => binary64 (round2 q)
  | other => other
  end.

(** [xs.reduce((sum, x) => sum + f(x), 0)] *)
Definition reduce_sum {A : Type} (f : A -> num) (xs : list A) : num :=
  fold_left (fun sum x => nadd sum (f x)) xs (of_Z 0).

(** ** Dates *)

Definition MS_PER_DAY : Z := 1000 * 60 * 60 * 24.

(** [a < b] on two [Date]s: false as soon as one is invalid. *)
Definition date_lt (a b : option Z) : bool :=
  match a, b with
  | Some x, Some y => (x <? y)%Z
  | _, _ => false
  end.

(** ** The runtime *)

Class Platform : Type := {
  (** [new Date(value).getTime()] *)
  toDate : string -> option Z;
  (** [Date.prototype.toISOString] of a valid time value *)
  toISOString : Z -> string;
  (** the reading of the clock at the n-th call of [now()] or [nanoid()] *)
  clockAt : nat -> string;
  (** the identifier [nanoid()] returns at that call *)
  nanoidAt : nat -> string;
  (** a number inside a template literal *)
  numToString : num -> string;
  (** [Number.prototype.toFixed(2)] as text *)
  toFixed2 : num -> string;
  (** [String.prototype.toLowerCase] *)
  toLowerCase : string -> string
}.

(** ** JavaScript values: truthiness and defaults *)

Definition truthy_str (s : string) : bool := negb (s =? "").

Definition truthy_ostr (o : option string) : bool :=
  match o with
  | Some s => truthy_str s
  | None => false
  end.

(** [a ?? b] *)
Definition nullish {A : Type} (a : option A) (b : A) : A :=
  match a with
  | Some v => v
  | None => b
  end.

(** [a ?? b] when [b] may itself be undefined *)
Definition nullish_opt {A : Type} (a b : option A) : option A :=
  match a with
  | Some v => Some v
  | None => b
  end.

(** [value.split(sep)[0]] for a one-character separator *)
Fixpoint split_head (sep : ascii) (s : string) : string :=
  match s with
  | EmptyString => EmptyString
  | String c rest => if Ascii.eqb c sep then EmptyString else String c (split_head sep rest)
  end.

(** ** Exceptions *)

Inductive Exn : Type :=
| HttpError (status : Z) (message : string)
| JsError (message : string).

(** ** Domain records ([types/domain.ts]) *)

Inductive ReservationStatus : Type :=
| DRAFT | CONFIRMED | CHECKED_IN | CHECKED_OUT | CANCELLED.

Inductive RoomStatus : Type :=
| AVAILABLE | OCCUPIED | DIRTY | OUT_OF_ORDER.

Inductive ChargeType : Type :=
| ROOM | ADDON | ADJUSTMENT.

Inductive PaymentMode : Type :=
| CASH | CARD | UPI | BANK_TRANSFER | CREDIT | OTHER.

Definition ReservationStatus_eqb (a b : ReservationStatus) : bool :=
  match a, b with
  | DRAFT, DRAFT | CONFIRMED, CONFIRMED | CHECKED_IN, CHECKED_IN
  | CHECKED_OUT, CHECKED_OUT | CANCELLED, CANCELLED => true
  | _, _ => false
  end.

Definition RoomStatus_eqb (a b : RoomStatus) : bool :=
  match a, b with
  | AVAILABLE, AVAILABLE | OCCUPIED, OCCUPIED | DIRTY, DIRTY
  | OUT_OF_ORDER, OUT_OF_ORDER => true
  | _, _ => false
  end.

Definition ChargeType_eqb (a b : ChargeType) : bool :=
  match a, b with
  | ROOM, ROOM | ADDON, ADDON | ADJUSTMENT, ADJUSTMENT => true
  | _, _ => false
  end.

(** [xs.includes(x)] *)
Definition includes {A : Type} (eqb : A -> A -> bool) (xs : list A) (x : A) : bool :=
  existsb (eqb x) xs.

Record ReservationCharge : Type := {
  rc_description : string;
  rc_amount : num
}.

Record ReservationBilling : Type := {
  b_currency : string;
  b_totalAmount : num;
  b_balanceDue : num;
  b_charges : list ReservationCharge
}.

(** An optional field is [None] when the key is absent or undefined: the two
    are the same to every reader, since the store hands out JSON clones.
    [billing] is a required field: the [?.] and [?? DEFAULT_CURRENCY] with
    which the ledger reads [reservation.billing.currency] never take their
    fallback. *)
Record ReservationRecord : Type := {
  r_id : string;
  r_hotelId : string;
  r_hotelCode : string;
  r_guestId : string;
  r_roomType : string;
  r_roomId : option string;
  r_status : ReservationStatus;
  r_arrivalDate : string;
  r_departureDate : string;
  r_adults : num;
  r_children : num;
  r_nightlyRate : num;
  r_ratePlan : string;
  r_source : string;
  r_otaReference : option string;
  r_isWalkIn : bool;
  r_notes : option string;
  r_billing : ReservationBilling;
  r_checkInAt : option string;
  r_checkOutAt : option string;
  r_createdAt : string;
  r_updatedAt : string
}.

(** [Partial<Omit<ReservationRecord, "id">>]: [None] is an absent key.  For an
    optional field, [Some None] is a key that is present and undefined, which
    the spread of [update] copies over the stored value. *)
Record ReservationUpdates : Type := {
  u_hotelId : option string;
  u_hotelCode : option string;
  u_guestId : option string;
  u_roomType : option string;
  u_roomId : option (option string);
  u_status : option ReservationStatus;
  u_arrivalDate : option string;
  u_departureDate : option string;
  u_adults : option num;
  u_children : option num;
  u_nightlyRate : option num;
  u_ratePlan : option string;
  u_source : option string;
  u_otaReference : option (option string);
  u_isWalkIn : option bool;
  u_notes : option (option string);
  u_billing : option ReservationBilling;
  u_checkInAt : option (option string);
  u_checkOutAt : option (option string);
  u_createdAt : option string;
  u_updatedAt : option string
}.

Definition noReservationUpdates : ReservationUpdates :=
  {| u_hotelId := None; u_hotelCode := None; u_guestId := None; u_roomType := None;
     u_roomId := None; u_status := None; u_arrivalDate := None;
     u_departureDate := None; u_adults := None; u_children := None;
     u_nightlyRate := None; u_ratePlan := None; u_source := None;
     u_otaReference := None; u_isWalkIn := None; u_notes := None;
     u_billing := None; u_checkInAt := None; u_checkOutAt := None;
     u_createdAt := None; u_updatedAt := None |}.

(** [{ ...existing, ...updates, id }] *)
Definition mergeReservation (existing : ReservationRecord) (updates : ReservationUpdates)
  : ReservationRecord :=
  {| r_id := r_id existing;
     r_hotelId := nullish (u_hotelId updates) (r_hotelId existing);
     r_hotelCode := nullish (u_hotelCode updates) (r_hotelCode existing);
     r_guestId := nullish (u_guestId updates) (r_guestId existing);
     r_roomType := nullish (u_roomType updates) (r_roomType existing);
     r_roomId := nullish (u_roomId updates) (r_roomId existing);
     r_status := nullish (u_status updates) (r_status existing);
     r_arrivalDate := nullish (u_arrivalDate updates) (r_arrivalDate existing);
     r_departureDate := nullish (u_departureDate updates) (r_departureDate existing);
     r_adults := nullish (u_adults updates) (r_adults existing);
     r_children := nullish (u_children updates) (r_children existing);
     r_nightlyRate := nullish (u_nightlyRate updates) (r_nightlyRate existing);
     r_ratePlan := nullish (u_ratePlan updates) (r_ratePlan existing);
     r_source := nullish (u_source updates) (r_source existing);
     r_otaReference := nullish (u_otaReference updates) (r_otaReference existing);
     r_isWalkIn := nullish (u_isWalkIn updates) (r_isWalkIn existing);
     r_notes := nullish (u_notes updates) (r_notes existing);
     r_billing := nullish (u_billing updates) (r_billing existing);
     r_checkInAt := nullish (u_checkInAt updates) (r_checkInAt existing);
     r_checkOutAt := nullish (u_checkOutAt updates) (r_checkOutAt existing);
     r_createdAt := nullish (u_createdAt updates) (r_createdAt existing);
     r_updatedAt := nullish (u_updatedAt updates) (r_updatedAt existing) |}.

(** An optional field of a cloned record, seen as a key of an update: the
    clone has no key for an undefined value. *)
Definition own_key {A : Type} (v : option A) : option (option A) :=
  match v with
  | Some x => Some (Some x)
  | None => None
  end.

(** [{ ...reservation }] of a record read from the store, passed as the
    updates of a later [update]. *)
Definition spreadReservation (r : ReservationRecord) : ReservationUpdates :=
  {| u_hotelId := Some (r_hotelId r);
     u_hotelCode := Some (r_hotelCode r);
     u_guestId := Some (r_guestId r);
     u_roomType := Some (r_roomType r);
     u_roomId := own_key (r_roomId r);
     u_status := Some (r_status r);
     u_arrivalDate := Some (r_arrivalDate r);
     u_departureDate := Some (r_departureDate r);
     u_adults := Some (r_adults r);
     u_children := Some (r_children r);
     u_nightlyRate := Some (r_nightlyRate r);
     u_ratePlan := Some (r_ratePlan r);
     u_source := Some (r_source r);
     u_otaReference := own_key (r_otaReference r);
     u_isWalkIn := Some (r_isWalkIn r);
     u_notes := own_key (r_notes r);
     u_billing := Some (r_billing r);
     u_checkInAt := own_key (r_checkInAt r);
     u_checkOutAt := own_key (r_checkOutAt r);
     u_createdAt := Some (r_createdAt r);
     u_updatedAt := Some (r_updatedAt r) |}.

Record RoomRecord : Type := {
  rm_id : string;
  rm_hotelId : string;
  rm_hotelCode : string;
  rm_number : string;
  rm_name : string;
  rm_type : string;
  rm_roomTypeId : string;
  rm_status : RoomStatus;
  rm_rate : num;
  rm_floor : option num;
  rm_floorId : option string;
  rm_buildingId : option string;
  rm_amenities : option (list string);
  rm_maxOccupancy : option num;
  rm_hasExtraBed : option bool;
  rm_isActive : option bool;
  rm_createdAt : string;
  rm_updatedAt : string
}.

(** The keys the lifecycle writes on a room: [{ status, updatedAt }]. *)
Record RoomUpdates : Type := {
  ru_status : option RoomStatus;
  ru_updatedAt : option string
}.

Definition mergeRoom (existing : RoomRecord) (updates : RoomUpdates) : RoomRecord :=
  {| rm_id := rm_id existing;
     rm_hotelId := rm_hotelId existing;
     rm_hotelCode := rm_hotelCode existing;
     rm_number := rm_number existing;
     rm_name := rm_name existing;
     rm_type := rm_type existing;
     rm_roomTypeId := rm_roomTypeId existing;
     rm_status := nullish (ru_status updates) (rm_status existing);
     rm_rate := rm_rate existing;
     rm_floor := rm_floor existing;
     rm_floorId := rm_floorId existing;
     rm_buildingId := rm_buildingId existing;
     rm_amenities := rm_amenities existing;
     rm_maxOccupancy := rm_maxOccupancy existing;
     rm_hasExtraBed := rm_hasExtraBed existing;
     rm_isActive := rm_isActive existing;
     rm_createdAt := rm_createdAt existing;
     rm_updatedAt := nullish (ru_updatedAt updates) (rm_updatedAt existing) |}.

(** Free-form metadata: a flat object of JSON scalars, keys in insertion
    order. *)
Inductive jsval : Type :=
| JNull
| JBool (b : bool)
| JNum (n : num)
| JStr (s : string).

Definition jsobject : Type := list (string * jsval).

Fixpoint obj_get (k : string) (o : jsobject) : option jsval :=
  match o with
  | [] => None
  | (k', v) :: rest => if k' =? k then Some v else obj_get k rest
  end.

Fixpoint obj_set (k : string) (v : jsval) (o : jsobject) : jsobject :=
  match o with
  | [] => [(k, v)]
  | (k', v') :: rest => if k' =? k then (k', v) :: rest else (k', v') :: obj_set k v rest
  end.

(** [{ ...o, ...extra }] *)
Definition obj_spread (o extra : jsobject) : jsobject :=
  fold_left (fun acc kv => obj_set (fst kv) (snd kv) acc) extra o.

Record Folio : Type := {
  f_id : string;
  f_name : string;
  f_createdAt : string;
  f_updatedAt : string
}.

Record BillCharge : Type := {
  bc_id : string;
  bc_folioId : string;
  bc_type : ChargeType;
  bc_description : string;
  bc_amount : num;
  bc_taxAmount : num;
  bc_totalAmount : num;
  bc_postedAt : string;
  bc_metadata : option jsobject
}.

Record BillRecord : Type := {
  bl_id : string;
  bl_hotelId : string;
  bl_hotelCode : string;
  bl_reservationId : string;
  bl_folios : list Folio;
  bl_charges : list BillCharge;
  bl_createdAt : string;
  bl_updatedAt : string
}.

(** The keys the ledger writes on a bill: [folios], [charges], [updatedAt]. *)
Record BillUpdates : Type := {
  bu_folios : option (list Folio);
  bu_charges : option (list BillCharge);
  bu_updatedAt : option string
}.

Definition mergeBill (existing : BillRecord) (updates : BillUpdates) : BillRecord :=
  {| bl_id := bl_id existing;
     bl_hotelId := bl_hotelId existing;
     bl_hotelCode := bl_hotelCode existing;
     bl_reservationId := bl_reservationId existing;
     bl_folios := nullish (bu_folios updates) (bl_folios existing);
     bl_charges := nullish (bu_charges updates) (bl_charges existing);
     bl_createdAt := bl_createdAt existing;
     bl_updatedAt := nullish (bu_updatedAt updates) (bl_updatedAt existing) |}.

Record PaymentRecord : Type := {
  p_id : string;
  p_hotelId : string;
  p_hotelCode : string;
  p_reservationId : string;
  p_folioId : string;
  p_amount : num;
  p_currency : string;
  p_mode : PaymentMode;
  p_reference : option string;
  p_receivedAt : string;
  p_metadata : option jsobject;
  p_createdAt : string;
  p_updatedAt : string
}.

(** The property profile; its address and contact fields are not read here. *)
Record PropertyProfile : Type := {
  pp_id : string;
  pp_hotelId : string;
  pp_hotelCode : string;
  pp_name : string
}.

(** A stored tax configuration: a field is [None] when the stored value does
    not have the expected [typeof]. *)
Record TaxRecord : Type := {
  tx_id : string;
  tx_hotelCode : string;
  tx_gstEnabled : option bool;
  tx_cgst : option num;
  tx_sgst : option num;
  tx_igst : option num;
  tx_serviceChargeEnabled : option bool;
  tx_serviceChargePercentage : option num;
  tx_luxuryTaxEnabled : option bool;
  tx_luxuryTaxPercentage : option num
}.

(** What [getTaxConfig] returns. *)
Record TaxConfig : Type := {
  tc_id : string;
  tc_hotelCode : string;
  tc_gstEnabled : bool;
  tc_cgst : num;
  tc_sgst : num;
  tc_igst : num;
  tc_serviceChargeEnabled : bool;
  tc_serviceChargePercentage : num;
  tc_luxuryTaxEnabled : bool;
  tc_luxuryTaxPercentage : num
}.

(** ** The store and its computations *)

Record Store : Type := {
  st_reservations : list ReservationRecord;
  st_rooms : list RoomRecord;
  st_bills : list BillRecord;
  st_payments : list PaymentRecord;
  st_property : list PropertyProfile;
  st_taxes : list TaxRecord;
  (** calls of [now()] and [nanoid()] made so far *)
  st_tick : nat;
  (** outcome of the coming writes to disk, [true] for a write that fails;
      once the list is used up every write succeeds *)
  st_faults : list bool
}.

Definition set_reservations (v : list ReservationRecord) (s : Store) : Store :=
  {| st_reservations := v; st_rooms := st_rooms s; st_bills := st_bills s;
     st_payments := st_payments s; st_property := st_property s;
     st_taxes := st_taxes s; st_tick := st_tick s; st_faults := st_faults s |}.

Definition set_rooms (v : list RoomRecord) (s : Store) : Store :=
  {| st_reservations := st_reservations s; st_rooms := v; st_bills := st_bills s;
     st_payments := st_payments s; st_property := st_property s;
     st_taxes := st_taxes s; st_tick := st_tick s; st_faults := st_faults s |}.

Definition set_bills (v : list BillRecord) (s : Store) : Store :=
  {| st_reservations := st_reservations s; st_rooms := st_rooms s; st_bills := v;
     st_payments := st_payments s; st_property := st_property s;
     st_taxes := st_taxes s; st_tick := st_tick s; st_faults := st_faults s |}.

Definition set_payments (v : list PaymentRecord) (s : Store) : Store :=
  {| st_reservations := st_reservations s; st_rooms := st_rooms s;
     st_bills := st_bills s; st_payments := v; st_property := st_property s;
     st_taxes := st_taxes s; st_tick := st_tick s; st_faults := st_faults s |}.

Definition set_tick (v : nat) (s : Store) : Store :=
  {| st_reservations := st_reservations s; st_rooms := st_rooms s;
     st_bills := st_bills s; st_payments := st_payments s;
     st_property := st_property s; st_taxes := st_taxes s; st_tick := v;
     st_faults := st_faults s |}.

Definition set_faults (v : list bool) (s : Store) : Store :=
  {| st_reservations := st_reservations s; st_rooms := st_rooms s;
     st_bills := st_bills s; st_payments := st_payments s;
     st_property := st_property s; st_taxes := st_taxes s; st_tick := st_tick s;
     st_faults := v |}.

Definition M (A : Type) : Type := Store -> Store * (Exn + A).

Definition ret {A : Type} (a : A) : M A := fun s => (s, inr a).

Definition throw {A : Type} (e : Exn) : M A := fun s => (s, inl e).

Definition bind {A B : Type} (c : M A) (k : A -> M B) : M B :=
  fun s =>
    match c s with
    | (s', inr a) => k a s'
    | (s', inl e) => (s', inl e)
    end.

(** [try { c } catch (error) { h(error) }] *)
Definition try_catch {A : Type} (c : M A) (h : Exn -> M A) : M A :=
  fun s =>
    match c s with
    | (s', inl e) => h e s'
    | (s', inr a) => (s', inr a)
    end.

(** A synchronous function that may throw, called from an async one. *)
Definition lift {A : Type} (r : Exn + A) : M A :=
  match r with
  | inl e => throw e
  | inr a => ret a
  end.

Declare Scope pms_scope.
Delimit Scope pms_scope with pms.
Notation "x <- c1 ;; c2" := (bind c1 (fun x => c2))
  (at level 61, c1 at next level, right associativity) : pms_scope.
Notation "c1 ;; c2" := (bind c1 (fun _ => c2))
  (at level 61, right associativity) : pms_scope.
Local Open Scope pms_scope.

(** ** [JsonTable] ([db/jsonTable.ts]) *)

Record Table (T : Type) : Type := {
  t_records : Store -> list T;
  t_store : list T -> Store -> Store;
  t_key : T -> string
}.
Arguments t_records {T}.
Arguments t_store {T}.
Arguments t_key {T}.

Definition reservationsTable : Table ReservationRecord :=
  {| t_records := st_reservations; t_store := set_reservations; t_key := r_id |}.
Definition roomsTable : Table RoomRecord :=
  {| t_records := st_rooms; t_store := set_rooms; t_key := rm_id |}.
Definition billsTable : Table BillRecord :=
  {| t_records := st_bills; t_store := set_bills; t_key := bl_id |}.
Definition paymentsTable : Table PaymentRecord :=
  {| t_records := st_payments; t_store := set_payments; t_key := p_id |}.

Section JsonTable.
Context {P : Platform} {T : Type} (tb : Table T).

(** [cache.get(id)] *)
Definition cache_get (id : string) (records : list T) : option T :=
  find (fun r => t_key tb r =? id) records.

(** [cache.set(id, record)] for a key that is present: the entry keeps its
    place. *)
Fixpoint cache_replace (id : string) (record : T) (records : list T) : list T :=
  match records with
  | [] => []
  | r :: rest =>
      if t_key tb r =? id then record :: rest
      else r :: cache_replace id record rest
  end.

(** [cache.delete(id)] *)
Fixpoint cache_delete (id : string) (records : list T) : list T :=
  match records with
  | [] => []
  | r :: rest =>
      if t_key tb r =? id then rest else r :: cache_delete id rest
  end.

(** [persist]: the write of the whole table to disk, which may fail.  The
    files it goes through, and the [nanoid()] that names the temporary one,
    are left out. *)
Definition persist : M unit :=
  fun s =>
    match st_faults s with
    | [] => (s, inr tt)
    | false :: rest => (set_faults rest s, inr tt)
    | true :: rest => (set_faults rest s, inl (JsError "write failed"))
    end.

(** What a table hands out is a [clone] of the record, its JSON round
    trip: the record itself, as long as its numbers are finite. *)
Definition getAll : M (list T) :=
  fun s => (s, inr (t_records tb s)).

Definition getById (id : string) : M (option T) :=
  fun s => (s, inr (cache_get id (t_records tb s))).

Definition nanoid : M string :=
  fun s => (set_tick (S (st_tick s)) s, inr (nanoidAt (st_tick s))).

(** [insert]: [id] is the [id] of the input, when it has one, and [record]
    builds the stored record [{ ...input, id }] from the identifier, the
    given one or else a fresh one ([input.id ?? nanoid()]). *)
Definition insert (id : option string) (record : string -> T) : M T :=
  id <- match id with
        | Some given => ret given
        | None => nanoid
        end ;;
  fun s =>
    match cache_get id (t_records tb s) with
    | Some _ => (s, inl (JsError ("Record with id " ++ id ++ " already exists")))
    | None =>
        (persist ;; ret (record id))
          (t_store tb (t_records tb s ++ [record id]) s)
    end.

(** [update]: [merge] is [{ ...existing, ...updates, id }] at the record
    type.  The cache is written before the disk. *)
Definition update (id : string) (merge : T -> T) : M T :=
  fun s =>
    match cache_get id (t_records tb s) with
    | None => (s, inl (JsError ("Record with id " ++ id ++ " not found")))
    | Some existing =>
        (persist ;; ret (merge existing))
          (t_store tb (cache_replace id (merge existing) (t_records tb s)) s)
    end.

Definition delete (id : string) : M unit :=
  fun s =>
    match cache_get id (t_records tb s) with
    | None => (s, inl (JsError ("Record with id " ++ id ++ " not found")))
    | Some _ => persist (t_store tb (cache_delete id (t_records tb s)) s)
    end.
End JsonTable.

Section Services.
Context {P : Platform}.

(** [const now = () => new Date().toISOString()] *)
Definition now : M string :=
  fun s => (set_tick (S (st_tick s)) s, inr (clockAt (st_tick s))).

(** *** [services/propertyService.ts] *)

Definition ROOM_STATUS_TRANSITIONS (current : RoomStatus) : list RoomStatus :=
  match current with
  | AVAILABLE => [OCCUPIED; DIRTY; OUT_OF_ORDER]
  | OCCUPIED => [DIRTY]
  | DIRTY => [AVAILABLE; OUT_OF_ORDER]
  | OUT_OF_ORDER => [AVAILABLE; DIRTY]
  end.

Definition RoomStatus_name (s : RoomStatus) : string :=
  match s with
  | AVAILABLE => "AVAILABLE"
  | OCCUPIED => "OCCUPIED"
  | DIRTY => "DIRTY"
  | OUT_OF_ORDER => "OUT_OF_ORDER"
  end.

Definition assertValidRoomStatusTransition (current next : RoomStatus) : Exn + unit :=
  if RoomStatus_eqb current next then inr tt
  else
    let allowed := ROOM_STATUS_TRANSITIONS current in
    if negb (includes RoomStatus_eqb allowed next) then
      inl (HttpError 400
             ("Cannot transition room status from " ++ RoomStatus_name current
              ++ " to " ++ RoomStatus_name next))
    else inr tt.

(** [records[0] ?? null] *)
Definition getPropertyProfile : M (option PropertyProfile) :=
  fun s => (s, inr (hd_error (st_property s))).

Definition ensurePropertyProfile : M PropertyProfile :=
  profile <- getPropertyProfile ;;
  match profile with
  | None => throw (HttpError 400 "Property profile is not configured")
  | Some p => ret p
  end.

Definition DEFAULT_ROOM_AMENITIES : list string := [].

(** The callback of [records.map] in [listRooms]: the record with its
    missing catalogue fields defaulted. *)
Definition withRoomDefaults (record : RoomRecord) : RoomRecord :=
  {| rm_id := rm_id record;
     rm_hotelId := rm_hotelId record;
     rm_hotelCode := rm_hotelCode record;
     rm_number := rm_number record;
     rm_name := rm_name record;
     rm_type := rm_type record;
     rm_roomTypeId := rm_roomTypeId record;
     rm_status := rm_status record;
     rm_rate := rm_rate record;
     rm_floor := rm_floor record;
     rm_floorId := rm_floorId record;
     rm_buildingId := rm_buildingId record;
     rm_amenities := Some (nullish (rm_amenities record) DEFAULT_ROOM_AMENITIES);
     rm_maxOccupancy := Some (nullish (rm_maxOccupancy record) (of_Z 2));
     rm_hasExtraBed := Some (nullish (rm_hasExtraBed record) false);
     rm_isActive := Some (nullish (rm_isActive record) true);
     rm_createdAt := rm_createdAt record;
     rm_updatedAt := rm_updatedAt record |}.

Definition listRooms : M (list RoomRecord) :=
  profile <- ensurePropertyProfile ;;
  records <- getAll roomsTable ;;
  ret (map withRoomDefaults
         (filter (fun record => rm_hotelCode record =? pp_hotelCode profile) records)).

Definition getTaxConfig : M (option TaxConfig) :=
  profile <- ensurePropertyProfile ;;
  fun s =>
    (s, inr
          match find (fun record => tx_hotelCode record =? pp_hotelCode profile)
                     (st_taxes s) with
          | None => None
          | Some m =>
              Some {| tc_id := tx_id m;
                      tc_hotelCode := tx_hotelCode m;
                      tc_gstEnabled := nullish (tx_gstEnabled m) true;
                      tc_cgst := nullish (tx_cgst m) (of_Z 0);
                      tc_sgst := nullish (tx_sgst m) (of_Z 0);
                      tc_igst := nullish (tx_igst m) (of_Z 0);
                      tc_serviceChargeEnabled := nullish (tx_serviceChargeEnabled m) false;
                      tc_serviceChargePercentage :=
                        nullish (tx_serviceChargePercentage m) (of_Z 0);
                      tc_luxuryTaxEnabled := nullish (tx_luxuryTaxEnabled m) false;
                      tc_luxuryTaxPercentage :=
                        nullish (tx_luxuryTaxPercentage m) (of_Z 0) |}
          end).

(** *** [services/reservationService.ts] *)

Definition ACTIVE_RESERVATION_STATUSES : list ReservationStatus :=
  [DRAFT; CONFIRMED; CHECKED_IN].

Definition normalizeRatePlan (value : string) : Exn + string :=
  let allowed := ["BAR"; "CORPORATE"; "PACKAGE"] in
  if negb (includes String.eqb allowed value) then
    inl (HttpError 400 "Invalid rate plan")
  else inr value.

Definition normalizeSource (value : string) : Exn + string :=
  let allowed := ["DIRECT"; "OTA"; "CORPORATE"; "WALK_IN"] in
  if negb (includes String.eqb allowed value) then
    inl (HttpError 400 "Invalid reservation source")
  else inr value.

(** [Math.ceil(diff / MS_PER_DAY)] for an integer [diff]: the time values
    of two dates and their difference are integers, and the quotient is
    taken on the integers (the doubles give the same up to 2 ^ 26 days). *)
Definition ceil_days (diff : Z) : Z := (- ((- diff) / MS_PER_DAY))%Z.

(** With an invalid date [diff] is [NaN], [diff <= 0] is false and the
    result is [NaN]. *)
Definition nightsBetween (arrival departure : string) : Exn + num :=
  match toDate arrival, toDate departure with
  | Some start, Some end_ =>
      let diff := (end_ - start)%Z in
      if (diff <=? 0)%Z then inl (HttpError 400 "Departure must be after arrival")
      else inr (of_Z (ceil_days diff))
  | _, _ => inr NaN
  end.

Definition rangesOverlap (startA endA startB endB : string) : bool :=
  let aStart := toDate startA in
  let aEnd := toDate endA in
  let bStart := toDate startB in
  let bEnd := toDate endB in
  date_lt aStart bEnd && date_lt bStart aEnd.

(** [currency] defaults to ["INR"] when the argument is undefined. *)
Definition computeBilling (nightlyRate nights : num) (currency : option string)
  : ReservationBilling :=
  let currency := nullish currency "INR" in
  let base := nmul nightlyRate nights in
  {| b_currency := currency;
     b_totalAmount := base;
     b_balanceDue := base;
     b_charges :=
       [ {| rc_description :=
              numToString nights ++ " night(s) @ " ++ toFixed2 nightlyRate
              ++ " " ++ currency;
            rc_amount := base |} ] |}.

(** The callback of [reservations.find] in [ensureRoomAvailable]. *)
Definition conflicts (roomId arrivalDate departureDate : string)
    (reservationIdToIgnore : option string) (reservation : ReservationRecord) : bool :=
  if negb (truthy_ostr (r_roomId reservation)) then false
  else if negb (nullish (r_roomId reservation) "" =? roomId) then false
  else if truthy_ostr reservationIdToIgnore
          && (r_id reservation =? nullish reservationIdToIgnore "") then false
  else if negb (includes ReservationStatus_eqb ACTIVE_RESERVATION_STATUSES
                  (r_status reservation)) then false
  else rangesOverlap (r_arrivalDate reservation) (r_departureDate reservation)
         arrivalDate departureDate.

Definition ensureRoomAvailable (roomId arrivalDate departureDate : string)
    (reservationIdToIgnore : option string) : M unit :=
  reservations <- getAll reservationsTable ;;
  let conflicting :=
    find (conflicts roomId arrivalDate departureDate reservationIdToIgnore)
         reservations in
  match conflicting with
  | Some _ => throw (HttpError 409 "Room is not available for the selected dates")
  | None => ret tt
  end.

Definition ensureRoomBelongsToHotel (room : option RoomRecord) (hotelCode : string)
  : Exn + unit :=
  match room with
  | None => inl (HttpError 400 "Room does not belong to this property")
  | Some r =>
      if negb (rm_hotelCode r =? hotelCode) then
        inl (HttpError 400 "Room does not belong to this property")
      else inr tt
  end.

(** The [for] loop of [ensureAvailabilityForType]: a conflict is swallowed,
    a free room counted. *)
Fixpoint countAvailable (rooms : list RoomRecord) (arrivalDate departureDate : string)
    (reservationIdToIgnore : option string) (availableCount : nat) : M nat :=
  match rooms with
  | [] => ret availableCount
  | room :: rest =>
      n <- try_catch
             (ensureRoomAvailable (rm_id room) arrivalDate departureDate
                reservationIdToIgnore ;;
              ret (S availableCount))
             (fun _ => ret availableCount) ;;
      countAvailable rest arrivalDate departureDate reservationIdToIgnore n
  end.

Definition ensureAvailabilityForType (hotelCode roomType arrivalDate departureDate : string)
    (reservationIdToIgnore : option string) : M unit :=
  rooms <- getAll roomsTable ;;
  let relevantRooms :=
    filter (fun room => (rm_hotelCode room =? hotelCode) && (rm_type room =? roomType))
           rooms in
  if (List.length relevantRooms =? 0)%nat then
    throw (HttpError 400 "No rooms available for the specified type")
  else
    availableCount <- countAvailable relevantRooms arrivalDate departureDate
                        reservationIdToIgnore 0%nat ;;
    if (availableCount =? 0)%nat then
      throw (HttpError 409 "No availability for the requested room type and dates")
    else ret tt.

(** [toPayload] copies the record. *)
Definition toPayload (reservation : ReservationRecord) : ReservationRecord := reservation.

Definition getReservationById (id : string) : M (option ReservationRecord) :=
  record <- getById reservationsTable id ;;
  ret (option_map toPayload record).

Record UpdateReservationInput : Type := {
  in_roomId : option string;
  in_roomType : option string;
  in_status : option ReservationStatus;
  in_arrivalDate : option string;
  in_departureDate : option string;
  in_adults : option num;
  in_children : option num;
  in_nightlyRate : option num;
  in_ratePlan : option string;
  in_source : option string;
  in_otaReference : option string;
  in_isWalkIn : option bool;
  in_notes : option string;
  in_currency : option string
}.

Definition assertEditable (reservation : ReservationRecord) : Exn + unit :=
  match r_status reservation with
  | CHECKED_OUT => inl (HttpError 400 "Cannot modify a checked-out reservation")
  | _ => inr tt
  end.

Definition is_status (s : ReservationStatus) (o : option ReservationStatus) : bool :=
  match o with
  | Some x => ReservationStatus_eqb x s
  | None => false
  end.

Definition updateReservation (id : string) (input : UpdateReservationInput)
  : M ReservationRecord :=
  existing <- getById reservationsTable id ;;
  match existing with
  | None => throw (HttpError 404 "Reservation not found")
  | Some existing =>
      lift (assertEditable existing) ;;
      let arrivalDate := nullish (in_arrivalDate input) (r_arrivalDate existing) in
      let departureDate := nullish (in_departureDate input) (r_departureDate existing) in
      nights <- lift (nightsBetween arrivalDate departureDate) ;;
      let roomId := nullish_opt (in_roomId input) (r_roomId existing) in
      let roomType := nullish (in_roomType input) (r_roomType existing) in
      roomType <-
        (if truthy_ostr roomId then
           let roomId := nullish roomId "" in
           room <- getById roomsTable roomId ;;
           lift (ensureRoomBelongsToHotel room (r_hotelCode existing)) ;;
           match room with
           | None => ret roomType
           | Some room =>
               if truthy_ostr (in_roomType input)
                  && negb (rm_type room =? nullish (in_roomType input) "")
               then throw (HttpError 400 "Room type does not match selected room")
               else
                 ensureRoomAvailable roomId arrivalDate departureDate
                   (Some (r_id existing)) ;;
                 ret (rm_type room)
           end
         else
           ensureAvailabilityForType (r_hotelCode existing) roomType arrivalDate
             departureDate (Some (r_id existing)) ;;
           ret roomType) ;;
      ratePlan <- (if truthy_ostr (in_ratePlan input)
                   then lift (normalizeRatePlan (nullish (in_ratePlan input) ""))
                   else ret (r_ratePlan existing)) ;;
      source <- (if truthy_ostr (in_source input)
                 then lift (normalizeSource (nullish (in_source input) ""))
                 else ret (r_source existing)) ;;
      let billing :=
        computeBilling (nullish (in_nightlyRate input) (r_nightlyRate existing)) nights
          (Some (nullish (in_currency input) (b_currency (r_billing existing)))) in
      updatedAt <- now ;;
      checkInAt <- (if is_status CHECKED_IN (in_status input)
                       && negb (truthy_ostr (r_checkInAt existing))
                    then t <- now ;; ret (Some (Some t))
                    else ret None) ;;
      checkOutAt <- (if is_status CHECKED_OUT (in_status input)
                        && negb (truthy_ostr (r_checkOutAt existing))
                     then t <- now ;; ret (Some (Some t))
                     else ret None) ;;
      let updates :=
        {| u_hotelId := None;
           u_hotelCode := None;
           u_guestId := None;
           u_roomType := Some roomType;
           u_roomId := Some roomId;
           u_status := Some (nullish (in_status input) (r_status existing));
           u_arrivalDate := Some arrivalDate;
           u_departureDate := Some departureDate;
           u_adults := Some (nullish (in_adults input) (r_adults existing));
           u_children := Some (nullish (in_children input) (r_children existing));
           u_nightlyRate := Some (nullish (in_nightlyRate input) (r_nightlyRate existing));
           u_ratePlan := Some ratePlan;
           u_source := Some source;
           u_otaReference :=
             Some (nullish_opt (in_otaReference input) (r_otaReference existing));
           u_isWalkIn := Some (nullish (in_isWalkIn input) (r_isWalkIn existing));
           u_notes := Some (nullish_opt (in_notes input) (r_notes existing));
           u_billing := Some billing;
           u_checkInAt := checkInAt;
           u_checkOutAt := checkOutAt;
           u_createdAt := None;
           u_updatedAt := Some updatedAt |} in
      updated <- update reservationsTable id (fun e => mergeReservation e updates) ;;
      ret (toPayload updated)
  end.

Definition deleteReservation (id : string) : M unit :=
  existing <- getById reservationsTable id ;;
  match existing with
  | None => throw (HttpError 404 "Reservation not found")
  | Some existing =>
      match r_status existing with
      | CHECKED_IN | CHECKED_OUT =>
          throw (HttpError 400 "Cannot delete reservation during or after stay")
      | _ => delete reservationsTable id
      end
  end.

Record AvailabilityQuery : Type := {
  q_arrivalDate : string;
  q_departureDate : string;
  q_roomType : option string
}.

Record AvailabilityResponse : Type := {
  av_arrivalDate : string;
  av_departureDate : string;
  av_roomType : option string;
  av_availableRooms : list RoomRecord;
  av_totalAvailable : nat
}.

(** The [for] loop of [getAvailability]. *)
Fixpoint collectAvailable (rooms : list RoomRecord) (query : AvailabilityQuery)
    (availableRooms : list RoomRecord) : M (list RoomRecord) :=
  match rooms with
  | [] => ret availableRooms
  | room :: rest =>
      acc <- try_catch
               (ensureRoomAvailable (rm_id room) (q_arrivalDate query)
                  (q_departureDate query) None ;;
                ret ((availableRooms ++ [room])%list))
               (fun _ => ret availableRooms) ;;
      collectAvailable rest query acc
  end.

Definition getAvailability (hotelCode : string) (query : AvailabilityQuery)
  : M AvailabilityResponse :=
  rooms <- listRooms ;;
  let relevantRooms :=
    filter (fun room =>
              (rm_hotelCode room =? hotelCode)
              && (negb (truthy_ostr (q_roomType query))
                  || (rm_type room =? nullish (q_roomType query) "")))
           rooms in
  availableRooms <- collectAvailable relevantRooms query [] ;;
  ret {| av_arrivalDate := q_arrivalDate query;
         av_departureDate := q_departureDate query;
         av_roomType := q_roomType query;
         av_availableRooms := availableRooms;
         av_totalAvailable := List.length availableRooms |}.

(** *** [services/billingService.js] *)

Definition DEFAULT_FOLIO_NAME : string := "Primary".
Definition DEFAULT_CURRENCY : string := "INR".
Definition LATE_CHECKOUT_RATE : num := of_Q (25 # 100).

(** [new Date(value).toISOString().split("T")[0]]; [toISOString] throws a
    [RangeError] on an Invalid Date. *)
Definition toISODate (value : string) : Exn + string :=
  match toDate value with
  | Some t => inr (split_head "T" (toISOString t))
  | None => inl (JsError "Invalid time value")
  end.

(** The [while (cursor < end)] loop of [enumerateStayNights];
    [setUTCDate(getUTCDate() + 1)] moves the cursor by one day. *)
Fixpoint stayNightsFrom (fuel : nat) (cursor end_ : Z) : list string :=
  match fuel with
  | O => []
  | S fuel' =>
      if (cursor <? end_)%Z then
        split_head "T" (toISOString cursor)
          :: stayNightsFrom fuel' (cursor + MS_PER_DAY)%Z end_
      else []
  end.

Definition enumerateStayNights (arrival departure : string) : list string :=
  match toDate arrival, toDate departure with
  | Some start, Some end_ =>
      if negb (start <? end_)%Z then []
      else stayNightsFrom (Z.to_nat (ceil_days (end_ - start))) start end_
  | _, _ => []
  end.

Record TaxResult : Type := {
  tr_taxAmount : num;
  tr_totalAmount : num;
  tr_gstPercent : num
}.

Definition calculateTax (hotelCode : string) (amount : num) : M TaxResult :=
  taxes <- getTaxConfig ;;
  let gstPercent :=
    match taxes with
    | Some t => nadd (tc_cgst t) (tc_sgst t)
    | None => of_Z 0
    end in
  let taxAmount := roundCurrency (nmul amount (ndiv100 gstPercent)) in
  let totalAmount := roundCurrency (nadd amount taxAmount) in
  ret {| tr_taxAmount := taxAmount; tr_totalAmount := totalAmount;
         tr_gstPercent := gstPercent |}.

Definition ensureDefaultFolio (timestamp : string) : M Folio :=
  id <- nanoid ;;
  ret {| f_id := id; f_name := DEFAULT_FOLIO_NAME; f_createdAt := timestamp;
         f_updatedAt := timestamp |}.

Definition ensureBillForReservation (reservation : ReservationRecord) : M BillRecord :=
  bills <- getAll billsTable ;;
  match find (fun bill => bl_reservationId bill =? r_id reservation) bills with
  | Some existing => ret existing
  | None =>
      timestamp <- now ;;
      folio <- ensureDefaultFolio timestamp ;;
      insert billsTable None
        (fun id =>
           {| bl_id := id;
              bl_hotelId := r_hotelId reservation;
              bl_hotelCode := r_hotelCode reservation;
              bl_reservationId := r_id reservation;
              bl_folios := [folio];
              bl_charges := [];
              bl_createdAt := timestamp;
              bl_updatedAt := timestamp |})
  end.

Definition resolveReservation (reservationId : string) : M ReservationRecord :=
  reservation <- getById reservationsTable reservationId ;;
  match reservation with
  | None => throw (HttpError 404 "Reservation not found")
  | Some r => ret r
  end.

Definition resolveFolio (bill : BillRecord) (folioId folioName : option string)
  : M (BillRecord * string) :=
  if truthy_ostr folioId then
    let folioId := nullish folioId "" in
    match find (fun folio => f_id folio =? folioId) (bl_folios bill) with
    | None => throw (HttpError 404 "Folio not found")
    | Some _ => ret (bill, folioId)
    end
  else if truthy_ostr folioName then
    let folioName := nullish folioName "" in
    match find (fun folio => toLowerCase (f_name folio) =? toLowerCase folioName)
               (bl_folios bill) with
    | Some match_ => ret (bill, f_id match_)
    | None =>
        timestamp <- now ;;
        id <- nanoid ;;
        let newFolio :=
          {| f_id := id; f_name := folioName; f_createdAt := timestamp;
             f_updatedAt := timestamp |} in
        updated <- update billsTable (bl_id bill)
                     (fun e => mergeBill e
                        {| bu_folios := Some ((bl_folios bill ++ [newFolio])%list);
                           bu_charges := None;
                           bu_updatedAt := Some timestamp |}) ;;
        ret (updated, f_id newFolio)
    end
  else
    match bl_folios bill with
    | [] =>
        timestamp <- now ;;
        newFolio <- ensureDefaultFolio timestamp ;;
        updated <- update billsTable (bl_id bill)
                     (fun e => mergeBill e
                        {| bu_folios := Some [newFolio];
                           bu_charges := None;
                           bu_updatedAt := Some timestamp |}) ;;
        ret (updated, f_id newFolio)
    | defaultFolio :: _ => ret (bill, f_id defaultFolio)
    end.

Definition getPaymentsForReservation (reservationId : string) : M (list PaymentRecord) :=
  payments <- getAll paymentsTable ;;
  ret (filter (fun payment => p_reservationId payment =? reservationId) payments).

Record BillTotals : Type := {
  subTotal : num;
  taxTotal : num;
  grandTotal : num;
  paymentsTotal : num;
  balanceDue : num
}.

Definition computeTotals (bill : BillRecord) (payments : list PaymentRecord) : BillTotals :=
  let subTotal := roundCurrency (reduce_sum bc_amount (bl_charges bill)) in
  let taxTotal := roundCurrency (reduce_sum bc_taxAmount (bl_charges bill)) in
  let grandTotal := roundCurrency (reduce_sum bc_totalAmount (bl_charges bill)) in
  let paymentsTotal := roundCurrency (reduce_sum p_amount payments) in
  let balanceDue := roundCurrency (nsub grandTotal paymentsTotal) in
  {| subTotal := subTotal; taxTotal := taxTotal; grandTotal := grandTotal;
     paymentsTotal := paymentsTotal; balanceDue := balanceDue |}.

Record BillSummary : Type := {
  bs_bill : BillRecord;
  bs_payments : list PaymentRecord;
  bs_totals : BillTotals;
  (** [addedCharges], [addedCharge] or [newPayments], when the operation
      reports them *)
  bs_addedCharges : option (list BillCharge);
  bs_newPayments : option (list PaymentRecord)
}.

Definition toBillSummary (bill : BillRecord) (reservation : ReservationRecord)
  : M BillSummary :=
  payments <- getPaymentsForReservation (r_id reservation) ;;
  let totals := computeTotals bill payments in
  ret {| bs_bill := bill; bs_payments := payments; bs_totals := totals;
         bs_addedCharges := None; bs_newPayments := None |}.

(** The [billing] object [syncReservationBilling] writes. *)
Definition billingSnapshot (currency : string) (totals : BillTotals) (bill : BillRecord)
  : ReservationBilling :=
  {| b_currency := currency;
     b_totalAmount := grandTotal totals;
     b_balanceDue := balanceDue totals;
     b_charges :=
       map (fun charge =>
              {| rc_description := bc_description charge;
                 rc_amount := bc_totalAmount charge |})
           (bl_charges bill) |}.

Definition billingUpdate (billing : ReservationBilling) : ReservationUpdates :=
  {| u_hotelId := None; u_hotelCode := None; u_guestId := None; u_roomType := None;
     u_roomId := None; u_status := None; u_arrivalDate := None;
     u_departureDate := None; u_adults := None; u_children := None;
     u_nightlyRate := None; u_ratePlan := None; u_source := None;
     u_otaReference := None; u_isWalkIn := None; u_notes := None;
     u_billing := Some billing; u_checkInAt := None; u_checkOutAt := None;
     u_createdAt := None; u_updatedAt := None |}.

Definition syncReservationBilling (reservation : ReservationRecord) (bill : BillRecord)
  : M BillTotals :=
  payments <- getPaymentsForReservation (r_id reservation) ;;
  let totals := computeTotals bill payments in
  let currency := b_currency (r_billing reservation) in
  update reservationsTable (r_id reservation)
    (fun e => mergeReservation e (billingUpdate (billingSnapshot currency totals bill))) ;;
  ret totals.

(** [nights.forEach]: the first night outside the stay throws. *)
Fixpoint ensureDatesWithinStay (nights stayNights : list string) : Exn + unit :=
  match nights with
  | [] => inr tt
  | night :: rest =>
      if negb (includes String.eqb stayNights night) then
        inl (HttpError 400 ("Night " ++ night ++ " is outside the reservation stay"))
      else ensureDatesWithinStay rest stayNights
  end.

Definition isRoomChargeFor (date : string) (charge : BillCharge) : bool :=
  let metadata := nullish (bc_metadata charge) [] in
  match obj_get "nightDate" metadata with
  | Some (JStr d) => (d =? date) && ChargeType_eqb (bc_type charge) ROOM
  | _ => false
  end.

Definition hasRoomChargeForDate (bill : BillRecord) (date : string) : bool :=
  existsb (isRoomChargeFor date) (bl_charges bill).

Record RoomChargeInput : Type := {
  rci_reservationId : string;
  rci_dates : option (list string);
  rci_folioId : option string;
  rci_folioName : option string;
  rci_nightlyRate : option num
}.

(** [input.dates.map(toISODate)] *)
Fixpoint mapToISODate (dates : list string) : Exn + list string :=
  match dates with
  | [] => inr []
  | d :: rest =>
      match toISODate d with
      | inl e => inl e
      | inr x =>
          match mapToISODate rest with
          | inl e => inl e
          | inr xs => inr (x :: xs)
          end
      end
  end.

(** [input.dates?.length ? input.dates.map(toISODate) : stayNights] *)
Definition targetNightsFor (input : RoomChargeInput) (stayNights : list string)
  : Exn + list string :=
  match rci_dates input with
  | Some (d :: ds) => mapToISODate (d :: ds)
  | _ => inr stayNights
  end.

(** The [for (const night of targetNights)] loop of [postRoomCharges]. *)
Fixpoint collectRoomCharges (targetNights : list string) (resolvedBill : BillRecord)
    (folioId : string) (input : RoomChargeInput) (reservation : ReservationRecord)
    (newCharges : list BillCharge) : M (list BillCharge) :=
  match targetNights with
  | [] => ret newCharges
  | night :: rest =>
      acc <-
        (if negb (hasRoomChargeForDate resolvedBill night) then
           let baseAmount := nullish (rci_nightlyRate input) (r_nightlyRate reservation) in
           tax <- calculateTax (r_hotelCode reservation) baseAmount ;;
           id <- nanoid ;;
           postedAt <- now ;;
           ret ((newCharges ++
                 [ {| bc_id := id;
                      bc_folioId := folioId;
                      bc_type := ROOM;
                      bc_description := "Room charge for " ++ night;
                      bc_amount := baseAmount;
                      bc_taxAmount := tr_taxAmount tax;
                      bc_totalAmount := tr_totalAmount tax;
                      bc_postedAt := postedAt;
                      bc_metadata :=
                        Some [ ("nightDate", JStr night);
                               ("rate", JNum baseAmount);
                               ("gstPercent", JNum (tr_gstPercent tax)) ] |} ])%list)
         else ret newCharges) ;;
      collectRoomCharges rest resolvedBill folioId input reservation acc
  end.

Definition postRoomCharges (input : RoomChargeInput) : M BillSummary :=
  reservation <- resolveReservation (rci_reservationId input) ;;
  bill <- ensureBillForReservation reservation ;;
  let stayNights :=
    enumerateStayNights (r_arrivalDate reservation) (r_departureDate reservation) in
  if (List.length stayNights =? 0)%nat then
    throw (HttpError 400 "Reservation does not span an overnight stay")
  else
    targetNights <- lift (targetNightsFor input stayNights) ;;
    lift (ensureDatesWithinStay targetNights stayNights) ;;
    resolved <- resolveFolio bill (rci_folioId input) (rci_folioName input) ;;
    let resolvedBill := fst resolved in
    let folioId := snd resolved in
    newCharges <- collectRoomCharges targetNights resolvedBill folioId input
                    reservation [] ;;
    if (List.length newCharges =? 0)%nat then toBillSummary resolvedBill reservation
    else
      updatedAt <- now ;;
      updated <- update billsTable (bl_id resolvedBill)
                   (fun e => mergeBill e
                      {| bu_folios := None;
                         bu_charges := Some ((bl_charges resolvedBill ++ newCharges)%list);
                         bu_updatedAt := Some updatedAt |}) ;;
      totals <- syncReservationBilling reservation updated ;;
      payments <- getPaymentsForReservation (r_id reservation) ;;
      ret {| bs_bill := updated; bs_payments := payments; bs_totals := totals;
             bs_addedCharges := Some newCharges; bs_newPayments := None |}.

Record AddonChargeInput : Type := {
  aci_reservationId : string;
  aci_description : string;
  aci_amount : num;
  aci_quantity : option num;
  aci_folioId : option string;
  aci_folioName : option string;
  aci_metadata : option jsobject
}.

Definition addAddonCharge (input : AddonChargeInput) : M BillSummary :=
  if nle0 (aci_amount input) then
    throw (HttpError 400 "Amount must be greater than zero")
  else
    reservation <- resolveReservation (aci_reservationId input) ;;
    bill <- ensureBillForReservation reservation ;;
    resolved <- resolveFolio bill (aci_folioId input) (aci_folioName input) ;;
    let resolvedBill := fst resolved in
    let folioId := snd resolved in
    let quantity :=
      match aci_quantity input with
      | Some q => if ntruthy q && ngt0 q then q else of_Z 1
      | None => of_Z 1
      end in
    let baseAmount := nmul (aci_amount input) quantity in
    tax <- calculateTax (r_hotelCode reservation) baseAmount ;;
    id <- nanoid ;;
    postedAt <- now ;;
    let charge :=
      {| bc_id := id;
         bc_folioId := folioId;
         bc_type := ADDON;
         bc_description := aci_description input;
         bc_amount := baseAmount;
         bc_taxAmount := tr_taxAmount tax;
         bc_totalAmount := tr_totalAmount tax;
         bc_postedAt := postedAt;
         bc_metadata :=
           Some (obj_spread [ ("quantity", JNum quantity);
                              ("gstPercent", JNum (tr_gstPercent tax)) ]
                            (nullish (aci_metadata input) [])) |} in
    updatedAt <- now ;;
    updated <- update billsTable (bl_id resolvedBill)
                 (fun e => mergeBill e
                    {| bu_folios := None;
                       bu_charges := Some ((bl_charges resolvedBill ++ [charge])%list);
                       bu_updatedAt := Some updatedAt |}) ;;
    totals <- syncReservationBilling reservation updated ;;
    payments <- getPaymentsForReservation (r_id reservation) ;;
    ret {| bs_bill := updated; bs_payments := payments; bs_totals := totals;
           bs_addedCharges := Some [charge]; bs_newPayments := None |}.

Definition getBillSummary (reservationId : string) : M BillSummary :=
  reservation <- resolveReservation reservationId ;;
  bill <- ensureBillForReservation reservation ;;
  toBillSummary bill reservation.

Record SettlementPaymentInput : Type := {
  spi_amount : num;
  spi_mode : PaymentMode;
  spi_reference : option string;
  spi_folioId : option string;
  spi_folioName : option string;
  spi_currency : option string;
  spi_metadata : option jsobject
}.

Record SettleBillInput : Type := {
  sbi_reservationId : string;
  sbi_payments : list SettlementPaymentInput
}.

(** The [for (const payment of input.payments)] loop of [settleBill]: the
    amount is tested, the folio resolved and the payment inserted, one
    payment after the other. *)
Fixpoint recordPayments (payments : list SettlementPaymentInput)
    (reservation : ReservationRecord) (currentBill : BillRecord)
    (createdPayments : list PaymentRecord) : M (BillRecord * list PaymentRecord) :=
  match payments with
  | [] => ret (currentBill, createdPayments)
  | payment :: rest =>
      if nle0 (spi_amount payment) then
        throw (HttpError 400 "Payment amount must be greater than zero")
      else
        resolved <- resolveFolio currentBill (spi_folioId payment)
                      (spi_folioName payment) ;;
        let currentBill := fst resolved in
        let folioId := snd resolved in
        receivedAt <- now ;;
        createdAt <- now ;;
        updatedAt <- now ;;
        inserted <- insert paymentsTable None
                      (fun id =>
                         {| p_id := id;
                            p_hotelId := r_hotelId reservation;
                            p_hotelCode := r_hotelCode reservation;
                            p_reservationId := r_id reservation;
                            p_folioId := folioId;
                            p_amount := roundCurrency (spi_amount payment);
                            p_currency :=
                              nullish (spi_currency payment)
                                (b_currency (r_billing reservation));
                            p_mode := spi_mode payment;
                            p_reference := spi_reference payment;
                            p_receivedAt := receivedAt;
                            p_metadata := spi_metadata payment;
                            p_createdAt := createdAt;
                            p_updatedAt := updatedAt |}) ;;
        recordPayments rest reservation currentBill
          ((createdPayments ++ [inserted])%list)
  end.

Definition settleBill (input : SettleBillInput) : M BillSummary :=
  if (List.length (sbi_payments input) =? 0)%nat then
    throw (HttpError 400 "No payments provided")
  else
    reservation <- resolveReservation (sbi_reservationId input) ;;
    bill <- ensureBillForReservation reservation ;;
    recorded <- recordPayments (sbi_payments input) reservation bill [] ;;
    let currentBill := fst recorded in
    let createdPayments := snd recorded in
    totals <- syncReservationBilling reservation currentBill ;;
    payments <- getPaymentsForReservation (r_id reservation) ;;
    ret {| bs_bill := currentBill; bs_payments := payments; bs_totals := totals;
           bs_addedCharges := None; bs_newPayments := Some createdPayments |}.

Record SettlementOptions : Type := {
  so_lateCheckout : option bool;
  so_extraCharges : option (list ReservationCharge)
}.

Record SettlementResult : Type := {
  sr_billing : ReservationBilling
}.

Definition settleReservation (reservation : ReservationRecord)
    (options : SettlementOptions) : SettlementResult :=
  let charges := b_charges (r_billing reservation) in
  let charges :=
    if nullish (so_lateCheckout options) false then
      let lateFee :=
        roundCurrency (nmul (b_totalAmount (r_billing reservation)) LATE_CHECKOUT_RATE) in
      (charges ++ [ {| rc_description := "Late checkout fee"; rc_amount := lateFee |} ])%list
    else charges in
  let charges :=
    match so_extraCharges options with
    | Some extraCharges => (charges ++ extraCharges)%list
    | None => charges
    end in
  let totalAmount := reduce_sum rc_amount charges in
  {| sr_billing :=
       {| b_currency := b_currency (r_billing reservation);
          b_totalAmount := totalAmount;
          b_balanceDue := of_Z 0;
          b_charges := charges |} |}.

(** *** [services/checkinService.ts] *)

Definition getReservationOrThrow (reservationId : string) : M ReservationRecord :=
  reservation <- getById reservationsTable reservationId ;;
  match reservation with
  | None => throw (HttpError 404 "Reservation not found")
  | Some r => ret r
  end.

Definition getRoomOrThrow (roomId : string) : M RoomRecord :=
  room <- getById roomsTable roomId ;;
  match room with
  | None => throw (HttpError 404 "Room not found")
  | Some r => ret r
  end.

Definition assignRoom (reservationId roomId : string) : M ReservationRecord :=
  reservation <- getReservationOrThrow reservationId ;;
  room <- getRoomOrThrow roomId ;;
  lift (ensureRoomBelongsToHotel (Some room) (r_hotelCode reservation)) ;;
  ensureRoomAvailable (rm_id room) (r_arrivalDate reservation)
    (r_departureDate reservation) (Some (r_id reservation)) ;;
  updatedAt <- now ;;
  update reservationsTable (r_id reservation)
    (fun e => mergeReservation e
       {| u_hotelId := None; u_hotelCode := None; u_guestId := None;
          u_roomType := Some (rm_type room);
          u_roomId := Some (Some (rm_id room));
          u_status := None; u_arrivalDate := None; u_departureDate := None;
          u_adults := None; u_children := None; u_nightlyRate := None;
          u_ratePlan := None; u_source := None; u_otaReference := None;
          u_isWalkIn := None; u_notes := None; u_billing := None;
          u_checkInAt := None; u_checkOutAt := None; u_createdAt := None;
          u_updatedAt := Some updatedAt |}) ;;
  payload <- getReservationById (r_id reservation) ;;
  match payload with
  | None => throw (HttpError 500 "Unable to load updated reservation")
  | Some p => ret p
  end.

Record CheckInInput : Type := {
  ci_reservationId : string;
  ci_roomId : option string
}.

Definition checkIn (input : CheckInInput) : M ReservationRecord :=
  reservation <- getReservationOrThrow (ci_reservationId input) ;;
  if negb (includes ReservationStatus_eqb [CONFIRMED; DRAFT] (r_status reservation)) then
    throw (HttpError 400 "Reservation cannot be checked in from current status")
  else
    let roomId := nullish_opt (ci_roomId input) (r_roomId reservation) in
    if negb (truthy_ostr roomId) then
      throw (HttpError 400 "Room assignment is required for check-in")
    else
      room <- getRoomOrThrow (nullish roomId "") ;;
      lift (ensureRoomBelongsToHotel (Some room) (r_hotelCode reservation)) ;;
      ensureRoomAvailable (rm_id room) (r_arrivalDate reservation)
        (r_departureDate reservation) (Some (r_id reservation)) ;;
      timestamp <- now ;;
      let previousReservation := spreadReservation reservation in
      update reservationsTable (r_id reservation)
        (fun e => mergeReservation e
           {| u_hotelId := None; u_hotelCode := None; u_guestId := None;
              u_roomType := Some (rm_type room);
              u_roomId := Some (Some (rm_id room));
              u_status := Some CHECKED_IN;
              u_arrivalDate := None; u_departureDate := None;
              u_adults := None; u_children := None; u_nightlyRate := None;
              u_ratePlan := None; u_source := None; u_otaReference := None;
              u_isWalkIn := None; u_notes := None; u_billing := None;
              u_checkInAt := Some (Some timestamp);
              u_checkOutAt := None; u_createdAt := None;
              u_updatedAt := Some timestamp |}) ;;
      try_catch
        (update roomsTable (rm_id room)
           (fun e => mergeRoom e
              {| ru_status := Some OCCUPIED; ru_updatedAt := Some timestamp |}) ;;
         ret tt)
        (fun error =>
           update reservationsTable (r_id reservation)
             (fun e => mergeReservation e previousReservation) ;;
           throw error) ;;
      payload <- getReservationById (r_id reservation) ;;
      match payload with
      | None => throw (HttpError 500 "Unable to load updated reservation")
      | Some p => ret p
      end.

Record CheckOutInput : Type := {
  co_reservationId : string;
  co_lateCheckout : option bool;
  co_extraCharges : option (list ReservationCharge)
}.

Record CheckOutResult : Type := {
  cr_reservation : ReservationRecord;
  cr_settlement : SettlementResult;
  cr_nights : num
}.

Definition checkOut (input : CheckOutInput) : M CheckOutResult :=
  reservation <- getReservationOrThrow (co_reservationId input) ;;
  if negb (ReservationStatus_eqb (r_status reservation) CHECKED_IN) then
    throw (HttpError 400 "Reservation is not currently checked in")
  else if negb (truthy_ostr (r_roomId reservation)) then
    throw (HttpError 400 "Reservation does not have an assigned room")
  else
    room <- getRoomOrThrow (nullish (r_roomId reservation) "") ;;
    nights <- lift (nightsBetween (r_arrivalDate reservation)
                      (r_departureDate reservation)) ;;
    let settlement :=
      settleReservation reservation
        {| so_lateCheckout := co_lateCheckout input;
           so_extraCharges := co_extraCharges input |} in
    timestamp <- now ;;
    let previousReservation := spreadReservation reservation in
    update reservationsTable (r_id reservation)
      (fun e => mergeReservation e
         {| u_hotelId := None; u_hotelCode := None; u_guestId := None;
            u_roomType := None; u_roomId := None;
            u_status := Some CHECKED_OUT;
            u_arrivalDate := None; u_departureDate := None;
            u_adults := None; u_children := None; u_nightlyRate := None;
            u_ratePlan := None; u_source := None; u_otaReference := None;
            u_isWalkIn := None; u_notes := None;
            u_billing := Some (sr_billing settlement);
            u_checkInAt := None;
            u_checkOutAt := Some (Some timestamp);
            u_createdAt := None;
            u_updatedAt := Some timestamp |}) ;;
    try_catch
      (update roomsTable (rm_id room)
         (fun e => mergeRoom e
            {| ru_status := Some DIRTY; ru_updatedAt := Some timestamp |}) ;;
       ret tt)
      (fun error =>
         update reservationsTable (r_id reservation)
           (fun e => mergeReservation e previousReservation) ;;
         throw error) ;;
    payload <- getReservationById (r_id reservation) ;;
    match payload with
    | None => throw (HttpError 500 "Unable to load updated reservation")
    | Some p =>
        ret {| cr_reservation := p; cr_settlement := settlement; cr_nights := nights |}
    end.
End Services.

(** ** A concrete runtime

    Date-only ISO strings ([YYYY-MM-DD], read as UTC midnight, every other
    string an Invalid Date), a clock that ticks with every call, and
    identifiers numbered in the order of their creation.  The examples and
    the evaluations below run on it. *)

Module Runtime.

Definition digit_val (c : ascii) : option Z :=
  let n := Z.of_nat (nat_of_ascii c) in
  if ((48 <=? n) && (n <=? 57))%Z then Some (n - 48)%Z else None.

Fixpoint digits_val (s : string) (acc : Z) : option Z :=
  match s with
  | EmptyString => Some acc
  | String c rest =>
      match digit_val c with
      | Some d => digits_val rest (10 * acc + d)%Z
      | None => None
      end
  end.

(** Days since 1970-01-01 of a civil date. *)
Definition days_from_civil (y m d : Z) : Z :=
  let y' := (if m <=? 2 then y - 1 else y)%Z in
  let era := (y' / 400)%Z in
  let yoe := (y' - era * 400)%Z in
  let doy := ((153 * (if 2 <? m then m - 3 else m + 9) + 2) / 5 + d - 1)%Z in
  let doe := (yoe * 365 + yoe / 4 - yoe / 100 + doy)%Z in
  (era * 146097 + doe - 719468)%Z.

Definition civil_from_days (z : Z) : Z * Z * Z :=
  let z := (z + 719468)%Z in
  let era := (z / 146097)%Z in
  let doe := (z - era * 146097)%Z in
  let yoe := ((doe - doe / 1460 + doe / 36524 - doe / 146096) / 365)%Z in
  let doy := (doe - (365 * yoe + yoe / 4 - yoe / 100))%Z in
  let mp := ((5 * doy + 2) / 153)%Z in
  let d := (doy - (153 * mp + 2) / 5 + 1)%Z in
  let m := (if mp <? 10 then mp + 3 else mp - 9)%Z in
  let y := (yoe + era * 400 + (if m <=? 2 then 1 else 0))%Z in
  (y, m, d).

Definition parseDate (s : string) : option Z :=
  if negb (String.length s =? 10)%nat then None
  else if negb ((substring 4 1 s =? "-") && (substring 7 1 s =? "-")) then None
  else
    match digits_val (substring 0 4 s) 0, digits_val (substring 5 2 s) 0,
          digits_val (substring 8 2 s) 0 with
    | Some y, Some m, Some d =>
        if ((1 <=? m) && (m <=? 12) && (1 <=? d) && (d <=? 31))%Z
        then Some (days_from_civil y m d * MS_PER_DAY)%Z
        else None
    | _, _, _ => None
    end.

Definition showZ (z : Z) : string := NilZero.string_of_int (Z.to_int z).

Definition pad (width : nat) (z : Z) : string :=
  let s := showZ z in
  (fix zeros (n : nat) : string :=
     match n with
     | O => s
     | S n' => String "0"%char (zeros n')
     end) (width - String.length s)%nat.

Definition printDate (t : Z) : string :=
  let '(y, m, d) := civil_from_days (t / MS_PER_DAY) in
  let ms := (t mod MS_PER_DAY)%Z in
  pad 4 y ++ "-" ++ pad 2 m ++ "-" ++ pad 2 d ++ "T"
    ++ pad 2 (ms / 3600000) ++ ":" ++ pad 2 ((ms / 60000) mod 60) ++ ":"
    ++ pad 2 ((ms / 1000) mod 60) ++ "." ++ pad 3 (ms mod 1000) ++ "Z".

Definition showNum (n : num) : string :=
  match dbl n with
  | NaN => "NaN"
  | Inf s => if s then "-Infinity" else "Infinity"
  | Fin q =>
      if (Zpos (Qden (Qred q)) =? 1)%Z then showZ (Qnum (Qred q))
      else showZ (Qnum (Qred q)) ++ "/" ++ showZ (Zpos (Qden (Qred q)))
  end.

Definition showFixed2 (n : num) : string :=
  match dbl n with
  | NaN => "NaN"
  | Inf s => if s then "-Infinity" else "Infinity"
  | Fin q =>
      let c := Qfloor (Qabs q * 100 + (1 # 2)) in
      (if Qle_bool 0 q then "" else "-")
        ++ showZ (c / 100) ++ "." ++ pad 2 (c mod 100)
  end.

Definition lower (c : ascii) : ascii :=
  let n := nat_of_ascii c in
  if ((65 <=? n) && (n <=? 90))%nat then ascii_of_nat (n + 32) else c.

Fixpoint lowerCase (s : string) : string :=
  match s with
  | EmptyString => EmptyString
  | String c rest => String (lower c) (lowerCase rest)
  end.

Definition platform : Platform :=
  {| toDate := parseDate;
     toISOString := printDate;
     clockAt := fun n => "T" ++ showZ (Z.of_nat n);
     nanoidAt := fun n => "id" ++ showZ (Z.of_nat n);
     numToString := showNum;
     toFixed2 := showFixed2;
     toLowerCase := lowerCase |}.

End Runtime.

(** ** A small hotel

    Room 101 of type DLX at hotel H1, and a reservation for it of three nights
    at 7500, 2026-01-01 to 2026-01-04, with a combined GST of 12 percent. *)

Module Hotel.

Definition room (id number : string) (status : RoomStatus) : RoomRecord :=
  {| rm_id := id; rm_hotelId := "h1"; rm_hotelCode := "H1"; rm_number := number;
     rm_name := "Deluxe " ++ number; rm_type := "DLX"; rm_roomTypeId := "rt1";
     rm_status := status; rm_rate := of_Z 7500; rm_floor := None;
     rm_floorId := None; rm_buildingId := None; rm_amenities := Some [];
     rm_maxOccupancy := Some (of_Z 2); rm_hasExtraBed := Some false;
     rm_isActive := Some true; rm_createdAt := "T"; rm_updatedAt := "T" |}.

Definition booking (id : string) (roomId : option string) (status : ReservationStatus)
    (arrival departure : string) : ReservationRecord :=
  {| r_id := id; r_hotelId := "h1"; r_hotelCode := "H1"; r_guestId := "g1";
     r_roomType := "DLX"; r_roomId := roomId; r_status := status;
     r_arrivalDate := arrival; r_departureDate := departure;
     r_adults := of_Z 2; r_children := of_Z 0; r_nightlyRate := of_Z 7500;
     r_ratePlan := "BAR"; r_source := "DIRECT"; r_otaReference := None;
     r_isWalkIn := false; r_notes := None;
     r_billing :=
       {| b_currency := "INR"; b_totalAmount := of_Z 22500;
          b_balanceDue := of_Z 22500;
          b_charges :=
            [ {| rc_description := "3 night(s) @ 7500.00 INR";
                 rc_amount := of_Z 22500 |} ] |};
     r_checkInAt := None; r_checkOutAt := None;
     r_createdAt := "T"; r_updatedAt := "T" |}.

Definition profile : PropertyProfile :=
  {| pp_id := "p1"; pp_hotelId := "h1"; pp_hotelCode := "H1"; pp_name := "Hotel One" |}.

Definition gst12 : TaxRecord :=
  {| tx_id := "t1"; tx_hotelCode := "H1"; tx_gstEnabled := Some true;
     tx_cgst := Some (of_Z 6); tx_sgst := Some (of_Z 6); tx_igst := None;
     tx_serviceChargeEnabled := None; tx_serviceChargePercentage := None;
     tx_luxuryTaxEnabled := None; tx_luxuryTaxPercentage := None |}.

Definition store (reservations : list ReservationRecord) (rooms : list RoomRecord)
    (faults : list bool) : Store :=
  {| st_reservations := reservations; st_rooms := rooms; st_bills := [];
     st_payments := []; st_property := [profile]; st_taxes := [gst12];
     st_tick := 0; st_faults := faults |}.

Definition stay : ReservationRecord :=
  booking "res1" (Some "101") CONFIRMED "2026-01-01" "2026-01-04".


Definition fresh : Store := store [stay] [room "101" "101" AVAILABLE] [].

Definition allNights : RoomChargeInput :=
  {| rci_reservationId := "res1"; rci_dates := None; rci_folioId := None;
     rci_folioName := None; rci_nightlyRate := None |}.

Definition payment (amount : Z) (mode : PaymentMode) : SettlementPaymentInput :=
  {| spi_amount := of_Z amount; spi_mode := mode; spi_reference := None;
     spi_folioId := None; spi_folioName := None; spi_currency := None;
     spi_metadata := None |}.

Definition settlement (payments : list SettlementPaymentInput) : SettleBillInput :=
  {| sbi_reservationId := "res1"; sbi_payments := payments |}.

(** The store once the three nights are posted ... *)
Definition posted : Store :=
  fst (postRoomCharges (P := Runtime.platform) allNights fresh).

(** ... and paid by card. *)
Definition settled : Store :=
  fst (settleBill (P := Runtime.platform) (settlement [payment 25200 CARD]) posted).

(** An update that changes nothing. *)
Definition noChange : UpdateReservationInput :=
  {| in_roomId := None; in_roomType := None; in_status := None;
     in_arrivalDate := None; in_departureDate := None; in_adults := None;
     in_children := None; in_nightlyRate := None; in_ratePlan := None;
     in_source := None; in_otaReference := None; in_isWalkIn := None;
     in_notes := None; in_currency := None |}.

(** The same stay booked by room type, without a room. *)
Definition stayByType : ReservationRecord :=
  booking "res1" None CONFIRMED "2026-01-01" "2026-01-04".

(** The guest in the house. *)
Definition inHouse : ReservationRecord :=
  booking "res1" (Some "101") CHECKED_IN "2026-01-01" "2026-01-04".

(** A disk that takes the first write and fails the second. *)
Definition secondWriteFails : list bool := [false; true].

End Hotel.

(** ** Vocabulary of the specification *)

Section Vocabulary.
Context {P : Platform}.

(** A reservation occupies inventory in these three statuses. *)
Definition Active (status : ReservationStatus) : Prop :=
  status = DRAFT \/ status = CONFIRMED \/ status = CHECKED_IN.

(** [a < b] for two dates that both are valid. *)
Definition Before (a b : option Z) : Prop :=
  exists x y, a = Some x /\ b = Some y /\ (x < y)%Z.

(** Half-open overlap of [startA, endA) and [startB, endB). *)
Definition Overlap (startA endA startB endB : string) : Prop :=
  Before (toDate startA) (toDate endB) /\ Before (toDate startB) (toDate endA).

(** The reservation [r] stands against selling room [roomId] for
    [arrivalDate, departureDate), [excluded] left aside. *)
Definition Conflict (roomId arrivalDate departureDate : string)
    (excluded : option string) (r : ReservationRecord) : Prop :=
  r_roomId r = Some roomId
  /\ excluded <> Some (r_id r)
  /\ Active (r_status r)
  /\ Overlap (r_arrivalDate r) (r_departureDate r) arrivalDate departureDate.

Definition RoomUnavailable : Exn :=
  HttpError 409 "Room is not available for the selected dates".

(** A reservation booked by room type only. *)
Definition byTypeOnly (r : ReservationRecord) : bool :=
  match r_roomId r with
  | None => true
  | Some _ => false
  end.

(** The store without the reservations booked by room type only. *)
Definition withoutTypeOnly (s : Store) : Store :=
  set_reservations (filter (fun r => negb (byTypeOnly r)) (st_reservations s)) s.

(** The rooms [getAvailability] keeps out of [rooms]. *)
Definition freeRooms (query : AvailabilityQuery) (reservations : list ReservationRecord)
    (rooms : list RoomRecord) : list RoomRecord :=
  filter (fun room =>
            negb (existsb (conflicts (rm_id room) (q_arrivalDate query)
                             (q_departureDate query) None) reservations))
         rooms.

(** The room-status table, row by row. *)
Definition InTable (current next : RoomStatus) : Prop :=
  match current with
  | AVAILABLE => next = OCCUPIED \/ next = DIRTY \/ next = OUT_OF_ORDER
  | OCCUPIED => next = DIRTY
  | DIRTY => next = AVAILABLE \/ next = OUT_OF_ORDER
  | OUT_OF_ORDER => next = AVAILABLE \/ next = DIRTY
  end.

(** The keys [checkIn] writes on the reservation. *)
Definition checkInUpdates (room : RoomRecord) (timestamp : string) : ReservationUpdates :=
  {| u_hotelId := None; u_hotelCode := None; u_guestId := None;
     u_roomType := Some (rm_type room);
     u_roomId := Some (Some (rm_id room));
     u_status := Some CHECKED_IN;
     u_arrivalDate := None; u_departureDate := None;
     u_adults := None; u_children := None; u_nightlyRate := None;
     u_ratePlan := None; u_source := None; u_otaReference := None;
     u_isWalkIn := None; u_notes := None; u_billing := None;
     u_checkInAt := Some (Some timestamp);
     u_checkOutAt := None; u_createdAt := None;
     u_updatedAt := Some timestamp |}.

(** The keys [checkOut] writes on the reservation. *)
Definition checkOutUpdates (billing : ReservationBilling) (timestamp : string)
  : ReservationUpdates :=
  {| u_hotelId := None; u_hotelCode := None; u_guestId := None;
     u_roomType := None; u_roomId := None;
     u_status := Some CHECKED_OUT;
     u_arrivalDate := None; u_departureDate := None;
     u_adults := None; u_children := None; u_nightlyRate := None;
     u_ratePlan := None; u_source := None; u_otaReference := None;
     u_isWalkIn := None; u_notes := None;
     u_billing := Some billing;
     u_checkInAt := None;
     u_checkOutAt := Some (Some timestamp);
     u_createdAt := None;
     u_updatedAt := Some timestamp |}.

(** The store a check-in or check-out leaves when nothing fails: the clock
    read once, the reservation rewritten, then the room. *)
Definition afterTransition (s : Store) (reservation : ReservationRecord)
    (updates : ReservationUpdates) (room : RoomRecord) (status : RoomStatus) : Store :=
  set_rooms
    (cache_replace roomsTable (rm_id room)
       (mergeRoom room
          {| ru_status := Some status; ru_updatedAt := Some (clockAt (st_tick s)) |})
       (st_rooms s))
    (set_reservations
       (cache_replace reservationsTable (r_id reservation)
          (mergeReservation reservation updates) (st_reservations s))
       (set_tick (S (st_tick s)) s)).

(** The sum of a list of numbers as [reduce] adds it up: from the left,
    every addition rounded to a double. *)
Definition fsum (xs : list num) : num := fold_left nadd xs (of_Z 0).

(** An amount of [k] hundredths: the double nearest to [k / 100]. *)
Definition cents (k : Z) : num := of_Q (k # 100).

(** The sum of a list of hundredths, and of their absolute values. *)
Definition sum_Z (cs : list Z) : Z := fold_right Z.add 0%Z cs.
Definition sum_abs (cs : list Z) : Z := fold_right (fun c t => Z.abs c + t)%Z 0%Z cs.

(** [k / 100] is the hundredth nearest to [q]; of two that are as near, it
    is the one away from zero: half a hundredth of an amount goes up. *)
Definition Nearest2 (q : Q) (k : Z) : Prop :=
  (Qabs (q * 100 - inject_Z k) <= 1 # 2)%Q
  /\ ((Qabs (q * 100 - inject_Z k) == 1 # 2)%Q ->
      (Qabs (q * 100) < Qabs (inject_Z k))%Q).

(** [y] is [x] to two decimals: the amount in hundredths nearest to the
    value of [x]; [NaN] and the infinities stay. *)
Definition Rounded2 (x y : num) : Prop :=
  match dbl x with
  | Fin q => exists k, Nearest2 q k /\ y = cents k
  | other => y = other
  end.

(** Amounts that are far from the end of the doubles: their number times
    their total, in hundredths, stays below [2 ^ 49], some 5.6e14. *)
Definition Modest (amounts : list Z) : Prop :=
  ((Z.of_nat (List.length amounts) + 1) * (sum_abs amounts + 50) < 2 ^ 49)%Z.

(** Half a unit in the last place of 1: the relative error of one
    rounding. *)
Definition ulp53 : Q := 1 # 9007199254740992.

(** [Number.isFinite]: what JSON keeps of a number. *)
Definition isFinite (x : num) : bool :=
  match dbl x with
  | Fin _ => true
  | _ => false
  end.

(** A number that may be missing, and the numbers of an object. *)
Definition finiteOr (x : option num) : bool :=
  match x with
  | Some n => isFinite n
  | None => true
  end.

Definition finiteObject (o : option jsobject) : bool :=
  forallb (fun entry =>
             match snd entry with
             | JNum n => isFinite n
             | _ => true
             end)
          (nullish o []).

(** The numbers of the store are finite, as those of a JSON file are: the
    store is one that the round trip through JSON leaves as it is. *)
Definition storable (s : Store) : bool :=
  forallb (fun bill =>
             forallb (fun charge =>
                        isFinite (bc_amount charge) && isFinite (bc_taxAmount charge)
                        && isFinite (bc_totalAmount charge)
                        && finiteObject (bc_metadata charge))
                     (bl_charges bill))
          (st_bills s)
  && forallb (fun payment =>
                isFinite (p_amount payment) && finiteObject (p_metadata payment))
             (st_payments s)
  && forallb (fun r =>
                isFinite (r_nightlyRate r)
                && isFinite (r_adults r) && isFinite (r_children r)
                && isFinite (b_totalAmount (r_billing r))
                && isFinite (b_balanceDue (r_billing r))
                && forallb (fun charge => isFinite (rc_amount charge))
                     (b_charges (r_billing r)))
             (st_reservations s)
  && forallb (fun room =>
                isFinite (rm_rate room) && finiteOr (rm_floor room)
                && finiteOr (rm_maxOccupancy room))
             (st_rooms s)
  && forallb (fun row =>
                finiteOr (tx_cgst row) && finiteOr (tx_sgst row)
                && finiteOr (tx_igst row)
                && finiteOr (tx_serviceChargePercentage row)
                && finiteOr (tx_luxuryTaxPercentage row))
             (st_taxes s).

Definition Storable (s : Store) : Prop := storable s = true.

(** The computation [c] leaves the part [f] of the store as it found it,
    whether it returns or throws. *)
Definition keeps {A X : Type} (f : Store -> X) (c : M A) : Prop :=
  forall s, f (fst (c s)) = f s.

(** The test by which the ledger looks a bill up. *)
Definition billFor (reservationId : string) (bill : BillRecord) : bool :=
  bl_reservationId bill =? reservationId.

(** [b] is the bill the ledger finds for the reservation, in a table whose
    keys are unique, as those of a [Map] are. *)
Definition BillOf (s : Store) (reservationId : string) (b : BillRecord) : Prop :=
  NoDup (map bl_id (st_bills s))
  /\ find (billFor reservationId) (st_bills s) = Some b.

(** The tables the ledger reads besides the bills. *)
Definition sameBooks (s s2 : Store) : Prop :=
  st_reservations s2 = st_reservations s
  /\ st_payments s2 = st_payments s
  /\ st_property s2 = st_property s
  /\ st_taxes s2 = st_taxes s.

(** Everything the ledger reads, the clock and the disk apart. *)
Definition books (s : Store) :=
  (st_bills s, st_reservations s, st_payments s, st_property s, st_taxes s).

(** Once [resolveFolio] has answered for a bill, it answers the same, without
    a write, for every bill with these folios. *)
Definition FolioSettled (folios : list Folio) (folioId folioName : option string)
    (resolved : string) : Prop :=
  forall (b : BillRecord) (s : Store),
    bl_folios b = folios ->
    resolveFolio b folioId folioName s = (s, inr (b, resolved)).



End Vocabulary.

(** ** More of the services *)

Section MoreServices.
Context {P : Platform}.

(** *** [services/reservationService.ts] *)


(** *** [services/alertService.ts]

    The evaluators that read reservations, and the merge of their
    triggers.  [a < b] and [a <= b] on strings compare code units, which on
    ISO dates is the order of the bytes. *)

(** The alert types this service raises. *)
Inductive AlertType : Type :=
| LATE_CHECKOUT
| DIRTY_ROOM
| PAYMENT_PENDING
| OVERBOOKING_RISK.


Record AlertContext : Type := {
  ac_reservationId : option string;
  ac_roomId : option string;
  ac_date : option string
}.

Record AlertTrigger : Type := {
  at_type : AlertType;
  at_message : string;
  at_context : option AlertContext;
  at_metadata : jsobject
}.



Definition evaluateLateCheckoutAlerts (reservations : list ReservationRecord)
    (todayKey : string) : list AlertTrigger :=
  map (fun reservation =>
         {| at_type := LATE_CHECKOUT;
            at_message :=
              "Reservation " ++ r_id reservation
              ++ " is past departure and still checked in";
            at_context :=
              Some {| ac_reservationId := Some (r_id reservation);
                      ac_roomId := r_roomId reservation;
                      ac_date := None |};
            at_metadata := [("departureDate", JStr (r_departureDate reservation))] |})
      (filter (fun reservation =>
                 ReservationStatus_eqb (r_status reservation) CHECKED_IN
                 && (r_departureDate reservation <? todayKey))
              reservations).

(** [a > 0.01]; false on [NaN]. *)
Definition ngtCent (a : num) : bool := ngt a (of_Q (1 # 100)).

Definition evaluatePaymentPendingAlerts (reservations : list ReservationRecord)
    (todayKey : string) : list AlertTrigger :=
  map (fun reservation =>
         {| at_type := PAYMENT_PENDING;
            at_message :=
              "Reservation " ++ r_id reservation ++ " has an outstanding balance of "
              ++ toFixed2 (b_balanceDue (r_billing reservation));
            at_context :=
              Some {| ac_reservationId := Some (r_id reservation);
                      ac_roomId := None;
                      ac_date := None |};
            at_metadata :=
              [("balanceDue", JNum (b_balanceDue (r_billing reservation)));
               ("currency", JStr (b_currency (r_billing reservation)))] |})
      (filter (fun reservation =>
                 if ReservationStatus_eqb (r_status reservation) CHECKED_OUT
                    || ReservationStatus_eqb (r_status reservation) CANCELLED
                 then false
                 else
                   let balanceDue := b_balanceDue (r_billing reservation) in
                   let isPastDeparture := r_departureDate reservation <=? todayKey in
                   ngtCent balanceDue && isPastDeparture)
              reservations).


End MoreServices.

(** ** Further vocabulary *)

(** A table of the store: what is written to it is what it holds, a write
    leaves the disk as it is, and neither the disk nor the clock is part of
    its records. *)
Definition Lawful {T : Type} (tb : Table T) : Prop :=
  (forall l s, t_records tb (t_store tb l s) = l)
  /\ (forall l s, st_faults (t_store tb l s) = st_faults s)
  /\ (forall l s, t_records tb (set_faults l s) = t_records tb s)
  /\ (forall n s, t_records tb (set_tick n s) = t_records tb s).

(** The errors a request is answered with when it is refused: an
    [HttpError] with status 400, 404 or 409. *)
Definition Refusal (e : Exn) : Prop :=
  exists status message,
    e = HttpError status message /\ (status = 400 \/ status = 404 \/ status = 409)%Z.

(** A computation that only reads and checks: it leaves the store as it
    found it, and when it throws, it throws a refusal. *)
Definition Checks {A : Type} (c : M A) : Prop :=
  forall s s1 r,
    c s = (s1, r) -> s1 = s /\ forall e, r = inl e -> Refusal e.

Section Inventory.
Context {P : Platform}.

(** No room is sold twice: two different reservations that hold the same
    room and both occupy inventory never overlap. *)
Definition NoDoubleBooking (reservations : list ReservationRecord) : Prop :=
  forall r1 r2 roomId,
    In r1 reservations -> In r2 reservations ->
    r_id r1 <> r_id r2 ->
    roomId <> "" ->
    r_roomId r1 = Some roomId -> r_roomId r2 = Some roomId ->
    Active (r_status r1) -> Active (r_status r2) ->
    ~ Overlap (r_arrivalDate r1) (r_departureDate r1)
        (r_arrivalDate r2) (r_departureDate r2).
End Inventory.

(** ** More of the example hotel *)

Module HotelRuns.

(** The guest has left. *)
Definition departed : ReservationRecord :=
  Hotel.booking "res1" (Some "101") CHECKED_OUT "2026-01-01" "2026-01-04".

Definition afterStay : Store :=
  Hotel.store [departed] [Hotel.room "101" "101" DIRTY] [].

Definition house : Store :=
  Hotel.store [Hotel.inHouse] [Hotel.room "101" "101" OCCUPIED] [].

Definition arrive : CheckInInput :=
  {| ci_reservationId := "res1"; ci_roomId := None |}.

Definition leave : CheckOutInput :=
  {| co_reservationId := "res1"; co_lateCheckout := None; co_extraCharges := None |}.

(** A second booking of the same nights, by type and without a room, in a
    hotel whose only room is taken. *)
Definition waiting : ReservationRecord :=
  Hotel.booking "res2" None CONFIRMED "2026-01-01" "2026-01-04".

Definition full : Store :=
  Hotel.store [Hotel.stay; waiting] [Hotel.room "101" "101" AVAILABLE] [].

Definition cancel : UpdateReservationInput :=
  {| in_roomId := None; in_roomType := None; in_status := Some CANCELLED;
     in_arrivalDate := None; in_departureDate := None; in_adults := None;
     in_children := None; in_nightlyRate := None; in_ratePlan := None;
     in_source := None; in_otaReference := None; in_isWalkIn := None;
     in_notes := None; in_currency := None |}.

(** The next guest of room 101, arriving the day the first one leaves, and
    the update that lets them stay two nights more. *)
Definition next : ReservationRecord :=
  Hotel.booking "res2" (Some "101") CONFIRMED "2026-01-04" "2026-01-06".

Definition backToBack : Store :=
  Hotel.store [Hotel.stay; next] [Hotel.room "101" "101" AVAILABLE] [].

Definition twoNightsMore : UpdateReservationInput :=
  {| in_roomId := None; in_roomType := None; in_status := None;
     in_arrivalDate := None; in_departureDate := Some "2026-01-08"; in_adults := None;
     in_children := None; in_nightlyRate := None; in_ratePlan := None;
     in_source := None; in_otaReference := None; in_isWalkIn := None;
     in_notes := None; in_currency := None |}.

(** A guest in room 102 for the nights of the stay in room 101, and the
    updates that ask for room 101, the second one as a room of type STD. *)
Definition neighbour : ReservationRecord :=
  Hotel.booking "res2" (Some "102") CONFIRMED "2026-01-01" "2026-01-04".

Definition neighbours : Store :=
  Hotel.store [Hotel.stay; neighbour]
    [Hotel.room "101" "101" AVAILABLE; Hotel.room "102" "102" AVAILABLE] [].

Definition moveTo101 (roomType : option string) : UpdateReservationInput :=
  {| in_roomId := Some "101"; in_roomType := roomType; in_status := None;
     in_arrivalDate := None; in_departureDate := None; in_adults := None;
     in_children := None; in_nightlyRate := None; in_ratePlan := None;
     in_source := None; in_otaReference := None; in_isWalkIn := None;
     in_notes := None; in_currency := None |}.

(** The guest in room 101 of a house with a second, free room. *)
Definition twoRooms : Store :=
  Hotel.store [Hotel.inHouse]
    [Hotel.room "101" "101" OCCUPIED; Hotel.room "102" "102" AVAILABLE] [].


(** Two bottles from the minibar, whose metadata names a night. *)
Definition minibar : AddonChargeInput :=
  {| aci_reservationId := "res1"; aci_description := "Minibar";
     aci_amount := of_Z 300; aci_quantity := Some (of_Z 2); aci_folioId := None;
     aci_folioName := None;
     aci_metadata := Some [("nightDate", JStr "2026-01-02")] |}.

(** A bill without a charge, a breakfast and the cash that pays it. *)
Definition openBill : BillRecord :=
  {| bl_id := "b1"; bl_hotelId := "h1"; bl_hotelCode := "H1";
     bl_reservationId := "res1"; bl_folios := []; bl_charges := [];
     bl_createdAt := "T"; bl_updatedAt := "T" |}.


Definition breakfast : BillCharge :=
  {| bc_id := "c1"; bc_folioId := "f1"; bc_type := ADDON;
     bc_description := "Breakfast"; bc_amount := of_Z 500; bc_taxAmount := of_Z 60;
     bc_totalAmount := of_Z 560; bc_postedAt := "T"; bc_metadata := None |}.

Definition cash : PaymentRecord :=
  {| p_id := "p1"; p_hotelId := "h1"; p_hotelCode := "H1"; p_reservationId := "res1";
     p_folioId := "f1"; p_amount := of_Z 560; p_currency := "INR"; p_mode := CASH;
     p_reference := None; p_receivedAt := "T"; p_metadata := None;
     p_createdAt := "T"; p_updatedAt := "T" |}.

(** A coffee at 0.10, a tea at 0.20 and the coins that pay the coffee. *)
Definition coffee : BillCharge :=
  {| bc_id := "c2"; bc_folioId := "f1"; bc_type := ADDON;
     bc_description := "Coffee"; bc_amount := of_Q (1 # 10); bc_taxAmount := of_Z 0;
     bc_totalAmount := of_Q (1 # 10); bc_postedAt := "T"; bc_metadata := None |}.

Definition tea : BillCharge :=
  {| bc_id := "c3"; bc_folioId := "f1"; bc_type := ADDON;
     bc_description := "Tea"; bc_amount := of_Q (2 # 10); bc_taxAmount := of_Z 0;
     bc_totalAmount := of_Q (2 # 10); bc_postedAt := "T"; bc_metadata := None |}.

Definition coffeeBill : BillRecord :=
  mergeBill openBill
    {| bu_folios := None; bu_charges := Some [coffee]; bu_updatedAt := None |}.

Definition coins : PaymentRecord :=
  {| p_id := "p2"; p_hotelId := "h1"; p_hotelCode := "H1"; p_reservationId := "res1";
     p_folioId := "f1"; p_amount := of_Q (1 # 10); p_currency := "INR"; p_mode := CASH;
     p_reference := None; p_receivedAt := "T"; p_metadata := None;
     p_createdAt := "T"; p_updatedAt := "T" |}.

(** A property that taxes at 9 and 9 percent. *)
Definition gst18 : Store :=
  {| st_reservations := []; st_rooms := []; st_bills := []; st_payments := [];
     st_property := [Hotel.profile];
     st_taxes :=
       [ {| tx_id := "t1"; tx_hotelCode := "H1"; tx_gstEnabled := Some true;
            tx_cgst := Some (of_Z 9); tx_sgst := Some (of_Z 9); tx_igst := None;
            tx_serviceChargeEnabled := None; tx_serviceChargePercentage := None;
            tx_luxuryTaxEnabled := None; tx_luxuryTaxPercentage := None |} ];
     st_tick := 0; st_faults := [] |}.


(** A tenth of a cent. *)
Definition tinyPayment : SettlementPaymentInput :=
  {| spi_amount := of_Q (1 # 1000); spi_mode := CASH; spi_reference := None;
     spi_folioId := None; spi_folioName := None; spi_currency := None;
     spi_metadata := None |}.

End HotelRuns.

(** ** Vocabulary of the ledger *)

(** Every bill has its own identifier and every reservation at most one
    bill. *)
Definition OneBillEach (s : Store) : Prop :=
  NoDup (map bl_id (st_bills s)) /\ NoDup (map bl_reservationId (st_bills s)).

(** The computation [c] keeps the invariant [I], whether it returns or
    throws. *)
Definition preserves {A : Type} (I : Store -> Prop) (c : M A) : Prop :=
  forall s, I s -> I (fst (c s)).

(** The charges posted so far for a reservation: those of its bill, none
    when it has no bill yet. *)
Definition postedCharges (reservationId : string) (s : Store) : list BillCharge :=
  match find (billFor reservationId) (st_bills s) with
  | Some b => bl_charges b
  | None => []
  end.



(** The reservation a trigger is about. *)
Definition aboutReservation (trigger : AlertTrigger) : option string :=
  match at_context trigger with
  | Some c => ac_reservationId c
  | None => None
  end.

(** What [settleBill] writes for the payment [input] of [reservation]. *)
Definition Recorded (reservation : ReservationRecord) (input : SettlementPaymentInput)
    (payment : PaymentRecord) : Prop :=
  nle0 (spi_amount input) = false
  /\ p_amount payment = roundCurrency (spi_amount input)
  /\ p_reservationId payment = r_id reservation
  /\ p_mode payment = spi_mode input
  /\ p_reference payment = spi_reference input
  /\ p_currency payment
     = nullish (spi_currency input) (b_currency (r_billing reservation)).

(** [payment] is the record of the payment [input] made for [reservation]:
    an amount above zero, recorded to two decimals. *)
Definition PaymentFor (reservation : ReservationRecord) (input : SettlementPaymentInput)
    (payment : PaymentRecord) : Prop :=
  (exists amount, dbl (spi_amount input) = Fin amount /\ (0 < amount)%Q)
  /\ Rounded2 (spi_amount input) (p_amount payment)
  /\ p_reservationId payment = r_id reservation
  /\ p_mode payment = spi_mode input
  /\ p_reference payment = spi_reference input
  /\ p_currency payment
     = nullish (spi_currency input) (b_currency (r_billing reservation)).

(** * Properties *)

(** ** Numbers *)

Section Numbers.
Local Open Scope Q_scope.



Lemma pow2_pos (e : Z) : 0 < 2 ^ e.
Proof. apply Qpower_0_lt. reflexivity. Qed.

Lemma pow2_plus (a b : Z) : 2 ^ (a + b) == 2 ^ a * 2 ^ b.
Proof. apply Qpower_plus. discriminate. Qed.

Lemma pow2_Z (n : Z) : (0 <= n)%Z -> inject_Z (2 ^ n) == 2 ^ n.
Proof. intros H. rewrite Zpower_Qpower by exact H. reflexivity. Qed.

Lemma pow2_le (a b : Z) : (a <= b)%Z -> 2 ^ a <= 2 ^ b.
Proof. intros H. apply Qpower_le_compat_l; [exact H | discriminate]. Qed.

Lemma ilog2_lower (a : Q) : 0 < a -> 2 ^ ilog2 a <= a.
Proof.
  intros Ha. unfold ilog2. destruct a as [n d].
  change (Qnum (n # d)) with n. change (Qden (n # d)) with d.
  set (ln := Z.log2 n). set (ld := Z.log2 (Z.pos d)).
  destruct (Qle_bool (2 ^ (ln - ld)) (n # d)) eqn:E.
  - apply Qle_bool_iff. exact E.
  - unfold Qlt in Ha. cbn in Ha.
    assert (0 < n)%Z as Hn by lia.
    assert (2 ^ ln <= n)%Z as H1 by (apply Z.log2_spec; exact Hn).
    assert (Z.pos d < 2 ^ (ld + 1))%Z as H2.
    { replace (ld + 1)%Z with (Z.succ ld) by lia.
      apply (Z.log2_spec (Z.pos d)). lia. }
    assert (0 <= ln)%Z as Hln by apply Z.log2_nonneg.
    assert (0 <= ld)%Z as Hld by apply Z.log2_nonneg.
    assert (2 ^ (ln - ld - 1) * 2 ^ (ld + 1) == 2 ^ ln) as Hp.
    { rewrite <- pow2_plus. replace (ln - ld - 1 + (ld + 1))%Z with ln by lia.
      reflexivity. }
    assert (inject_Z (Z.pos d) <= 2 ^ (ld + 1)) as H2'.
    { rewrite <- pow2_Z by lia. rewrite <- Zle_Qle. lia. }
    assert (2 ^ ln <= inject_Z n) as H1'.
    { rewrite <- pow2_Z by lia. rewrite <- Zle_Qle. exact H1. }
    pose proof (pow2_pos (ln - ld - 1)) as Hpos.
    assert (2 ^ (ln - ld - 1) * inject_Z (Z.pos d) <= inject_Z n) as H3.
    { apply Qle_trans with (2 ^ ln); [| exact H1'].
      rewrite <- Hp. apply Qmult_le_l; [exact Hpos | exact H2']. }
    set (p := 2 ^ (ln - ld - 1)) in *.
    destruct p as [pn pd]. unfold Qle, Qmult, inject_Z in *. cbn in *. nia.
Qed.

Lemma rne_near (q : Q) : Qabs (inject_Z (rne q) - q) <= 1 # 2.
Proof.
  unfold rne. pose proof (Qfloor_le q) as Hl. pose proof (Qlt_floor q) as Hu.
  rewrite inject_Z_plus in Hu. change (inject_Z 1) with 1 in Hu.
  assert (forall f : Z, inject_Z (f + 1) == inject_Z f + 1) as Hs.
  { intros f. rewrite inject_Z_plus. reflexivity. }
  apply Qabs_Qle_condition.
  destruct (Qcompare (q - inject_Z (Qfloor q)) (1 # 2)) eqn:E.
  - apply Qeq_alt in E.
    destruct (Z.even (Qfloor q)); rewrite ?Hs; lra.
  - apply Qlt_alt in E. lra.
  - apply Qgt_alt in E. rewrite Hs. lra.
Qed.

Lemma rne_nonneg (q : Q) : 0 <= q -> (0 <= rne q)%Z.
Proof.
  intros H. assert (0 <= Qfloor q)%Z as Hf.
  { change 0%Z with (Qfloor 0). apply Qfloor_resp_le. exact H. }
  unfold rne. destruct (Qcompare _ _); [destruct (Z.even _) | |]; lia.
Qed.

Lemma binary64_zero (x : Q) : x == 0 -> binary64 x = Fin 0.
Proof.
  intros H. unfold binary64. cbv zeta.
  assert (Qeq_bool (Qred x) 0 = true) as ->; [| reflexivity].
  apply Qeq_bool_iff. rewrite Qred_correct. exact H.
Qed.

Lemma binary64_compat (x y : Q) : x == y -> binary64 x = binary64 y.
Proof. intros H. unfold binary64. rewrite (Qred_complete x y H). reflexivity. Qed.

Lemma inject_Z_nonneg (z : Z) : (0 <= z)%Z -> 0 <= inject_Z z.
Proof. intros H. change 0 with (inject_Z 0). rewrite <- Zle_Qle. exact H. Qed.

Lemma ilog2_upper (a : Q) : 0 < a -> a < 2 ^ (ilog2 a + 1).
Proof.
  intros Ha. unfold ilog2. destruct a as [n d].
  change (Qnum (n # d)) with n. change (Qden (n # d)) with d.
  set (ln := Z.log2 n). set (ld := Z.log2 (Z.pos d)).
  destruct (Qle_bool (2 ^ (ln - ld)) (n # d)) eqn:E.
  - unfold Qlt in Ha. cbn in Ha.
    assert (0 < n)%Z as Hn by lia.
    assert (n < 2 ^ (ln + 1))%Z as H1.
    { replace (ln + 1)%Z with (Z.succ ln) by lia. apply (Z.log2_spec n). exact Hn. }
    assert (2 ^ ld <= Z.pos d)%Z as H2 by (apply (Z.log2_spec (Z.pos d)); lia).
    assert (0 <= ln)%Z as Hln by apply Z.log2_nonneg.
    assert (0 <= ld)%Z as Hld by apply Z.log2_nonneg.
    assert (2 ^ (ln - ld + 1) * 2 ^ ld == 2 ^ (ln + 1)) as Hp.
    { rewrite <- pow2_plus. replace (ln - ld + 1 + ld)%Z with (ln + 1)%Z by lia.
      reflexivity. }
    assert (2 ^ ld <= inject_Z (Z.pos d)) as H2'.
    { rewrite <- pow2_Z by lia. rewrite <- Zle_Qle. exact H2. }
    assert (inject_Z n < 2 ^ (ln + 1)) as H1'.
    { rewrite <- pow2_Z by lia. rewrite <- Zlt_Qlt. exact H1. }
    pose proof (pow2_pos (ln - ld + 1)) as Hpos.
    assert (inject_Z n < 2 ^ (ln - ld + 1) * inject_Z (Z.pos d)) as H3.
    { apply Qlt_le_trans with (2 ^ (ln + 1)); [exact H1' |].
      rewrite <- Hp. apply Qmult_le_l; [exact Hpos | exact H2']. }
    set (p := 2 ^ (ln - ld + 1)) in *.
    destruct p as [pn pd]. unfold Qlt, Qle, Qmult, inject_Z in *. cbn in *. nia.
  - replace (ln - ld - 1 + 1)%Z with (ln - ld)%Z by lia.
    apply Qnot_le_lt. intros H. apply Qle_bool_iff in H. congruence.
Qed.

Lemma ilog2_unique (a : Q) (k : Z) :
  0 < a -> 2 ^ k <= a -> a < 2 ^ (k + 1) -> ilog2 a = k.
Proof.
  intros Ha Hl Hu. pose proof (ilog2_lower a Ha) as L. pose proof (ilog2_upper a Ha) as U.
  assert (~ (k + 1 <= ilog2 a)%Z) as H1.
  { intros H. apply (pow2_le _ _) in H.
    apply (Qlt_irrefl a). eapply Qlt_le_trans; [exact Hu |].
    eapply Qle_trans; [exact H | exact L]. }
  assert (~ (ilog2 a + 1 <= k)%Z) as H2.
  { intros H. apply (pow2_le _ _) in H.
    apply (Qlt_irrefl a). eapply Qlt_le_trans; [exact U |].
    eapply Qle_trans; [exact H | exact Hl]. }
  lia.
Qed.

Lemma rne_Z (q : Q) (m : Z) : q == inject_Z m -> rne q = m.
Proof.
  intros H. unfold rne.
  assert (Qfloor q = m) as ->.
  { rewrite (Qfloor_comp _ _ H). apply Qfloor_Z. }
  assert (Qcompare (q - inject_Z m) (1 # 2) = Lt) as ->; [| reflexivity].
  apply (proj1 (Qlt_alt _ _)). lra.
Qed.

(** A number with a significand of at most 53 bits and an exponent that a
    double can have is a double. *)
Lemma binary64_exact (m e : Z) :
  (1 <= m <= 2 ^ 53)%Z -> (-1074 <= e)%Z ->
  (2 ^ 52 <= m \/ e = -1074)%Z ->
  inject_Z m * 2 ^ e < 2 ^ 1024 ->
  binary64 (inject_Z m * 2 ^ e) = Fin (Qred (inject_Z m * 2 ^ e)).
Proof.
  intros Hm He Hn Hsmall.
  pose proof (pow2_pos e) as Pe.
  assert (0 < inject_Z m) as Hm0.
  { change 0 with (inject_Z 0). rewrite <- Zlt_Qlt. lia. }
  set (R := inject_Z m * 2 ^ e) in *.
  assert (0 < R) as HR by (unfold R; nra).
  unfold binary64. cbv zeta.
  assert (Qred R == R) as Hq by apply Qred_correct.
  set (q := Qred R) in *.
  assert (Qeq_bool q 0 = false) as ->.
  { apply not_true_is_false. intros H. apply Qeq_bool_iff in H. lra. }
  assert (Qabs q == R) as Ha by (rewrite Hq; apply Qabs_pos; lra).
  assert (Qle_bool 0 q = true) as Hs by (apply Qle_bool_iff; lra).
  rewrite Hs.
  set (k := Z.log2 m).
  assert (2 ^ k <= m < 2 ^ (k + 1))%Z as Hk.
  { replace (k + 1)%Z with (Z.succ k) by lia. apply Z.log2_spec. lia. }
  assert (0 <= k)%Z as Hk0 by apply Z.log2_nonneg.
  assert (k <= 53)%Z as Hk53.
  { destruct (Z_lt_le_dec 53 k) as [H | H]; [| exact H].
    exfalso. assert (2 ^ 54 <= 2 ^ k)%Z by (apply Z.pow_le_mono_r; lia). lia. }
  assert (ilog2 (Qabs q) = (k + e)%Z) as Hlog.
  { apply ilog2_unique.
    - rewrite Ha. exact HR.
    - rewrite Ha. unfold R. rewrite pow2_plus.
      apply Qmult_le_compat_r; [| lra].
      rewrite <- pow2_Z by lia. rewrite <- Zle_Qle. lia.
    - rewrite Ha. unfold R. replace (k + e + 1)%Z with ((k + 1) + e)%Z by lia.
      rewrite pow2_plus. apply Qmult_lt_compat_r; [exact Pe |].
      rewrite <- pow2_Z by lia. rewrite <- Zlt_Qlt. lia. }
  rewrite Hlog.
  (* the exponent chosen and the significand read back *)
  assert (exists e' m', Z.max (k + e - 52) (-1074) = e'
                        /\ Qabs q / 2 ^ e' == inject_Z m'
                        /\ inject_Z m' * 2 ^ e' == R) as (e' & m' & -> & Hdiv & Hval).
  { destruct (Z.eq_dec m (2 ^ 53)) as [E53 | N53].
    - exists (e + 1)%Z, (2 ^ 52)%Z.
      assert (k = 53)%Z as ->.
      { subst m. unfold k. reflexivity. }
      split; [lia |].
      assert (inject_Z (2 ^ 52) * 2 ^ (e + 1) == R) as Hv.
      { unfold R. rewrite E53, pow2_plus. change (2 ^ 1) with 2.
        change (inject_Z (2 ^ 53)) with (inject_Z (2 ^ 52) * 2). ring. }
      split; [| exact Hv].
      rewrite Ha, <- Hv. field. pose proof (pow2_pos (e + 1)). lra.
    - exists e, m.
      split.
      + destruct Hn as [Hn | Hn].
        * assert (k = 52)%Z as ->; [| lia].
          assert (k < 53)%Z.
          { destruct (Z_lt_le_dec k 53) as [H | H]; [exact H |].
            exfalso. assert (2 ^ 53 <= 2 ^ k)%Z by (apply Z.pow_le_mono_r; lia). lia. }
          assert (52 <= k)%Z.
          { destruct (Z_lt_le_dec k 52) as [H' | H']; [| exact H'].
            exfalso. assert (2 ^ (k + 1) <= 2 ^ 52)%Z by (apply Z.pow_le_mono_r; lia).
            lia. }
          lia.
        * assert (k < 53)%Z.
          { destruct (Z_lt_le_dec k 53) as [H | H]; [exact H |].
            exfalso. assert (2 ^ 53 <= 2 ^ k)%Z by (apply Z.pow_le_mono_r; lia). lia. }
          lia.
      + split; [| reflexivity]. rewrite Ha. unfold R. field. lra. }
  rewrite (rne_Z _ m' Hdiv).
  assert (Qle_bool (2 ^ 1024) (inject_Z m' * 2 ^ e') = false) as ->.
  { apply not_true_is_false. intros H. apply Qle_bool_iff in H. lra. }
  f_equal. apply Qred_complete. rewrite Hval. reflexivity.
Qed.

Lemma Fin_inj (a b : Q) : Fin a = Fin b -> a = b.
Proof. congruence. Qed.

Lemma Qabs_opp_eq (q : Q) : Qabs (- q) = Qabs q.
Proof. destruct q as [n d]. unfold Qopp, Qabs. cbn [Qnum Qden]. rewrite Z.abs_opp. reflexivity. Qed.

Lemma binary64_opp (x : Q) :
  binary64 (- x)
  = match binary64 x with
    | NaN => NaN
    | Inf s => Inf (negb s)
    | Fin r => Fin (Qred (- r))
    end.
Proof.
  unfold binary64. cbv zeta. rewrite Qred_opp. set (q := Qred x).
  destruct (Qeq_bool q 0) eqn:E0.
  - assert (Qeq_bool (- q) 0 = true) as ->.
    { apply Qeq_bool_iff. apply Qeq_bool_iff in E0. lra. }
    reflexivity.
  - assert (Qeq_bool (- q) 0 = false) as ->.
    { apply not_true_is_false. intros H. apply Qeq_bool_iff in H.
      apply Qeq_bool_neq in E0. apply E0. lra. }
    rewrite Qabs_opp_eq.
    assert (Qle_bool 0 (- q) = negb (Qle_bool 0 q)) as ->.
    { apply Qeq_bool_neq in E0.
      destruct (Qle_bool 0 q) eqn:Es; cbn [negb].
      - apply Qle_bool_iff in Es. apply not_true_is_false. intros H.
        apply Qle_bool_iff in H. apply E0. lra.
      - apply Qle_bool_iff. apply Qlt_le_weak.
        assert (~ 0 <= q) as Hn by (intros H; apply Qle_bool_iff in H; congruence).
        apply Qnot_le_lt in Hn. lra. }
    destruct (Qle_bool (2 ^ 1024) _); [reflexivity |].
    f_equal. destruct (Qle_bool 0 q); cbn [negb]; apply Qred_complete;
      rewrite Qred_correct; ring.
Qed.

Lemma binary64_reduced (x r : Q) : binary64 x = Fin r -> Qred r = r.
Proof.
  unfold binary64. cbv zeta. destruct (Qeq_bool (Qred x) 0).
  - intros H. apply Fin_inj in H. subst r. reflexivity.
  - destruct (Qle_bool (2 ^ 1024) _); [discriminate |].
    intros H. apply Fin_inj in H. subst r. apply Qred_complete, Qred_correct.
Qed.

(** What [binary64] returns is a double: rounding it again changes nothing. *)
Lemma binary64_idem (x : Q) (r : Q) : binary64 x = Fin r -> binary64 r = Fin r.
Proof.
  assert (forall y, 0 < y -> forall r, binary64 y = Fin r -> 0 <= r /\ binary64 r = Fin r)
    as Hpos.
  { clear. intros y Hy r. unfold binary64 at 1. cbv zeta.
    assert (Qred y == y) as Hq by apply Qred_correct. set (q := Qred y) in *.
    assert (Qeq_bool q 0 = false) as ->.
    { apply not_true_is_false. intros H. apply Qeq_bool_iff in H. lra. }
    assert (Qle_bool 0 q = true) as -> by (apply Qle_bool_iff; lra).
    cbv iota.
    assert (0 < Qabs q) as Ha by (rewrite Qabs_pos; lra).
    set (a := Qabs q) in *. set (L := ilog2 a).
    pose proof (ilog2_lower a Ha) as Hl. pose proof (ilog2_upper a Ha) as Hu.
    fold L in Hl, Hu.
    set (e := Z.max (L - 52) (-1074)). pose proof (pow2_pos e) as Pe.
    set (t := a / 2 ^ e). set (m := rne t).
    assert (0 < t) as Ht.
    { unfold t. apply Qlt_shift_div_l; lra. }
    pose proof (rne_near t) as Hm. fold m in Hm. apply Qabs_Qle_condition in Hm.
    pose proof (rne_nonneg t ltac:(lra)) as Hm0. fold m in Hm0.
    destruct (Qle_bool (2 ^ 1024) (inject_Z m * 2 ^ e)) eqn:Eo; [discriminate |].
    intros Hr. apply Fin_inj in Hr. subst r.
    assert (inject_Z m * 2 ^ e < 2 ^ 1024) as Hsmall.
    { apply Qnot_le_lt. intros H. apply Qle_bool_iff in H. congruence. }
    assert (m = 0 \/ 1 <= m)%Z as [Hz | Hm1] by lia.
    - assert (Qred (inject_Z m * 2 ^ e) = 0) as ->.
      { rewrite Hz. transitivity (Qred 0); [apply Qred_complete; ring | reflexivity]. }
      split; [lra | reflexivity].
    - split.
      { rewrite Qred_correct. apply Qmult_le_0_compat; [| lra].
        apply inject_Z_nonneg. lia. }
      rewrite (binary64_compat _ _ (Qred_correct _)).
      apply binary64_exact; [| lia | | exact Hsmall].
      + split; [exact Hm1 |].
        (* t < 2 ^ 53 *)
        assert (t < 2 ^ 53) as Ht53.
        { unfold t. apply Qlt_shift_div_r; [exact Pe |].
          apply Qlt_le_trans with (2 ^ (L + 1)); [exact Hu |].
          rewrite <- pow2_plus. apply pow2_le. lia. }
        change (2 ^ 53) with (inject_Z (2 ^ 53)) in Ht53.
        assert (inject_Z m < inject_Z (2 ^ 53 + 1)) as H.
        { rewrite inject_Z_plus. change (inject_Z 1) with 1. lra. }
        rewrite <- Zlt_Qlt in H. lia.
      + destruct (Z.max_spec (L - 52) (-1074)) as [[_ E] | [Hlt E]]; fold e in E.
        * right. exact E.
        * left.
          assert (2 ^ 52 <= t) as Ht52.
          { unfold t. apply Qle_shift_div_l; [exact Pe |].
            rewrite <- pow2_plus. rewrite E.
            replace (52 + (L - 52))%Z with L by lia. exact Hl. }
          change (2 ^ 52) with (inject_Z (2 ^ 52)) in Ht52.
          assert (inject_Z (2 ^ 52 - 1) < inject_Z m) as H.
          { unfold Z.sub. rewrite inject_Z_plus. change (inject_Z (- (1))) with (-1). lra. }
          rewrite <- Zlt_Qlt in H. lia. }
  intros H.
  destruct (Qlt_le_dec 0 x) as [Hx | Hx]; [apply (Hpos x Hx r H) |].
  destruct (Qlt_le_dec x 0) as [Hx' | Hx'].
  - assert (0 < - x) as Hn by lra.
    pose proof (binary64_opp x) as Ho. rewrite H in Ho.
    destruct (Hpos (- x) Hn _ Ho) as [_ Hi].
    assert (r == - Qred (- r)) as Er by (rewrite Qred_correct; ring).
    rewrite (binary64_compat _ _ Er), binary64_opp, Hi. f_equal.
    rewrite <- (binary64_reduced x r H) at 2. apply Qred_complete. symmetry. exact Er.
  - rewrite (binary64_zero x) in H by lra. apply Fin_inj in H. subst r. reflexivity.
Qed.

Lemma dbl_binary64 (x : Q) : dbl (binary64 x) = binary64 x.
Proof.
  destruct (binary64 x) as [| s | r] eqn:E; try reflexivity.
  cbn [dbl]. apply (binary64_idem x). exact E.
Qed.

Lemma dbl_idem (a : num) : dbl (dbl a) = dbl a.
Proof. destruct a as [| s | q]; try reflexivity. apply dbl_binary64. Qed.

(** The operations on two doubles. *)
Lemma nadd_Fin (x y : Q) :
  binary64 x = Fin x -> binary64 y = Fin y -> nadd (Fin x) (Fin y) = binary64 (x + y).
Proof. intros Hx Hy. unfold nadd, dbl. rewrite Hx, Hy. reflexivity. Qed.

Lemma nsub_Fin (x y : Q) :
  binary64 x = Fin x -> binary64 y = Fin y -> nsub (Fin x) (Fin y) = binary64 (x - y).
Proof. intros Hx Hy. unfold nsub, dbl. rewrite Hx, Hy. reflexivity. Qed.

Lemma nmul_Fin (x y : Q) :
  binary64 x = Fin x -> binary64 y = Fin y -> nmul (Fin x) (Fin y) = binary64 (x * y).
Proof. intros Hx Hy. unfold nmul, dbl. rewrite Hx, Hy. reflexivity. Qed.

Lemma roundCurrency_Fin (x : Q) :
  binary64 x = Fin x -> roundCurrency (Fin x) = binary64 (round2 x).
Proof. intros Hx. unfold roundCurrency, dbl. rewrite Hx. reflexivity. Qed.

(** The magnitude and the error of rounding to a double. *)
Lemma binary64_error (x : Q) :
  match binary64 x with
  | Fin r => Qabs (r - x) <= Qabs x * ulp53 + 2 ^ (-1075)
  | Inf _ => 2 ^ 1024 <= Qabs x * (1 + ulp53) + 2 ^ (-1075)
  | NaN => False
  end.
Proof.
  unfold binary64. cbv zeta.
  assert (Qred x == x) as Hx by apply Qred_correct.
  set (q := Qred x) in *.
  destruct (Qeq_bool q 0) eqn:E0.
  - apply Qeq_bool_iff in E0. rewrite <- Hx, E0.
    setoid_replace (0 - 0) with 0 by ring.
    pose proof (pow2_pos (-1075)). cbn [Qabs Z.abs]. unfold ulp53. lra.
  - assert (0 < Qabs q) as Ha.
    { apply Qeq_bool_neq in E0.
      pose proof (Qabs_nonneg q) as H0.
      apply Qle_lteq in H0 as [H0 | H0]; [exact H0 |].
      exfalso. apply E0. symmetry in H0.
      revert H0. apply Qabs_case; intros; lra. }
    set (a := Qabs q) in *.
    set (e := Z.max (ilog2 a - 52) (-1074)).
    set (m := rne (a / 2 ^ e)).
    pose proof (pow2_pos e) as He.
    pose proof (rne_near (a / 2 ^ e)) as Hm. fold m in Hm.
    assert (Qabs (inject_Z m * 2 ^ e - a) <= 2 ^ e * (1 # 2)) as Herr.
    { setoid_replace (inject_Z m * 2 ^ e - a)
        with ((inject_Z m - a / 2 ^ e) * 2 ^ e) by (field; lra).
      rewrite Qabs_Qmult. rewrite (Qabs_pos (2 ^ e)) by lra.
      rewrite (Qmult_comm (2 ^ e)). apply Qmult_le_compat_r; [exact Hm | lra]. }
    assert (2 ^ e * (1 # 2) <= a * ulp53 + 2 ^ (-1075)) as Hb.
    { pose proof (pow2_pos (-1075)) as H1.
      assert (0 <= a * ulp53) as H2 by (unfold ulp53; nra).
      destruct (Z.max_spec (ilog2 a - 52) (-1074)) as [[_ Hmax] | [_ Hmax]];
        fold e in Hmax; rewrite Hmax.
      - change (-1074)%Z with (-1075 + 1)%Z. rewrite pow2_plus.
        change (2 ^ 1) with 2. lra.
      - replace (ilog2 a - 52)%Z with (ilog2 a + -52)%Z by lia.
        rewrite pow2_plus. pose proof (ilog2_lower a Ha) as Hl.
        change (2 ^ (-52)) with (1 # 4503599627370496). unfold ulp53. lra. }
    set (r := inject_Z m * 2 ^ e) in *.
    assert (a == Qabs x) as Hax by (unfold a; rewrite Hx; reflexivity).
    destruct (Qle_bool (2 ^ 1024) r) eqn:Eo.
    + apply Qle_bool_iff in Eo. rewrite <- Hax.
      apply Qabs_Qle_condition in Herr. lra.
    + rewrite Qred_correct. rewrite <- Hax.
      apply Qle_trans with (Qabs (r - a)); [| lra].
      destruct (Qle_bool 0 q) eqn:Es.
      * apply Qle_bool_iff in Es. unfold a. rewrite (Qabs_pos q) by exact Es.
        rewrite Hx. lra.
      * assert (q < 0) as Hneg.
        { apply Qnot_le_lt. intros H. apply Qle_bool_iff in H. congruence. }
        unfold a. rewrite (Qabs_neg q) by lra.
        setoid_replace (- r - x) with (- (r - - q)) by (rewrite Hx; ring).
        rewrite Qabs_opp. lra.
Qed.

Lemma binary64_near (x : Q) :
  Qabs x <= 2 ^ 1000 ->
  exists r, binary64 x = Fin r /\ Qabs (r - x) <= (Qabs x + 1) * ulp53.
Proof.
  intros Hx. pose proof (binary64_error x) as H.
  assert (2 ^ (-1075) <= ulp53) as Hu.
  { change ulp53 with (2 ^ (-53)). apply pow2_le. lia. }
  destruct (binary64 x) as [| s | r]; [contradiction | exfalso | exists r].
  - assert (2 ^ 1024 == 2 ^ 1000 * 16777216) as Hp.
    { change 1024%Z with (1000 + 24)%Z. rewrite pow2_plus. reflexivity. }
    pose proof (pow2_le 0 1000 ltac:(lia)) as H1. change (2 ^ 0) with 1 in H1.
    pose proof (Qabs_nonneg x) as H0. unfold ulp53 in *. nra.
  - split; [reflexivity |]. lra.
Qed.

Lemma Qfloor_unique (q : Q) (z : Z) :
  inject_Z z <= q -> q < inject_Z z + 1 -> Qfloor q = z.
Proof.
  intros Hl Hu. pose proof (Qfloor_le q) as Fl. pose proof (Qlt_floor q) as Fu.
  rewrite inject_Z_plus in Fu. change (inject_Z 1) with 1 in Fu.
  assert (inject_Z (Qfloor q) < inject_Z (z + 1)) as H1.
  { rewrite inject_Z_plus. change (inject_Z 1) with 1. lra. }
  assert (inject_Z z < inject_Z (Qfloor q + 1)) as H2.
  { rewrite inject_Z_plus. change (inject_Z 1) with 1. lra. }
  rewrite <- Zlt_Qlt in H1, H2. lia.
Qed.

Ltac qabs t :=
  let H := fresh in
  destruct (Qlt_le_dec t 0) as [H | H];
  [rewrite ?(Qabs_neg t) in * by lra | rewrite ?(Qabs_pos t) in * by lra].

Lemma Z_int (k : Z) :
  (inject_Z k <= -1 \/ inject_Z k == 0) \/ 1 <= inject_Z k.
Proof.
  destruct (Z.compare_spec k 0) as [E | L | L].
  - left. right. subst. reflexivity.
  - left. left. change (-1) with (inject_Z (-1)). rewrite <- Zle_Qle. lia.
  - right. change 1 with (inject_Z 1). rewrite <- Zle_Qle. lia.
Qed.

Lemma Nearest2_unique (q : Q) (k k' : Z) : Nearest2 q k -> Nearest2 q k' -> k = k'.
Proof.
  intros [H1 T1] [H2 T2].
  destruct (Z.compare_spec k k') as [E | L | L]; [exact E | exfalso | exfalso].
  - assert (inject_Z k + 1 <= inject_Z k') as Hz.
    { change 1 with (inject_Z 1). rewrite <- inject_Z_plus, <- Zle_Qle. lia. }
    apply Qabs_Qle_condition in H1, H2.
    assert (q * 100 - inject_Z k == 1 # 2) as E1 by lra.
    assert (q * 100 - inject_Z k' == - (1 # 2)) as E2 by lra.
    rewrite E1 in T1. rewrite E2 in T2. specialize (T1 ltac:(reflexivity)).
    specialize (T2 ltac:(reflexivity)).
    destruct (Z_int k) as [[? | ?] | ?], (Z_int k') as [[? | ?] | ?];
      qabs (q * 100); qabs (inject_Z k); qabs (inject_Z k'); lra.
  - assert (inject_Z k' + 1 <= inject_Z k) as Hz.
    { change 1 with (inject_Z 1). rewrite <- inject_Z_plus, <- Zle_Qle. lia. }
    apply Qabs_Qle_condition in H1, H2.
    assert (q * 100 - inject_Z k' == 1 # 2) as E1 by lra.
    assert (q * 100 - inject_Z k == - (1 # 2)) as E2 by lra.
    rewrite E1 in T2. rewrite E2 in T1. specialize (T1 ltac:(reflexivity)).
    specialize (T2 ltac:(reflexivity)).
    destruct (Z_int k) as [[? | ?] | ?], (Z_int k') as [[? | ?] | ?];
      qabs (q * 100); qabs (inject_Z k); qabs (inject_Z k'); lra.
Qed.

Lemma round2_Nearest2 (q : Q) :
  exists k, round2 q = Qred (k # 100) /\ Nearest2 q k.
Proof.
  unfold round2. cbv zeta. set (n := Qfloor (Qabs q * 100 + (1 # 2))).
  pose proof (Qfloor_le (Qabs q * 100 + (1 # 2))) as Hl.
  pose proof (Qlt_floor (Qabs q * 100 + (1 # 2))) as Hu.
  fold n in Hl, Hu. rewrite inject_Z_plus in Hu. change (inject_Z 1) with 1 in Hu.
  destruct (Qle_bool 0 q) eqn:E.
  - exists n. split; [reflexivity |]. apply Qle_bool_iff in E.
    rewrite (Qabs_pos q E) in Hl, Hu. unfold Nearest2.
    split; [apply Qabs_Qle_condition; lra |]. intros T.
    qabs (q * 100 - inject_Z n); qabs (q * 100); qabs (inject_Z n); lra.
  - exists (- n)%Z. split; [reflexivity |].
    assert (q < 0) as Hneg.
    { apply Qnot_le_lt. intros H. apply Qle_bool_iff in H. congruence. }
    rewrite (Qabs_neg q) in Hl, Hu by lra. unfold Nearest2. rewrite !inject_Z_opp.
    split; [apply Qabs_Qle_condition; lra |]. intros T.
    qabs (q * 100 - - inject_Z n); qabs (q * 100); qabs (- inject_Z n); lra.
Qed.

(** A number nearer than half a hundredth to [k / 100] is rounded to it. *)
Lemma round2_near (x : Q) (k : Z) :
  Qabs (x - (k # 100)) < 1 # 200 -> round2 x = Qred (k # 100).
Proof.
  intros H. destruct (round2_Nearest2 x) as (k' & -> & Hk').
  assert (Nearest2 x k) as Hk.
  { assert (Qabs (x * 100 - inject_Z k) < 1 # 2) as Hlt.
    { apply Qabs_Qlt_condition in H. apply Qabs_Qlt_condition.
      assert ((k # 100) * 100 == inject_Z k) as Hc.
      { unfold Qeq, Qmult, inject_Z. cbn. lia. }
      lra. }
    split; [lra |]. intros E. rewrite E in Hlt. lra. }
  rewrite (Nearest2_unique x k' k Hk' Hk). reflexivity.
Qed.

Lemma Qabs_cents (c : Z) : Qabs (c # 100) = (Z.abs c # 100).
Proof. reflexivity. Qed.

Lemma small_pow2_1000 (z : Z) : (z <= 2 ^ 62)%Z -> inject_Z z <= 2 ^ 1000.
Proof.
  intros H. apply Qle_trans with (2 ^ 62).
  - rewrite <- pow2_Z by lia. rewrite <- Zle_Qle. exact H.
  - apply pow2_le. lia.
Qed.

Lemma cents_near (c : Z) :
  (Z.abs c <= 2 ^ 62)%Z ->
  exists x, cents c = Fin x
            /\ Qabs (x - (c # 100)) <= (inject_Z (Z.abs c) * (1 # 100) + 1) * ulp53.
Proof.
  intros H. destruct (binary64_near (c # 100)) as (x & Hx & Hn).
  - rewrite Qabs_cents. apply Qle_trans with (inject_Z (Z.abs c)).
    + unfold Qle, inject_Z. cbn. lia.
    + apply small_pow2_1000. exact H.
  - exists x. split; [exact Hx |]. rewrite Qabs_cents in Hn.
    assert ((Z.abs c # 100) == inject_Z (Z.abs c) * (1 # 100)) as E.
    { unfold Qeq, Qmult, inject_Z. cbn. lia. }
    rewrite <- E. exact Hn.
Qed.

Lemma cents_frac (c : Z) : (c # 100) == inject_Z c * (1 # 100).
Proof. unfold Qeq, Qmult, inject_Z. cbn. lia. Qed.

Lemma Qabs_inject (c : Z) : Qabs (inject_Z c) = inject_Z (Z.abs c).
Proof. reflexivity. Qed.

Lemma cents_double (c : Z) (x : Q) : cents c = Fin x -> binary64 x = Fin x.
Proof. apply binary64_idem. Qed.

(** The sum of amounts in hundredths, each addition rounded to a double,
    stays within [n * (3 W + 400) / 100] units in the last place of the
    sum of the hundredths, [W] bounding the absolute amounts. *)
Lemma fold_nadd_near (W : Z) (cs : list Z) :
  forall (acc : Q) (a : Z) (E : Q),
    binary64 acc = Fin acc ->
    (Z.abs a + sum_abs cs <= W)%Z ->
    (W <= 2 ^ 60)%Z ->
    Qabs (acc - (a # 100)) <= E ->
    E + inject_Z (Z.of_nat (List.length cs)) * ((3 * inject_Z W * (1 # 100) + 4) * ulp53) <= 1 ->
    exists r,
      fold_left nadd (map cents cs) (Fin acc) = Fin r
      /\ binary64 r = Fin r
      /\ Qabs (r - ((a + sum_Z cs) # 100))
         <= E + inject_Z (Z.of_nat (List.length cs)) * ((3 * inject_Z W * (1 # 100) + 4) * ulp53).
Proof.
  induction cs as [| c rest IH]; intros acc a E Hdbl HW Hbig Hacc Hone.
  - exists acc. split; [reflexivity | split; [exact Hdbl |]].
    cbn [sum_Z fold_right List.length Z.of_nat].
    rewrite Z.add_0_r. change (inject_Z 0) with 0. lra.
  - cbn [sum_abs fold_right] in HW. fold (sum_abs rest) in HW.
    assert (0 <= sum_abs rest)%Z as Hrest.
    { clear. induction rest; cbn; [lia |]. fold (sum_abs rest). lia. }
    destruct (cents_near c ltac:(lia)) as (x & Hx & Hxn).
    cbn [map fold_left]. rewrite Hx.
    rewrite (nadd_Fin _ _ Hdbl (cents_double _ _ Hx)).
    assert (0 <= inject_Z W) as HW0.
    { change 0 with (inject_Z 0). rewrite <- Zle_Qle. lia. }
    assert (inject_Z (Z.abs a) + inject_Z (Z.abs c) <= inject_Z W) as HWq.
    { rewrite <- inject_Z_plus, <- Zle_Qle. lia. }
    assert (0 <= inject_Z (Z.abs a)) as Ha0.
    { change 0 with (inject_Z 0). rewrite <- Zle_Qle. lia. }
    assert (0 <= inject_Z (Z.abs c)) as Hc0.
    { change 0 with (inject_Z 0). rewrite <- Zle_Qle. lia. }
    set (K := (3 * inject_Z W * (1 # 100) + 4) * ulp53) in *.
    assert (0 <= K) as HK by (unfold K, ulp53; lra).
    assert (0 <= inject_Z (Z.of_nat (List.length rest))) as Hlen.
    { change 0 with (inject_Z 0). rewrite <- Zle_Qle. lia. }
    assert (inject_Z (Z.of_nat (List.length (c :: rest)))
            == inject_Z (Z.of_nat (List.length rest)) + 1) as Elen.
    { cbn [List.length]. rewrite Nat2Z.inj_succ, <- Z.add_1_r, inject_Z_plus.
      reflexivity. }
    rewrite Elen in Hone.
    assert (0 <= E) as HE0.
    { apply Qle_trans with (Qabs (acc - (a # 100))); [apply Qabs_nonneg | exact Hacc]. }
    assert (0 <= inject_Z (Z.of_nat (List.length rest)) * K) as HlK.
    { apply Qmult_le_0_compat; assumption. }
    assert (E <= 1) as HE1 by lra.
    pose proof (cents_frac a) as Fa. pose proof (cents_frac c) as Fc.
    pose proof (Qabs_inject a) as Aa. pose proof (Qabs_inject c) as Ac.
    assert (Qabs (acc + x) <= 2 * inject_Z W * (1 # 100) + 2) as Hy.
    { apply Qabs_Qle_condition in Hacc, Hxn. apply Qabs_Qle_condition.
      rewrite Fa in Hacc. rewrite Fc in Hxn.
      assert (- inject_Z (Z.abs a) <= inject_Z a <= inject_Z (Z.abs a)) as Sa.
      { rewrite <- Aa. apply Qabs_Qle_condition. lra. }
      assert (- inject_Z (Z.abs c) <= inject_Z c <= inject_Z (Z.abs c)) as Sc.
      { rewrite <- Ac. apply Qabs_Qle_condition. lra. }
      unfold ulp53 in *. lra. }
    destruct (binary64_near (acc + x)) as (z & Hz & Hzn).
    { apply Qle_trans with (2 * inject_Z W * (1 # 100) + 2); [exact Hy |].
      apply Qle_trans with (inject_Z (2 * W + 2)).
      - rewrite inject_Z_plus, inject_Z_mult. change (inject_Z 2) with 2. lra.
      - apply small_pow2_1000. lia. }
    rewrite Hz.
    destruct (IH z (a + c)%Z (E + K)) as (r & Hr & Hd & Hrn).
    + apply (binary64_idem _ _ Hz).
    + lia.
    + exact Hbig.
    + assert ((a + c # 100) == (a # 100) + (c # 100)) as Es.
      { rewrite (cents_frac a), (cents_frac c), (cents_frac (a + c)), inject_Z_plus. ring. }
      rewrite Es.
      setoid_replace (z - ((a # 100) + (c # 100)))
        with ((z - (acc + x)) + (acc - (a # 100)) + (x - (c # 100))) by ring.
      eapply Qle_trans; [apply Qabs_triangle |].
      eapply Qle_trans; [apply Qplus_le_compat; [apply Qabs_triangle | apply Qle_refl] |].
      unfold K. unfold ulp53 in *. lra.
    + lra.
    + exists r. split; [exact Hr | split; [exact Hd |]].
      cbn [sum_Z fold_right]. fold (sum_Z rest).
      rewrite Z.add_assoc. rewrite Elen. lra.
Qed.

Lemma roundCurrency_near (x : Q) (k : Z) :
  binary64 x = Fin x ->
  Qabs (x - (k # 100)) < 1 # 200 -> roundCurrency (Fin x) = cents k.
Proof.
  intros Hx H. rewrite (roundCurrency_Fin x Hx). rewrite (round2_near x k H).
  apply binary64_compat, Qred_correct.
Qed.

Lemma sum_abs_nonneg (cs : list Z) : (0 <= sum_abs cs)%Z.
Proof. induction cs; cbn; [lia |]. fold (sum_abs cs). lia. Qed.

(** Rounding the sum of amounts in hundredths gives the sum of the
    hundredths, as long as the amounts are not astronomical. *)
Lemma fsum_cents (cs : list Z) :
  (Z.of_nat (List.length cs) * (3 * sum_abs cs + 400) < 2 ^ 52)%Z ->
  roundCurrency (fsum (map cents cs)) = cents (sum_Z cs).
Proof.
  intros H. pose proof (sum_abs_nonneg cs) as HW.
  set (W := sum_abs cs) in *. set (n := Z.of_nat (List.length cs)) in *.
  assert (0 <= n)%Z as Hn by (unfold n; lia).
  assert (n = 0 \/ 1 <= n)%Z as [Hz | Hp] by lia.
  - destruct cs; [| discriminate]. vm_compute. reflexivity.
  - assert (W <= 2 ^ 60)%Z as Hbig by nia.
    assert (inject_Z n * (3 * inject_Z W + 400) < 4503599627370496) as Hq.
    { change 3 with (inject_Z 3). change 400 with (inject_Z 400).
      change 4503599627370496 with (inject_Z (2 ^ 52)).
      rewrite <- inject_Z_mult, <- inject_Z_plus, <- inject_Z_mult, <- Zlt_Qlt.
      exact H. }
    pose proof (inject_Z_nonneg n Hn) as Hn0.
    pose proof (inject_Z_nonneg W HW) as HW0.
    assert (0 <= inject_Z n * inject_Z W) as Hnw by (apply Qmult_le_0_compat; assumption).
    destruct (fold_nadd_near W cs 0 0%Z 0) as (r & Hr & Hd & Hrn).
    + reflexivity.
    + cbn. fold W. lia.
    + exact Hbig.
    + vm_compute. discriminate.
    + fold n. unfold ulp53. lra.
    + unfold fsum, of_Z. change (inject_Z 0) with 0. rewrite Hr.
      apply (roundCurrency_near _ _ Hd). rewrite Z.add_0_l in Hrn. fold n in Hrn.
      eapply Qle_lt_trans; [exact Hrn |]. unfold ulp53. lra.
Qed.

Lemma pair_near (op : Q -> Q -> Q) (a b : Z) (x y : Q) :
  (forall p q, Qabs (op p q) <= Qabs p + Qabs q) ->
  (Z.abs a + Z.abs b < 2 ^ 49)%Z ->
  cents a = Fin x -> cents b = Fin y ->
  Qabs (x - (a # 100)) <= (inject_Z (Z.abs a) * (1 # 100) + 1) * ulp53 ->
  Qabs (y - (b # 100)) <= (inject_Z (Z.abs b) * (1 # 100) + 1) * ulp53 ->
  exists z, binary64 (op x y) = Fin z
            /\ Qabs (z - op x y)
               <= (3 * (inject_Z (Z.abs a) + inject_Z (Z.abs b)) * (1 # 100) + 3) * ulp53.
Proof.
  intros Hop Hb Hx Hy Hxn Hyn.
  pose proof (inject_Z_nonneg (Z.abs a) (Z.abs_nonneg a)) as Ha0.
  pose proof (inject_Z_nonneg (Z.abs b) (Z.abs_nonneg b)) as Hb0.
  assert (inject_Z (Z.abs a) + inject_Z (Z.abs b) <= 562949953421312) as Hs.
  { change 562949953421312 with (inject_Z (2 ^ 49)).
    rewrite <- inject_Z_plus, <- Zle_Qle. lia. }
  assert (Qabs x <= inject_Z (Z.abs a) * (1 # 100) + 1
                    + inject_Z (Z.abs a) * (1 # 100)) as Bx.
  { setoid_replace x with ((x - (a # 100)) + (a # 100)) at 1 by ring.
    eapply Qle_trans; [apply Qabs_triangle |]. rewrite Qabs_cents.
    rewrite (cents_frac (Z.abs a)). unfold ulp53 in *. lra. }
  assert (Qabs y <= inject_Z (Z.abs b) * (1 # 100) + 1
                    + inject_Z (Z.abs b) * (1 # 100)) as By.
  { setoid_replace y with ((y - (b # 100)) + (b # 100)) at 1 by ring.
    eapply Qle_trans; [apply Qabs_triangle |]. rewrite Qabs_cents.
    rewrite (cents_frac (Z.abs b)). unfold ulp53 in *. lra. }
  pose proof (Hop x y) as Hxy.
  destruct (binary64_near (op x y)) as (z & Hz & Hzn).
  { apply Qle_trans with (inject_Z (2 ^ 62)); [| apply small_pow2_1000; lia].
    change (inject_Z (2 ^ 62)) with 4611686018427387904. lra. }
  exists z. split; [exact Hz |]. unfold ulp53 in *. lra.
Qed.

Lemma Qabs_plus_le (p q : Q) : Qabs (p + q) <= Qabs p + Qabs q.
Proof. apply Qabs_triangle. Qed.

Lemma Qabs_minus_le (p q : Q) : Qabs (p - q) <= Qabs p + Qabs q.
Proof.
  unfold Qminus. eapply Qle_trans; [apply Qabs_triangle |].
  rewrite Qabs_opp. apply Qle_refl.
Qed.

(** The sum and the difference of two amounts in hundredths, rounded. *)
Lemma roundCurrency_nadd_cents (a b : Z) :
  (Z.abs a + Z.abs b < 2 ^ 49)%Z ->
  roundCurrency (nadd (cents a) (cents b)) = cents (a + b).
Proof.
  intros Hb.
  destruct (cents_near a ltac:(lia)) as (x & Hx & Hxn).
  destruct (cents_near b ltac:(lia)) as (y & Hy & Hyn).
  destruct (pair_near Qplus a b x y Qabs_plus_le Hb Hx Hy Hxn Hyn) as (z & Hz & Hzn).
  rewrite Hx, Hy, (nadd_Fin _ _ (cents_double _ _ Hx) (cents_double _ _ Hy)), Hz.
  apply (roundCurrency_near _ _ (binary64_idem _ _ Hz)).
  pose proof (inject_Z_nonneg (Z.abs a) (Z.abs_nonneg a)) as Ha0.
  pose proof (inject_Z_nonneg (Z.abs b) (Z.abs_nonneg b)) as Hb0.
  assert (inject_Z (Z.abs a) + inject_Z (Z.abs b) <= 562949953421312) as Hs.
  { change 562949953421312 with (inject_Z (2 ^ 49)).
    rewrite <- inject_Z_plus, <- Zle_Qle. lia. }
  assert ((a + b # 100) == (a # 100) + (b # 100)) as Es.
  { rewrite (cents_frac a), (cents_frac b), (cents_frac (a + b)), inject_Z_plus. ring. }
  rewrite Es.
  setoid_replace (z - ((a # 100) + (b # 100)))
    with ((z - (x + y)) + (x - (a # 100)) + (y - (b # 100))) by ring.
  eapply Qle_lt_trans; [apply Qabs_triangle |].
  eapply Qle_lt_trans; [apply Qplus_le_compat; [apply Qabs_triangle | apply Qle_refl] |].
  unfold ulp53 in *. lra.
Qed.

Lemma roundCurrency_nsub_cents (a b : Z) :
  (Z.abs a + Z.abs b < 2 ^ 49)%Z ->
  roundCurrency (nsub (cents a) (cents b)) = cents (a - b).
Proof.
  intros Hb.
  destruct (cents_near a ltac:(lia)) as (x & Hx & Hxn).
  destruct (cents_near b ltac:(lia)) as (y & Hy & Hyn).
  destruct (pair_near Qminus a b x y Qabs_minus_le Hb Hx Hy Hxn Hyn) as (z & Hz & Hzn).
  rewrite Hx, Hy, (nsub_Fin _ _ (cents_double _ _ Hx) (cents_double _ _ Hy)), Hz.
  apply (roundCurrency_near _ _ (binary64_idem _ _ Hz)).
  pose proof (inject_Z_nonneg (Z.abs a) (Z.abs_nonneg a)) as Ha0.
  pose proof (inject_Z_nonneg (Z.abs b) (Z.abs_nonneg b)) as Hb0.
  assert (inject_Z (Z.abs a) + inject_Z (Z.abs b) <= 562949953421312) as Hs.
  { change 562949953421312 with (inject_Z (2 ^ 49)).
    rewrite <- inject_Z_plus, <- Zle_Qle. lia. }
  assert ((a - b # 100) == (a # 100) - (b # 100)) as Es.
  { rewrite (cents_frac a), (cents_frac b), (cents_frac (a - b)).
    unfold Z.sub. rewrite inject_Z_plus, inject_Z_opp. ring. }
  rewrite Es.
  setoid_replace (z - ((a # 100) - (b # 100)))
    with ((z - (x - y)) + (x - (a # 100)) + - (y - (b # 100))) by ring.
  eapply Qle_lt_trans; [apply Qabs_triangle |].
  eapply Qle_lt_trans; [apply Qplus_le_compat; [apply Qabs_triangle | apply Qle_refl] |].
  rewrite Qabs_opp. unfold ulp53 in *. lra.
Qed.

(** What went through [roundCurrency] is in hundredths, or not finite. *)
Lemma roundCurrency_cents_form (x : num) :
  match dbl x with
  | Fin q => exists k, Nearest2 q k /\ roundCurrency x = cents k
  | other => roundCurrency x = other
  end.
Proof.
  unfold roundCurrency. destruct (dbl x) as [| s | q]; try reflexivity.
  destruct (round2_Nearest2 q) as (k & Hk & Hn). exists k. split; [exact Hn |].
  rewrite Hk. apply binary64_compat, Qred_correct.
Qed.

Lemma reduce_sum_fsum {A : Type} (f : A -> num) (xs : list A) :
  reduce_sum f xs = fsum (map f xs).
Proof.
  unfold reduce_sum, fsum. generalize (of_Z 0).
  induction xs as [| x rest IH]; intros acc; cbn [map fold_left];
    [reflexivity | apply IH].
Qed.

(** Two decimals of a finite number are determined. *)
Lemma Rounded2_value (x : num) (q : Q) (y : num) (k : Z) :
  dbl x = Fin q -> Rounded2 x y -> Nearest2 q k -> y = cents k.
Proof.
  unfold Rounded2. intros -> (k' & Hk' & ->) Hk.
  rewrite (Nearest2_unique q k' k Hk' Hk). reflexivity.
Qed.

Lemma roundCurrency_Rounded2 (x : num) : Rounded2 x (roundCurrency x).
Proof. exact (roundCurrency_cents_form x). Qed.

(** The doubles at work: 0.1 + 0.2 is 0.30000000000000004; 1.005 lies
    below 1.005 and goes down to 1.00; a quarter of 0.7 is 0.17 and a
    quarter of 1000.30 is 250.07; 5 percent of 0.3 is 0.01 and 18 percent
    of 1000.25 is 180.04; a half that is a double goes up: 0.125 to
    0.13. *)
Example doubles_at_work :
  nadd (of_Q (1 # 10)) (of_Q (2 # 10)) = Fin (1351079888211149 # 4503599627370496)
  /\ roundCurrency (of_Q (1005 # 1000)) = of_Z 1
  /\ roundCurrency (nmul (of_Q (7 # 10)) (of_Q (25 # 100))) = cents 17
  /\ roundCurrency (nmul (of_Q (100030 # 100)) (of_Q (25 # 100))) = cents 25007
  /\ roundCurrency (nmul (of_Q (3 # 10)) (ndiv100 (of_Z 5))) = cents 1
  /\ roundCurrency (nmul (of_Q (100025 # 100)) (ndiv100 (of_Z 18))) = cents 18004
  /\ roundCurrency (of_Q (125 # 1000)) = cents 13
  /\ roundCurrency (Fin (1005 # 1000)) = of_Z 1
  /\ nadd (Fin (1 # 10)) (Fin (2 # 10)) = Fin (1351079888211149 # 4503599627370496).
Proof. vm_compute. repeat split. Qed.

Lemma Modest_sum (cs : list Z) :
  Modest cs ->
  (Z.of_nat (List.length cs) * (3 * sum_abs cs + 400) < 2 ^ 52)%Z
  /\ (sum_abs cs < 2 ^ 49)%Z.
Proof.
  unfold Modest. pose proof (sum_abs_nonneg cs). split; nia.
Qed.

Lemma quarter_exact : of_Q (1 # 4) = Fin (1 # 4).
Proof. vm_compute. reflexivity. Qed.

(** A quarter of an amount in hundredths, to two decimals: a hundredth
    next to the quarter, half a hundredth going either way. *)
Lemma quarter_cents (t : Z) :
  (Z.abs t < 2 ^ 49)%Z ->
  exists k, roundCurrency (nmul (cents t) (of_Q (1 # 4))) = cents k
            /\ (Z.abs (4 * k - t) <= 2)%Z.
Proof.
  intros Ht. destruct (cents_near t ltac:(lia)) as (x & Hx & Hxn).
  rewrite Hx, quarter_exact.
  rewrite (nmul_Fin x (1 # 4) (cents_double _ _ Hx) quarter_exact).
  pose proof (inject_Z_nonneg (Z.abs t) (Z.abs_nonneg t)) as Ht0.
  assert (inject_Z (Z.abs t) <= 562949953421312) as Hs.
  { change 562949953421312 with (inject_Z (2 ^ 49)). rewrite <- Zle_Qle. lia. }
  assert (Qabs x <= inject_Z (Z.abs t) * (1 # 100) + 1
                    + inject_Z (Z.abs t) * (1 # 100)) as Bx.
  { setoid_replace x with ((x - (t # 100)) + (t # 100)) at 1 by ring.
    eapply Qle_trans; [apply Qabs_triangle |]. rewrite Qabs_cents.
    rewrite (cents_frac (Z.abs t)). unfold ulp53 in *. lra. }
  assert (Qabs (x * (1 # 4)) == Qabs x * (1 # 4)) as Eq4.
  { rewrite Qabs_Qmult. reflexivity. }
  destruct (binary64_near (x * (1 # 4))) as (y & Hy & Hyn).
  { apply Qle_trans with (inject_Z (2 ^ 62)); [| apply small_pow2_1000; lia].
    change (inject_Z (2 ^ 62)) with 4611686018427387904. lra. }
  rewrite Hy. pose proof (roundCurrency_cents_form (Fin y)) as Hform.
  cbn [dbl] in Hform. rewrite (binary64_idem _ _ Hy) in Hform.
  destruct Hform as (k & Hk & Hr).
  exists k. split; [exact Hr |].
  destruct Hk as [Hk _]. apply Qabs_Qle_condition in Hk, Hyn, Hxn.
  rewrite Eq4 in Hyn. rewrite (cents_frac t) in Hxn.
  assert (- inject_Z (Z.abs t) <= inject_Z t <= inject_Z (Z.abs t)) as St.
  { rewrite <- Qabs_inject. apply Qabs_Qle_condition. lra. }
  assert (inject_Z (4 * k - t) < 3 /\ -3 < inject_Z (4 * k - t)) as [Hu Hl].
  { unfold Z.sub. rewrite inject_Z_plus, inject_Z_mult, inject_Z_opp.
    change (inject_Z 4) with 4. unfold ulp53 in *. split; lra. }
  change 3 with (inject_Z 3) in Hu. change (-3) with (inject_Z (-3)) in Hl.
  rewrite <- Zlt_Qlt in Hu, Hl. lia.
Qed.

Lemma sum_Z_abs (cs : list Z) : (Z.abs (sum_Z cs) <= sum_abs cs)%Z.
Proof.
  induction cs as [| c rest IH]; cbn [sum_Z sum_abs fold_right]; [lia |].
  fold (sum_Z rest). fold (sum_abs rest). lia.
Qed.

Lemma sum_abs_app (cs ps : list Z) :
  sum_abs (cs ++ ps) = (sum_abs cs + sum_abs ps)%Z.
Proof.
  induction cs as [| c rest IH]; cbn [app sum_abs fold_right]; [reflexivity |].
  fold (sum_abs (rest ++ ps)). fold (sum_abs rest). rewrite IH. lia.
Qed.

Lemma sum_Z_app (cs ps : list Z) : sum_Z (cs ++ ps) = (sum_Z cs + sum_Z ps)%Z.
Proof.
  induction cs as [| c rest IH]; cbn [app sum_Z fold_right]; [reflexivity |].
  fold (sum_Z (rest ++ ps)). fold (sum_Z rest). rewrite IH. lia.
Qed.

Lemma Modest_app (cs ps : list Z) :
  Modest (cs ++ ps) ->
  Modest cs /\ Modest ps /\ (Z.abs (sum_Z cs) + Z.abs (sum_Z ps) < 2 ^ 49)%Z.
Proof.
  unfold Modest. rewrite sum_abs_app, length_app, Nat2Z.inj_add.
  pose proof (sum_abs_nonneg cs). pose proof (sum_abs_nonneg ps).
  pose proof (sum_Z_abs cs). pose proof (sum_Z_abs ps).
  intros Hm. repeat split; nia.
Qed.

End Numbers.

(** ** Running a computation *)

Lemma bind_inr {A B : Type} (c : M A) (k : A -> M B) (s s2 : Store) (b : B) :
  bind c k s = (s2, inr b) ->
  exists a s1, c s = (s1, inr a) /\ k a s1 = (s2, inr b).
Proof.
  unfold bind. destruct (c s) as [s1 [e | a]]; intros H.
  - discriminate.
  - exists a, s1. split; [reflexivity | exact H].
Qed.

Lemma bind_run {A B : Type} (c : M A) (k : A -> M B) (s s1 : Store) (a : A) :
  c s = (s1, inr a) -> bind c k s = k a s1.
Proof. intros H. unfold bind. rewrite H. reflexivity. Qed.

Lemma bind_fail {A B : Type} (c : M A) (k : A -> M B) (s s1 : Store) (e : Exn) :
  c s = (s1, inl e) -> bind c k s = (s1, inl e).
Proof. intros H. unfold bind. rewrite H. reflexivity. Qed.

Lemma ret_inr {A : Type} (a b : A) (s s2 : Store) :
  ret a s = (s2, inr b) -> s2 = s /\ b = a.
Proof. unfold ret. intros H. inversion H. split; reflexivity. Qed.

Lemma lift_inr {A : Type} (r : Exn + A) (a : A) (s s2 : Store) :
  lift r s = (s2, inr a) -> s2 = s /\ r = inr a.
Proof.
  destruct r as [e | x]; unfold lift, throw, ret; intros H; inversion H.
  split; reflexivity.
Qed.

(** ** Strings and tables *)

Lemma eqb_true (a b : string) : (a =? b) = true -> a = b.
Proof. apply String.eqb_eq. Qed.

Lemma truthy_str_iff (s : string) : truthy_str s = true <-> s <> "".
Proof.
  unfold truthy_str. rewrite negb_true_iff. split.
  - intros H E. subst. discriminate.
  - intros H. apply String.eqb_neq. exact H.
Qed.

Lemma includes_In {A : Type} (eqb : A -> A -> bool) (xs : list A) (x : A) :
  (forall a b, eqb a b = true <-> a = b) ->
  includes eqb xs x = true <-> In x xs.
Proof.
  intros Heq. unfold includes. rewrite existsb_exists. split.
  - intros (y & Hy & E). apply Heq in E. subst. exact Hy.
  - intros H. exists x. split; [exact H | apply Heq; reflexivity].
Qed.

Lemma ReservationStatus_eqb_eq (a b : ReservationStatus) :
  ReservationStatus_eqb a b = true <-> a = b.
Proof. destruct a, b; simpl; split; intros H; congruence. Qed.

Lemma RoomStatus_eqb_eq (a b : RoomStatus) : RoomStatus_eqb a b = true <-> a = b.
Proof. destruct a, b; simpl; split; intros H; congruence. Qed.

Section TableFacts.
Context {T : Type} (tb : Table T).

Lemma cache_get_key (id : string) (records : list T) (r : T) :
  cache_get tb id records = Some r -> t_key tb r = id.
Proof.
  unfold cache_get. intros H. apply find_some in H as [_ H].
  apply eqb_true. exact H.
Qed.

(** Reading back the record that was just written. *)
Lemma cache_get_replace (id : string) (records : list T) (old new : T) :
  cache_get tb id records = Some old ->
  t_key tb new = id ->
  cache_get tb id (cache_replace tb id new records) = Some new.
Proof.
  intros Hget Hkey. induction records as [| r rest IH]; simpl in *.
  - discriminate.
  - destruct (t_key tb r =? id) eqn:E; simpl.
    + rewrite Hkey, String.eqb_refl. reflexivity.
    + rewrite E. apply IH. exact Hget.
Qed.

Lemma cache_get_None (id : string) (records : list T) :
  cache_get tb id records = None -> ~ In id (map (t_key tb) records).
Proof.
  unfold cache_get. intros H Hin. apply in_map_iff in Hin as (r & Hk & Hr).
  pose proof (find_none _ _ H r Hr) as Hn. simpl in Hn.
  rewrite Hk, String.eqb_refl in Hn. discriminate.
Qed.

Lemma cache_get_unique (records : list T) (r : T) :
  NoDup (map (t_key tb) records) -> In r records ->
  cache_get tb (t_key tb r) records = Some r.
Proof.
  induction records as [| x rest IH]; simpl; intros Hnd Hin; [contradiction |].
  inversion Hnd as [| k ks Hnotin Hnd']; subst.
  destruct Hin as [-> | Hin].
  - rewrite String.eqb_refl. reflexivity.
  - destruct (t_key tb x =? t_key tb r) eqn:E.
    + apply eqb_true in E. exfalso. apply Hnotin. rewrite E.
      apply in_map. exact Hin.
    + apply IH; assumption.
Qed.

Lemma cache_replace_keys (id : string) (new : T) (records : list T) :
  t_key tb new = id ->
  map (t_key tb) (cache_replace tb id new records) = map (t_key tb) records.
Proof.
  intros Hk. induction records as [| r rest IH]; simpl; [reflexivity |].
  destruct (t_key tb r =? id) eqn:E; simpl.
  - apply eqb_true in E. congruence.
  - rewrite IH. reflexivity.
Qed.

(** A record found by a predicate is still the first one found after it
    was rewritten in place, as long as keys are unique. *)
Lemma find_replace (p : T -> bool) (records : list T) (old new : T) :
  NoDup (map (t_key tb) records) ->
  find p records = Some old ->
  p new = true ->
  find p (cache_replace tb (t_key tb old) new records) = Some new.
Proof.
  intros Hnd Hfind Hp. induction records as [| x rest IH]; simpl in *.
  - discriminate.
  - inversion Hnd as [| k ks Hnotin Hnd']; subst.
    destruct (p x) eqn:Epx.
    + inversion Hfind; subst. rewrite String.eqb_refl. simpl.
      rewrite Hp. reflexivity.
    + destruct (t_key tb x =? t_key tb old) eqn:E.
      * apply eqb_true in E. exfalso. apply Hnotin. rewrite E.
        apply in_map. apply find_some in Hfind as [Hin _]. exact Hin.
      * simpl. rewrite Epx. apply IH; assumption.
Qed.
End TableFacts.

(** ** Availability *)

Section Availability.
Context {P : Platform}.

Lemma date_lt_Before (a b : option Z) : date_lt a b = true <-> Before a b.
Proof.
  unfold date_lt, Before. split.
  - destruct a as [x |], b as [y |]; try discriminate.
    intros H. exists x, y. apply Z.ltb_lt in H. auto.
  - intros (x & y & -> & -> & H). apply Z.ltb_lt. exact H.
Qed.

Lemma rangesOverlap_Overlap (startA endA startB endB : string) :
  rangesOverlap startA endA startB endB = true <-> Overlap startA endA startB endB.
Proof.
  unfold rangesOverlap, Overlap. rewrite andb_true_iff, !date_lt_Before.
  reflexivity.
Qed.

Lemma active_Active (status : ReservationStatus) :
  includes ReservationStatus_eqb ACTIVE_RESERVATION_STATUSES status = true
  <-> Active status.
Proof.
  rewrite (includes_In _ _ _ ReservationStatus_eqb_eq).
  unfold ACTIVE_RESERVATION_STATUSES, Active. simpl.
  intuition congruence.
Qed.

(** A reservation without a room never is the one [find] stops at. *)
Lemma conflicts_type_only (roomId a d : string) (excluded : option string)
    (r : ReservationRecord) :
  byTypeOnly r = true -> conflicts roomId a d excluded r = false.
Proof.
  unfold byTypeOnly, conflicts. destruct (r_roomId r); [discriminate |].
  reflexivity.
Qed.

Lemma conflicts_Conflict (roomId a d : string) (excluded : option string)
    (r : ReservationRecord) :
  roomId <> "" -> excluded <> Some "" ->
  conflicts roomId a d excluded r = true <-> Conflict roomId a d excluded r.
Proof.
  intros Hroom Hex. unfold conflicts, Conflict. split.
  - destruct (r_roomId r) as [rid |] eqn:Erid; cbn [truthy_ostr negb nullish];
      [| discriminate].
    destruct (truthy_str rid) eqn:Et; cbn [negb]; [| discriminate].
    destruct (rid =? roomId) eqn:Eroom; cbn [negb]; [| discriminate].
    apply eqb_true in Eroom. subst rid.
    destruct (truthy_ostr excluded && (r_id r =? nullish excluded "")) eqn:Eex;
      [discriminate |].
    destruct (includes ReservationStatus_eqb ACTIVE_RESERVATION_STATUSES (r_status r))
      eqn:Eact; cbn [negb]; [| discriminate].
    intros Hov. repeat split.
    + intros ->. simpl in Eex. rewrite String.eqb_refl, andb_true_r in Eex.
      apply Hex. f_equal. unfold truthy_str in Eex.
      apply negb_false_iff in Eex. apply eqb_true in Eex. exact Eex.
    + apply active_Active. exact Eact.
    + apply rangesOverlap_Overlap in Hov. apply Hov.
    + apply rangesOverlap_Overlap in Hov. apply Hov.
  - intros (Erid & Hne & Hact & Hov). rewrite Erid.
    cbn [truthy_ostr negb nullish].
    apply truthy_str_iff in Hroom. rewrite Hroom, String.eqb_refl.
    cbn [negb].
    assert (truthy_ostr excluded && (r_id r =? nullish excluded "") = false) as ->.
    { destruct excluded as [x |]; simpl; [| reflexivity].
      apply andb_false_iff. right. apply String.eqb_neq. congruence. }
    apply active_Active in Hact. rewrite Hact. cbn [negb].
    apply rangesOverlap_Overlap. exact Hov.
Qed.

(** The two tests by truthiness: no reservation conflicts on a room whose
    identifier is the empty string, and excluding the empty identifier
    excludes nothing. *)
Lemma conflicts_empty_ids (roomId a d : string) (excluded : option string)
    (r : ReservationRecord) :
  conflicts "" a d excluded r = false
  /\ conflicts roomId a d (Some "") r = conflicts roomId a d None r.
Proof.
  split; [| reflexivity].
  unfold conflicts. destruct (r_roomId r) as [rid |]; [| reflexivity].
  cbn [truthy_ostr nullish]. unfold truthy_str.
  destruct (rid =? "") eqn:E; reflexivity.
Qed.

Lemma find_existsb {A : Type} (p : A -> bool) (l : list A) :
  find p l = None <-> existsb p l = false.
Proof.
  induction l as [| x rest IH]; simpl; [tauto |].
  destruct (p x); simpl; [split; discriminate | exact IH].
Qed.

Lemma ensureRoomAvailable_run (roomId a d : string) (excluded : option string)
    (s : Store) :
  ensureRoomAvailable roomId a d excluded s
  = (s, if existsb (conflicts roomId a d excluded) (st_reservations s)
        then inl RoomUnavailable else inr tt).
Proof.
  unfold ensureRoomAvailable, bind, getAll. simpl.
  destruct (find _ _) eqn:E.
  - destruct (existsb _ _) eqn:E'; [reflexivity |].
    apply find_existsb in E'. congruence.
  - apply find_existsb in E. rewrite E. reflexivity.
Qed.

Lemma existsb_filter_same {A : Type} (p q : A -> bool) (l : list A) :
  (forall x, q x = false -> p x = false) ->
  existsb p (filter q l) = existsb p l.
Proof.
  intros H. induction l as [| x rest IH]; simpl; [reflexivity |].
  destruct (q x) eqn:E; simpl.
  - rewrite IH. reflexivity.
  - rewrite (H x E). simpl. exact IH.
Qed.

Lemma conflicts_withoutTypeOnly (roomId a d : string) (excluded : option string)
    (s : Store) :
  existsb (conflicts roomId a d excluded) (st_reservations (withoutTypeOnly s))
  = existsb (conflicts roomId a d excluded) (st_reservations s).
Proof.
  unfold withoutTypeOnly. simpl. apply existsb_filter_same.
  intros r H. apply conflicts_type_only. apply negb_false_iff. exact H.
Qed.

Lemma collectAvailable_run (rooms : list RoomRecord) (query : AvailabilityQuery)
    (acc : list RoomRecord) (s : Store) :
  collectAvailable rooms query acc s
  = (s, inr (acc ++ freeRooms query (st_reservations s) rooms)%list).
Proof.
  revert acc. induction rooms as [| room rest IH]; intros acc; simpl.
  - unfold ret. rewrite app_nil_r. reflexivity.
  - unfold bind at 1. unfold try_catch, bind at 1.
    rewrite ensureRoomAvailable_run.
    destruct (existsb _ _) eqn:E; simpl.
    + apply IH.
    + rewrite IH, <- app_assoc. reflexivity.
Qed.

Lemma listRooms_run (s : Store) :
  listRooms s
  = (s, match hd_error (st_property s) with
        | None => inl (HttpError 400 "Property profile is not configured")
        | Some profile =>
            inr (map withRoomDefaults
                   (filter (fun record => rm_hotelCode record =? pp_hotelCode profile)
                           (st_rooms s)))
        end).
Proof.
  unfold listRooms, ensurePropertyProfile, getPropertyProfile, bind, getAll.
  destruct (hd_error (st_property s)); reflexivity.
Qed.

Lemma freeRooms_withoutTypeOnly (query : AvailabilityQuery) (s : Store)
    (rooms : list RoomRecord) :
  freeRooms query (st_reservations (withoutTypeOnly s)) rooms
  = freeRooms query (st_reservations s) rooms.
Proof.
  unfold freeRooms. apply filter_ext. intros room.
  rewrite conflicts_withoutTypeOnly. reflexivity.
Qed.

Lemma getAvailability_withoutTypeOnly (hotelCode : string) (query : AvailabilityQuery)
    (s : Store) :
  snd (getAvailability hotelCode query (withoutTypeOnly s))
  = snd (getAvailability hotelCode query s).
Proof.
  unfold getAvailability, bind. rewrite !listRooms_run.
  change (st_property (withoutTypeOnly s)) with (st_property s).
  change (st_rooms (withoutTypeOnly s)) with (st_rooms s).
  destruct (hd_error (st_property s)) as [profile |]; [| reflexivity].
  rewrite !collectAvailable_run, freeRooms_withoutTypeOnly. reflexivity.
Qed.

(** C1.  The availability check signals a conflict exactly when some stored
    reservation has the queried room, is not the excluded one, is active
    (DRAFT, CONFIRMED or CHECKED_IN) and overlaps the queried interval, both
    read as half-open; otherwise it returns, and either way the store is
    left as it was.  An interval that starts on the departure date of a
    reservation never conflicts with that reservation.  Identifiers are
    non-empty strings. *)
Theorem ensureRoomAvailable_conflict_iff (roomId arrivalDate departureDate : string)
    (excluded : option string) (s : Store) :
  roomId <> "" -> excluded <> Some "" ->
  (ensureRoomAvailable roomId arrivalDate departureDate excluded s
     = (s, inl RoomUnavailable)
   <-> exists r, In r (st_reservations s)
                 /\ Conflict roomId arrivalDate departureDate excluded r)
  /\ (ensureRoomAvailable roomId arrivalDate departureDate excluded s = (s, inr tt)
      <-> ~ exists r, In r (st_reservations s)
                      /\ Conflict roomId arrivalDate departureDate excluded r)
  /\ (forall r, ~ Conflict roomId (r_departureDate r) departureDate excluded r).
Proof.
  intros Hroom Hex.
  assert (existsb (conflicts roomId arrivalDate departureDate excluded)
                  (st_reservations s) = true
          <-> exists r, In r (st_reservations s)
                        /\ Conflict roomId arrivalDate departureDate excluded r) as Hiff.
  { rewrite existsb_exists. split; intros (r & Hin & Hc); exists r; split; auto;
      apply (conflicts_Conflict _ _ _ _ _ Hroom Hex); exact Hc. }
  rewrite ensureRoomAvailable_run.
  destruct (existsb _ _) eqn:E; repeat split.
  - intros _. apply Hiff. reflexivity.
  - discriminate.
  - intros Hn. exfalso. apply Hn. apply Hiff. reflexivity.
  - intros r Hc. unfold Conflict, Overlap, Before in Hc.
    destruct Hc as (_ & _ & _ & _ & (x & y & Hx & Hy & Hlt)).
    rewrite Hx in Hy. inversion Hy. lia.
  - discriminate.
  - intros Hc. apply Hiff in Hc. discriminate.
  - intros _ Hc. apply Hiff in Hc. discriminate.
  - intros r Hc. unfold Conflict, Overlap, Before in Hc.
    destruct Hc as (_ & _ & _ & _ & (x & y & Hx & Hy & Hlt)).
    rewrite Hx in Hy. inversion Hy. lia.
Qed.

(** C9.  A reservation whose [roomId] is unset is never the conflict the
    availability check finds: [ensureRoomAvailable] and [getAvailability]
    answer as they do on the store from which every such reservation has
    been removed, and on a store that holds nothing but such reservations
    every room is available for all dates. *)
Theorem type_only_reservations_hold_no_inventory (s : Store) :
  (forall r roomId arrivalDate departureDate excluded,
      r_roomId r = None ->
      conflicts roomId arrivalDate departureDate excluded r = false)
  /\ (forall roomId arrivalDate departureDate excluded,
         snd (ensureRoomAvailable roomId arrivalDate departureDate excluded s)
         = snd (ensureRoomAvailable roomId arrivalDate departureDate excluded
                  (withoutTypeOnly s)))
  /\ (forall hotelCode query,
         snd (getAvailability hotelCode query s)
         = snd (getAvailability hotelCode query (withoutTypeOnly s)))
  /\ (forall roomId arrivalDate departureDate excluded,
         snd (ensureRoomAvailable roomId arrivalDate departureDate excluded
                (set_reservations (filter byTypeOnly (st_reservations s)) s))
         = inr tt).
Proof.
  repeat split.
  - intros r roomId a d ex H. apply conflicts_type_only.
    unfold byTypeOnly. rewrite H. reflexivity.
  - intros roomId a d ex. rewrite !ensureRoomAvailable_run. simpl.
    rewrite <- (conflicts_withoutTypeOnly roomId a d ex s). reflexivity.
  - intros hotelCode query. symmetry. apply getAvailability_withoutTypeOnly.
  - intros roomId a d ex. rewrite ensureRoomAvailable_run. simpl.
    assert (existsb (conflicts roomId a d ex)
              (filter byTypeOnly (st_reservations s)) = false) as ->; [| reflexivity].
    induction (st_reservations s) as [| r rest IH]; simpl; [reflexivity |].
    destruct (byTypeOnly r) eqn:E; simpl; [| exact IH].
    rewrite (conflicts_type_only _ _ _ _ _ E). exact IH.
Qed.
End Availability.

(** Room 101 is held from 2026-01-01 to 2026-01-04: a stay that begins on
    2026-01-03 conflicts, one that begins on the day of departure does not. *)
Lemma ensureRoomAvailable_conflict_witness :
  "101" <> ""
  /\ @None string <> Some ""
  /\ ensureRoomAvailable (P := Runtime.platform) "101" "2026-01-03" "2026-01-05" None
       (Hotel.store [Hotel.stay] [Hotel.room "101" "101" AVAILABLE] [])
     = (Hotel.store [Hotel.stay] [Hotel.room "101" "101" AVAILABLE] [],
        inl RoomUnavailable)
  /\ ensureRoomAvailable (P := Runtime.platform) "101" "2026-01-04" "2026-01-06" None
       (Hotel.store [Hotel.stay] [Hotel.room "101" "101" AVAILABLE] [])
     = (Hotel.store [Hotel.stay] [Hotel.room "101" "101" AVAILABLE] [], inr tt).
Proof.
  assert ("101" <> "") as Hroom by discriminate.
  assert (@None string <> Some "") as Hex by discriminate.
  split; [exact Hroom | split; [exact Hex | split]].
  - apply (ensureRoomAvailable_conflict_iff (P := Runtime.platform)
             "101" "2026-01-03" "2026-01-05" None _ Hroom Hex).
    exists Hotel.stay. split; [left; reflexivity |].
    split; [reflexivity | split; [| split; [| split]]].
    + discriminate.
    + right. left. reflexivity.
    + apply (date_lt_Before (Some 1767225600000%Z) (Some 1767571200000%Z)).
      reflexivity.
    + apply (date_lt_Before (Some 1767398400000%Z) (Some 1767484800000%Z)).
      reflexivity.
  - destruct (ensureRoomAvailable_conflict_iff (P := Runtime.platform)
                "101" "2026-01-04" "2026-01-06" None
                (Hotel.store [Hotel.stay] [Hotel.room "101" "101" AVAILABLE] [])
                Hroom Hex) as (_ & Hfree & Hturn).
    apply Hfree. intros (r & [<- | []] & Hc).
    exact (Hturn Hotel.stay Hc).
Defined.

(** ** Writes *)

Section Writes.
Context {T : Type} (tb : Table T).

Lemma update_run (id : string) (merge : T -> T) (s : Store) (existing : T) :
  cache_get tb id (t_records tb s) = Some existing ->
  st_faults (t_store tb (cache_replace tb id (merge existing) (t_records tb s)) s) = [] ->
  update tb id merge s
  = (t_store tb (cache_replace tb id (merge existing) (t_records tb s)) s,
     inr (merge existing)).
Proof.
  intros Hget Hfaults. unfold update. rewrite Hget.
  unfold bind, persist. rewrite Hfaults. reflexivity.
Qed.

(** The disk takes the write ... *)
Lemma update_written (id : string) (merge : T -> T) (s : Store) (existing : T)
    (rest : list bool) :
  cache_get tb id (t_records tb s) = Some existing ->
  st_faults (t_store tb (cache_replace tb id (merge existing) (t_records tb s)) s)
  = false :: rest ->
  update tb id merge s
  = (set_faults rest
       (t_store tb (cache_replace tb id (merge existing) (t_records tb s)) s),
     inr (merge existing)).
Proof.
  intros Hget Hfaults. unfold update. rewrite Hget.
  unfold bind, persist. rewrite Hfaults. reflexivity.
Qed.

(** ... or fails it: the cache holds the merge all the same. *)
Lemma update_not_written (id : string) (merge : T -> T) (s : Store) (existing : T)
    (rest : list bool) :
  cache_get tb id (t_records tb s) = Some existing ->
  st_faults (t_store tb (cache_replace tb id (merge existing) (t_records tb s)) s)
  = true :: rest ->
  update tb id merge s
  = (set_faults rest
       (t_store tb (cache_replace tb id (merge existing) (t_records tb s)) s),
     inl (JsError "write failed")).
Proof.
  intros Hget Hfaults. unfold update. rewrite Hget.
  unfold bind, persist. rewrite Hfaults. reflexivity.
Qed.
(** A successful [update] found the record and stored its merge; a write
    to disk may have been used up. *)
Lemma update_inr (id : string) (merge : T -> T) (s s2 : Store) (x : T) :
  update tb id merge s = (s2, inr x) ->
  exists existing,
    cache_get tb id (t_records tb s) = Some existing
    /\ x = merge existing
    /\ (s2 = t_store tb (cache_replace tb id x (t_records tb s)) s
        \/ exists rest,
             s2 = set_faults rest
                    (t_store tb (cache_replace tb id x (t_records tb s)) s)).
Proof.
  unfold update. destruct (cache_get tb id (t_records tb s)) as [e |]; [| discriminate].
  unfold bind, persist, ret.
  destruct (st_faults _) as [| [|] rest]; intros H; inversion H; subst.
  - exists e. auto.
  - exists e. repeat split. right. exists rest. reflexivity.
Qed.
End Writes.

(** ** Deleting a reservation *)

(** C5, as amended.  A reservation that is CHECKED_IN or CHECKED_OUT cannot be
    deleted: the call fails with a 400 and the store is left as it was.  In
    any other status, CANCELLED included, the record is dropped from the
    table (the call returns unless the write to disk fails), so a delete that
    returned was of a DRAFT, CONFIRMED or CANCELLED reservation. *)
Theorem deleteReservation_by_status (id : string) (s : Store)
    (existing : ReservationRecord) :
  cache_get reservationsTable id (st_reservations s) = Some existing ->
  ((r_status existing = CHECKED_IN \/ r_status existing = CHECKED_OUT) ->
     deleteReservation id s
     = (s, inl (HttpError 400 "Cannot delete reservation during or after stay")))
  /\ ((r_status existing = DRAFT \/ r_status existing = CONFIRMED
       \/ r_status existing = CANCELLED) ->
      st_reservations (fst (deleteReservation id s))
      = cache_delete reservationsTable id (st_reservations s)
      /\ (hd false (st_faults s) = false -> snd (deleteReservation id s) = inr tt))
  /\ (snd (deleteReservation id s) = inr tt ->
      r_status existing = DRAFT \/ r_status existing = CONFIRMED
      \/ r_status existing = CANCELLED).
Proof.
  intros Hget.
  assert (delete reservationsTable id s
          = persist (set_reservations
                       (cache_delete reservationsTable id (st_reservations s)) s))
    as Hdel.
  { unfold delete. cbn [t_records t_store reservationsTable]. rewrite Hget.
    reflexivity. }
  assert (deleteReservation id s
          = match r_status existing with
            | CHECKED_IN | CHECKED_OUT =>
                (s, inl (HttpError 400 "Cannot delete reservation during or after stay"))
            | _ => persist (set_reservations
                              (cache_delete reservationsTable id (st_reservations s)) s)
            end) as Hrun.
  { unfold deleteReservation, bind, getById. cbn [t_records reservationsTable].
    rewrite Hget. destruct (r_status existing); try exact Hdel; reflexivity. }
  rewrite Hrun. unfold persist. cbn [st_faults set_reservations].
  split; [| split].
  - intros [E | E]; rewrite E; reflexivity.
  - intros H. split.
    + destruct H as [E | [E | E]]; rewrite E; destruct (st_faults s) as [| [|] rest];
        reflexivity.
    + intros Hf. destruct H as [E | [E | E]]; rewrite E;
        destruct (st_faults s) as [| [|] rest]; try reflexivity; discriminate.
  - destruct (r_status existing); auto; discriminate.
Qed.

(** A checked-in stay is kept, and the caller told so. *)
Lemma deleteReservation_by_status_witness :
  deleteReservation "res1"
    (Hotel.store [Hotel.booking "res1" (Some "101") CHECKED_IN "2026-01-01" "2026-01-04"]
       [Hotel.room "101" "101" OCCUPIED] [])
  = (Hotel.store [Hotel.booking "res1" (Some "101") CHECKED_IN "2026-01-01" "2026-01-04"]
       [Hotel.room "101" "101" OCCUPIED] [],
     inl (HttpError 400 "Cannot delete reservation during or after stay")).
Proof.
  apply (deleteReservation_by_status "res1" _
           (Hotel.booking "res1" (Some "101") CHECKED_IN "2026-01-01" "2026-01-04")).
  - reflexivity.
  - left. reflexivity.
Defined.

(** C5 as stated fails: a CANCELLED reservation is neither DRAFT nor
    CONFIRMED, yet deleting it raises no error and removes the record. *)
Lemma deleteReservation_cancelled_counterexample :
  r_status (Hotel.booking "res1" (Some "101") CANCELLED "2026-01-01" "2026-01-04")
  = CANCELLED
  /\ deleteReservation "res1"
       (Hotel.store [Hotel.booking "res1" (Some "101") CANCELLED "2026-01-01" "2026-01-04"]
          [Hotel.room "101" "101" AVAILABLE] [])
     = (Hotel.store [] [Hotel.room "101" "101" AVAILABLE] [], inr tt)
  /\ ~ (exists e,
          snd (deleteReservation "res1"
                 (Hotel.store
                    [Hotel.booking "res1" (Some "101") CANCELLED "2026-01-01" "2026-01-04"]
                    [Hotel.room "101" "101" AVAILABLE] []))
          = inl e).
Proof.
  split; [reflexivity | split; [reflexivity |]].
  intros (e & H). vm_compute in H. discriminate.
Qed.

(** ** Check-in, check-out and the room status *)

Lemma assertValidRoomStatusTransition_spec (current next : RoomStatus) :
  (assertValidRoomStatusTransition current next = inr tt
   <-> current = next \/ InTable current next)
  /\ (assertValidRoomStatusTransition current next = inr tt
      \/ exists message,
          assertValidRoomStatusTransition current next = inl (HttpError 400 message)).
Proof.
  destruct current, next; unfold InTable; cbn; split;
    try (left; reflexivity); try (right; eexists; reflexivity);
    split; intros H; try reflexivity; try discriminate; auto;
    repeat (destruct H as [H | H]; try discriminate).
Qed.

Section Lifecycle.
Context {P : Platform}.

Lemma getReservationOrThrow_run (id : string) (s : Store) (r : ReservationRecord) :
  cache_get reservationsTable id (st_reservations s) = Some r ->
  getReservationOrThrow id s = (s, inr r).
Proof.
  intros H. unfold getReservationOrThrow, bind, getById.
  cbn [t_records reservationsTable]. rewrite H. reflexivity.
Qed.

Lemma getRoomOrThrow_run (id : string) (s : Store) (r : RoomRecord) :
  cache_get roomsTable id (st_rooms s) = Some r ->
  getRoomOrThrow id s = (s, inr r).
Proof.
  intros H. unfold getRoomOrThrow, bind, getById.
  cbn [t_records roomsTable]. rewrite H. reflexivity.
Qed.

(** The run of [checkIn] when nothing fails.  The status of the room is not
    among the conditions. *)
Lemma checkIn_run (s : Store) (input : CheckInInput) (reservation : ReservationRecord)
    (roomId : string) (room : RoomRecord) :
  st_faults s = [] ->
  cache_get reservationsTable (ci_reservationId input) (st_reservations s)
  = Some reservation ->
  r_status reservation = CONFIRMED \/ r_status reservation = DRAFT ->
  nullish_opt (ci_roomId input) (r_roomId reservation) = Some roomId ->
  roomId <> "" ->
  cache_get roomsTable roomId (st_rooms s) = Some room ->
  rm_hotelCode room = r_hotelCode reservation ->
  existsb (conflicts (rm_id room) (r_arrivalDate reservation)
             (r_departureDate reservation) (Some (r_id reservation)))
          (st_reservations s) = false ->
  checkIn input s
  = (afterTransition s reservation (checkInUpdates room (clockAt (st_tick s))) room
       OCCUPIED,
     inr (mergeReservation reservation (checkInUpdates room (clockAt (st_tick s))))).
Proof.
  intros Hfaults Hres Hstatus Hrid Hne Hroom Hhotel Hfree.
  unfold checkIn.
  rewrite (bind_run _ _ _ _ _ (getReservationOrThrow_run _ _ _ Hres)).
  assert (includes ReservationStatus_eqb [CONFIRMED; DRAFT] (r_status reservation)
          = true) as ->.
  { destruct Hstatus as [-> | ->]; reflexivity. }
  cbn [negb]. rewrite Hrid. cbn [truthy_ostr nullish].
  apply truthy_str_iff in Hne. rewrite Hne. cbn [negb].
  rewrite (bind_run _ _ _ _ _ (getRoomOrThrow_run _ _ _ Hroom)).
  unfold ensureRoomBelongsToHotel. rewrite Hhotel, String.eqb_refl. cbn [negb lift].
  rewrite (bind_run _ _ s s tt) by reflexivity.
  rewrite (bind_run _ _ s s tt) by (rewrite ensureRoomAvailable_run, Hfree; reflexivity).
  rewrite (bind_run _ _ s (set_tick (S (st_tick s)) s) (clockAt (st_tick s)))
    by reflexivity.
  pose proof (cache_get_key _ _ _ _ Hres) as Kres.
  cbn [t_key reservationsTable] in Kres.
  pose proof (cache_get_key _ _ _ _ Hroom) as Kroom. cbn [t_key roomsTable] in Kroom.
  rewrite <- Kres in Hres. rewrite <- Kroom in Hroom.
  erewrite bind_run;
    [| apply (update_run reservationsTable _ _ _ reservation);
       [exact Hres | exact Hfaults]].
  cbn [t_store t_records reservationsTable].
  unfold try_catch.
  erewrite bind_run.
  2:{ erewrite bind_run;
        [| apply (update_run roomsTable _ _ _ room); [exact Hroom | exact Hfaults]].
      reflexivity. }
  unfold getReservationById, bind, getById, ret.
  cbn [t_store t_records roomsTable reservationsTable st_reservations set_rooms
       set_reservations].
  rewrite (cache_get_replace reservationsTable _ _ reservation);
    [reflexivity | | reflexivity].
  exact Hres.
Qed.

(** The run of [checkOut] when nothing fails. *)
Lemma checkOut_run (s : Store) (input : CheckOutInput) (reservation : ReservationRecord)
    (roomId : string) (room : RoomRecord) (nights : num) :
  st_faults s = [] ->
  cache_get reservationsTable (co_reservationId input) (st_reservations s)
  = Some reservation ->
  r_status reservation = CHECKED_IN ->
  r_roomId reservation = Some roomId ->
  roomId <> "" ->
  cache_get roomsTable roomId (st_rooms s) = Some room ->
  nightsBetween (r_arrivalDate reservation) (r_departureDate reservation) = inr nights ->
  let settlement :=
    settleReservation reservation
      {| so_lateCheckout := co_lateCheckout input;
         so_extraCharges := co_extraCharges input |} in
  let updates := checkOutUpdates (sr_billing settlement) (clockAt (st_tick s)) in
  checkOut input s
  = (afterTransition s reservation updates room DIRTY,
     inr {| cr_reservation := mergeReservation reservation updates;
            cr_settlement := settlement;
            cr_nights := nights |}).
Proof.
  intros Hfaults Hres Hstatus Hrid Hne Hroom Hnights settlement updates.
  unfold checkOut.
  rewrite (bind_run _ _ _ _ _ (getReservationOrThrow_run _ _ _ Hres)).
  rewrite Hstatus. cbn [ReservationStatus_eqb negb].
  rewrite Hrid. cbn [truthy_ostr nullish].
  apply truthy_str_iff in Hne. rewrite Hne. cbn [negb].
  rewrite (bind_run _ _ _ _ _ (getRoomOrThrow_run _ _ _ Hroom)).
  rewrite Hnights. cbn [lift].
  rewrite (bind_run _ _ s s nights) by reflexivity.
  rewrite (bind_run _ _ s (set_tick (S (st_tick s)) s) (clockAt (st_tick s)))
    by reflexivity.
  pose proof (cache_get_key _ _ _ _ Hres) as Kres.
  cbn [t_key reservationsTable] in Kres.
  pose proof (cache_get_key _ _ _ _ Hroom) as Kroom. cbn [t_key roomsTable] in Kroom.
  rewrite <- Kres in Hres. rewrite <- Kroom in Hroom.
  erewrite bind_run;
    [| apply (update_run reservationsTable _ _ _ reservation);
       [exact Hres | exact Hfaults]].
  cbn [t_store t_records reservationsTable].
  unfold try_catch.
  erewrite bind_run.
  2:{ erewrite bind_run;
        [| apply (update_run roomsTable _ _ _ room); [exact Hroom | exact Hfaults]].
      reflexivity. }
  unfold getReservationById, bind, getById, ret.
  cbn [t_store t_records roomsTable reservationsTable st_reservations set_rooms
       set_reservations].
  rewrite (cache_get_replace reservationsTable _ _ reservation);
    [reflexivity | | reflexivity].
  exact Hres.
Qed.

Lemma afterTransition_room (s : Store) (reservation : ReservationRecord)
    (updates : ReservationUpdates) (roomId : string) (room : RoomRecord)
    (status : RoomStatus) :
  cache_get roomsTable roomId (st_rooms s) = Some room ->
  exists room',
    cache_get roomsTable roomId
      (st_rooms (afterTransition s reservation updates room status)) = Some room'
    /\ rm_status room' = status.
Proof.
  intros Hroom. eexists. split.
  - pose proof (cache_get_key _ _ _ _ Hroom) as Kroom.
    cbn [t_key roomsTable] in Kroom. unfold afterTransition.
    cbn [st_rooms set_rooms]. rewrite Kroom.
    apply (cache_get_replace roomsTable _ _ room); [exact Hroom | exact Kroom].
  - reflexivity.
Qed.

(** C6, as amended.  The room-status table is what
    [assertValidRoomStatusTransition] enforces: it accepts a write that
    leaves the status as it is or follows a row of the table, and rejects
    every other with a 400.  The writes of [checkIn] (to OCCUPIED) and of
    [checkOut] (to DIRTY) are made without it: each goes through whatever
    the status of the room, as soon as the other conditions of the
    operation hold and the disk takes the writes. *)
Theorem room_status_writes :
  (forall current next,
      (assertValidRoomStatusTransition current next = inr tt
       <-> current = next \/ InTable current next)
      /\ (assertValidRoomStatusTransition current next = inr tt
          \/ exists message,
              assertValidRoomStatusTransition current next
              = inl (HttpError 400 message)))
  /\ (forall s input reservation roomId room,
         st_faults s = [] ->
         cache_get reservationsTable (ci_reservationId input) (st_reservations s)
         = Some reservation ->
         r_status reservation = CONFIRMED \/ r_status reservation = DRAFT ->
         nullish_opt (ci_roomId input) (r_roomId reservation) = Some roomId ->
         roomId <> "" ->
         cache_get roomsTable roomId (st_rooms s) = Some room ->
         rm_hotelCode room = r_hotelCode reservation ->
         existsb (conflicts (rm_id room) (r_arrivalDate reservation)
                    (r_departureDate reservation) (Some (r_id reservation)))
                 (st_reservations s) = false ->
         exists payload room',
           snd (checkIn input s) = inr payload
           /\ cache_get roomsTable roomId (st_rooms (fst (checkIn input s)))
              = Some room'
           /\ rm_status room' = OCCUPIED)
  /\ (forall s input reservation roomId room nights,
         st_faults s = [] ->
         cache_get reservationsTable (co_reservationId input) (st_reservations s)
         = Some reservation ->
         r_status reservation = CHECKED_IN ->
         r_roomId reservation = Some roomId ->
         roomId <> "" ->
         cache_get roomsTable roomId (st_rooms s) = Some room ->
         nightsBetween (r_arrivalDate reservation) (r_departureDate reservation)
         = inr nights ->
         exists result room',
           snd (checkOut input s) = inr result
           /\ cache_get roomsTable roomId (st_rooms (fst (checkOut input s)))
              = Some room'
           /\ rm_status room' = DIRTY).
Proof.
  split; [exact assertValidRoomStatusTransition_spec | split].
  - intros s input reservation roomId room H1 H2 H3 H4 H5 H6 H7 H8.
    rewrite (checkIn_run s input reservation roomId room H1 H2 H3 H4 H5 H6 H7 H8).
    destruct (afterTransition_room s reservation
                (checkInUpdates room (clockAt (st_tick s))) roomId room OCCUPIED H6)
      as (room' & Hget & Hst).
    eexists; exists room'. cbn [fst snd]. split; [reflexivity | split; assumption].
  - intros s input reservation roomId room nights H1 H2 H3 H4 H5 H6 H7.
    rewrite (checkOut_run s input reservation roomId room nights H1 H2 H3 H4 H5 H6 H7).
    destruct (afterTransition_room s reservation
                (checkOutUpdates
                   (sr_billing
                      (settleReservation reservation
                         {| so_lateCheckout := co_lateCheckout input;
                            so_extraCharges := co_extraCharges input |}))
                   (clockAt (st_tick s))) roomId room DIRTY H6)
      as (room' & Hget & Hst).
    eexists; exists room'. cbn [fst snd]. split; [reflexivity | split; assumption].
Qed.
End Lifecycle.

(** Checking a guest into a room that is out of order. *)
Lemma room_status_writes_witness :
  exists payload room',
    snd (checkIn (P := Runtime.platform)
           {| ci_reservationId := "res1"; ci_roomId := None |}
           (Hotel.store [Hotel.stay] [Hotel.room "101" "101" OUT_OF_ORDER] []))
    = inr payload
    /\ cache_get roomsTable "101"
         (st_rooms
            (fst (checkIn (P := Runtime.platform)
                    {| ci_reservationId := "res1"; ci_roomId := None |}
                    (Hotel.store [Hotel.stay] [Hotel.room "101" "101" OUT_OF_ORDER] []))))
       = Some room'
    /\ rm_status room' = OCCUPIED.
Proof.
  apply (proj1 (proj2 (room_status_writes (P := Runtime.platform)))
           (Hotel.store [Hotel.stay] [Hotel.room "101" "101" OUT_OF_ORDER] [])
           {| ci_reservationId := "res1"; ci_roomId := None |}
           Hotel.stay "101" (Hotel.room "101" "101" OUT_OF_ORDER)).
  - reflexivity.
  - reflexivity.
  - left. reflexivity.
  - reflexivity.
  - discriminate.
  - reflexivity.
  - reflexivity.
  - reflexivity.
Defined.

(** C6 as stated fails: the table has no transition from DIRTY to OCCUPIED,
    and [checkIn] makes it. *)
Lemma checkIn_dirty_room_counterexample :
  assertValidRoomStatusTransition DIRTY OCCUPIED
  = inl (HttpError 400 "Cannot transition room status from DIRTY to OCCUPIED")
  /\ option_map rm_status
       (cache_get roomsTable "101"
          (st_rooms (Hotel.store [Hotel.stay] [Hotel.room "101" "101" DIRTY] [])))
     = Some DIRTY
  /\ (exists payload,
        snd (checkIn (P := Runtime.platform)
               {| ci_reservationId := "res1"; ci_roomId := None |}
               (Hotel.store [Hotel.stay] [Hotel.room "101" "101" DIRTY] []))
        = inr payload)
  /\ option_map rm_status
       (cache_get roomsTable "101"
          (st_rooms
             (fst (checkIn (P := Runtime.platform)
                     {| ci_reservationId := "res1"; ci_roomId := None |}
                     (Hotel.store [Hotel.stay] [Hotel.room "101" "101" DIRTY] [])))))
     = Some OCCUPIED.
Proof.
  split; [reflexivity | split; [reflexivity | split; [| reflexivity]]].
  eexists. vm_compute. reflexivity.
Qed.

(** ** Settlement at check-out *)

Lemma LATE_CHECKOUT_RATE_quarter : LATE_CHECKOUT_RATE = of_Q (1 # 4).
Proof. apply binary64_compat. reflexivity. Qed.

(** C8.  [settleReservation] is a function of the reservation and the
    options alone.  Its charges are the charges of the reservation's billing,
    then the late-checkout fee when one is asked for, then the extra
    charges.  The fee is a quarter of the billing's [totalAmount] to two
    decimals: the hundredth nearest to the product that the doubles give;
    for a total of [t] hundredths it is a hundredth next to [t / 4].
    [totalAmount] is the sum of the amounts of these charges, added up from
    the left as doubles and left unrounded: for modest amounts in hundredths
    it is, to the hundredth, their decimal sum.  [balanceDue] is 0 and the
    currency is kept. *)
Theorem settleReservation_spec (reservation : ReservationRecord)
    (options : SettlementOptions) :
  let billing := sr_billing (settleReservation reservation options) in
  let original := b_totalAmount (r_billing reservation) in
  (exists fee,
      Rounded2 (nmul original (of_Q (1 # 4))) fee
      /\ (forall t, original = cents t -> (Z.abs t < 2 ^ 49)%Z ->
          exists k, fee = cents k /\ (Z.abs (4 * k - t) <= 2)%Z)
      /\ b_charges billing
         = (b_charges (r_billing reservation)
            ++ (if nullish (so_lateCheckout options) false
                then [ {| rc_description := "Late checkout fee"; rc_amount := fee |} ]
                else [])
            ++ nullish (so_extraCharges options) [])%list)
  /\ b_totalAmount billing = fsum (map rc_amount (b_charges billing))
  /\ (forall cs, map rc_amount (b_charges billing) = map cents cs -> Modest cs ->
      roundCurrency (b_totalAmount billing) = cents (sum_Z cs))
  /\ b_balanceDue billing = of_Z 0
  /\ b_currency billing = b_currency (r_billing reservation).
Proof.
  unfold settleReservation. cbn [sr_billing b_charges b_totalAmount b_balanceDue
                                 b_currency].
  rewrite reduce_sum_fsum, LATE_CHECKOUT_RATE_quarter.
  split; [| split; [reflexivity | split; [| split; reflexivity]]].
  - exists (roundCurrency (nmul (b_totalAmount (r_billing reservation)) (of_Q (1 # 4)))).
    split; [apply roundCurrency_Rounded2 | split].
    + intros t -> Ht. apply quarter_cents. exact Ht.
    + destruct (nullish (so_lateCheckout options) false),
        (so_extraCharges options) as [extra |]; cbn [nullish];
        rewrite ?app_nil_r, <- ?app_assoc; reflexivity.
  - intros cs -> Hm. apply fsum_cents. apply Modest_sum. exact Hm.
Qed.

(** A stay of 0.70 in all, and the guest leaving late: the fee is 0.17,
    since the double 0.7 lies below 7/10; with a biscuit at 0.06 the three
    amounts add up to 0.9299999999999999, which is 0.93 to the hundredth. *)
Lemma settleReservation_spec_witness :
  let reservation :=
    mergeReservation Hotel.stay
      (billingUpdate
         {| b_currency := "INR"; b_totalAmount := of_Q (7 # 10);
            b_balanceDue := of_Q (7 # 10);
            b_charges := [ {| rc_description := "Tea"; rc_amount := of_Q (7 # 10) |} ] |}) in
  let options :=
    {| so_lateCheckout := Some true;
       so_extraCharges := Some [ {| rc_description := "Biscuit";
                                    rc_amount := of_Q (6 # 100) |} ] |} in
  let billing := sr_billing (settleReservation reservation options) in
  Rounded2 (nmul (of_Q (7 # 10)) (of_Q (1 # 4))) (cents 17)
  /\ map rc_amount (b_charges billing) = [cents 70; cents 17; cents 6]
  /\ b_totalAmount billing = Fin (4188347653454561 # 4503599627370496)
  /\ roundCurrency (b_totalAmount billing) = cents 93.
Proof.
  intros reservation options billing.
  destruct (settleReservation_spec reservation options)
    as ((fee & HR & _ & Hcharges) & Htotal & Hsum & _).
  cbv zeta in Hcharges, Htotal, Hsum. fold billing in Hcharges, Htotal, Hsum.
  assert (fee = cents 17) as ->.
  { apply (f_equal (fun l => option_map rc_amount (nth_error l 1))) in Hcharges.
    vm_compute in Hcharges. injection Hcharges as <-. vm_compute. reflexivity. }
  split; [exact HR | split; [| split]].
  - rewrite Hcharges. vm_compute. reflexivity.
  - rewrite Htotal, Hcharges. vm_compute. reflexivity.
  - apply (Hsum [70; 17; 6]%Z); [| vm_compute; reflexivity].
    rewrite Hcharges. vm_compute. reflexivity.
Defined.

(** ** What a computation leaves untouched *)

Section Keeps.
Context {X : Type} (f : Store -> X).

Lemma keeps_run {A : Type} (c : M A) (s s2 : Store) (r : Exn + A) :
  keeps f c -> c s = (s2, r) -> f s2 = f s.
Proof. intros K H. specialize (K s). rewrite H in K. exact K. Qed.

Lemma keeps_ret {A : Type} (a : A) : keeps f (ret a).
Proof. intros s. reflexivity. Qed.

Lemma keeps_throw {A : Type} (e : Exn) : keeps f (@throw A e).
Proof. intros s. reflexivity. Qed.

Lemma keeps_lift {A : Type} (r : Exn + A) : keeps f (lift r).
Proof. destruct r; intros s; reflexivity. Qed.

Lemma keeps_bind {A B : Type} (c : M A) (k : A -> M B) :
  keeps f c -> (forall a, keeps f (k a)) -> keeps f (bind c k).
Proof.
  intros Kc Kk s. unfold bind. specialize (Kc s).
  destruct (c s) as [s1 [e | a]]; simpl in *; [exact Kc |].
  rewrite (Kk a s1). exact Kc.
Qed.

Lemma keeps_try_catch {A : Type} (c : M A) (h : Exn -> M A) :
  keeps f c -> (forall e, keeps f (h e)) -> keeps f (try_catch c h).
Proof.
  intros Kc Kh s. unfold try_catch. specialize (Kc s).
  destruct (c s) as [s1 [e | a]]; simpl in *; [| exact Kc].
  rewrite (Kh e s1). exact Kc.
Qed.

Lemma keeps_getAll {T : Type} (tb : Table T) : keeps f (getAll tb).
Proof. intros s. reflexivity. Qed.

Lemma keeps_getById {T : Type} (tb : Table T) (id : string) : keeps f (getById tb id).
Proof. intros s. reflexivity. Qed.

Lemma keeps_ensureRoomAvailable {P : Platform} (roomId a d : string)
    (ex : option string) :
  keeps f (ensureRoomAvailable roomId a d ex).
Proof. intros s. rewrite ensureRoomAvailable_run. reflexivity. Qed.

Lemma keeps_getPropertyProfile : keeps f getPropertyProfile.
Proof. intros s. reflexivity. Qed.

Section Clock.
Hypothesis f_tick : forall n s, f (set_tick n s) = f s.

Lemma keeps_now {P : Platform} : keeps f now.
Proof. intros s. apply f_tick. Qed.

Lemma keeps_nanoid {P : Platform} : keeps f nanoid.
Proof. intros s. apply f_tick. Qed.
End Clock.

Section Disk.
Hypothesis f_faults : forall l s, f (set_faults l s) = f s.

Lemma keeps_persist : keeps f persist.
Proof.
  intros s. unfold persist. destruct (st_faults s) as [| [|] rest]; simpl;
    auto.
Qed.

(** A write to another table. *)
Lemma keeps_update {T : Type} (tb : Table T) (id : string) (merge : T -> T) :
  (forall l s, f (t_store tb l s) = f s) -> keeps f (update tb id merge).
Proof.
  intros Hf s. unfold update. destruct (cache_get tb id (t_records tb s)); [| reflexivity].
  unfold bind. pose proof (keeps_persist (t_store tb
    (cache_replace tb id (merge t) (t_records tb s)) s)) as K.
  destruct (persist _) as [s1 [e | u]]; simpl in *; rewrite K; apply Hf.
Qed.
End Disk.
End Keeps.

(** Solves a goal [keeps f c] along the structure of [c]. *)
Ltac keeps_step :=
  first
    [ apply keeps_ret | apply keeps_throw | apply keeps_lift | apply keeps_getAll
    | apply keeps_getById | apply keeps_ensureRoomAvailable
    | apply keeps_getPropertyProfile
    | apply keeps_now; reflexivity | apply keeps_nanoid; reflexivity
    | apply keeps_update; reflexivity
    | apply keeps_bind; [| intros ?]
    | apply keeps_try_catch; [| intros ?]
    | match goal with
      | |- keeps _ (if ?b then _ else _) => destruct b
      | |- keeps _ (match ?x with _ => _ end) => destruct x
      end ].

(** ** Updating a reservation *)

Section Update.
Context {P : Platform}.

Lemma keeps_countAvailable {X : Type} (f : Store -> X) (rooms : list RoomRecord)
    (a d : string) (ex : option string) (n : nat) :
  keeps f (countAvailable rooms a d ex n).
Proof.
  revert n. induction rooms as [| room rest IH]; intros n; simpl.
  - apply keeps_ret.
  - apply keeps_bind; [| intros ?; apply IH]. repeat keeps_step.
Qed.

Lemma keeps_ensureAvailabilityForType {X : Type} (f : Store -> X)
    (h t a d : string) (ex : option string) :
  keeps f (ensureAvailabilityForType h t a d ex).
Proof.
  unfold ensureAvailabilityForType.
  repeat first [apply keeps_countAvailable | keeps_step].
Qed.

End Update.


(** ** The compensating write of check-in and check-out *)

(** What the compensating [update] restores: [{ ...reservation }] has a key
    for every field the snapshot holds, so these are written back; a field
    that was unset in the snapshot has no key, and [update] keeps what the
    first write put there. *)
Lemma compensating_merge (r : ReservationRecord) (u : ReservationUpdates) :
  let back := mergeReservation (mergeReservation r u) (spreadReservation r) in
  r_status back = r_status r
  /\ r_roomType back = r_roomType r
  /\ r_billing back = r_billing r
  /\ r_updatedAt back = r_updatedAt r
  /\ r_roomId back
     = match r_roomId r with
       | Some x => Some x
       | None => nullish (u_roomId u) None
       end
  /\ r_checkInAt back
     = match r_checkInAt r with
       | Some x => Some x
       | None => nullish (u_checkInAt u) None
       end
  /\ r_checkOutAt back
     = match r_checkOutAt r with
       | Some x => Some x
       | None => nullish (u_checkOutAt u) None
       end.
Proof.
  cbn. repeat split.
  - destruct (r_roomId r); reflexivity.
  - destruct (r_checkInAt r); reflexivity.
  - destruct (r_checkOutAt r); reflexivity.
Qed.

Section Rollback.
Context {P : Platform}.

(** The run of [checkIn] when the disk takes the write of the reservation
    and fails the write of the room: the error of the room write is raised
    again, and the stored reservation is the compensating merge over the
    checked-in record. *)
Lemma checkIn_room_write_fails (s : Store) (input : CheckInInput)
    (reservation : ReservationRecord) (roomId : string) (room : RoomRecord) :
  st_faults s = [false; true] ->
  cache_get reservationsTable (ci_reservationId input) (st_reservations s)
  = Some reservation ->
  r_status reservation = CONFIRMED \/ r_status reservation = DRAFT ->
  nullish_opt (ci_roomId input) (r_roomId reservation) = Some roomId ->
  roomId <> "" ->
  cache_get roomsTable roomId (st_rooms s) = Some room ->
  rm_hotelCode room = r_hotelCode reservation ->
  existsb (conflicts (rm_id room) (r_arrivalDate reservation)
             (r_departureDate reservation) (Some (r_id reservation)))
          (st_reservations s) = false ->
  snd (checkIn input s) = inl (JsError "write failed")
  /\ cache_get reservationsTable (ci_reservationId input)
       (st_reservations (fst (checkIn input s)))
     = Some (mergeReservation
               (mergeReservation reservation
                  (checkInUpdates room (clockAt (st_tick s))))
               (spreadReservation reservation)).
Proof.
  intros Hfaults Hres Hstatus Hrid Hne Hroom Hhotel Hfree.
  unfold checkIn.
  rewrite (bind_run _ _ _ _ _ (getReservationOrThrow_run _ _ _ Hres)).
  assert (includes ReservationStatus_eqb [CONFIRMED; DRAFT] (r_status reservation)
          = true) as ->.
  { destruct Hstatus as [-> | ->]; reflexivity. }
  cbn [negb]. rewrite Hrid. cbn [truthy_ostr nullish].
  apply truthy_str_iff in Hne. rewrite Hne. cbn [negb].
  rewrite (bind_run _ _ _ _ _ (getRoomOrThrow_run _ _ _ Hroom)).
  unfold ensureRoomBelongsToHotel. rewrite Hhotel, String.eqb_refl. cbn [negb lift].
  rewrite (bind_run _ _ s s tt) by reflexivity.
  rewrite (bind_run _ _ s s tt) by (rewrite ensureRoomAvailable_run, Hfree; reflexivity).
  rewrite (bind_run _ _ s (set_tick (S (st_tick s)) s) (clockAt (st_tick s)))
    by reflexivity.
  pose proof (cache_get_key _ _ _ _ Hres) as Kres.
  cbn [t_key reservationsTable] in Kres.
  pose proof (cache_get_key _ _ _ _ Hroom) as Kroom. cbn [t_key roomsTable] in Kroom.
  rewrite <- Kres in *. rewrite <- Kroom in Hroom.
  erewrite bind_run;
    [| apply (update_written reservationsTable _ _ _ reservation [true]);
       [exact Hres | exact Hfaults]].
  cbn [t_store t_records reservationsTable].
  erewrite bind_fail.
  2:{ unfold try_catch. erewrite bind_fail.
      2:{ apply (update_not_written roomsTable _ _ _ room []); [exact Hroom | reflexivity]. }
      cbn [t_store t_records roomsTable].
      erewrite bind_run.
      2:{ apply (update_run reservationsTable _ _ _
                   (mergeReservation reservation
                      (checkInUpdates room (clockAt (st_tick s))))).
          - cbn [t_records reservationsTable st_reservations set_faults set_rooms
                 set_reservations].
            apply (cache_get_replace reservationsTable _ _ reservation);
              [exact Hres | reflexivity].
          - reflexivity. }
      reflexivity. }
  cbn [fst snd t_store t_records reservationsTable st_reservations set_reservations].
  split; [reflexivity |].
  eapply (cache_get_replace reservationsTable). 
  - apply (cache_get_replace reservationsTable _ _ reservation); [exact Hres | reflexivity].
  - reflexivity.
Qed.
End Rollback.

(** C3, on the code.  The room write of a check-in fails on disk.  The
    compensating write runs and the error is raised again, but the record
    is not the one from before: [checkInAt], unset before, holds the
    timestamp of the failed check-in; for a stay booked by type and given its
    room at check-in, [roomId] holds that room; and after a failed check-out
    [checkOutAt] stays set. *)
Lemma checkIn_rollback_keeps_transition_fields :
  (snd (checkIn (P := Runtime.platform)
          {| ci_reservationId := "res1"; ci_roomId := None |}
          (Hotel.store [Hotel.stay] [Hotel.room "101" "101" AVAILABLE]
             Hotel.secondWriteFails))
   = inl (JsError "write failed")
   /\ r_checkInAt Hotel.stay = None
   /\ option_map r_status
        (cache_get reservationsTable "res1"
           (st_reservations
              (fst (checkIn (P := Runtime.platform)
                      {| ci_reservationId := "res1"; ci_roomId := None |}
                      (Hotel.store [Hotel.stay] [Hotel.room "101" "101" AVAILABLE]
                         Hotel.secondWriteFails)))))
      = Some CONFIRMED
   /\ option_map r_checkInAt
        (cache_get reservationsTable "res1"
           (st_reservations
              (fst (checkIn (P := Runtime.platform)
                      {| ci_reservationId := "res1"; ci_roomId := None |}
                      (Hotel.store [Hotel.stay] [Hotel.room "101" "101" AVAILABLE]
                         Hotel.secondWriteFails)))))
      = Some (Some "T0"))
  /\ (r_roomId Hotel.stayByType = None
      /\ option_map r_roomId
           (cache_get reservationsTable "res1"
              (st_reservations
                 (fst (checkIn (P := Runtime.platform)
                         {| ci_reservationId := "res1"; ci_roomId := Some "101" |}
                         (Hotel.store [Hotel.stayByType]
                            [Hotel.room "101" "101" AVAILABLE]
                            Hotel.secondWriteFails)))))
         = Some (Some "101"))
  /\ (snd (checkOut (P := Runtime.platform)
             {| co_reservationId := "res1"; co_lateCheckout := None;
                co_extraCharges := None |}
             (Hotel.store [Hotel.inHouse] [Hotel.room "101" "101" OCCUPIED]
                Hotel.secondWriteFails))
      = inl (JsError "write failed")
      /\ r_checkOutAt Hotel.inHouse = None
      /\ option_map (fun r => (r_status r, r_checkOutAt r))
           (cache_get reservationsTable "res1"
              (st_reservations
                 (fst (checkOut (P := Runtime.platform)
                         {| co_reservationId := "res1"; co_lateCheckout := None;
                            co_extraCharges := None |}
                         (Hotel.store [Hotel.inHouse]
                            [Hotel.room "101" "101" OCCUPIED]
                            Hotel.secondWriteFails)))))
         = Some (CHECKED_IN, Some "T0")).
Proof. vm_compute. repeat split. Qed.

(** ** Payments *)

(** C7, on the code.  A payment of 100 followed by one of 0: the call is
    rejected with the 400 of the second payment, after the first was
    inserted; the billing of the reservation is not brought up to date, so
    it still shows the 25200 due from before.  And on a reservation without a
    bill, a single payment of 0 is rejected after the bill was created. *)
Lemma settleBill_writes_before_rejecting :
  (st_payments Hotel.posted = []
   /\ snd (settleBill (P := Runtime.platform)
             (Hotel.settlement [Hotel.payment 100 CASH; Hotel.payment 0 CASH])
             Hotel.posted)
      = inl (HttpError 400 "Payment amount must be greater than zero")
   /\ map (fun p => (p_reservationId p, p_amount p))
        (st_payments
           (fst (settleBill (P := Runtime.platform)
                   (Hotel.settlement [Hotel.payment 100 CASH; Hotel.payment 0 CASH])
                   Hotel.posted)))
      = [("res1", of_Z 100)]
   /\ option_map (fun r => b_balanceDue (r_billing r))
        (cache_get reservationsTable "res1"
           (st_reservations
              (fst (settleBill (P := Runtime.platform)
                      (Hotel.settlement [Hotel.payment 100 CASH; Hotel.payment 0 CASH])
                      Hotel.posted))))
      = Some (of_Z 25200))
  /\ (st_bills Hotel.fresh = []
      /\ snd (settleBill (P := Runtime.platform)
                (Hotel.settlement [Hotel.payment 0 CASH]) Hotel.fresh)
         = inl (HttpError 400 "Payment amount must be greater than zero")
      /\ map bl_reservationId
           (st_bills
              (fst (settleBill (P := Runtime.platform)
                      (Hotel.settlement [Hotel.payment 0 CASH]) Hotel.fresh)))
         = ["res1"]).
Proof. vm_compute. repeat split. Qed.

(** ** The ledger *)

Section Ledger.
Context {P : Platform}.

(** With the amounts in hundredths, the totals are the decimal sums. *)
Lemma computeTotals_cents bill payments (cs ps : list Z) :
  map bc_totalAmount (bl_charges bill) = map cents cs ->
  map p_amount payments = map cents ps ->
  Modest (cs ++ ps) ->
  grandTotal (computeTotals bill payments) = cents (sum_Z cs)
  /\ paymentsTotal (computeTotals bill payments) = cents (sum_Z ps)
  /\ balanceDue (computeTotals bill payments) = cents (sum_Z cs - sum_Z ps).
Proof.
  intros Hc Hp Hm. apply Modest_app in Hm as (Mc & Mp & Hb).
  unfold computeTotals. cbn [grandTotal paymentsTotal balanceDue].
  rewrite !reduce_sum_fsum, Hc, Hp.
  rewrite (fsum_cents cs) by (apply Modest_sum; exact Mc).
  rewrite (fsum_cents ps) by (apply Modest_sum; exact Mp).
  split; [reflexivity | split; [reflexivity |]].
  apply roundCurrency_nsub_cents. exact Hb.
Qed.


Lemma resolveReservation_inr id s s2 r :
  resolveReservation id s = (s2, inr r) ->
  s2 = s /\ cache_get reservationsTable id (st_reservations s) = Some r.
Proof.
  unfold resolveReservation, bind, getById. cbn [t_records reservationsTable].
  destruct (cache_get _ _ _) as [x |]; intros H; inversion H. auto.
Qed.

Lemma getPaymentsForReservation_run id s :
  getPaymentsForReservation id s
  = (s, inr (filter (fun payment => p_reservationId payment =? id) (st_payments s))).
Proof. reflexivity. Qed.

Lemma syncReservationBilling_inr reservation bill s s2 totals :
  syncReservationBilling reservation bill s = (s2, inr totals) ->
  totals = computeTotals bill
             (filter (fun payment => p_reservationId payment =? r_id reservation)
                     (st_payments s))
  /\ st_payments s2 = st_payments s
  /\ st_bills s2 = st_bills s
  /\ exists e,
       cache_get reservationsTable (r_id reservation) (st_reservations s) = Some e
       /\ cache_get reservationsTable (r_id reservation) (st_reservations s2)
          = Some (mergeReservation e
                    (billingUpdate
                       (billingSnapshot (b_currency (r_billing reservation)) totals bill))).
Proof.
  unfold syncReservationBilling. intros H.
  apply bind_inr in H as (payments & s1 & Hp & H).
  rewrite getPaymentsForReservation_run in Hp. inversion Hp; subst; clear Hp.
  apply bind_inr in H as (stored & s3 & Hupd & H).
  apply ret_inr in H as [-> ->].
  apply update_inr in Hupd as (e & He & Hx & Hs).
  cbn [t_records t_store reservationsTable] in *.
  split; [reflexivity |].
  assert (st_payments s3 = st_payments s1 /\ st_bills s3 = st_bills s1
          /\ st_reservations s3
             = cache_replace reservationsTable (r_id reservation) stored
                 (st_reservations s1)) as (E1 & E2 & E3).
  { destruct Hs as [-> | (rest & ->)]; repeat split. }
  split; [exact E1 | split; [exact E2 |]].
  exists e. split; [exact He |]. rewrite E3, <- Hx.
  apply (cache_get_replace reservationsTable _ _ e); [exact He |].
  rewrite Hx. cbn [t_key reservationsTable mergeReservation r_id].
  apply (cache_get_key reservationsTable _ _ _ He).
Qed.


Lemma find_app_last {A} (p : A -> bool) (l : list A) (x : A) :
  find p l = None -> p x = true -> find p (l ++ [x]) = Some x.
Proof.
  intros Hn Hp. induction l as [| y rest IH]; simpl in *.
  - rewrite Hp. reflexivity.
  - destruct (p y); [discriminate | auto].
Qed.

Lemma NoDup_snoc {A} (l : list A) (a : A) : NoDup l -> ~ In a l -> NoDup (l ++ [a]).
Proof.
  intros Hnd Hin. apply (NoDup_Add (Add_app a l [])). rewrite app_nil_r. auto.
Qed.

Lemma sameBooks_refl s : sameBooks s s.
Proof. repeat split. Qed.

Lemma sameBooks_trans s s2 s3 : sameBooks s s2 -> sameBooks s2 s3 -> sameBooks s s3.
Proof.
  intros (A1 & A2 & A3 & A4) (B1 & B2 & B3 & B4). repeat split; congruence.
Qed.

Lemma insert_bill_inr (mk : string -> BillRecord) s s2 x :
  insert billsTable None mk s = (s2, inr x) ->
  x = mk (nanoidAt (st_tick s))
  /\ cache_get billsTable (nanoidAt (st_tick s)) (st_bills s) = None
  /\ st_bills s2 = (st_bills s ++ [x])%list
  /\ sameBooks s s2.
Proof.
  intros H. unfold insert in H.
  apply bind_inr in H as (id & s1 & Hid & H).
  unfold nanoid in Hid. inversion Hid; subst; clear Hid.
  cbn [t_records t_store billsTable st_bills set_tick] in H.
  destruct (cache_get billsTable _ (st_bills s)) eqn:E; [discriminate H |].
  apply bind_inr in H as (u & s3 & Hp & H). apply ret_inr in H as [-> ->].
  split; [reflexivity | split; [reflexivity |]].
  unfold persist in Hp. cbn [st_faults set_bills set_tick] in Hp.
  destruct (st_faults s) as [| [|] rest]; inversion Hp; subst; clear Hp;
    split; try reflexivity; repeat split.
Qed.

Lemma update_bill_inr (id : string) (merge : BillRecord -> BillRecord) s s2 x :
  update billsTable id merge s = (s2, inr x) ->
  exists e,
    cache_get billsTable id (st_bills s) = Some e
    /\ x = merge e
    /\ st_bills s2 = cache_replace billsTable id x (st_bills s)
    /\ sameBooks s s2.
Proof.
  intros H. apply update_inr in H as (e & He & Hx & Hs).
  cbn [t_records t_store billsTable] in *.
  exists e. split; [exact He | split; [exact Hx |]].
  destruct Hs as [-> | (rest & ->)]; split; try reflexivity; repeat split.
Qed.

Lemma BillOf_In s rid b : BillOf s rid b -> In b (st_bills s) /\ bl_reservationId b = rid.
Proof.
  intros (_ & H). apply find_some in H as [Hin Hb]. split; [exact Hin |].
  apply String.eqb_eq. exact Hb.
Qed.

Lemma BillOf_get s rid b :
  BillOf s rid b -> cache_get billsTable (bl_id b) (st_bills s) = Some b.
Proof.
  intros H. destruct (BillOf_In _ _ _ H) as [Hin _]. destruct H as (Hnd & _).
  apply (cache_get_unique billsTable _ _ Hnd Hin).
Qed.

(** Rewriting the bill of a reservation in place keeps it the bill of that
    reservation. *)
Lemma update_bill_anchor s s2 rid b (u : BillUpdates) x :
  BillOf s rid b ->
  update billsTable (bl_id b) (fun e => mergeBill e u) s = (s2, inr x) ->
  x = mergeBill b u /\ BillOf s2 rid x /\ sameBooks s s2.
Proof.
  intros HB H. apply update_bill_inr in H as (e & He & Hx & Hb & Hsame).
  rewrite (BillOf_get _ _ _ HB) in He. inversion He; subst e. clear He.
  split; [exact Hx | split; [| exact Hsame]].
  destruct HB as (Hnd & Hfind). split.
  - rewrite Hb.
    change bl_id with (t_key billsTable).
    rewrite cache_replace_keys; [exact Hnd | rewrite Hx; reflexivity].
  - rewrite Hb. apply (find_replace billsTable _ _ b x Hnd Hfind).
    rewrite Hx. unfold billFor. cbn [mergeBill bl_reservationId].
    apply find_some in Hfind as [_ Hf]. exact Hf.
Qed.

Lemma ensureBill_anchor (reservation : ReservationRecord) s s2 b :
  NoDup (map bl_id (st_bills s)) ->
  ensureBillForReservation reservation s = (s2, inr b) ->
  BillOf s2 (r_id reservation) b /\ sameBooks s s2.
Proof.
  intros Hnd H. unfold ensureBillForReservation in H.
  apply bind_inr in H as (bills & s0 & Hb & H).
  unfold getAll in Hb. inversion Hb; subst; clear Hb.
  cbn [t_records billsTable] in H.
  change (fun bill => bl_reservationId bill =? r_id reservation)
    with (billFor (r_id reservation)) in H.
  destruct (find (billFor (r_id reservation)) (st_bills s0)) as [existing |] eqn:Hfind.
  - apply ret_inr in H as [-> ->]. split; [split; assumption | apply sameBooks_refl].
  - apply bind_inr in H as (timestamp & s1 & Hnow & H).
    unfold now in Hnow. inversion Hnow; subst; clear Hnow.
    apply bind_inr in H as (folio & s2' & Hfolio & H).
    unfold ensureDefaultFolio in Hfolio.
    apply bind_inr in Hfolio as (fid & s3 & Hid & Hfolio).
    unfold nanoid in Hid. inversion Hid; subst; clear Hid.
    apply ret_inr in Hfolio as [-> ->].
    apply insert_bill_inr in H as (Hx & Hnone & Hbills & Hsame).
    cbn [st_bills set_tick st_tick] in *.
    split; [| exact Hsame].
    split.
    + rewrite Hbills, map_app. cbn [map]. apply NoDup_snoc; [exact Hnd |].
      rewrite Hx. cbn [bl_id]. apply (cache_get_None billsTable). exact Hnone.
    + rewrite Hbills. apply find_app_last; [exact Hfind |].
      rewrite Hx. unfold billFor. cbn [bl_reservationId]. apply String.eqb_refl.
Qed.

Lemma resolveFolio_anchor s s2 rid b folioId folioName rb resolved :
  BillOf s rid b ->
  resolveFolio b folioId folioName s = (s2, inr (rb, resolved)) ->
  BillOf s2 rid rb /\ sameBooks s s2
  /\ bl_charges rb = bl_charges b
  /\ FolioSettled (bl_folios rb) folioId folioName resolved.
Proof.
  intros HB H. unfold resolveFolio in H.
  destruct (truthy_ostr folioId) eqn:Efid.
  - destruct (find _ (bl_folios b)) as [folio |] eqn:Ef; [| discriminate H].
    apply ret_inr in H as [-> Hv]. inversion Hv; subst; clear Hv.
    split; [exact HB | split; [apply sameBooks_refl | split; [reflexivity |]]].
    intros b' s' Hf'. unfold resolveFolio. rewrite Efid, Hf', Ef. reflexivity.
  - destruct (truthy_ostr folioName) eqn:Efn.
    + destruct (find _ (bl_folios b)) as [folio |] eqn:Ef.
      * apply ret_inr in H as [-> Hv]. inversion Hv; subst; clear Hv.
        split; [exact HB | split; [apply sameBooks_refl | split; [reflexivity |]]].
        intros b' s' Hf'. unfold resolveFolio. rewrite Efid, Efn, Hf', Ef. reflexivity.
      * apply bind_inr in H as (timestamp & s1 & Hnow & H).
        unfold now in Hnow. inversion Hnow; subst; clear Hnow.
        apply bind_inr in H as (id & s3 & Hid & H).
        unfold nanoid in Hid. inversion Hid; subst; clear Hid.
        apply bind_inr in H as (updated & s4 & Hupd & H).
        apply ret_inr in H as [-> Hv]. inversion Hv; subst; clear Hv.
        apply (update_bill_anchor _ _ rid) in Hupd as (Hx & HB' & Hsame);
          [| destruct HB; split; assumption].
        split; [exact HB' | split; [| split]].
        -- destruct Hsame as (A1 & A2 & A3 & A4). repeat split; assumption.
        -- rewrite Hx. reflexivity.
        -- intros b' s' Hf'. unfold resolveFolio. rewrite Efid, Efn, Hf', Hx.
           cbn [mergeBill bl_folios nullish bu_folios].
           rewrite (find_app_last _ _ _ Ef); [reflexivity |].
           cbn [f_name]. apply String.eqb_refl.
    + destruct (bl_folios b) as [| defaultFolio rest] eqn:Ef.
      * apply bind_inr in H as (timestamp & s1 & Hnow & H).
        unfold now in Hnow. inversion Hnow; subst; clear Hnow.
        apply bind_inr in H as (newFolio & s3 & Hfolio & H).
        unfold ensureDefaultFolio in Hfolio.
        apply bind_inr in Hfolio as (fid & s5 & Hid & Hfolio).
        unfold nanoid in Hid. inversion Hid; subst; clear Hid.
        apply ret_inr in Hfolio as [-> ->].
        apply bind_inr in H as (updated & s4 & Hupd & H).
        apply ret_inr in H as [-> Hv]. inversion Hv; subst; clear Hv.
        apply (update_bill_anchor _ _ rid) in Hupd as (Hx & HB' & Hsame);
          [| destruct HB; split; assumption].
        split; [exact HB' | split; [| split]].
        -- destruct Hsame as (A1 & A2 & A3 & A4). repeat split; assumption.
        -- rewrite Hx. reflexivity.
        -- intros b' s' Hf'. unfold resolveFolio. rewrite Efid, Efn, Hf', Hx.
           reflexivity.
      * apply ret_inr in H as [-> Hv]. inversion Hv; subst; clear Hv.
        split; [exact HB | split; [apply sameBooks_refl | split; [reflexivity |]]].
        intros b' s' Hf'. unfold resolveFolio. rewrite Efid, Efn, Hf', Ef. reflexivity.
Qed.

Lemma books_same s s2 : books s2 = books s -> st_bills s2 = st_bills s /\ sameBooks s s2.
Proof. unfold books, sameBooks. intros H. inversion H. auto. Qed.

Lemma keeps_getTaxConfig {X} (f : Store -> X) : keeps f getTaxConfig.
Proof.
  unfold getTaxConfig. apply keeps_bind; [repeat keeps_step |].
  intros profile s. reflexivity.
Qed.

Lemma keeps_calculateTax {X} (f : Store -> X) hotelCode amount :
  keeps f (calculateTax hotelCode amount).
Proof.
  unfold calculateTax. apply keeps_bind; [apply keeps_getTaxConfig | intros ?; apply keeps_ret].
Qed.

Lemma hasRoomChargeForDate_app b charges night :
  existsb (isRoomChargeFor night) (bl_charges b ++ charges)
  = hasRoomChargeForDate b night || existsb (isRoomChargeFor night) charges.
Proof. unfold hasRoomChargeForDate. apply existsb_app. Qed.

Lemma collectRoomCharges_inr nights rb folioId input r acc s s2 out :
  collectRoomCharges nights rb folioId input r acc s = (s2, inr out) ->
  books s2 = books s
  /\ exists added,
      out = (acc ++ added)%list
      /\ forall night, In night nights ->
           hasRoomChargeForDate rb night = true
           \/ existsb (isRoomChargeFor night) added = true.
Proof.
  revert acc s. induction nights as [| night rest IH]; intros acc s H;
    cbn [collectRoomCharges] in H.
  - apply ret_inr in H as [-> ->]. split; [reflexivity |].
    exists []. rewrite app_nil_r. split; [reflexivity | intros n []].
  - apply bind_inr in H as (acc' & s1 & Hstep & H).
    apply IH in H as (Hb & added & Hout & Hall).
    destruct (hasRoomChargeForDate rb night) eqn:Ehas; cbn [negb] in Hstep.
    + apply ret_inr in Hstep as [-> ->]. split; [exact Hb |].
      exists added. split; [exact Hout |].
      intros n [<- | Hin]; [left; exact Ehas | apply Hall; exact Hin].
    + apply bind_inr in Hstep as (tax & s3 & K1 & Hstep).
      apply (keeps_run books) in K1; [| apply keeps_calculateTax].
      apply bind_inr in Hstep as (id & s4 & K2 & Hstep).
      apply (keeps_run books) in K2; [| apply keeps_nanoid; reflexivity].
      apply bind_inr in Hstep as (postedAt & s5 & K3 & Hstep).
      apply (keeps_run books) in K3; [| apply keeps_now; reflexivity].
      apply ret_inr in Hstep as [-> ->].
      split; [congruence |].
      eexists (_ :: added). split.
      * rewrite Hout, <- app_assoc. reflexivity.
      * intros n [<- | Hin].
        -- right. cbn [existsb]. apply orb_true_iff. left.
           unfold isRoomChargeFor. cbn. rewrite String.eqb_refl. reflexivity.
        -- destruct (Hall n Hin) as [Hl | Hr]; [left; exact Hl |].
           right. cbn [existsb]. rewrite Hr. apply orb_true_r.
Qed.

(** With every night charged the loop adds nothing and calls no one. *)
Lemma collectRoomCharges_none nights rb folioId input r acc s :
  (forall night, In night nights -> hasRoomChargeForDate rb night = true) ->
  collectRoomCharges nights rb folioId input r acc s = (s, inr acc).
Proof.
  induction nights as [| night rest IH]; intros Hall; cbn [collectRoomCharges].
  - reflexivity.
  - rewrite (Hall night (or_introl eq_refl)). cbn [negb].
    erewrite bind_run; [| reflexivity]. apply IH.
    intros n Hin. apply Hall. right. exact Hin.
Qed.

Lemma postRoomCharges_settled input s reservation fb resolved targetNights :
  cache_get reservationsTable (rci_reservationId input) (st_reservations s)
  = Some reservation ->
  find (billFor (r_id reservation)) (st_bills s) = Some fb ->
  (List.length (enumerateStayNights (r_arrivalDate reservation)
                  (r_departureDate reservation)) =? 0)%nat = false ->
  targetNightsFor input (enumerateStayNights (r_arrivalDate reservation)
                           (r_departureDate reservation)) = inr targetNights ->
  ensureDatesWithinStay targetNights
    (enumerateStayNights (r_arrivalDate reservation) (r_departureDate reservation))
  = inr tt ->
  resolveFolio fb (rci_folioId input) (rci_folioName input) s = (s, inr (fb, resolved)) ->
  (forall night, In night targetNights -> hasRoomChargeForDate fb night = true) ->
  postRoomCharges input s
  = (s, inr {| bs_bill := fb;
               bs_payments :=
                 filter (fun payment => p_reservationId payment =? r_id reservation)
                        (st_payments s);
               bs_totals :=
                 computeTotals fb
                   (filter (fun payment => p_reservationId payment =? r_id reservation)
                           (st_payments s));
               bs_addedCharges := None;
               bs_newPayments := None |}).
Proof.
  intros Hres Hbill Hstay Htarget Hdates Hfolio Hall.
  unfold postRoomCharges.
  erewrite bind_run.
  2:{ unfold resolveReservation, bind, getById. cbn [t_records reservationsTable].
      rewrite Hres. reflexivity. }
  erewrite bind_run.
  2:{ unfold ensureBillForReservation, bind, getAll. cbn [t_records billsTable].
      change (fun bill => bl_reservationId bill =? r_id reservation)
        with (billFor (r_id reservation)).
      rewrite Hbill. reflexivity. }
  rewrite Hstay, Htarget. cbn [lift].
  erewrite bind_run; [| reflexivity].
  rewrite Hdates. cbn [lift].
  erewrite bind_run; [| reflexivity].
  erewrite bind_run; [| exact Hfolio].
  cbn [fst snd].
  erewrite bind_run; [| apply collectRoomCharges_none; exact Hall].
  reflexivity.
Qed.

(** C4.  A second [postRoomCharges] with the same input, after a first one
    that returned, returns as well, writes nothing (the store it leaves is
    the store it found) and adds no charge: every target night has its ROOM
    charge and is skipped, so the bill it reports is the bill the first call
    reported, with as many charges.  The bills are keyed uniquely, as in the
    [Map] of the table. *)
Theorem postRoomCharges_idempotent (input : RoomChargeInput) (s s1 : Store)
    (first : BillSummary) :
  NoDup (map bl_id (st_bills s)) ->
  postRoomCharges input s = (s1, inr first) ->
  exists second,
    postRoomCharges input s1 = (s1, inr second)
    /\ bs_bill second = bs_bill first
    /\ bs_addedCharges second = None
    /\ List.length (bl_charges (bs_bill second))
       = List.length (bl_charges (bs_bill first))
    /\ filter (fun charge => ChargeType_eqb (bc_type charge) ROOM)
         (bl_charges (bs_bill second))
       = filter (fun charge => ChargeType_eqb (bc_type charge) ROOM)
           (bl_charges (bs_bill first)).
Proof.
  intros Hnd H. unfold postRoomCharges in H.
  apply bind_inr in H as (reservation & s0 & Hres & H).
  apply resolveReservation_inr in Hres as [-> Hres].
  apply bind_inr in H as (bill & sB & Hbill & H).
  apply (ensureBill_anchor _ _ _ _ Hnd) in Hbill as (HB & SB).
  destruct (List.length _ =? 0)%nat eqn:Hstay; [discriminate H |].
  apply bind_inr in H as (targetNights & sT & Htarget & H).
  apply lift_inr in Htarget as [-> Htarget].
  apply bind_inr in H as (u & sD & Hdates & H).
  apply lift_inr in Hdates as [-> Hdates]. destruct u.
  apply bind_inr in H as ([rb resolved] & sF & Hfolio & H).
  apply (resolveFolio_anchor _ _ _ _ _ _ _ _ HB) in Hfolio as (HF & SF & Hcharges & Hsettled).
  cbn [fst snd] in H.
  apply bind_inr in H as (newCharges & sC & Hcollect & H).
  apply collectRoomCharges_inr in Hcollect as (Hbooks & added & Hadded & Hall).
  cbn [app] in Hadded. subst added.
  apply books_same in Hbooks as (HbC & SC).
  pose proof (sameBooks_trans _ _ _ SB (sameBooks_trans _ _ _ SF SC)) as S0C.
  destruct (List.length newCharges =? 0)%nat eqn:Hnew.
  - (* nothing was added: the store stayed as the loop left it *)
    destruct newCharges; [| discriminate Hnew].
    unfold toBillSummary in H.
    apply bind_inr in H as (payments & s6 & Hp & H).
    rewrite getPaymentsForReservation_run in Hp. inversion Hp; subst; clear Hp.
    apply ret_inr in H as [-> ->].
    eexists. split.
    { apply (postRoomCharges_settled input _ reservation rb resolved targetNights).
      + destruct S0C as (E & _). rewrite E. exact Hres.
      + rewrite HbC. apply HF.
      + exact Hstay.
      + exact Htarget.
      + exact Hdates.
      + apply Hsettled. reflexivity.
      + intros night Hin. destruct (Hall night Hin) as [Hl | Hr];
          [exact Hl | discriminate Hr]. }
    split; [reflexivity | split; [reflexivity | split; reflexivity]].
  - apply bind_inr in H as (updatedAt & sN & Hnow & H).
    unfold now in Hnow. inversion Hnow; subst; clear Hnow.
    apply bind_inr in H as (updated & sU & Hupd & H).
    apply (update_bill_anchor _ _ (r_id reservation) rb) in Hupd as (Hx & HU & SU);
      [| destruct HF as (A & B); split; cbn [st_bills set_tick]; rewrite HbC; assumption].
    apply bind_inr in H as (totals & sS & Hsync & H).
    apply syncReservationBilling_inr in Hsync as (_ & HpS & HbS & e & He & He2).
    apply bind_inr in H as (payments & s9 & Hp & H).
    rewrite getPaymentsForReservation_run in Hp. inversion Hp; subst s9 payments; clear Hp.
    apply ret_inr in H as [-> ->].
    cbn [bs_bill bs_addedCharges].
    pose proof (cache_get_key reservationsTable _ _ _ Hres) as Kres.
    cbn [t_key reservationsTable] in Kres.
    assert (e = reservation) as ->.
    { destruct SU as (E & _). rewrite E in He. cbn [st_reservations set_tick] in He.
      destruct S0C as (E0 & _). rewrite E0, Kres, Hres in He. congruence. }
    set (reservation' :=
           mergeReservation reservation
             (billingUpdate
                (billingSnapshot (b_currency (r_billing reservation)) totals updated)))
      in *.
    eexists. split.
    { apply (postRoomCharges_settled input _ reservation' updated resolved targetNights).
      + rewrite <- Kres. exact He2.
      + rewrite HbS. apply HU.
      + exact Hstay.
      + exact Htarget.
      + exact Hdates.
      + apply Hsettled. rewrite Hx. reflexivity.
      + intros night Hin. unfold hasRoomChargeForDate. rewrite Hx.
        cbn [mergeBill bl_charges nullish bu_charges].
        rewrite hasRoomChargeForDate_app. apply orb_true_iff. apply Hall. exact Hin. }
    split; [reflexivity | split; [reflexivity | split; reflexivity]].
Qed.
End Ledger.

(** Posting the three nights a second time. *)
Lemma postRoomCharges_idempotent_witness :
  exists second,
    postRoomCharges (P := Runtime.platform) Hotel.allNights Hotel.posted
    = (Hotel.posted, inr second)
    /\ bs_addedCharges second = None
    /\ List.length (bl_charges (bs_bill second)) = 3%nat.
Proof.
  unfold Hotel.posted.
  destruct (postRoomCharges (P := Runtime.platform) Hotel.allNights Hotel.fresh)
    as [s1 [e | first]] eqn:Hrun; [vm_compute in Hrun; discriminate Hrun |].
  destruct (postRoomCharges_idempotent (P := Runtime.platform)
              Hotel.allNights Hotel.fresh s1 first (NoDup_nil string) Hrun)
    as (second & Hsecond & _ & Hnone & Hlen & _).
  exists second. cbn [fst]. split; [exact Hsecond | split; [exact Hnone |]].
  rewrite Hlen. vm_compute in Hrun. inversion Hrun. reflexivity.
Defined.

(** ** The scenario of the specification

    Room 101, three nights at 7500: posted with 12 percent of tax the nights
    come to 25200, and a card payment of 25200 leaves nothing due. *)
Example book_post_pay :
  nightsBetween (P := Runtime.platform) "2026-01-01" "2026-01-04" = inr (of_Z 3)
  /\ b_totalAmount (computeBilling (P := Runtime.platform) (of_Z 7500) (of_Z 3) None)
     = of_Z 22500
  /\ map bc_totalAmount (flat_map bl_charges (st_bills Hotel.posted))
     = [of_Z 8400; of_Z 8400; of_Z 8400]
  /\ option_map (fun r => r_billing r)
       (cache_get reservationsTable "res1" (st_reservations Hotel.settled))
     = Some {| b_currency := "INR"; b_totalAmount := of_Z 25200;
               b_balanceDue := of_Z 0;
               b_charges :=
                 [ {| rc_description := "Room charge for 2026-01-01";
                      rc_amount := of_Z 8400 |};
                   {| rc_description := "Room charge for 2026-01-02";
                      rc_amount := of_Z 8400 |};
                   {| rc_description := "Room charge for 2026-01-03";
                      rc_amount := of_Z 8400 |} ] |}.
Proof. vm_compute. repeat split. Qed.

(** ** The nights of a stay *)

Lemma ceil_days_step (d : Z) : ceil_days (d - MS_PER_DAY) = (ceil_days d - 1)%Z.
Proof.
  unfold ceil_days.
  replace (- (d - MS_PER_DAY))%Z with (- d + 1 * MS_PER_DAY)%Z by ring.
  rewrite Z.div_add by (unfold MS_PER_DAY; lia). ring.
Qed.

Lemma ceil_days_pos (d : Z) : (0 < d)%Z -> (0 < ceil_days d)%Z.
Proof.
  intros H. unfold ceil_days.
  assert (- d / MS_PER_DAY < 0)%Z; [| lia].
  apply Z.div_lt_upper_bound; unfold MS_PER_DAY; lia.
Qed.

(** The loop of [enumerateStayNights] stops on its own test: the bound it is
    given in [enumerateStayNights] is never what ends it. *)
Lemma stayNightsFrom_enough {P : Platform} (fuel : nat) (cursor end_ : Z) :
  (Z.to_nat (ceil_days (end_ - cursor)) <= fuel)%nat ->
  stayNightsFrom (S fuel) cursor end_ = stayNightsFrom fuel cursor end_.
Proof.
  revert cursor. induction fuel as [| fuel IH]; intros cursor Hfuel.
  - cbn [stayNightsFrom]. destruct (cursor <? end_)%Z eqn:E; [| reflexivity].
    apply Z.ltb_lt in E. pose proof (ceil_days_pos (end_ - cursor)). lia.
  - change (stayNightsFrom (S (S fuel)) cursor end_)
      with (if (cursor <? end_)%Z
            then split_head "T" (toISOString cursor)
                   :: stayNightsFrom (S fuel) (cursor + MS_PER_DAY)%Z end_
            else []).
    change (stayNightsFrom (S fuel) cursor end_)
      with (if (cursor <? end_)%Z
            then split_head "T" (toISOString cursor)
                   :: stayNightsFrom fuel (cursor + MS_PER_DAY)%Z end_
            else []).
    destruct (cursor <? end_)%Z eqn:E; [| reflexivity].
    f_equal. apply IH.
    replace (end_ - (cursor + MS_PER_DAY))%Z with (end_ - cursor - MS_PER_DAY)%Z by ring.
    rewrite ceil_days_step. lia.
Qed.

(** ** The record store *)

Lemma tables_Lawful :
  Lawful reservationsTable /\ Lawful roomsTable /\ Lawful billsTable
  /\ Lawful paymentsTable.
Proof. repeat split. Qed.

Section Store.
Context {P : Platform} {T : Type} (tb : Table T).
Hypothesis laws : Lawful tb.

Lemma cache_get_snoc (id : string) (records : list T) (x : T) :
  cache_get tb id (records ++ [x])
  = match cache_get tb id records with
    | Some r => Some r
    | None => if t_key tb x =? id then Some x else None
    end.
Proof.
  unfold cache_get. induction records as [| r rest IH]; simpl.
  - reflexivity.
  - destruct (t_key tb r =? id); [reflexivity | exact IH].
Qed.

Lemma cache_get_replace_other (id id' : string) (new : T) (records : list T) :
  t_key tb new = id -> id' <> id ->
  cache_get tb id' (cache_replace tb id new records) = cache_get tb id' records.
Proof.
  intros Hk Hne. unfold cache_get.
  induction records as [| r rest IH]; simpl; [reflexivity |].
  destruct (t_key tb r =? id) eqn:E; simpl.
  - apply eqb_true in E. rewrite Hk, E.
    assert ((id =? id') = false) as -> by (apply String.eqb_neq; congruence).
    reflexivity.
  - destruct (t_key tb r =? id'); [reflexivity | exact IH].
Qed.

Lemma cache_get_delete_other (id id' : string) (records : list T) :
  id' <> id ->
  cache_get tb id' (cache_delete tb id records) = cache_get tb id' records.
Proof.
  intros Hne. unfold cache_get.
  induction records as [| r rest IH]; simpl; [reflexivity |].
  destruct (t_key tb r =? id) eqn:E; simpl.
  - apply eqb_true in E. rewrite E.
    assert ((id =? id') = false) as -> by (apply String.eqb_neq; congruence).
    reflexivity.
  - destruct (t_key tb r =? id'); [reflexivity | exact IH].
Qed.

Lemma cache_get_delete_same (id : string) (records : list T) :
  NoDup (map (t_key tb) records) ->
  cache_get tb id (cache_delete tb id records) = None.
Proof.
  intros Hnd. unfold cache_get.
  induction records as [| r rest IH]; simpl; [reflexivity |].
  inversion Hnd as [| k ks Hnotin Hnd']; subst.
  destruct (t_key tb r =? id) eqn:E; simpl.
  - apply eqb_true in E. subst id.
    destruct (find _ rest) eqn:F; [| reflexivity].
    apply find_some in F as [Hin Hk]. apply eqb_true in Hk.
    exfalso. apply Hnotin. rewrite <- Hk. apply in_map. exact Hin.
  - rewrite E. apply IH. exact Hnd'.
Qed.

Lemma cache_delete_keys (id : string) (records : list T) :
  NoDup (map (t_key tb) records) ->
  NoDup (map (t_key tb) (cache_delete tb id records))
  /\ forall k, In k (map (t_key tb) (cache_delete tb id records))
               -> In k (map (t_key tb) records).
Proof.
  induction records as [| r rest IH]; simpl; intros Hnd.
  - split; [constructor | auto].
  - inversion Hnd as [| k ks Hnotin Hnd']; subst.
    destruct (t_key tb r =? id); simpl.
    + split; [exact Hnd' | auto].
    + destruct (IH Hnd') as [H1 H2]. split.
      * constructor; [| exact H1]. intros Hin. apply Hnotin. apply H2. exact Hin.
      * intros k [<- | Hin]; [left; reflexivity | right; apply H2; exact Hin].
Qed.

Lemma persist_records (s s' : Store) (r : Exn + unit) :
  persist s = (s', r) ->
  t_records tb s' = t_records tb s
  /\ (r = inr tt \/ r = inl (JsError "write failed")).
Proof.
  destruct laws as (L1 & L2 & L3 & L4).
  unfold persist. destruct (st_faults s) as [| [|] rest];
    intros H; inversion H; subst; clear H; rewrite ?L3; auto.
Qed.

(** X1.  [insert] takes the identifier of its input, or a fresh one when the
    input has none.  If the table holds a record under that identifier the
    call throws and the records are as they were.  Otherwise the record
    built from the identifier comes last in the table, whether or not the
    write to disk succeeds: [getById] finds it under its identifier, the
    other identifiers read as before, the keys stay unique, and the call
    either returns the record or fails with the error of the write. *)
Theorem insert_then_getById (given : option string) (record : string -> T)
    (s s' : Store) (r : Exn + T) :
  (forall id, t_key tb (record id) = id) ->
  NoDup (map (t_key tb) (t_records tb s)) ->
  insert tb given record s = (s', r) ->
  let id := nullish given (nanoidAt (st_tick s)) in
  match cache_get tb id (t_records tb s) with
  | Some _ =>
      t_records tb s' = t_records tb s
      /\ r = inl (JsError ("Record with id " ++ id ++ " already exists"))
  | None =>
      t_records tb s' = (t_records tb s ++ [record id])%list
      /\ NoDup (map (t_key tb) (t_records tb s'))
      /\ getById tb id s' = (s', inr (Some (record id)))
      /\ (forall id', id' <> id -> getById tb id' s' = (s', snd (getById tb id' s)))
      /\ (r = inr (record id) \/ r = inl (JsError "write failed"))
  end.
Proof.
  destruct laws as (L1 & L2 & L3 & L4).
  intros Hkey Hnd H. cbv zeta. unfold insert, bind in H.
  set (id := nullish given (nanoidAt (st_tick s))).
  set (s0 := match given with
             | Some _ => s
             | None => set_tick (S (st_tick s)) s
             end).
  assert ((match given with
           | Some g => ret g
           | None => nanoid
           end) s = (s0, inr id)) as Hid.
  { unfold id, s0. destruct given; reflexivity. }
  rewrite Hid in H.
  assert (t_records tb s0 = t_records tb s) as Hs0.
  { unfold s0. destruct given; [reflexivity | apply L4]. }
  rewrite Hs0 in H.
  destruct (cache_get tb id (t_records tb s)) eqn:E.
  - injection H as <- <-. split; [exact Hs0 | reflexivity].
  - destruct (persist _) as [s1 [e | []]] eqn:Hp;
      apply persist_records in Hp as [Hrec Hr]; rewrite L1 in Hrec;
      unfold ret in H; injection H as <- <-; unfold getById; rewrite Hrec.
    + destruct Hr as [Hr | Hr]; [discriminate Hr | injection Hr as ->].
      split; [reflexivity | split; [| split; [| split]]].
      * rewrite map_app. cbn [map]. apply NoDup_snoc; [exact Hnd |].
        rewrite Hkey. apply (cache_get_None tb). exact E.
      * rewrite cache_get_snoc, Hkey, E, String.eqb_refl. reflexivity.
      * intros id' Hne. rewrite cache_get_snoc, Hkey. cbn [snd].
        destruct (cache_get tb id' (t_records tb s)); [reflexivity |].
        assert ((id =? id') = false) as ->; [| reflexivity].
        apply String.eqb_neq. congruence.
      * right. reflexivity.
    + split; [reflexivity | split; [| split; [| split]]].
      * rewrite map_app. cbn [map]. apply NoDup_snoc; [exact Hnd |].
        rewrite Hkey. apply (cache_get_None tb). exact E.
      * rewrite cache_get_snoc, Hkey, E, String.eqb_refl. reflexivity.
      * intros id' Hne. rewrite cache_get_snoc, Hkey. cbn [snd].
        destruct (cache_get tb id' (t_records tb s)); [reflexivity |].
        assert ((id =? id') = false) as ->; [| reflexivity].
        apply String.eqb_neq. congruence.
      * left. reflexivity.
Qed.

(** X2.  [update]: an unknown identifier is an error that leaves the store as it
    was.  For a known one the merged record replaces the stored one in
    place, whether or not the write to disk succeeds: the record read back
    is the merged one, the other identifiers and the order of the keys are
    untouched, and the call either returns the merged record or fails with
    the error of the write. *)
Theorem update_then_getById (id : string) (merge : T -> T) (s s' : Store)
    (r : Exn + T) :
  (forall existing, t_key tb existing = id -> t_key tb (merge existing) = id) ->
  update tb id merge s = (s', r) ->
  match cache_get tb id (t_records tb s) with
  | None =>
      s' = s /\ r = inl (JsError ("Record with id " ++ id ++ " not found"))
  | Some existing =>
      getById tb id s' = (s', inr (Some (merge existing)))
      /\ (forall id', id' <> id -> getById tb id' s' = (s', snd (getById tb id' s)))
      /\ map (t_key tb) (t_records tb s') = map (t_key tb) (t_records tb s)
      /\ (r = inr (merge existing) \/ r = inl (JsError "write failed"))
  end.
Proof.
  destruct laws as (L1 & L2 & L3 & L4).
  intros Hkey H. unfold update in H.
  destruct (cache_get tb id (t_records tb s)) as [existing |] eqn:E.
  - pose proof (cache_get_key tb _ _ _ E) as Hk.
    pose proof (Hkey _ Hk) as Hm.
    unfold bind in H.
    destruct (persist _) as [s1 [e | []]] eqn:Hp;
      apply persist_records in Hp as [Hrec Hr]; rewrite L1 in Hrec;
      inversion H; subst; clear H; unfold getById; rewrite Hrec.
    + destruct Hr as [Hr | Hr]; [discriminate Hr | inversion Hr; subst].
      split; [| split; [| split]].
      * rewrite (cache_get_replace tb _ _ _ _ E Hm). reflexivity.
      * intros id' Hne. rewrite (cache_get_replace_other _ _ _ _ Hm Hne).
        reflexivity.
      * apply cache_replace_keys. exact Hm.
      * right. reflexivity.
    + split; [| split; [| split]].
      * rewrite (cache_get_replace tb _ _ _ _ E Hm). reflexivity.
      * intros id' Hne. rewrite (cache_get_replace_other _ _ _ _ Hm Hne).
        reflexivity.
      * apply cache_replace_keys. exact Hm.
      * left. reflexivity.
  - inversion H; subst. split; reflexivity.
Qed.

(** X3.  [delete]: an unknown identifier is an error that leaves the store as it
    was.  A known one is gone from the table afterwards, whether or not the
    write to disk succeeds; the other identifiers read as before and the
    keys stay unique. *)
Theorem delete_then_getById (id : string) (s s' : Store) (r : Exn + unit) :
  NoDup (map (t_key tb) (t_records tb s)) ->
  delete tb id s = (s', r) ->
  match cache_get tb id (t_records tb s) with
  | None =>
      s' = s /\ r = inl (JsError ("Record with id " ++ id ++ " not found"))
  | Some _ =>
      getById tb id s' = (s', inr None)
      /\ (forall id', id' <> id -> getById tb id' s' = (s', snd (getById tb id' s)))
      /\ NoDup (map (t_key tb) (t_records tb s'))
      /\ (r = inr tt \/ r = inl (JsError "write failed"))
  end.
Proof.
  destruct laws as (L1 & L2 & L3 & L4).
  intros Hnd H. unfold delete in H.
  destruct (cache_get tb id (t_records tb s)) as [existing |] eqn:E.
  - apply persist_records in H as [Hrec Hr]. rewrite L1 in Hrec.
    unfold getById. rewrite Hrec. split; [| split; [| split]].
    + rewrite (cache_get_delete_same _ _ Hnd). reflexivity.
    + intros id' Hne. rewrite (cache_get_delete_other _ _ _ Hne). reflexivity.
    + apply cache_delete_keys. exact Hnd.
    + exact Hr.
  - inversion H; subst. split; reflexivity.
Qed.
End Store.

(** A room inserted under the identifier it brings, and a second one
    under the identifier of room 101, which is refused. *)
Lemma insert_then_getById_witness :
  getById roomsTable "r102"
    (fst (insert (P := Runtime.platform) roomsTable (Some "r102")
            (fun id => Hotel.room id "102" AVAILABLE) Hotel.fresh))
  = (fst (insert (P := Runtime.platform) roomsTable (Some "r102")
            (fun id => Hotel.room id "102" AVAILABLE) Hotel.fresh),
     inr (Some (Hotel.room "r102" "102" AVAILABLE)))
  /\ snd (insert (P := Runtime.platform) roomsTable (Some "101")
            (fun id => Hotel.room id "102" AVAILABLE) Hotel.fresh)
     = inl (JsError "Record with id 101 already exists")
  /\ map rm_number
       (st_rooms (fst (insert (P := Runtime.platform) roomsTable None
                         (fun id => Hotel.room id "102" AVAILABLE) Hotel.fresh)))
     = ["101"; "102"].
Proof.
  assert (NoDup (map (t_key roomsTable) (t_records roomsTable Hotel.fresh))) as Hnd.
  { vm_compute. repeat constructor. intros []. }
  split; [| split].
  - destruct (insert (P := Runtime.platform) roomsTable (Some "r102")
                (fun id => Hotel.room id "102" AVAILABLE) Hotel.fresh)
      as [s' r] eqn:Hrun.
    pose proof (insert_then_getById (P := Runtime.platform) roomsTable
                  (proj1 (proj2 tables_Lawful)) (Some "r102")
                  (fun id => Hotel.room id "102" AVAILABLE) Hotel.fresh s' r
                  (fun id => eq_refl) Hnd Hrun) as H.
    cbv zeta in H. cbn [nullish] in H.
    change (cache_get roomsTable "r102" (t_records roomsTable Hotel.fresh))
      with (@None RoomRecord) in H.
    destruct H as (_ & _ & Hget & _). exact Hget.
  - destruct (insert (P := Runtime.platform) roomsTable (Some "101")
                (fun id => Hotel.room id "102" AVAILABLE) Hotel.fresh)
      as [s' r] eqn:Hrun.
    pose proof (insert_then_getById (P := Runtime.platform) roomsTable
                  (proj1 (proj2 tables_Lawful)) (Some "101")
                  (fun id => Hotel.room id "102" AVAILABLE) Hotel.fresh s' r
                  (fun id => eq_refl) Hnd Hrun) as H.
    cbv zeta in H. cbn [nullish] in H.
    change (cache_get roomsTable "101" (t_records roomsTable Hotel.fresh))
      with (Some (Hotel.room "101" "101" AVAILABLE)) in H.
    destruct H as (_ & Hr). exact Hr.
  - destruct (insert (P := Runtime.platform) roomsTable None
                (fun id => Hotel.room id "102" AVAILABLE) Hotel.fresh)
      as [s' r] eqn:Hrun.
    pose proof (insert_then_getById (P := Runtime.platform) roomsTable
                  (proj1 (proj2 tables_Lawful)) None
                  (fun id => Hotel.room id "102" AVAILABLE) Hotel.fresh s' r
                  (fun id => eq_refl) Hnd Hrun) as H.
    cbv zeta in H. cbn [nullish] in H.
    change (cache_get roomsTable (nanoidAt (st_tick Hotel.fresh))
              (t_records roomsTable Hotel.fresh))
      with (@None RoomRecord) in H.
    destruct H as (Hrec & _). cbn [fst].
    change (st_rooms s') with (t_records roomsTable s'). rewrite Hrec. reflexivity.
Defined.

Lemma update_then_getById_witness :
  getById roomsTable "101"
    (fst (update roomsTable "101"
            (fun room => mergeRoom room {| ru_status := Some DIRTY; ru_updatedAt := None |})
            (Hotel.store [] [Hotel.room "101" "101" OCCUPIED] [true])))
  = (fst (update roomsTable "101"
            (fun room => mergeRoom room {| ru_status := Some DIRTY; ru_updatedAt := None |})
            (Hotel.store [] [Hotel.room "101" "101" OCCUPIED] [true])),
     inr (Some (Hotel.room "101" "101" DIRTY))).
Proof.
  exact (proj1 (update_then_getById roomsTable
                  (proj1 (proj2 tables_Lawful)) "101"
                  (fun room => mergeRoom room {| ru_status := Some DIRTY; ru_updatedAt := None |})
                  (Hotel.store [] [Hotel.room "101" "101" OCCUPIED] [true]) _ _
                  (fun existing H => H) (surjective_pairing _))).
Defined.

Lemma delete_then_getById_witness :
  getById reservationsTable "res1"
    (fst (delete reservationsTable "res1" Hotel.fresh))
  = (fst (delete reservationsTable "res1" Hotel.fresh), inr None).
Proof.
  refine (proj1 (delete_then_getById reservationsTable
                   (proj1 tables_Lawful) "res1" Hotel.fresh _ _ _
                   (surjective_pairing _))).
  vm_compute. repeat constructor. intros [].
Defined.

(** ** Nights *)

Section Nights.
Context {P : Platform}.

Lemma ceil_days_bounds (d : Z) :
  ((ceil_days d - 1) * MS_PER_DAY < d <= ceil_days d * MS_PER_DAY)%Z.
Proof.
  unfold ceil_days.
  assert (0 < MS_PER_DAY)%Z as Hpos by (unfold MS_PER_DAY; lia).
  pose proof (Z.div_mod (- d) MS_PER_DAY ltac:(lia)) as Hdm.
  pose proof (Z.mod_pos_bound (- d) MS_PER_DAY Hpos) as Hm.
  nia.
Qed.

Lemma ceil_days_nonpos (d : Z) : (d <= 0)%Z -> (ceil_days d <= 0)%Z.
Proof.
  intros H. pose proof (ceil_days_bounds d).
  assert (0 < MS_PER_DAY)%Z by (unfold MS_PER_DAY; lia). nia.
Qed.

(** X4.  The night count of a reservation.  With two valid dates: a departure
    that is not after the arrival is rejected with a 400, and otherwise the
    count is the whole number [n >= 1] of days that covers the interval,
    a started day counting as a night.  With an invalid date nothing is
    thrown: the count is [NaN]. *)
Theorem nightsBetween_bounds (arrival departure : string) :
  (forall start end_,
      toDate arrival = Some start -> toDate departure = Some end_ ->
      ((end_ <= start)%Z ->
         nightsBetween arrival departure
         = inl (HttpError 400 "Departure must be after arrival"))
      /\ ((start < end_)%Z ->
          exists n : Z,
            nightsBetween arrival departure = inr (of_Z n)
            /\ (1 <= n)%Z
            /\ ((n - 1) * MS_PER_DAY < end_ - start <= n * MS_PER_DAY)%Z))
  /\ (toDate arrival = None \/ toDate departure = None ->
      nightsBetween arrival departure = inr NaN).
Proof.
  split.
  - intros start end_ Ha Hd. unfold nightsBetween. rewrite Ha, Hd. cbn zeta. split.
    + intros Hle. destruct (end_ - start <=? 0)%Z eqn:E; [reflexivity |].
      apply Z.leb_gt in E. lia.
    + intros Hlt. destruct (end_ - start <=? 0)%Z eqn:E.
      * apply Z.leb_le in E. lia.
      * exists (ceil_days (end_ - start)). split; [reflexivity |].
        pose proof (ceil_days_pos (end_ - start) ltac:(lia)).
        pose proof (ceil_days_bounds (end_ - start)). lia.
  - intros [Ha | Hd]; unfold nightsBetween.
    + rewrite Ha. reflexivity.
    + rewrite Hd. destruct (toDate arrival); reflexivity.
Qed.

Lemma stayNightsFrom_exact (fuel : nat) (cursor end_ : Z) :
  Z.to_nat (ceil_days (end_ - cursor)) = fuel ->
  stayNightsFrom fuel cursor end_
  = map (fun k => split_head "T"
                    (toISOString (cursor + Z.of_nat k * MS_PER_DAY)%Z))
        (seq 0 fuel).
Proof.
  revert cursor. induction fuel as [| fuel IH]; intros cursor Hfuel.
  - reflexivity.
  - cbn [stayNightsFrom].
    destruct (cursor <? end_)%Z eqn:E.
    + cbn [seq map]. f_equal.
      * f_equal. f_equal. lia.
      * rewrite <- seq_shift, map_map. rewrite IH.
        -- apply map_ext. intros k. f_equal. f_equal. lia.
        -- replace (end_ - (cursor + MS_PER_DAY))%Z
             with (end_ - cursor - MS_PER_DAY)%Z by ring.
           rewrite ceil_days_step. lia.
    + apply Z.ltb_ge in E.
      pose proof (ceil_days_nonpos (end_ - cursor) ltac:(lia)). lia.
Qed.

(** X5.  The nights the ledger posts are the nights the reservation is billed
    for: when [nightsBetween] counts [n] nights, [enumerateStayNights] lists
    the [n] dates from the arrival on, one day apart; when it throws or
    answers [NaN], the list is empty (and [postRoomCharges] refuses the
    stay). *)
Theorem enumerateStayNights_agrees (arrival departure : string) :
  match nightsBetween arrival departure with
  | inr (Fin n) =>
      exists start,
        toDate arrival = Some start
        /\ enumerateStayNights arrival departure
           = map (fun k => split_head "T"
                             (toISOString (start + Z.of_nat k * MS_PER_DAY)%Z))
                 (seq 0 (List.length (enumerateStayNights arrival departure)))
        /\ Fin n = of_Z (Z.of_nat (List.length (enumerateStayNights arrival departure)))
        /\ enumerateStayNights arrival departure <> []
  | _ => enumerateStayNights arrival departure = []
  end.
Proof.
  unfold nightsBetween, enumerateStayNights.
  destruct (toDate arrival) as [start |]; [| reflexivity].
  destruct (toDate departure) as [end_ |]; [| reflexivity].
  cbn zeta. destruct (end_ - start <=? 0)%Z eqn:E.
  - apply Z.leb_le in E.
    assert ((start <? end_)%Z = false) as -> by (apply Z.ltb_ge; lia). reflexivity.
  - apply Z.leb_gt in E.
    assert ((start <? end_)%Z = true) as -> by (apply Z.ltb_lt; lia).
    cbn [negb of_Z].
    pose proof (ceil_days_pos (end_ - start) E) as Hpos.
    rewrite (stayNightsFrom_exact _ start end_ eq_refl).
    rewrite length_map, length_seq.
    exists start. split; [reflexivity | split; [reflexivity | split]].
    + rewrite Z2Nat.id by lia. reflexivity.
    + destruct (Z.to_nat (ceil_days (end_ - start))) eqn:N; [lia | discriminate].
Qed.
End Nights.

Lemma nightsBetween_bounds_witness :
  exists n : Z,
    nightsBetween (P := Runtime.platform) "2026-01-01" "2026-01-04" = inr (of_Z n)
    /\ (1 <= n)%Z.
Proof.
  destruct (proj1 (nightsBetween_bounds (P := Runtime.platform)
                     "2026-01-01" "2026-01-04")
              _ _ eq_refl eq_refl) as [_ H].
  destruct (H ltac:(vm_compute; reflexivity)) as (n & Hn & Hpos & _).
  exists n. split; [exact Hn | exact Hpos].
Defined.

(** ** Availability by room type *)

Section TypeAvailability.
Context {P : Platform}.

(** The rooms of [rooms] no stored reservation stands against. *)
Lemma countAvailable_run (rooms : list RoomRecord) (a d : string)
    (ex : option string) (n : nat) (s : Store) :
  countAvailable rooms a d ex n s
  = (s, inr (n + List.length
                   (filter (fun room =>
                              negb (existsb (conflicts (rm_id room) a d ex)
                                      (st_reservations s)))
                           rooms))%nat).
Proof.
  revert n. induction rooms as [| room rest IH]; intros n.
  - cbn [countAvailable filter List.length]. unfold ret. do 2 f_equal. lia.
  - cbn [countAvailable filter].
    unfold bind at 1, try_catch, bind at 1.
    rewrite ensureRoomAvailable_run.
    destruct (existsb _ (st_reservations s)); cbn [negb]; unfold ret; rewrite IH.
    + reflexivity.
    + cbn [List.length]. do 2 f_equal. lia.
Qed.

Lemma ensureAvailabilityForType_run (hotelCode roomType a d : string)
    (ex : option string) (s : Store) :
  ensureAvailabilityForType hotelCode roomType a d ex s
  = (s,
     let relevant :=
       filter (fun room => (rm_hotelCode room =? hotelCode) && (rm_type room =? roomType))
              (st_rooms s) in
     match relevant with
     | [] => inl (HttpError 400 "No rooms available for the specified type")
     | _ :: _ =>
         match filter (fun room =>
                         negb (existsb (conflicts (rm_id room) a d ex)
                                 (st_reservations s)))
                      relevant with
         | [] => inl (HttpError 409
                        "No availability for the requested room type and dates")
         | _ :: _ => inr tt
         end
     end).
Proof.
  unfold ensureAvailabilityForType.
  unfold bind at 1, getAll. cbn [t_records roomsTable]. cbn zeta.
  destruct (filter _ (st_rooms s)) as [| room0 rest]; [reflexivity |].
  cbn [List.length Nat.eqb].
  unfold bind. rewrite countAvailable_run. cbn [Nat.add].
  destruct (filter _ (room0 :: rest)); reflexivity.
Qed.

(** X6.  A reservation by room type passes [ensureAvailabilityForType] exactly
    when the property has a room of the type that no reservation stands
    against: without any room of the type the answer is a 400, with every
    room of the type taken a 409.  The store is left as it was. *)
Theorem ensureAvailabilityForType_outcome (hotelCode roomType a d : string)
    (ex : option string) (s : Store) :
  let relevant :=
    filter (fun room => (rm_hotelCode room =? hotelCode) && (rm_type room =? roomType))
           (st_rooms s) in
  let taken (room : RoomRecord) :=
    existsb (conflicts (rm_id room) a d ex) (st_reservations s) in
  fst (ensureAvailabilityForType hotelCode roomType a d ex s) = s
  /\ (snd (ensureAvailabilityForType hotelCode roomType a d ex s)
      = inl (HttpError 400 "No rooms available for the specified type")
      <-> relevant = [])
  /\ (snd (ensureAvailabilityForType hotelCode roomType a d ex s)
      = inl (HttpError 409 "No availability for the requested room type and dates")
      <-> relevant <> [] /\ forall room, In room relevant -> taken room = true)
  /\ (snd (ensureAvailabilityForType hotelCode roomType a d ex s) = inr tt
      <-> exists room, In room relevant /\ taken room = false).
Proof.
  cbn zeta. rewrite ensureAvailabilityForType_run. cbn [fst snd]. cbn zeta.
  set (taken := fun room : RoomRecord =>
                  existsb (conflicts (rm_id room) a d ex) (st_reservations s)).
  change (fun room : RoomRecord =>
            negb (existsb (conflicts (rm_id room) a d ex) (st_reservations s)))
    with (fun room => negb (taken room)).
  destruct (filter _ (st_rooms s)) as [| room0 rest] eqn:Hrel.
  - split; [reflexivity | split; [| split]].
    + split; reflexivity.
    + split; [discriminate | intros [H _]; contradiction].
    + split; [discriminate | intros (room & [] & _)].
  - destruct (filter (fun room => negb (taken room)) (room0 :: rest))
      as [| free others] eqn:F.
    + assert (forall room, In room (room0 :: rest) -> taken room = true) as Hall.
      { intros room Hin. destruct (taken room) eqn:T; [reflexivity |].
        assert (In room (filter (fun room => negb (taken room)) (room0 :: rest))) as Hf
          by (apply filter_In; rewrite T; auto).
        rewrite F in Hf. destruct Hf. }
      split; [reflexivity | split; [| split]].
      * split; discriminate.
      * split; [| reflexivity]. intros _. split; [discriminate | exact Hall].
      * split; [discriminate |]. intros (room & Hin & T).
        pose proof (Hall room Hin) as H1. unfold taken in H1. congruence.
    + assert (In free (room0 :: rest) /\ taken free = false) as [Hin T].
      { assert (In free (filter (fun room => negb (taken room)) (room0 :: rest))) as Hf
          by (rewrite F; left; reflexivity).
        apply filter_In in Hf as [Hin T]. split; [exact Hin |].
        destruct (taken free); [discriminate | reflexivity]. }
      split; [reflexivity | split; [| split]].
      * split; discriminate.
      * split; [discriminate |]. intros [_ Hall].
        pose proof (Hall free Hin) as H1. unfold taken in H1, T. congruence.
      * split; [| reflexivity]. intros _. exists free. split; assumption.
Qed.

(** X7.  The rooms [getAvailability] reports, in the order of the rooms table,
    are the rooms of the configured property with the code asked for and,
    when a type is asked for, of that type, for which [ensureRoomAvailable]
    passes for the dates of the query; the count is their number and the
    store is left as it was.  The status of a room plays no part, and with
    a date that cannot be read every such room is reported. *)
Theorem getAvailability_rooms (hotelCode : string) (query : AvailabilityQuery)
    (s s' : Store) (response : AvailabilityResponse) :
  getAvailability hotelCode query s = (s', inr response) ->
  s' = s
  /\ av_totalAvailable response = List.length (av_availableRooms response)
  /\ (exists profile,
        hd_error (st_property s) = Some profile
        /\ let listed (record : RoomRecord) :=
             (rm_hotelCode record =? pp_hotelCode profile)
             && (rm_hotelCode record =? hotelCode)
             && (negb (truthy_ostr (q_roomType query))
                 || (rm_type record =? nullish (q_roomType query) "")) in
           av_availableRooms response
           = map withRoomDefaults
               (filter (fun record =>
                          listed record
                          && match snd (ensureRoomAvailable (rm_id record)
                                          (q_arrivalDate query) (q_departureDate query)
                                          None s) with
                             | inr _ => true
                             | inl _ => false
                             end)
                       (st_rooms s))
           /\ (toDate (q_arrivalDate query) = None
               \/ toDate (q_departureDate query) = None ->
               av_availableRooms response
               = map withRoomDefaults (filter listed (st_rooms s)))).
Proof.
  intros H. unfold getAvailability in H. unfold bind at 1 in H.
  rewrite listRooms_run in H.
  destruct (hd_error (st_property s)) as [profile |] eqn:Hp; [| discriminate H].
  unfold bind in H. rewrite collectAvailable_run in H. unfold ret in H.
  injection H as <- <-. cbn [av_totalAvailable av_availableRooms app].
  split; [reflexivity | split; [reflexivity |]].
  exists profile. split; [reflexivity |]. cbn zeta.
  assert (forall (p : RoomRecord -> bool) (l : list RoomRecord),
             (forall r, p (withRoomDefaults r) = p r) ->
             filter p (map withRoomDefaults l) = map withRoomDefaults (filter p l))
    as Hmap.
  { intros p l Hpq. induction l as [| r l IH]; [reflexivity |].
    cbn [map filter]. rewrite Hpq. destruct (p r); cbn [map]; rewrite IH; reflexivity. }
  assert (forall (p q : RoomRecord -> bool) (l : list RoomRecord),
             filter p (filter q l) = filter (fun x => q x && p x) l) as Hff.
  { intros p q l. induction l as [| r l IH]; [reflexivity |].
    cbn [filter]. destruct (q r); cbn [filter andb]; rewrite IH; reflexivity. }
  unfold freeRooms. rewrite !Hmap by reflexivity. rewrite !Hff.
  split.
  - f_equal. apply filter_ext. intros record.
    rewrite ensureRoomAvailable_run. cbn [snd].
    destruct (existsb _ (st_reservations s)); cbn [negb];
      rewrite ?andb_true_r, ?andb_false_r;
      destruct (rm_hotelCode record =? pp_hotelCode profile);
      destruct (rm_hotelCode record =? hotelCode);
      destruct (negb (truthy_ostr (q_roomType query))
                || (rm_type record =? nullish (q_roomType query) ""));
      reflexivity.
  - intros Hbad. f_equal. apply filter_ext. intros record.
    assert (existsb (conflicts (rm_id record) (q_arrivalDate query)
                       (q_departureDate query) None) (st_reservations s) = false)
      as ->.
    { destruct (existsb _ (st_reservations s)) eqn:E; [| reflexivity].
      apply existsb_exists in E as (r & _ & Hr). exfalso.
      unfold conflicts, rangesOverlap in Hr.
      assert (date_lt (toDate (r_arrivalDate r)) (toDate (q_departureDate query))
              && date_lt (toDate (q_arrivalDate query)) (toDate (r_departureDate r))
              = false) as Hno.
      { destruct Hbad as [-> | ->].
        - rewrite andb_false_r. reflexivity.
        - unfold date_lt at 1. destruct (toDate (r_arrivalDate r)); reflexivity. }
      rewrite Hno in Hr.
      repeat match type of Hr with (if ?b then _ else _) = _ => destruct b end;
        discriminate Hr. }
    cbn [negb].
    destruct (rm_hotelCode record =? pp_hotelCode profile);
      destruct (rm_hotelCode record =? hotelCode);
      destruct (negb (truthy_ostr (q_roomType query))
                || (rm_type record =? nullish (q_roomType query) ""));
      reflexivity.
Qed.
End TypeAvailability.

Lemma getAvailability_rooms_witness :
  exists response,
    getAvailability (P := Runtime.platform) "H1"
      {| q_arrivalDate := "2026-01-04"; q_departureDate := "2026-01-06";
         q_roomType := Some "DLX" |} Hotel.fresh
    = (Hotel.fresh, inr response)
    /\ av_totalAvailable response = 1%nat.
Proof.
  destruct (getAvailability (P := Runtime.platform) "H1"
              {| q_arrivalDate := "2026-01-04"; q_departureDate := "2026-01-06";
                 q_roomType := Some "DLX" |} Hotel.fresh)
    as [s' [e | response]] eqn:Hrun; [vm_compute in Hrun; discriminate Hrun |].
  destruct (getAvailability_rooms (P := Runtime.platform) _ _ _ _ _ Hrun)
    as (Hs & Hn & _).
  exists response. rewrite Hs. split; [reflexivity |].
  rewrite Hn. vm_compute in Hrun. injection Hrun as _ <-. reflexivity.
Defined.

(** ** Checks come before writes *)

Lemma bind_inl {A B : Type} (c : M A) (k : A -> M B) (s s2 : Store) (e : Exn) :
  bind c k s = (s2, inl e) ->
  c s = (s2, inl e) \/ exists a s1, c s = (s1, inr a) /\ k a s1 = (s2, inl e).
Proof.
  unfold bind. destruct (c s) as [s1 [e1 | a]]; intros H.
  - left. inversion H; subst. reflexivity.
  - right. exists a, s1. split; [reflexivity | exact H].
Qed.

Lemma Refusal_http (status : Z) (message : string) :
  (status = 400 \/ status = 404 \/ status = 409)%Z ->
  Refusal (HttpError status message).
Proof. intros H. exists status, message. split; [reflexivity | exact H]. Qed.

Section Checking.
Context {P : Platform}.

Lemma Checks_ret {A : Type} (a : A) : Checks (ret a).
Proof. intros s s1 r H. inversion H; subst. split; [reflexivity | discriminate]. Qed.

Lemma Checks_throw {A : Type} (e : Exn) : Refusal e -> Checks (@throw A e).
Proof.
  intros He s s1 r H. inversion H; subst. split; [reflexivity |].
  intros e' E. inversion E; subst. exact He.
Qed.

Lemma Checks_lift {A : Type} (r : Exn + A) :
  (forall e, r = inl e -> Refusal e) -> Checks (lift r).
Proof.
  intros Hr. destruct r as [e | a]; cbn [lift].
  - apply Checks_throw. apply Hr. reflexivity.
  - apply Checks_ret.
Qed.

Lemma Checks_bind {A B : Type} (c : M A) (k : A -> M B) :
  Checks c -> (forall a, Checks (k a)) -> Checks (bind c k).
Proof.
  intros Hc Hk s s2 r H. unfold bind in H.
  destruct (c s) as [s1 [e | a]] eqn:E; destruct (Hc _ _ _ E) as [-> He].
  - inversion H; subst. split; [reflexivity |].
    intros e' E'. inversion E'; subst. apply He. reflexivity.
  - exact (Hk a _ _ _ H).
Qed.

Lemma Checks_getById {T : Type} (tb : Table T) (id : string) : Checks (getById tb id).
Proof. intros s s1 r H. inversion H; subst. split; [reflexivity | discriminate]. Qed.

Lemma Checks_getAll {T : Type} (tb : Table T) : Checks (getAll tb).
Proof. intros s s1 r H. inversion H; subst. split; [reflexivity | discriminate]. Qed.

Lemma Checks_ensureRoomAvailable (roomId a d : string) (ex : option string) :
  Checks (ensureRoomAvailable roomId a d ex).
Proof.
  intros s s1 r H. rewrite ensureRoomAvailable_run in H. injection H as <- <-.
  split; [reflexivity |]. intros e E.
  destruct (existsb _ _); inversion E; subst.
  apply Refusal_http. auto.
Qed.

Lemma Checks_ensureAvailabilityForType (h t a d : string) (ex : option string) :
  Checks (ensureAvailabilityForType h t a d ex).
Proof.
  intros s s1 r H. rewrite ensureAvailabilityForType_run in H. injection H as <- <-.
  split; [reflexivity |]. intros e E. cbn zeta in E.
  destruct (filter _ (st_rooms s)) as [| room0 rest].
  - inversion E; subst. apply Refusal_http. auto.
  - destruct (filter _ (room0 :: rest)); inversion E; subst.
    apply Refusal_http. auto.
Qed.

Lemma Checks_ensureRoomBelongsToHotel (room : option RoomRecord) (hotelCode : string) :
  Checks (lift (ensureRoomBelongsToHotel room hotelCode)).
Proof.
  apply Checks_lift. intros e E. unfold ensureRoomBelongsToHotel in E.
  destruct room as [r |]; [destruct (negb _) |]; inversion E; subst;
    apply Refusal_http; auto.
Qed.

Lemma Checks_nightsBetween (a d : string) : Checks (lift (nightsBetween a d)).
Proof.
  apply Checks_lift. intros e E. unfold nightsBetween in E.
  destruct (toDate a); [destruct (toDate d); [cbn zeta in E; destruct (_ <=? _)%Z |] |];
    inversion E; subst; apply Refusal_http; auto.
Qed.

Lemma Checks_normalizeRatePlan (value : string) :
  Checks (lift (normalizeRatePlan value)).
Proof.
  apply Checks_lift. intros e E. unfold normalizeRatePlan in E.
  destruct (negb _); [injection E as <- | discriminate E].
  apply Refusal_http. auto.
Qed.

Lemma Checks_normalizeSource (value : string) :
  Checks (lift (normalizeSource value)).
Proof.
  apply Checks_lift. intros e E. unfold normalizeSource in E.
  destruct (negb _); [injection E as <- | discriminate E].
  apply Refusal_http. auto.
Qed.

Lemma Checks_assertEditable (reservation : ReservationRecord) :
  Checks (lift (assertEditable reservation)).
Proof.
  apply Checks_lift. intros e E. unfold assertEditable in E.
  destruct (r_status reservation); try discriminate E. injection E as <-.
  apply Refusal_http. auto.
Qed.

Lemma Checks_getReservationOrThrow (id : string) : Checks (getReservationOrThrow id).
Proof.
  apply Checks_bind; [apply Checks_getById |].
  intros [r |]; [apply Checks_ret | apply Checks_throw, Refusal_http; auto].
Qed.

Lemma Checks_getRoomOrThrow (id : string) : Checks (getRoomOrThrow id).
Proof.
  apply Checks_bind; [apply Checks_getById |].
  intros [r |]; [apply Checks_ret | apply Checks_throw, Refusal_http; auto].
Qed.
End Checking.

Ltac checks_step :=
  first
    [ apply Checks_ret | apply Checks_getById | apply Checks_getAll
    | apply Checks_ensureRoomAvailable | apply Checks_ensureAvailabilityForType
    | apply Checks_ensureRoomBelongsToHotel | apply Checks_nightsBetween
    | apply Checks_getReservationOrThrow | apply Checks_getRoomOrThrow
    | apply Checks_normalizeRatePlan | apply Checks_normalizeSource
    | apply Checks_assertEditable
    | apply Checks_throw, Refusal_http; auto
    | apply Checks_bind; [| intros ?]
    | match goal with
      | |- Checks (if ?b then _ else _) => destruct b
      | |- Checks (match ?x with _ => _ end) => destruct x
      end ].

Lemma checks_bind_inl {A B : Type} (c : M A) (k : A -> M B) (s s2 : Store)
    (e : Exn) :
  Checks c -> bind c k s = (s2, inl e) ->
  (s2 = s /\ Refusal e) \/ exists a, c s = (s, inr a) /\ k a s = (s2, inl e).
Proof.
  intros Hc H. apply bind_inl in H as [H | (a & s1 & Ha & H)].
  - left. destruct (Hc _ _ _ H) as [-> He]. split; [reflexivity |].
    apply He. reflexivity.
  - right. destruct (Hc _ _ _ Ha) as [-> _]. exists a. split; assumption.
Qed.

(** On [H : bind c k s = (s2, inl e)] with [c] a check: the case where [c]
    refused closes a goal [s2 = s /\ Refusal e]; what is left is the case
    where [c] returned [a], with [H] about the rest. *)
Ltac checked H a Ha :=
  match type of H with
  | bind ?c ?k ?s = (?s2, inl ?e) =>
      let Hc := fresh "Hc" in
      let H' := fresh "H" in
      assert (Checks c) as Hc by (repeat checks_step);
      destruct (checks_bind_inl c k s s2 e Hc H) as [? | (a & Ha & H')];
      [ assumption | clear H Hc; rename H' into H ]
  end.

(** ** Updating a reservation: what is written *)

Section UpdateWrites.
Context {P : Platform}.

Lemma keeps_updateReservation {X : Type} (f : Store -> X) (id : string)
    (input : UpdateReservationInput) :
  (forall n s, f (set_tick n s) = f s) ->
  (forall l s, f (set_faults l s) = f s) ->
  (forall l s, f (set_reservations l s) = f s) ->
  keeps f (updateReservation id input).
Proof.
  intros Ftick Ffaults Fres. unfold updateReservation.
  repeat first
    [ apply keeps_ensureAvailabilityForType
    | apply keeps_now; exact Ftick
    | apply keeps_update; [exact Ffaults | exact Fres]
    | keeps_step ].
Qed.

(** The reservations [update] leaves alone: every identifier but the one
    it is given, and the order of the keys. *)
Lemma keeps_update_others (id id' : string) (merge : ReservationRecord -> ReservationRecord) :
  (forall e, r_id (merge e) = r_id e) ->
  id' <> id ->
  keeps (fun s => (cache_get reservationsTable id' (st_reservations s),
                   map r_id (st_reservations s)))
        (update reservationsTable id merge).
Proof.
  intros Hid Hne s. unfold update. cbn [t_records t_store reservationsTable].
  destruct (cache_get reservationsTable id (st_reservations s)) as [existing |] eqn:E;
    [| reflexivity].
  pose proof (cache_get_key reservationsTable _ _ _ E) as Hk.
  cbn [t_key reservationsTable] in Hk.
  assert (t_key reservationsTable (merge existing) = id) as Hm
    by (cbn [t_key reservationsTable]; rewrite Hid; exact Hk).
  unfold bind, persist.
  destruct (st_faults _) as [| [|] rest]; cbn [fst ret];
    cbn [set_faults set_reservations st_reservations];
    rewrite (cache_get_replace_other reservationsTable _ _ _ _ Hm Hne);
    rewrite (cache_replace_keys reservationsTable _ _ _ Hm); reflexivity.
Qed.

(** X8.  [updateReservation] writes one record of the reservations table and
    nothing else: rooms, bills, payments, property and taxes are as before,
    whatever the input and whether the call returns or throws, and so are
    the other reservations and the order of the table.  In particular a
    status set to CHECKED_IN here leaves the room as it was, and the bill
    of the reservation is not touched. *)
Theorem updateReservation_writes_one_record (id : string)
    (input : UpdateReservationInput) (s : Store) :
  let s' := fst (updateReservation id input s) in
  st_rooms s' = st_rooms s
  /\ st_bills s' = st_bills s
  /\ st_payments s' = st_payments s
  /\ st_property s' = st_property s
  /\ st_taxes s' = st_taxes s
  /\ map r_id (st_reservations s') = map r_id (st_reservations s)
  /\ forall id', id' <> id ->
       cache_get reservationsTable id' (st_reservations s')
       = cache_get reservationsTable id' (st_reservations s).
Proof.
  cbn zeta.
  split; [apply (keeps_updateReservation st_rooms); reflexivity |].
  split; [apply (keeps_updateReservation st_bills); reflexivity |].
  split; [apply (keeps_updateReservation st_payments); reflexivity |].
  split; [apply (keeps_updateReservation st_property); reflexivity |].
  split; [apply (keeps_updateReservation st_taxes); reflexivity |].
  assert (forall id', id' <> id ->
            keeps (fun s => (cache_get reservationsTable id' (st_reservations s),
                             map r_id (st_reservations s)))
                  (updateReservation id input)) as Hk.
  { intros id' Hne. unfold updateReservation.
    repeat first
      [ apply keeps_ensureAvailabilityForType
      | apply keeps_update_others; [reflexivity | exact Hne]
      | keeps_step ]. }
  split.
  - destruct (String.eqb_spec id "x") as [-> | Hne].
    + exact (f_equal snd (Hk "y" ltac:(discriminate) s)).
    + exact (f_equal snd (Hk "x" ltac:(congruence) s)).
  - intros id' Hne. exact (f_equal fst (Hk id' Hne s)).
Qed.
End UpdateWrites.

(** ** Refusals leave no trace *)

Section Refusals.
Context {P : Platform}.

(** X9.  On a disk that takes every write, an [updateReservation] that throws has
    written nothing and read neither the clock nor an identifier: the store
    is the one it was called in, and the error is a refusal (404 for an
    unknown reservation, 400 for a checked-out one, for dates out of order,
    a foreign room, a wrong room type, a rate plan or a source that does
    not exist, 409 for a room or a type that is taken). *)
Theorem updateReservation_refusal (id : string) (input : UpdateReservationInput)
    (s s' : Store) (e : Exn) :
  st_faults s = [] ->
  updateReservation id input s = (s', inl e) ->
  s' = s /\ Refusal e.
Proof.
  intros Hfaults H. unfold updateReservation in H.
  checked H found Hfound.
  unfold getById in Hfound. injection Hfound as <-.
  cbn [t_records reservationsTable] in H.
  destruct (cache_get reservationsTable id (st_reservations s))
    as [existing |] eqn:Hget.
  2:{ injection H as <- <-. split; [reflexivity | apply Refusal_http; auto]. }
  checked H u Hu.
  checked H nights Hnights.
  checked H roomType HroomType.
  checked H ratePlan HratePlan.
  checked H source Hsource.
  exfalso.
  pose proof (cache_get_key reservationsTable _ _ _ Hget) as Hk.
  cbn [t_key reservationsTable] in Hk.
  unfold bind at 1, now in H.
  destruct (is_status CHECKED_IN (in_status input)
            && negb (truthy_ostr (r_checkInAt existing)));
    destruct (is_status CHECKED_OUT (in_status input)
              && negb (truthy_ostr (r_checkOutAt existing)));
    unfold bind, now, ret in H;
    erewrite update_run in H by (first [exact Hget | exact Hfaults]);
    discriminate H.
Qed.

Lemma getReservationOrThrow_inr (id : string) (s s1 : Store) (r : ReservationRecord) :
  getReservationOrThrow id s = (s1, inr r) ->
  cache_get reservationsTable id (st_reservations s) = Some r.
Proof.
  unfold getReservationOrThrow, bind, getById. cbn [t_records reservationsTable].
  destruct (cache_get reservationsTable id (st_reservations s));
    intros H; inversion H; subst; reflexivity.
Qed.

Lemma getRoomOrThrow_inr (id : string) (s s1 : Store) (r : RoomRecord) :
  getRoomOrThrow id s = (s1, inr r) ->
  cache_get roomsTable id (st_rooms s) = Some r.
Proof.
  unfold getRoomOrThrow, bind, getById. cbn [t_records roomsTable].
  destruct (cache_get roomsTable id (st_rooms s));
    intros H; inversion H; subst; reflexivity.
Qed.

Lemma ensureRoomBelongsToHotel_inr (room : RoomRecord) (hotelCode : string)
    (s s1 : Store) (u : unit) :
  lift (ensureRoomBelongsToHotel (Some room) hotelCode) s = (s1, inr u) ->
  rm_hotelCode room = hotelCode.
Proof.
  unfold ensureRoomBelongsToHotel.
  destruct (rm_hotelCode room =? hotelCode) eqn:E; cbn [negb lift].
  - intros _. apply eqb_true. exact E.
  - discriminate.
Qed.

Lemma ensureRoomAvailable_inr (roomId a d : string) (ex : option string)
    (s s1 : Store) (u : unit) :
  ensureRoomAvailable roomId a d ex s = (s1, inr u) ->
  existsb (conflicts roomId a d ex) (st_reservations s) = false.
Proof.
  rewrite ensureRoomAvailable_run.
  destruct (existsb _ _); [discriminate | reflexivity].
Qed.

(** X10.  On a disk that takes every write, a [checkIn] that throws has written
    nothing: the reservation and the room are as they were, and the error
    is a refusal (404 for an unknown reservation or room, 400 for a
    reservation that is neither CONFIRMED nor DRAFT, has no room or a room
    of another property, 409 for a room that is taken).  The 500 of the
    final read-back never shows. *)
Theorem checkIn_refusal (input : CheckInInput) (s s' : Store) (e : Exn) :
  st_faults s = [] ->
  checkIn input s = (s', inl e) ->
  s' = s /\ Refusal e.
Proof.
  intros Hfaults H. pose proof H as H0. unfold checkIn in H.
  checked H reservation Hres. apply getReservationOrThrow_inr in Hres.
  destruct (includes ReservationStatus_eqb [CONFIRMED; DRAFT] (r_status reservation))
    eqn:Hstatus; cbn [negb] in H.
  2:{ injection H as <- <-. split; [reflexivity | apply Refusal_http; auto]. }
  destruct (nullish_opt (ci_roomId input) (r_roomId reservation)) as [roomId |]
    eqn:Hrid; cbn [truthy_ostr nullish] in H.
  2:{ injection H as <- <-. split; [reflexivity | apply Refusal_http; auto]. }
  destruct (truthy_str roomId) eqn:Hne; cbn [negb] in H.
  2:{ injection H as <- <-. split; [reflexivity | apply Refusal_http; auto]. }
  checked H room Hroom. apply getRoomOrThrow_inr in Hroom.
  checked H u Hbelongs. apply ensureRoomBelongsToHotel_inr in Hbelongs.
  checked H u2 Hfree. apply ensureRoomAvailable_inr in Hfree.
  exfalso.
  rewrite (checkIn_run s input reservation roomId room) in H0; try assumption.
  - discriminate H0.
  - destruct (r_status reservation); try discriminate Hstatus; auto.
  - apply truthy_str_iff. exact Hne.
Qed.


(** X12.  On a disk that takes every write, an [assignRoom] that throws has
    written nothing, and the error is a refusal (404 for an unknown
    reservation or room, 400 for a room of another property, 409 for a room
    that is taken). *)
Theorem assignRoom_refusal (reservationId roomId : string) (s s' : Store) (e : Exn) :
  st_faults s = [] ->
  assignRoom reservationId roomId s = (s', inl e) ->
  s' = s /\ Refusal e.
Proof.
  intros Hfaults H. unfold assignRoom in H.
  checked H reservation Hres. apply getReservationOrThrow_inr in Hres.
  checked H room Hroom.
  checked H u Hbelongs.
  checked H u2 Hfree.
  exfalso.
  pose proof (cache_get_key reservationsTable _ _ _ Hres) as Hk.
  cbn [t_key reservationsTable] in Hk. rewrite <- Hk in Hres.
  unfold bind at 1, now in H.
  erewrite bind_run in H
    by (apply (update_run reservationsTable _ _ _ reservation);
        [exact Hres | exact Hfaults]).
  unfold getReservationById, bind, getById, ret in H.
  cbn [t_store t_records reservationsTable st_reservations set_reservations] in H.
  rewrite (cache_get_replace reservationsTable _ _ reservation) in H;
    [discriminate H | exact Hres | reflexivity].
Qed.
End Refusals.

(** ** No room is sold twice *)

Lemma try_catch_inr {A : Type} (c : M A) (h : Exn -> M A) (s s2 : Store) (a : A) :
  try_catch c h s = (s2, inr a) ->
  c s = (s2, inr a) \/ exists e s1, c s = (s1, inl e) /\ h e s1 = (s2, inr a).
Proof.
  unfold try_catch. destruct (c s) as [s1 [e | x]]; intros H.
  - right. exists e, s1. split; [reflexivity | exact H].
  - left. exact H.
Qed.

Section Replace.
Context {T : Type} (tb : Table T).

Lemma In_cache_replace (id : string) (new r : T) (records : list T) :
  NoDup (map (t_key tb) records) ->
  In r (cache_replace tb id new records) ->
  r = new \/ (In r records /\ t_key tb r <> id).
Proof.
  induction records as [| x rest IH]; cbn [cache_replace map]; intros Hnd Hin.
  - destruct Hin.
  - inversion Hnd as [| k ks Hnotin Hnd']; subst.
    destruct (t_key tb x =? id) eqn:E.
    + apply eqb_true in E. destruct Hin as [<- | Hin]; [left; reflexivity |].
      right. split; [right; exact Hin |].
      intros Hk. apply Hnotin. rewrite E, <- Hk. apply in_map. exact Hin.
    + apply String.eqb_neq in E. destruct Hin as [<- | Hin].
      * right. split; [left; reflexivity | exact E].
      * destruct (IH Hnd' Hin) as [-> | [Hin' Hk]]; [left; reflexivity |].
        right. split; [right; exact Hin' | exact Hk].
Qed.

Lemma In_cache_delete (id : string) (r : T) (records : list T) :
  In r (cache_delete tb id records) -> In r records.
Proof.
  induction records as [| x rest IH]; cbn [cache_delete]; intros Hin.
  - destruct Hin.
  - destruct (t_key tb x =? id).
    + right. exact Hin.
    + destruct Hin as [<- | Hin]; [left; reflexivity | right; apply IH; exact Hin].
Qed.
End Replace.

Section Inventory.
Context {P : Platform}.

Lemma Overlap_sym (a1 d1 a2 d2 : string) :
  Overlap a1 d1 a2 d2 -> Overlap a2 d2 a1 d1.
Proof. unfold Overlap. intros [H1 H2]. split; assumption. Qed.

(** What a passed availability check says of a stored reservation. *)
Lemma conflicts_false (roomId a d id : string) (r : ReservationRecord) :
  conflicts roomId a d (Some id) r = false ->
  roomId <> "" -> r_roomId r = Some roomId -> r_id r <> id -> Active (r_status r) ->
  ~ Overlap (r_arrivalDate r) (r_departureDate r) a d.
Proof.
  intros Hc Hne Hroom Hid Hact Hov. unfold conflicts in Hc.
  rewrite Hroom in Hc. cbn [truthy_ostr nullish] in Hc.
  apply truthy_str_iff in Hne. rewrite Hne, String.eqb_refl in Hc. cbn [negb] in Hc.
  assert ((r_id r =? id) = false) as E by (apply String.eqb_neq; exact Hid).
  rewrite E, andb_false_r in Hc.
  apply active_Active in Hact. rewrite Hact in Hc. cbn [negb] in Hc.
  apply rangesOverlap_Overlap in Hov. congruence.
Qed.

Lemma existsb_false_In {A : Type} (p : A -> bool) (l : list A) (x : A) :
  existsb p l = false -> In x l -> p x = false.
Proof.
  intros H Hin. destruct (p x) eqn:E; [| reflexivity].
  assert (existsb p l = true) by (apply existsb_exists; exists x; auto). congruence.
Qed.

(** Replacing a reservation by one that passed the availability check for
    its room and dates keeps the inventory consistent. *)
Lemma NoDoubleBooking_replace (reservations : list ReservationRecord) (id : string)
    (new : ReservationRecord) :
  NoDup (map r_id reservations) ->
  NoDoubleBooking reservations ->
  r_id new = id ->
  (forall roomId, roomId <> "" -> r_roomId new = Some roomId -> Active (r_status new) ->
     existsb (conflicts roomId (r_arrivalDate new) (r_departureDate new) (Some id))
       reservations = false) ->
  NoDoubleBooking (cache_replace reservationsTable id new reservations).
Proof.
  intros Hnd Hinv Hid Hfree r1 r2 roomId H1 H2 Hne Hroom Hr1 Hr2 Ha1 Ha2.
  apply (In_cache_replace reservationsTable) in H1; [| exact Hnd].
  apply (In_cache_replace reservationsTable) in H2; [| exact Hnd].
  cbn [t_key reservationsTable] in H1, H2.
  destruct H1 as [-> | [H1 K1]]; destruct H2 as [-> | [H2 K2]].
  - congruence.
  - intros Hov. apply Overlap_sym in Hov. revert Hov.
    apply (conflicts_false roomId _ _ id); try assumption.
    apply (existsb_false_In _ reservations); [| exact H2].
    apply Hfree; assumption.
  - apply (conflicts_false roomId _ _ id); try assumption.
    apply (existsb_false_In _ reservations); [| exact H1].
    apply Hfree; assumption.
  - apply (Hinv r1 r2 roomId); assumption.
Qed.

(** Replacing a reservation by one that holds no inventory, or taking it
    out of the table, keeps the inventory consistent. *)
Lemma NoDoubleBooking_release (reservations : list ReservationRecord) (id : string)
    (new : ReservationRecord) :
  NoDup (map r_id reservations) ->
  NoDoubleBooking reservations ->
  ~ Active (r_status new) ->
  NoDoubleBooking (cache_replace reservationsTable id new reservations).
Proof.
  intros Hnd Hinv Hina r1 r2 roomId H1 H2 Hne Hroom Hr1 Hr2 Ha1 Ha2.
  apply (In_cache_replace reservationsTable) in H1; [| exact Hnd].
  apply (In_cache_replace reservationsTable) in H2; [| exact Hnd].
  destruct H1 as [-> | [H1 K1]]; [contradiction |].
  destruct H2 as [-> | [H2 K2]]; [contradiction |].
  apply (Hinv r1 r2 roomId); assumption.
Qed.

Lemma NoDoubleBooking_delete (reservations : list ReservationRecord) (id : string) :
  NoDoubleBooking reservations ->
  NoDoubleBooking (cache_delete reservationsTable id reservations).
Proof.
  intros Hinv r1 r2 roomId H1 H2.
  apply In_cache_delete in H1. apply In_cache_delete in H2.
  apply (Hinv r1 r2 roomId); assumption.
Qed.
End Inventory.

(** ** Transitions that returned *)

Lemma checks_bind_inr {A B : Type} (c : M A) (k : A -> M B) (s s2 : Store) (b : B) :
  Checks c -> bind c k s = (s2, inr b) ->
  exists a, c s = (s, inr a) /\ k a s = (s2, inr b).
Proof.
  intros Hc H. apply bind_inr in H as (a & s1 & Ha & H).
  destruct (Hc _ _ _ Ha) as [-> _]. exists a. split; assumption.
Qed.

(** On [H : bind c k s = (s2, inr b)] with [c] a check: [c] returned [a] in
    [s], and [H] is about the rest. *)
Ltac returned H a Ha :=
  match type of H with
  | bind ?c ?k ?s = (?s2, inr ?b) =>
      let Hc := fresh "Hc" in
      let H' := fresh "H" in
      assert (Checks c) as Hc by (repeat checks_step);
      destruct (checks_bind_inr c k s s2 b Hc H) as (a & Ha & H');
      clear H Hc; rename H' into H
  end.

Lemma update_reservations_inr (id : string)
    (merge : ReservationRecord -> ReservationRecord) (s s2 : Store)
    (x : ReservationRecord) :
  update reservationsTable id merge s = (s2, inr x) ->
  exists existing,
    cache_get reservationsTable id (st_reservations s) = Some existing
    /\ x = merge existing
    /\ st_reservations s2 = cache_replace reservationsTable id x (st_reservations s)
    /\ st_rooms s2 = st_rooms s
    /\ books s2 = books (set_reservations (st_reservations s2) s)
    /\ st_tick s2 = st_tick s.
Proof.
  intros H. apply update_inr in H as (existing & Hget & Hx & Hs).
  exists existing. split; [exact Hget | split; [exact Hx |]].
  destruct Hs as [-> | (rest & ->)]; repeat split; reflexivity.
Qed.

Lemma update_rooms_inr (id : string) (merge : RoomRecord -> RoomRecord)
    (s s2 : Store) (x : RoomRecord) :
  update roomsTable id merge s = (s2, inr x) ->
  exists existing,
    cache_get roomsTable id (st_rooms s) = Some existing
    /\ x = merge existing
    /\ st_rooms s2 = cache_replace roomsTable id x (st_rooms s)
    /\ books s2 = books s
    /\ st_tick s2 = st_tick s.
Proof.
  intros H. apply update_inr in H as (existing & Hget & Hx & Hs).
  exists existing. split; [exact Hget | split; [exact Hx |]].
  destruct Hs as [-> | (rest & ->)]; repeat split; reflexivity.
Qed.

(** [R]: the part [f] of the store is the same after the run [K]. *)
Ltac kept f K R :=
  pose proof K as R; apply (keeps_run f) in R; [| repeat keeps_step].

Section Transitions.
Context {P : Platform}.

(** A [checkIn] that returned: what held before, and what was written. *)
Lemma checkIn_inr (input : CheckInInput) (s s' : Store) (payload : ReservationRecord) :
  checkIn input s = (s', inr payload) ->
  exists reservation roomId room,
    cache_get reservationsTable (ci_reservationId input) (st_reservations s)
    = Some reservation
    /\ (r_status reservation = CONFIRMED \/ r_status reservation = DRAFT)
    /\ nullish_opt (ci_roomId input) (r_roomId reservation) = Some roomId
    /\ roomId <> ""
    /\ cache_get roomsTable roomId (st_rooms s) = Some room
    /\ rm_hotelCode room = r_hotelCode reservation
    /\ existsb (conflicts roomId (r_arrivalDate reservation)
                  (r_departureDate reservation) (Some (ci_reservationId input)))
               (st_reservations s) = false
    /\ payload = mergeReservation reservation (checkInUpdates room (clockAt (st_tick s)))
    /\ st_reservations s'
       = cache_replace reservationsTable (ci_reservationId input) payload
           (st_reservations s)
    /\ st_rooms s'
       = cache_replace roomsTable roomId
           (mergeRoom room {| ru_status := Some OCCUPIED;
                              ru_updatedAt := Some (clockAt (st_tick s)) |})
           (st_rooms s)
    /\ books s' = books (set_reservations (st_reservations s') s).
Proof.
  intros H. unfold checkIn in H.
  returned H reservation Hres. apply getReservationOrThrow_inr in Hres.
  pose proof (cache_get_key reservationsTable _ _ _ Hres) as Kres.
  cbn [t_key reservationsTable] in Kres.
  destruct (includes ReservationStatus_eqb [CONFIRMED; DRAFT] (r_status reservation))
    eqn:Hstatus; cbn [negb] in H; [| discriminate H].
  destruct (nullish_opt (ci_roomId input) (r_roomId reservation)) as [roomId |]
    eqn:Hrid; cbn [truthy_ostr nullish] in H; [| discriminate H].
  destruct (truthy_str roomId) eqn:Hne; cbn [negb] in H; [| discriminate H].
  returned H room Hroom. apply getRoomOrThrow_inr in Hroom.
  pose proof (cache_get_key roomsTable _ _ _ Hroom) as Kroom.
  cbn [t_key roomsTable] in Kroom.
  returned H u Hbelongs. apply ensureRoomBelongsToHotel_inr in Hbelongs.
  returned H u2 Hfree. apply ensureRoomAvailable_inr in Hfree.
  rewrite Kroom, Kres in Hfree.
  apply bind_inr in H as (timestamp & s1 & Hnow & H).
  unfold now in Hnow. injection Hnow as <- <-.
  apply bind_inr in H as (stored & s2 & Hupd & H).
  apply update_reservations_inr in Hupd as (e1 & Hget1 & Hstored & Hres2 & Hrooms2 & Hb2 & _).
  cbn [st_reservations st_rooms set_tick] in Hget1, Hres2, Hrooms2.
  rewrite Kres, Hres in Hget1. injection Hget1 as <-.
  apply bind_inr in H as (u3 & s3 & Htry & H).
  apply try_catch_inr in Htry as [Htry | (e & s4 & _ & Hh)].
  2:{ apply bind_inr in Hh as (x & s5 & _ & Hh). discriminate Hh. }
  apply bind_inr in Htry as (room' & s4 & Hupd2 & Htry).
  apply ret_inr in Htry as [Hs34 _]. subst s4.
  apply update_rooms_inr in Hupd2 as (e2 & Hget2 & Hroom' & Hrooms3 & Hb3 & _).
  rewrite Hrooms2, Kroom, Hroom in Hget2. injection Hget2 as <-.
  unfold getReservationById, bind, getById, ret in H.
  cbn [t_records reservationsTable] in H.
  assert (st_reservations s3 = st_reservations s2) as Hsame
    by (unfold books in Hb3; congruence).
  rewrite Hsame, Hres2, Kres in H.
  rewrite (cache_get_replace reservationsTable _ _ reservation) in H;
    [| exact Hres | rewrite Hstored; exact Kres].
  cbn [option_map toPayload] in H. injection H as <- <-.
  exists reservation, roomId, room.
  split; [exact Hres |].
  split; [destruct (r_status reservation); try discriminate Hstatus; auto |].
  split; [exact Hrid |].
  split; [apply truthy_str_iff; exact Hne |].
  split; [exact Hroom | split; [exact Hbelongs | split; [exact Hfree |]]].
  split; [exact Hstored |].
  split; [rewrite Hsame, Hres2, Kres; reflexivity |].
  split; [rewrite Hrooms3, Hrooms2, Kroom, Hroom'; reflexivity |].
  rewrite Hb3, Hb2. unfold books. cbn [st_bills st_reservations st_payments st_property
    st_taxes set_reservations set_tick]. rewrite Hsame. reflexivity.
Qed.

(** A [checkOut] that returned: what held before, and what was written. *)
Lemma checkOut_inr (input : CheckOutInput) (s s' : Store) (result : CheckOutResult) :
  checkOut input s = (s', inr result) ->
  exists reservation roomId room,
    cache_get reservationsTable (co_reservationId input) (st_reservations s)
    = Some reservation
    /\ r_status reservation = CHECKED_IN
    /\ r_roomId reservation = Some roomId
    /\ roomId <> ""
    /\ cache_get roomsTable roomId (st_rooms s) = Some room
    /\ nightsBetween (r_arrivalDate reservation) (r_departureDate reservation)
       = inr (cr_nights result)
    /\ cr_settlement result
       = settleReservation reservation
           {| so_lateCheckout := co_lateCheckout input;
              so_extraCharges := co_extraCharges input |}
    /\ cr_reservation result
       = mergeReservation reservation
           (checkOutUpdates (sr_billing (cr_settlement result)) (clockAt (st_tick s)))
    /\ st_reservations s'
       = cache_replace reservationsTable (co_reservationId input)
           (cr_reservation result) (st_reservations s)
    /\ st_rooms s'
       = cache_replace roomsTable roomId
           (mergeRoom room {| ru_status := Some DIRTY;
                              ru_updatedAt := Some (clockAt (st_tick s)) |})
           (st_rooms s)
    /\ books s' = books (set_reservations (st_reservations s') s).
Proof.
  intros H. unfold checkOut in H.
  returned H reservation Hres. apply getReservationOrThrow_inr in Hres.
  pose proof (cache_get_key reservationsTable _ _ _ Hres) as Kres.
  cbn [t_key reservationsTable] in Kres.
  destruct (ReservationStatus_eqb (r_status reservation) CHECKED_IN)
    eqn:Hstatus; cbn [negb] in H; [| discriminate H].
  destruct (r_roomId reservation) as [roomId |] eqn:Hrid;
    cbn [truthy_ostr nullish] in H; [| discriminate H].
  destruct (truthy_str roomId) eqn:Hne; cbn [negb] in H; [| discriminate H].
  returned H room Hroom. apply getRoomOrThrow_inr in Hroom.
  pose proof (cache_get_key roomsTable _ _ _ Hroom) as Kroom.
  cbn [t_key roomsTable] in Kroom.
  returned H nights Hnights. apply lift_inr in Hnights as [_ Hnights].
  apply bind_inr in H as (timestamp & s1 & Hnow & H).
  unfold now in Hnow. injection Hnow as <- <-.
  apply bind_inr in H as (stored & s2 & Hupd & H).
  apply update_reservations_inr in Hupd as (e1 & Hget1 & Hstored & Hres2 & Hrooms2 & Hb2 & _).
  cbn [st_reservations st_rooms set_tick] in Hget1, Hres2, Hrooms2.
  rewrite Kres, Hres in Hget1. injection Hget1 as <-.
  apply bind_inr in H as (u3 & s3 & Htry & H).
  apply try_catch_inr in Htry as [Htry | (e & s4 & _ & Hh)].
  2:{ apply bind_inr in Hh as (x & s5 & _ & Hh). discriminate Hh. }
  apply bind_inr in Htry as (room' & s4 & Hupd2 & Htry).
  apply ret_inr in Htry as [Hs34 _]. subst s4.
  apply update_rooms_inr in Hupd2 as (e2 & Hget2 & Hroom' & Hrooms3 & Hb3 & _).
  rewrite Hrooms2, Kroom, Hroom in Hget2. injection Hget2 as <-.
  unfold getReservationById, bind, getById, ret in H.
  cbn [t_records reservationsTable] in H.
  assert (st_reservations s3 = st_reservations s2) as Hsame
    by (unfold books in Hb3; congruence).
  rewrite Hsame, Hres2, Kres in H.
  rewrite (cache_get_replace reservationsTable _ _ reservation) in H;
    [| exact Hres | rewrite Hstored; exact Kres].
  cbn [option_map toPayload] in H. injection H as <- <-.
  cbn [cr_reservation cr_settlement cr_nights].
  exists reservation, roomId, room.
  split; [exact Hres |].
  split; [apply ReservationStatus_eqb_eq; exact Hstatus |].
  split; [exact Hrid |].
  split; [apply truthy_str_iff; exact Hne |].
  split; [exact Hroom | split; [exact Hnights | split; [reflexivity |]]].
  split; [exact Hstored |].
  split; [rewrite Hsame, Hres2, Kres; reflexivity |].
  split; [rewrite Hrooms3, Hrooms2, Kroom, Hroom'; reflexivity |].
  rewrite Hb3, Hb2. unfold books. cbn [st_bills st_reservations st_payments st_property
    st_taxes set_reservations set_tick]. rewrite Hsame. reflexivity.
Qed.

(** An [assignRoom] that returned. *)
Lemma assignRoom_inr (reservationId roomId : string) (s s' : Store)
    (payload : ReservationRecord) :
  assignRoom reservationId roomId s = (s', inr payload) ->
  exists reservation room,
    cache_get reservationsTable reservationId (st_reservations s) = Some reservation
    /\ cache_get roomsTable roomId (st_rooms s) = Some room
    /\ rm_hotelCode room = r_hotelCode reservation
    /\ existsb (conflicts roomId (r_arrivalDate reservation)
                  (r_departureDate reservation) (Some reservationId))
               (st_reservations s) = false
    /\ r_id payload = reservationId
    /\ r_roomId payload = Some roomId
    /\ r_roomType payload = rm_type room
    /\ r_status payload = r_status reservation
    /\ r_arrivalDate payload = r_arrivalDate reservation
    /\ r_departureDate payload = r_departureDate reservation
    /\ r_billing payload = r_billing reservation
    /\ st_reservations s'
       = cache_replace reservationsTable reservationId payload (st_reservations s)
    /\ st_rooms s' = st_rooms s
    /\ books s' = books (set_reservations (st_reservations s') s).
Proof.
  intros H. unfold assignRoom in H.
  returned H reservation Hres. apply getReservationOrThrow_inr in Hres.
  pose proof (cache_get_key reservationsTable _ _ _ Hres) as Kres.
  cbn [t_key reservationsTable] in Kres.
  returned H room Hroom. apply getRoomOrThrow_inr in Hroom.
  pose proof (cache_get_key roomsTable _ _ _ Hroom) as Kroom.
  cbn [t_key roomsTable] in Kroom.
  returned H u Hbelongs. apply ensureRoomBelongsToHotel_inr in Hbelongs.
  returned H u2 Hfree. apply ensureRoomAvailable_inr in Hfree.
  rewrite Kroom, Kres in Hfree.
  apply bind_inr in H as (timestamp & s1 & Hnow & H).
  unfold now in Hnow. injection Hnow as <- <-.
  apply bind_inr in H as (stored & s2 & Hupd & H).
  apply update_reservations_inr in Hupd as (e1 & Hget1 & Hstored & Hres2 & Hrooms2 & Hb2 & _).
  cbn [st_reservations st_rooms set_tick] in Hget1, Hres2, Hrooms2.
  rewrite Kres, Hres in Hget1. injection Hget1 as <-.
  unfold getReservationById, bind, getById, ret in H.
  cbn [t_records reservationsTable] in H.
  rewrite Hres2, Kres in H.
  rewrite (cache_get_replace reservationsTable _ _ reservation) in H;
    [| exact Hres | rewrite Hstored; exact Kres].
  cbn [option_map toPayload] in H. injection H as <- <-.
  exists reservation, room.
  split; [exact Hres | split; [exact Hroom | split; [exact Hbelongs |]]].
  split; [exact Hfree |].
  rewrite Hstored at 1 2 3 4 5 6 7.
  cbn [mergeReservation r_id r_roomId r_roomType r_status r_arrivalDate
       r_departureDate r_billing nullish u_roomId u_roomType u_status u_arrivalDate
       u_departureDate u_billing].
  split; [exact Kres | split; [rewrite Kroom; reflexivity |]].
  repeat (split; [reflexivity |]).
  split; [rewrite Hres2, Kres; reflexivity |].
  split; [exact Hrooms2 |].
  rewrite Hb2. reflexivity.
Qed.

(** An [updateReservation] that returned: the record stored, and the check
    its room went through. *)
Lemma updateReservation_inr (id : string) (input : UpdateReservationInput)
    (s s' : Store) (updated : ReservationRecord) :
  updateReservation id input s = (s', inr updated) ->
  exists existing,
    cache_get reservationsTable id (st_reservations s) = Some existing
    /\ r_status existing <> CHECKED_OUT
    /\ r_id updated = id
    /\ r_roomId updated = nullish_opt (in_roomId input) (r_roomId existing)
    /\ r_status updated = nullish (in_status input) (r_status existing)
    /\ r_arrivalDate updated = nullish (in_arrivalDate input) (r_arrivalDate existing)
    /\ r_departureDate updated
       = nullish (in_departureDate input) (r_departureDate existing)
    /\ (forall roomId, roomId <> "" -> r_roomId updated = Some roomId ->
          existsb (conflicts roomId (r_arrivalDate updated) (r_departureDate updated)
                     (Some id))
                  (st_reservations s) = false)
    /\ st_reservations s' = cache_replace reservationsTable id updated (st_reservations s)
    /\ st_rooms s' = st_rooms s.
Proof.
  intros H. unfold updateReservation in H.
  returned H found Hfound. unfold getById in Hfound. injection Hfound as <-.
  cbn [t_records reservationsTable] in H.
  destruct (cache_get reservationsTable id (st_reservations s))
    as [existing |] eqn:Hget; [| discriminate H].
  pose proof (cache_get_key reservationsTable _ _ _ Hget) as Kres.
  cbn [t_key reservationsTable] in Kres.
  exists existing.
  returned H u Hedit. apply lift_inr in Hedit as [_ Hedit].
  returned H nights Hnights.
  returned H roomType HroomType.
  returned H ratePlan HratePlan.
  returned H source Hsource.
  apply bind_inr in H as (updatedAt & s4 & K4 & H).
  kept st_reservations K4 R4.
  kept st_rooms K4 M4.
  apply bind_inr in H as (checkInAt & s5 & K5 & H).
  kept st_reservations K5 R5.
  kept st_rooms K5 M5.
  apply bind_inr in H as (checkOutAt & s6 & K6 & H).
  kept st_reservations K6 R6.
  kept st_rooms K6 M6.
  apply bind_inr in H as (stored & s7 & Hupd & H).
  apply ret_inr in H as [-> ->]. unfold toPayload.
  apply update_reservations_inr in Hupd as (e1 & Hget1 & Hstored & Hres7 & Hrooms7 & _).
  assert (st_reservations s6 = st_reservations s) as Rsame by congruence.
  assert (st_rooms s6 = st_rooms s) as Msame by congruence.
  rewrite Rsame in Hget1, Hres7. rewrite Hget in Hget1. injection Hget1 as <-.
  split; [reflexivity |].
  split; [intros Hout; unfold assertEditable in Hedit; rewrite Hout in Hedit;
          discriminate Hedit |].
  assert (r_roomId stored = nullish_opt (in_roomId input) (r_roomId existing)
          /\ r_arrivalDate stored = nullish (in_arrivalDate input) (r_arrivalDate existing)
          /\ r_departureDate stored
             = nullish (in_departureDate input) (r_departureDate existing))
    as (Hroom & Harr & Hdep) by (rewrite Hstored; repeat split; reflexivity).
  split; [rewrite Hstored; exact Kres |].
  split; [exact Hroom |].
  split; [rewrite Hstored; reflexivity |].
  split; [exact Harr | split; [exact Hdep |]].
  split; [| split; [exact Hres7 | congruence]].
  intros roomId Hne Hrid. rewrite Harr, Hdep. rewrite Hroom in Hrid.
  rewrite Hrid in HroomType. cbn [truthy_ostr nullish] in HroomType.
  apply truthy_str_iff in Hne. rewrite Hne in HroomType.
  returned HroomType room Hlook.
  returned HroomType u2 Hbelongs.
  destruct room as [room |]; [| discriminate Hbelongs].
  destruct (truthy_ostr (in_roomType input)
            && negb (rm_type room =? nullish (in_roomType input) ""));
    [discriminate HroomType |].
  returned HroomType u3 Hfree. apply ensureRoomAvailable_inr in Hfree.
  rewrite Kres in Hfree. exact Hfree.
Qed.

(** A [deleteReservation] that returned. *)
Lemma deleteReservation_inr (id : string) (s s' : Store) (u : unit) :
  deleteReservation id s = (s', inr u) ->
  st_reservations s' = cache_delete reservationsTable id (st_reservations s)
  /\ st_rooms s' = st_rooms s.
Proof.
  intros H. unfold deleteReservation in H.
  returned H found Hfound. unfold getById in Hfound. injection Hfound as <-.
  cbn [t_records reservationsTable] in H.
  destruct (cache_get reservationsTable id (st_reservations s)) as [existing |] eqn:Hget;
    [| discriminate H].
  destruct (r_status existing); try discriminate H;
    unfold delete in H; cbn [t_records t_store reservationsTable] in H;
    rewrite Hget in H; unfold persist in H;
    destruct (st_faults _) as [| [|] rest]; inversion H; subst; split; reflexivity.
Qed.
End Transitions.

Section InventoryKept.
Context {P : Platform}.

(** X13.  No operation on reservations that returns sells a room twice.  In a
    table with unique identifiers where no two different reservations that
    occupy inventory hold the same room for overlapping dates, the same is
    true after a [checkIn], an [assignRoom], an [updateReservation], a
    [checkOut] or a [deleteReservation] that returned, and the identifiers
    are still unique. *)
Theorem NoDoubleBooking_preserved (s s' : Store) :
  NoDup (map r_id (st_reservations s)) ->
  NoDoubleBooking (st_reservations s) ->
  (exists input payload, checkIn input s = (s', inr payload))
  \/ (exists reservationId roomId payload,
        assignRoom reservationId roomId s = (s', inr payload))
  \/ (exists id input updated, updateReservation id input s = (s', inr updated))
  \/ (exists input result, checkOut input s = (s', inr result))
  \/ (exists id, deleteReservation id s = (s', inr tt)) ->
  NoDoubleBooking (st_reservations s') /\ NoDup (map r_id (st_reservations s')).
Proof.
  intros Hnd Hinv [H | [H | [H | [H | H]]]].
  - destruct H as (input & payload & H).
    apply checkIn_inr in H
      as (reservation & roomId & room & Hres & _ & _ & Hne & Hroom & _ & Hfree
          & Hpayload & Hs' & _).
    pose proof (cache_get_key reservationsTable _ _ _ Hres) as Kres.
    pose proof (cache_get_key roomsTable _ _ _ Hroom) as Kroom.
    cbn [t_key reservationsTable roomsTable] in Kres, Kroom.
    assert (r_id payload = ci_reservationId input) as Kp
      by (rewrite Hpayload; exact Kres).
    rewrite Hs'. split.
    + apply NoDoubleBooking_replace; [exact Hnd | exact Hinv | exact Kp |].
      intros roomId' Hne' Hrid _. rewrite Hpayload in Hrid |- *.
      cbn [mergeReservation checkInUpdates r_roomId r_arrivalDate r_departureDate
           nullish u_roomId u_arrivalDate u_departureDate] in Hrid |- *.
      injection Hrid as <-. rewrite Kroom. exact Hfree.
    + rewrite (cache_replace_keys reservationsTable) by exact Kp. exact Hnd.
  - destruct H as (reservationId & roomId & payload & H).
    apply assignRoom_inr in H
      as (reservation & room & Hres & Hroom & _ & Hfree & Kp & Hrid & _ & _ & Harr
          & Hdep & _ & Hs' & _).
    rewrite Hs'. split.
    + apply NoDoubleBooking_replace; [exact Hnd | exact Hinv | exact Kp |].
      intros roomId' Hne' Hrid' _. rewrite Hrid in Hrid'. injection Hrid' as <-.
      rewrite Harr, Hdep. exact Hfree.
    + rewrite (cache_replace_keys reservationsTable) by exact Kp. exact Hnd.
  - destruct H as (id & input & updated & H).
    apply updateReservation_inr in H
      as (existing & Hget & _ & Kp & _ & _ & _ & _ & Hfree & Hs' & _).
    rewrite Hs'. split.
    + apply NoDoubleBooking_replace; [exact Hnd | exact Hinv | exact Kp |].
      intros roomId' Hne' Hrid' _. apply Hfree; assumption.
    + rewrite (cache_replace_keys reservationsTable) by exact Kp. exact Hnd.
  - destruct H as (input & result & H).
    apply checkOut_inr in H
      as (reservation & roomId & room & Hres & _ & _ & _ & _ & _ & _ & Hstored & Hs' & _).
    pose proof (cache_get_key reservationsTable _ _ _ Hres) as Kres.
    cbn [t_key reservationsTable] in Kres.
    rewrite Hs'. split.
    + apply NoDoubleBooking_release; [exact Hnd | exact Hinv |].
      rewrite Hstored. cbn [mergeReservation checkOutUpdates r_status nullish u_status].
      intros [E | [E | E]]; discriminate E.
    + rewrite (cache_replace_keys reservationsTable); [exact Hnd |].
      rewrite Hstored. exact Kres.
  - destruct H as (id & H). apply deleteReservation_inr in H as [Hs' _].
    rewrite Hs'. split.
    + apply NoDoubleBooking_delete. exact Hinv.
    + apply (cache_delete_keys reservationsTable). exact Hnd.
Qed.
End InventoryKept.

(** Room 101 is booked back to back, and the second guest stays two nights
    more: both reservations hold the room afterwards, for nights that do
    not overlap. *)
Lemma NoDoubleBooking_preserved_witness :
  let s' :=
    fst (updateReservation (P := Runtime.platform) "res2" HotelRuns.twoNightsMore
           HotelRuns.backToBack) in
  map r_roomId (st_reservations s') = [Some "101"; Some "101"]
  /\ map r_arrivalDate (st_reservations s') = ["2026-01-01"; "2026-01-04"]
  /\ map r_departureDate (st_reservations s') = ["2026-01-04"; "2026-01-08"]
  /\ NoDoubleBooking (P := Runtime.platform) (st_reservations s').
Proof.
  intros s'.
  split; [reflexivity | split; [reflexivity | split; [reflexivity |]]].
  refine (proj1 (NoDoubleBooking_preserved (P := Runtime.platform)
                   HotelRuns.backToBack s' _ _ _)).
  - vm_compute. repeat constructor; [intros [H | []]; discriminate H | intros []].
  - intros r1 r2 roomId [<- | [<- | []]] [<- | [<- | []]] Hne _ _ _ _ _
      ((x & y & Hx & Hy & Hlt) & (x' & y' & Hx' & Hy' & Hlt'));
      try (contradiction Hne; reflexivity);
      vm_compute in Hx, Hy, Hx', Hy';
      injection Hx as <-; injection Hy as <-; injection Hx' as <-; injection Hy' as <-;
      lia.
  - right. right. left. exists "res2", HotelRuns.twoNightsMore.
    destruct (updateReservation (P := Runtime.platform) "res2" HotelRuns.twoNightsMore
                HotelRuns.backToBack)
      as [s1 [e | updated]] eqn:Hrun; [vm_compute in Hrun; discriminate Hrun |].
    exists updated. reflexivity.
Defined.

Section AfterTransitions.
Context {P : Platform}.

Lemma cache_get_In {T : Type} (tb : Table T) (id : string) (records : list T) (r : T) :
  cache_get tb id records = Some r -> In r records.
Proof. unfold cache_get. intros H. apply find_some in H as [H _]. exact H. Qed.

(** X14.  A [checkIn] that returns has found the reservation CONFIRMED or DRAFT
    and its room free, and leaves both records written: read back, the
    reservation is the one returned, CHECKED_IN, in the room, stamped with
    the time of the check-in, its dates and billing as they were; the room
    is OCCUPIED; bills and payments are untouched.  From then on the room
    is refused to every request that overlaps the stay. *)
Theorem checkIn_returned (input : CheckInInput) (s s' : Store)
    (payload : ReservationRecord) :
  checkIn input s = (s', inr payload) ->
  exists reservation roomId room,
    getById reservationsTable (ci_reservationId input) s = (s, inr (Some reservation))
    /\ (r_status reservation = CONFIRMED \/ r_status reservation = DRAFT)
    /\ getById reservationsTable (ci_reservationId input) s' = (s', inr (Some payload))
    /\ r_status payload = CHECKED_IN
    /\ r_roomId payload = Some roomId
    /\ roomId <> ""
    /\ r_checkInAt payload = Some (clockAt (st_tick s))
    /\ r_arrivalDate payload = r_arrivalDate reservation
    /\ r_departureDate payload = r_departureDate reservation
    /\ r_billing payload = r_billing reservation
    /\ getById roomsTable roomId s' = (s', inr (Some room))
    /\ rm_status room = OCCUPIED
    /\ st_bills s' = st_bills s
    /\ st_payments s' = st_payments s
    /\ (forall a d,
          Overlap (r_arrivalDate payload) (r_departureDate payload) a d ->
          ensureRoomAvailable roomId a d None s' = (s', inl RoomUnavailable)).
Proof.
  intros H.
  apply checkIn_inr in H
    as (reservation & roomId & room & Hres & Hstatus & Hrid & Hne & Hroom & _ & _
        & Hpayload & Hs' & Hrooms' & Hbooks).
  pose proof (cache_get_key reservationsTable _ _ _ Hres) as Kres.
  pose proof (cache_get_key roomsTable _ _ _ Hroom) as Kroom.
  cbn [t_key reservationsTable roomsTable] in Kres, Kroom.
  assert (cache_get reservationsTable (ci_reservationId input) (st_reservations s')
          = Some payload) as Hback.
  { rewrite Hs'. apply (cache_get_replace reservationsTable _ _ reservation);
      [exact Hres | rewrite Hpayload; exact Kres]. }
  exists reservation, roomId,
    (mergeRoom room {| ru_status := Some OCCUPIED;
                       ru_updatedAt := Some (clockAt (st_tick s)) |}).
  unfold getById. cbn [t_records reservationsTable roomsTable].
  rewrite Hres, Hback.
  split; [reflexivity | split; [exact Hstatus | split; [reflexivity |]]].
  assert (r_roomId payload = Some roomId) as Hroomid
    by (rewrite Hpayload; cbn [mergeReservation checkInUpdates r_roomId nullish u_roomId];
        rewrite Kroom; reflexivity).
  split; [rewrite Hpayload; reflexivity |].
  split; [exact Hroomid | split; [exact Hne |]].
  split; [rewrite Hpayload; reflexivity |].
  split; [rewrite Hpayload; reflexivity |].
  split; [rewrite Hpayload; reflexivity |].
  split; [rewrite Hpayload; reflexivity |].
  split.
  { rewrite Hrooms'.
    rewrite (cache_get_replace roomsTable _ _ room); [reflexivity | exact Hroom |].
    exact Kroom. }
  split; [reflexivity |].
  unfold books in Hbooks. cbn [st_bills st_payments set_reservations] in Hbooks.
  split; [congruence | split; [congruence |]].
  intros a d Hov. rewrite ensureRoomAvailable_run.
  assert (existsb (conflicts roomId a d None) (st_reservations s') = true) as ->;
    [| reflexivity].
  apply existsb_exists. exists payload.
  split; [exact (cache_get_In reservationsTable _ _ _ Hback) |].
  apply conflicts_Conflict; [exact Hne | discriminate |].
  split; [exact Hroomid | split; [discriminate | split; [| exact Hov]]].
  right. right. rewrite Hpayload. reflexivity.
Qed.

Lemma conflicts_excluded (roomId a d id : string) (r : ReservationRecord) :
  id <> "" ->
  conflicts roomId a d (Some id) r
  = if r_id r =? id then false else conflicts roomId a d None r.
Proof.
  intros Hne. apply truthy_str_iff in Hne. unfold conflicts.
  cbn [truthy_ostr nullish andb]. rewrite Hne. cbn [andb].
  destruct (negb (truthy_ostr (r_roomId r))); [destruct (r_id r =? id); reflexivity |].
  destruct (negb (nullish (r_roomId r) "" =? roomId));
    [destruct (r_id r =? id); reflexivity |].
  destruct (r_id r =? id); reflexivity.
Qed.

Lemma existsb_conflicts_others (roomId a d id : string)
    (reservations : list ReservationRecord) :
  id <> "" ->
  ~ In id (map r_id reservations) ->
  existsb (conflicts roomId a d None) reservations
  = existsb (conflicts roomId a d (Some id)) reservations.
Proof.
  intros Hne Hnotin. induction reservations as [| y rest IH]; [reflexivity |].
  cbn [existsb]. rewrite (conflicts_excluded _ _ _ _ y Hne).
  assert ((r_id y =? id) = false) as ->.
  { apply String.eqb_neq. intros Hy. apply Hnotin. left. exact Hy. }
  f_equal. apply IH. intros Hin. apply Hnotin. right. exact Hin.
Qed.


Lemma existsb_conflicts_deleted (roomId a d id : string)
    (reservations : list ReservationRecord) :
  NoDup (map r_id reservations) ->
  id <> "" ->
  existsb (conflicts roomId a d None) (cache_delete reservationsTable id reservations)
  = existsb (conflicts roomId a d (Some id)) reservations.
Proof.
  intros Hnd Hne.
  induction reservations as [| x rest IH]; [reflexivity |].
  inversion Hnd as [| k ks Hnotin Hnd']; subst.
  cbn [cache_delete existsb t_key reservationsTable].
  rewrite (conflicts_excluded _ _ _ _ x Hne).
  destruct (r_id x =? id) eqn:E.
  - cbn [orb]. apply eqb_true in E.
    apply existsb_conflicts_others; [exact Hne |]. rewrite <- E. exact Hnotin.
  - cbn [existsb]. f_equal. apply IH. exact Hnd'.
Qed.


(** X16.  A [deleteReservation] that returns has taken the record out, and only
    it: with unique identifiers the reservation is no longer found, the
    others read as before, the rooms table is untouched, and the room is
    released as by a check-out. *)
Theorem deleteReservation_returned (id : string) (s s' : Store) :
  NoDup (map r_id (st_reservations s)) ->
  deleteReservation id s = (s', inr tt) ->
  getById reservationsTable id s' = (s', inr None)
  /\ (forall other, other <> id ->
        cache_get reservationsTable other (st_reservations s')
        = cache_get reservationsTable other (st_reservations s))
  /\ st_rooms s' = st_rooms s
  /\ (id <> "" ->
      forall anyRoom a d,
        snd (ensureRoomAvailable anyRoom a d None s')
        = snd (ensureRoomAvailable anyRoom a d (Some id) s)).
Proof.
  intros Hnd H. apply deleteReservation_inr in H as [Hs' Hrooms].
  unfold getById. cbn [t_records reservationsTable]. rewrite Hs'.
  split; [rewrite (cache_get_delete_same reservationsTable _ _ Hnd); reflexivity |].
  split; [intros other Hne; apply (cache_get_delete_other reservationsTable); exact Hne |].
  split; [exact Hrooms |].
  intros Hid anyRoom a d. rewrite !ensureRoomAvailable_run. cbn [snd].
  rewrite Hs', existsb_conflicts_deleted; [reflexivity | exact Hnd | exact Hid].
Qed.

(** X17.  CHECKED_OUT is final: a checked-out reservation can be neither checked
    in nor checked out again, neither updated nor deleted; each of the four
    is refused with a 400 before anything is written. *)
Theorem checked_out_is_final (id : string) (s : Store) (reservation : ReservationRecord) :
  cache_get reservationsTable id (st_reservations s) = Some reservation ->
  r_status reservation = CHECKED_OUT ->
  (forall roomId,
      checkIn {| ci_reservationId := id; ci_roomId := roomId |} s
      = (s, inl (HttpError 400 "Reservation cannot be checked in from current status")))
  /\ (forall late extra,
         checkOut {| co_reservationId := id; co_lateCheckout := late;
                     co_extraCharges := extra |} s
         = (s, inl (HttpError 400 "Reservation is not currently checked in")))
  /\ (forall input,
         updateReservation id input s
         = (s, inl (HttpError 400 "Cannot modify a checked-out reservation")))
  /\ deleteReservation id s
     = (s, inl (HttpError 400 "Cannot delete reservation during or after stay")).
Proof.
  intros Hget Hstatus.
  split; [| split; [| split]].
  - intros roomId. unfold checkIn. cbn [ci_reservationId].
    rewrite (bind_run _ _ _ _ _ (getReservationOrThrow_run _ _ _ Hget)).
    rewrite Hstatus. reflexivity.
  - intros late extra. unfold checkOut. cbn [co_reservationId].
    rewrite (bind_run _ _ _ _ _ (getReservationOrThrow_run _ _ _ Hget)).
    rewrite Hstatus. reflexivity.
  - intros input. unfold updateReservation.
    rewrite (bind_run _ _ s s (Some reservation))
      by (unfold getById; cbn [t_records reservationsTable]; rewrite Hget; reflexivity).
    unfold assertEditable. rewrite Hstatus. reflexivity.
  - unfold deleteReservation.
    rewrite (bind_run _ _ s s (Some reservation))
      by (unfold getById; cbn [t_records reservationsTable]; rewrite Hget; reflexivity).
    rewrite Hstatus. reflexivity.
Qed.
End AfterTransitions.

(** ** The transitions on the example hotel *)

Lemma updateReservation_refusal_witness :
  fst (updateReservation (P := Runtime.platform) "res2" Hotel.noChange Hotel.fresh)
  = Hotel.fresh.
Proof.
  destruct (updateReservation (P := Runtime.platform) "res2" Hotel.noChange Hotel.fresh)
    as [s' [e | updated]] eqn:Hrun; [| vm_compute in Hrun; discriminate Hrun].
  exact (proj1 (updateReservation_refusal (P := Runtime.platform) "res2"
                  Hotel.noChange Hotel.fresh s' e eq_refl Hrun)).
Defined.

Lemma checkIn_refusal_witness :
  fst (checkIn (P := Runtime.platform) HotelRuns.arrive HotelRuns.house)
  = HotelRuns.house.
Proof.
  destruct (checkIn (P := Runtime.platform) HotelRuns.arrive HotelRuns.house)
    as [s' [e | payload]] eqn:Hrun; [| vm_compute in Hrun; discriminate Hrun].
  exact (proj1 (checkIn_refusal (P := Runtime.platform) HotelRuns.arrive
                  HotelRuns.house s' e eq_refl Hrun)).
Defined.


Lemma assignRoom_refusal_witness :
  fst (assignRoom (P := Runtime.platform) "res1" "999" Hotel.fresh) = Hotel.fresh.
Proof.
  destruct (assignRoom (P := Runtime.platform) "res1" "999" Hotel.fresh)
    as [s' [e | payload]] eqn:Hrun; [| vm_compute in Hrun; discriminate Hrun].
  exact (proj1 (assignRoom_refusal (P := Runtime.platform) "res1" "999"
                  Hotel.fresh s' e eq_refl Hrun)).
Defined.

Lemma checkIn_returned_witness :
  snd (ensureRoomAvailable (P := Runtime.platform) "101" "2026-01-03" "2026-01-05" None
         (fst (checkIn (P := Runtime.platform) HotelRuns.arrive Hotel.fresh)))
  = inl RoomUnavailable.
Proof.
  destruct (checkIn (P := Runtime.platform) HotelRuns.arrive Hotel.fresh)
    as [s' [e | payload]] eqn:Hrun; [vm_compute in Hrun; discriminate Hrun |].
  destruct (checkIn_returned (P := Runtime.platform) _ _ _ _ Hrun)
    as (reservation & roomId & room & _ & _ & _ & _ & Hroom & _ & _ & _ & _ & _ & _
        & _ & _ & _ & Hblock).
  vm_compute in Hrun. injection Hrun as _ <-.
  cbn [r_roomId r_arrivalDate r_departureDate] in Hroom, Hblock.
  injection Hroom as <-. cbn [fst].
  rewrite Hblock; [reflexivity |].
  apply rangesOverlap_Overlap. vm_compute. reflexivity.
Defined.


Lemma deleteReservation_returned_witness :
  getById reservationsTable "res1" (fst (deleteReservation "res1" Hotel.fresh))
  = (fst (deleteReservation "res1" Hotel.fresh), inr None).
Proof.
  refine (proj1 (deleteReservation_returned (P := Runtime.platform) "res1" Hotel.fresh _
                   _ _)).
  - vm_compute. repeat constructor. intros [].
  - reflexivity.
Defined.

Lemma checked_out_is_final_witness :
  updateReservation (P := Runtime.platform) "res1" Hotel.noChange HotelRuns.afterStay
  = (HotelRuns.afterStay, inl (HttpError 400 "Cannot modify a checked-out reservation")).
Proof.
  exact (proj1 (proj2 (proj2 (checked_out_is_final (P := Runtime.platform) "res1"
                                HotelRuns.afterStay HotelRuns.departed eq_refl eq_refl)))
           Hotel.noChange).
Defined.

(** ** One bill for each reservation *)

Section Preserves.
Variable I : Store -> Prop.

Lemma preserves_bind {A B : Type} (c : M A) (k : A -> M B) :
  preserves I c -> (forall a, preserves I (k a)) -> preserves I (bind c k).
Proof.
  intros Hc Hk s Hs. unfold bind. specialize (Hc s Hs).
  destruct (c s) as [s1 [e | a]]; [exact Hc | apply Hk; exact Hc].
Qed.

Lemma preserves_keeps {A X : Type} (f : Store -> X) (c : M A) :
  (forall s s2, f s2 = f s -> I s -> I s2) -> keeps f c -> preserves I c.
Proof. intros Hf Hk s Hs. apply (Hf s); [apply Hk | exact Hs]. Qed.
End Preserves.

Lemma map_cache_replace {T X : Type} (tb : Table T) (g : T -> X) (id : string)
    (old new : T) (records : list T) :
  cache_get tb id records = Some old -> g new = g old ->
  map g (cache_replace tb id new records) = map g records.
Proof.
  unfold cache_get. intros Hget Hg.
  induction records as [| r rest IH]; [discriminate Hget |].
  cbn [find] in Hget. cbn [cache_replace map].
  destruct (t_key tb r =? id).
  - injection Hget as ->. cbn [map]. rewrite Hg. reflexivity.
  - cbn [map]. rewrite IH by exact Hget. reflexivity.
Qed.

Section OneBill.
Context {P : Platform}.

Lemma OneBillEach_same (s s2 : Store) :
  st_bills s2 = st_bills s -> OneBillEach s -> OneBillEach s2.
Proof. unfold OneBillEach. intros ->. auto. Qed.

Lemma preserves_read {A : Type} (c : M A) :
  keeps st_bills c -> preserves OneBillEach c.
Proof. apply preserves_keeps. exact OneBillEach_same. Qed.

Lemma preserves_update_bill (id : string) (u : BillUpdates) :
  preserves OneBillEach (update billsTable id (fun e => mergeBill e u)).
Proof.
  intros s [Hid Hrid]. unfold update. cbn [t_records t_store billsTable].
  destruct (cache_get billsTable id (st_bills s)) as [existing |] eqn:E;
    [| split; assumption].
  apply (OneBillEach_same
           (set_bills (cache_replace billsTable id (mergeBill existing u) (st_bills s)) s)).
  { unfold bind, persist. cbn [st_faults set_bills].
    destruct (st_faults s) as [| [|] rest]; reflexivity. }
  unfold OneBillEach. cbn [st_bills set_bills].
  rewrite !(map_cache_replace billsTable _ id existing) by (exact E || reflexivity).
  split; assumption.
Qed.

Lemma keeps_resolveReservation {X : Type} (f : Store -> X) (id : string) :
  keeps f (resolveReservation id).
Proof. unfold resolveReservation. repeat keeps_step. Qed.

Lemma keeps_getPaymentsForReservation {X : Type} (f : Store -> X) (id : string) :
  keeps f (getPaymentsForReservation id).
Proof. unfold getPaymentsForReservation. repeat keeps_step. Qed.

Lemma keeps_syncReservationBilling (reservation : ReservationRecord) (bill : BillRecord) :
  keeps st_bills (syncReservationBilling reservation bill).
Proof.
  unfold syncReservationBilling.
  repeat first [apply keeps_getPaymentsForReservation | keeps_step].
Qed.

Lemma keeps_insert_payment (mk : string -> PaymentRecord) :
  keeps st_bills (insert paymentsTable None mk).
Proof.
  intros s. unfold insert, bind, nanoid, persist. cbn [t_records t_store paymentsTable].
  destruct (cache_get paymentsTable _ _); [reflexivity |].
  cbn [st_faults set_payments set_tick].
  destruct (st_faults s) as [| [|] rest]; reflexivity.
Qed.

Lemma preserves_ensureBillForReservation (reservation : ReservationRecord) :
  preserves OneBillEach (ensureBillForReservation reservation).
Proof.
  intros s [Hid Hrid]. unfold ensureBillForReservation.
  unfold bind at 1, getAll. cbn [t_records billsTable].
  destruct (find _ (st_bills s)) as [existing |] eqn:Hfind; [split; assumption |].
  unfold ensureDefaultFolio, insert. unfold bind, now, nanoid, ret, persist.
  cbn [t_records t_store billsTable st_bills set_tick st_tick st_faults set_bills].
  destruct (cache_get billsTable _ (st_bills s)) eqn:Hget; [split; assumption |].
  destruct (st_faults _) as [| [|] rest]; cbn [fst]; unfold OneBillEach;
    cbn [st_bills set_bills set_faults set_tick];
    (split; rewrite map_app; cbn [map bl_id bl_reservationId];
     (apply NoDup_snoc; [assumption |]);
     [ apply (cache_get_None billsTable) in Hget; exact Hget
     | intros Hin; apply in_map_iff in Hin as (b & Hb & Hin);
       apply find_none with (x := b) in Hfind; [| exact Hin];
       rewrite Hb, String.eqb_refl in Hfind; discriminate Hfind ]).
Qed.

Lemma keeps_collectRoomCharges {X : Type} (f : Store -> X) (nights : list string)
    (rb : BillRecord) (folioId : string) (input : RoomChargeInput)
    (r : ReservationRecord) (acc : list BillCharge) :
  (forall n s, f (set_tick n s) = f s) ->
  keeps f (collectRoomCharges nights rb folioId input r acc).
Proof.
  intros Ftick. revert acc. induction nights as [| night rest IH]; intros acc.
  - apply keeps_ret.
  - cbn [collectRoomCharges]. apply keeps_bind; [| intros acc'; apply IH].
    destruct (negb _); [| apply keeps_ret].
    repeat first
      [ apply keeps_calculateTax
      | apply keeps_nanoid; exact Ftick
      | apply keeps_now; exact Ftick
      | keeps_step ].
Qed.
End OneBill.

Ltac bills_kept :=
  solve [ repeat first
            [ apply keeps_resolveReservation | apply keeps_getPaymentsForReservation
            | apply keeps_syncReservationBilling | apply keeps_insert_payment
            | apply keeps_calculateTax
            | apply keeps_collectRoomCharges; reflexivity
            | keeps_step ] ].

Ltac preserves_step :=
  first
    [ apply preserves_update_bill
    | apply preserves_ensureBillForReservation
    | apply preserves_read; bills_kept
    | apply preserves_bind; [| intros ?]
    | match goal with
      | |- preserves _ (if ?b then _ else _) => destruct b
      | |- preserves _ (match ?x with _ => _ end) => destruct x
      end ].

Section OneBillKept.
Context {P : Platform}.

Lemma preserves_resolveFolio (bill : BillRecord) (folioId folioName : option string) :
  preserves OneBillEach (resolveFolio bill folioId folioName).
Proof. unfold resolveFolio, ensureDefaultFolio. repeat preserves_step. Qed.

Lemma preserves_recordPayments (payments : list SettlementPaymentInput)
    (reservation : ReservationRecord) (bill : BillRecord)
    (created : list PaymentRecord) :
  preserves OneBillEach (recordPayments payments reservation bill created).
Proof.
  revert bill created. induction payments as [| payment rest IH]; intros bill created.
  - cbn [recordPayments]. repeat preserves_step.
  - cbn [recordPayments]. destruct (nle0 _); [repeat preserves_step |].
    apply preserves_bind; [apply preserves_resolveFolio | intros resolved].
    repeat (apply preserves_bind; [apply preserves_read; bills_kept | intros ?]).
    apply IH.
Qed.

(** X18.  The ledger never opens a second bill for a reservation.  In a bills
    table where every bill has its own identifier and every reservation at
    most one bill, the same is true after [getBillSummary],
    [postRoomCharges], [addAddonCharge] and [settleBill], whether the call
    returns or throws and whether or not the disk takes the writes. *)
Theorem one_bill_per_reservation (s : Store) :
  OneBillEach s ->
  (forall reservationId, OneBillEach (fst (getBillSummary reservationId s)))
  /\ (forall input, OneBillEach (fst (postRoomCharges input s)))
  /\ (forall input, OneBillEach (fst (addAddonCharge input s)))
  /\ (forall input, OneBillEach (fst (settleBill input s))).
Proof.
  intros Hs. split; [| split; [| split]].
  - intros reservationId. revert s Hs.
    change (preserves OneBillEach (getBillSummary reservationId)).
    unfold getBillSummary, toBillSummary. repeat preserves_step.
  - intros input. revert s Hs.
    change (preserves OneBillEach (postRoomCharges input)).
    unfold postRoomCharges, toBillSummary.
    repeat first [apply preserves_resolveFolio | preserves_step].
  - intros input. revert s Hs.
    change (preserves OneBillEach (addAddonCharge input)).
    unfold addAddonCharge.
    repeat first [apply preserves_resolveFolio | preserves_step].
  - intros input. revert s Hs.
    change (preserves OneBillEach (settleBill input)).
    unfold settleBill.
    repeat first [apply preserves_recordPayments | preserves_step].
Qed.
End OneBillKept.

(** ** What the ledger writes *)

Section LedgerWrites.
Context {P : Platform}.

Lemma BillOf_same (s s2 : Store) (rid : string) (b : BillRecord) :
  st_bills s2 = st_bills s -> BillOf s rid b -> BillOf s2 rid b.
Proof. unfold BillOf. intros ->. auto. Qed.

Lemma BillOf_posted (s : Store) (rid : string) (b : BillRecord) :
  BillOf s rid b -> postedCharges rid s = bl_charges b.
Proof. intros [_ Hfind]. unfold postedCharges. rewrite Hfind. reflexivity. Qed.

Lemma ensureBill_charges (reservation : ReservationRecord) (s s2 : Store)
    (b : BillRecord) :
  ensureBillForReservation reservation s = (s2, inr b) ->
  bl_charges b = postedCharges (r_id reservation) s.
Proof.
  intros H. unfold ensureBillForReservation in H.
  apply bind_inr in H as (bills & s0 & Hb & H).
  unfold getAll in Hb. injection Hb as <- <-.
  cbn [t_records billsTable] in H. unfold postedCharges, billFor.
  destruct (find _ (st_bills s)) as [existing |].
  - apply ret_inr in H as [_ ->]. reflexivity.
  - apply bind_inr in H as (timestamp & s1 & _ & H).
    apply bind_inr in H as (folio & s3 & _ & H).
    apply insert_bill_inr in H as (Hx & _). rewrite Hx. reflexivity.
Qed.

Lemma calculateTax_inr (hotelCode : string) (amount : num) (s s2 : Store)
    (tax : TaxResult) :
  calculateTax hotelCode amount s = (s2, inr tax) ->
  tr_taxAmount tax = roundCurrency (nmul amount (ndiv100 (tr_gstPercent tax)))
  /\ tr_totalAmount tax = roundCurrency (nadd amount (tr_taxAmount tax)).
Proof.
  intros H. unfold calculateTax in H.
  apply bind_inr in H as (taxes & s1 & _ & H).
  apply ret_inr in H as [_ ->]. split; reflexivity.
Qed.




Lemma isRoomChargeFor_other (date : string) (charge : BillCharge) :
  bc_type charge <> ROOM -> isRoomChargeFor date charge = false.
Proof.
  intros Hne. unfold isRoomChargeFor.
  destruct (obj_get "nightDate" (nullish (bc_metadata charge) [])) as [[| b | n | d] |];
    try reflexivity.
  destruct (bc_type charge); try (rewrite andb_false_r; reflexivity).
  contradiction Hne. reflexivity.
Qed.

Lemma Storable_charge (s : Store) (bill : BillRecord) (charge : BillCharge) :
  Storable s -> In bill (st_bills s) -> In charge (bl_charges bill) ->
  isFinite (bc_amount charge) = true
  /\ isFinite (bc_taxAmount charge) = true
  /\ isFinite (bc_totalAmount charge) = true.
Proof.
  unfold Storable, storable. intros H Hb Hc.
  repeat (apply andb_true_iff in H as [H _]).
  rewrite forallb_forall in H. specialize (H bill Hb).
  rewrite forallb_forall in H. specialize (H charge Hc).
  apply andb_true_iff in H as [H _].
  apply andb_true_iff in H as [H H3]. apply andb_true_iff in H as [H1 H2].
  auto.
Qed.

Lemma Storable_payment (s : Store) (payment : PaymentRecord) :
  Storable s -> In payment (st_payments s) -> isFinite (p_amount payment) = true.
Proof.
  unfold Storable, storable. intros H Hp.
  do 3 (apply andb_true_iff in H as [H _]). apply andb_true_iff in H as [_ H].
  rewrite forallb_forall in H. specialize (H payment Hp).
  apply andb_true_iff in H as [H _]. exact H.
Qed.

Lemma nmul_finite (a b : num) : isFinite (nmul a b) = true -> isFinite a = true.
Proof.
  unfold isFinite, nmul.
  destruct (dbl a) as [| s | x], (dbl b) as [| t | y]; cbn [dbl]; try discriminate;
    try reflexivity;
    match goal with
    | |- context [if ?c then _ else _] => destruct c; discriminate
    end.
Qed.

Lemma roundCurrency_finite (a : num) :
  isFinite (roundCurrency a) = true -> isFinite a = true.
Proof.
  unfold isFinite, roundCurrency. destruct (dbl a); cbn [dbl]; auto.
Qed.

(** A finite amount that passes the test [amount <= 0] is above zero. *)
Lemma above_zero (a : num) :
  isFinite a = true -> nle0 a = false -> exists q, dbl a = Fin q /\ (0 < q)%Q.
Proof.
  unfold isFinite, nle0. destruct (dbl a) as [| s | q]; try discriminate.
  intros _ H. exists q. split; [reflexivity |].
  apply Qnot_le_lt. intros Hle. apply Qle_bool_iff in Hle. congruence.
Qed.

(** X20.  An [addAddonCharge] that returns and leaves finite amounts in the
    store was given an amount above zero and has appended to the bill of
    the reservation, after the charges it held, one ADDON charge of the
    amount times the quantity (1 unless a quantity above zero is given),
    its total the amount plus the tax to two decimals, which it reports; no
    payment is written.  The add-on never counts as a room night, whatever
    its metadata says: the nights charged are those charged before. *)
Theorem addAddonCharge_returned (input : AddonChargeInput) (s s' : Store)
    (summary : BillSummary) :
  NoDup (map bl_id (st_bills s)) ->
  addAddonCharge input s = (s', inr summary) ->
  Storable s' ->
  exists reservation charge,
    cache_get reservationsTable (aci_reservationId input) (st_reservations s)
    = Some reservation
    /\ (exists amount, dbl (aci_amount input) = Fin amount /\ (0 < amount)%Q)
    /\ bs_addedCharges summary = Some [charge]
    /\ bc_type charge = ADDON
    /\ bc_description charge = aci_description input
    /\ bc_amount charge
       = nmul (aci_amount input)
           match aci_quantity input with
           | Some q => if ntruthy q && ngt0 q then q else of_Z 1
           | None => of_Z 1
           end
    /\ Rounded2 (nadd (bc_amount charge) (bc_taxAmount charge)) (bc_totalAmount charge)
    /\ bl_charges (bs_bill summary)
       = (postedCharges (r_id reservation) s ++ [charge])%list
    /\ (forall date,
          hasRoomChargeForDate (bs_bill summary) date
          = existsb (isRoomChargeFor date) (postedCharges (r_id reservation) s))
    /\ postedCharges (r_id reservation) s' = bl_charges (bs_bill summary)
    /\ st_payments s' = st_payments s.
Proof.
  intros Hnd H Hst. unfold addAddonCharge in H.
  destruct (nle0 (aci_amount input)) eqn:Hamount; [discriminate H |].
  apply bind_inr in H as (reservation & s0 & Hres & H).
  apply resolveReservation_inr in Hres as [-> Hres].
  exists reservation.
  apply bind_inr in H as (bill & s1 & Hbill & H).
  pose proof (ensureBill_charges _ _ _ _ Hbill) as Hbefore.
  apply (ensureBill_anchor _ _ _ _ Hnd) in Hbill as [HB1 Hsame1].
  apply bind_inr in H as ([rb folioId] & s4 & Hfolio & H).
  apply (resolveFolio_anchor _ _ _ _ _ _ _ _ HB1) in Hfolio
    as (HB4 & Hsame4 & Hcharges4 & _).
  cbn [fst snd] in H.
  apply bind_inr in H as (tax & s5 & Htax & H).
  pose proof (keeps_run books _ _ _ _ (keeps_calculateTax books _ _) Htax) as B5.
  apply calculateTax_inr in Htax as [_ Htotal].
  apply bind_inr in H as (id & s6 & Hid & H).
  unfold nanoid in Hid. injection Hid as <- <-.
  apply bind_inr in H as (postedAt & s7 & Hnow & H).
  unfold now in Hnow. injection Hnow as <- <-.
  apply bind_inr in H as (updatedAt & s8 & Hnow & H).
  unfold now in Hnow. injection Hnow as <- <-.
  apply books_same in B5 as [Hbills5 Hsame5].
  apply bind_inr in H as (updated & s9 & Hupd & H).
  apply (update_bill_anchor _ _ (r_id reservation)) in Hupd
    as (Hupdated & HB9 & Hsame9);
    [| apply (BillOf_same s4); [exact Hbills5 | exact HB4]].
  apply bind_inr in H as (totals & s10 & Hsync & H).
  apply syncReservationBilling_inr in Hsync as (_ & Hpay10 & Hbills10 & _).
  apply bind_inr in H as (payments & s11 & Hp & H).
  rewrite getPaymentsForReservation_run in Hp. injection Hp as <- <-.
  apply ret_inr in H as [-> ->]. cbn [bs_bill bs_addedCharges].
  match type of Hupdated with
  | context [(bl_charges rb ++ [?c])%list] =>
      exists c;
      assert (bl_charges updated = (postedCharges (r_id reservation) s ++ [c])%list)
        as Hcharges
  end.
  { rewrite Hupdated. cbn [mergeBill bl_charges nullish bu_charges].
    rewrite Hcharges4, Hbefore. reflexivity. }
  split; [exact Hres |].
  split.
  { apply above_zero; [| exact Hamount].
    match type of Hcharges with
    | _ = (_ ++ [?c])%list =>
        destruct (Storable_charge _ updated c Hst) as (Hfin & _)
    end.
    - apply (BillOf_In _ (r_id reservation)).
      apply (BillOf_same s9); [exact Hbills10 | exact HB9].
    - rewrite Hcharges. apply in_or_app. right. left. reflexivity.
    - cbn [bc_amount] in Hfin. apply nmul_finite in Hfin. exact Hfin. }
  split; [reflexivity |].
  cbn [bc_type bc_description bc_amount bc_totalAmount bc_taxAmount].
  split; [reflexivity | split; [reflexivity | split; [reflexivity |]]].
  split; [rewrite Htotal; apply roundCurrency_Rounded2 |].
  split; [exact Hcharges |].
  split; [| split].
  - intros date. unfold hasRoomChargeForDate. rewrite Hcharges, existsb_app.
    cbn [existsb]. rewrite isRoomChargeFor_other by (cbn [bc_type]; discriminate).
    rewrite !orb_false_r. reflexivity.
  - apply BillOf_posted. apply (BillOf_same s9); [exact Hbills10 | exact HB9].
  - destruct Hsame1 as (_ & A1 & _), Hsame4 as (_ & A4 & _), Hsame5 as (_ & A5 & _),
      Hsame9 as (_ & A9 & _).
    cbn [st_payments set_tick] in A9. congruence.
Qed.

Lemma insert_payment_inr (mk : string -> PaymentRecord) (s s2 : Store)
    (x : PaymentRecord) :
  insert paymentsTable None mk s = (s2, inr x) ->
  x = mk (nanoidAt (st_tick s))
  /\ st_payments s2 = (st_payments s ++ [x])%list
  /\ st_bills s2 = st_bills s.
Proof.
  intros H. unfold insert in H.
  apply bind_inr in H as (id & s1 & Hid & H).
  unfold nanoid in Hid. injection Hid as <- <-.
  cbn [t_records t_store paymentsTable st_payments set_tick] in H.
  destruct (cache_get paymentsTable _ (st_payments s)); [discriminate H |].
  apply bind_inr in H as (u & s3 & Hp & H). apply ret_inr in H as [-> ->].
  split; [reflexivity |].
  unfold persist in Hp. cbn [st_faults set_payments set_tick] in Hp.
  destruct (st_faults s) as [| [|] rest]; inversion Hp; subst; split; reflexivity.
Qed.

(** The loop of [settleBill]: one payment record for each payment given,
    in order, appended to the payments table; the bill keeps its charges. *)
Lemma recordPayments_exact (payments : list SettlementPaymentInput)
    (reservation : ReservationRecord) (bill : BillRecord) (created : list PaymentRecord)
    (s s2 : Store) (bill' : BillRecord) (out : list PaymentRecord) :
  BillOf s (r_id reservation) bill ->
  recordPayments payments reservation bill created s = (s2, inr (bill', out)) ->
  exists added,
    out = (created ++ added)%list
    /\ Forall2 (Recorded reservation) payments added
    /\ st_payments s2 = (st_payments s ++ added)%list
    /\ BillOf s2 (r_id reservation) bill'
    /\ bl_charges bill' = bl_charges bill.
Proof.
  revert bill created s. induction payments as [| payment rest IH];
    intros bill created s HB H.
  - apply ret_inr in H as [-> Hv]. injection Hv as <- <-.
    exists []. rewrite !app_nil_r.
    split; [reflexivity | split; [constructor | split; [reflexivity |]]].
    split; [exact HB | reflexivity].
  - cbn [recordPayments] in H.
    destruct (nle0 (spi_amount payment)) eqn:Hamount; [discriminate H |].
    apply bind_inr in H as ([rb folioId] & s1 & Hfolio & H).
    apply (resolveFolio_anchor _ _ _ _ _ _ _ _ HB) in Hfolio
      as (HB1 & Hsame1 & Hcharges1 & _).
    cbn [fst snd] in H.
    apply bind_inr in H as (receivedAt & s2' & Hnow & H).
    unfold now in Hnow. injection Hnow as <- <-.
    apply bind_inr in H as (createdAt & s3 & Hnow & H).
    unfold now in Hnow. injection Hnow as <- <-.
    apply bind_inr in H as (updatedAt & s4 & Hnow & H).
    unfold now in Hnow. injection Hnow as <- <-.
    apply bind_inr in H as (inserted & s5 & Hins & H).
    apply insert_payment_inr in Hins as (Hx & Hpay5 & Hbills5).
    cbn [st_payments st_bills set_tick] in Hpay5, Hbills5.
    apply IH in H as (added & -> & Hall & Hpay & HB' & Hcharges');
      [| apply (BillOf_same s1); [exact Hbills5 | exact HB1]].
    exists (inserted :: added). rewrite <- app_assoc. cbn [app].
    split; [reflexivity |].
    split.
    { constructor; [| exact Hall]. rewrite Hx. unfold Recorded.
      cbn [p_amount p_reservationId p_mode p_reference p_currency].
      repeat split. exact Hamount. }
    destruct Hsame1 as (_ & A1 & _).
    split; [rewrite Hpay, Hpay5, A1, <- app_assoc; reflexivity |].
    split; [exact HB' | congruence].
Qed.

Lemma Recorded_PaymentFor (reservation : ReservationRecord)
    (inputs : list SettlementPaymentInput) (added : list PaymentRecord) :
  Forall2 (Recorded reservation) inputs added ->
  (forall payment, In payment added -> isFinite (p_amount payment) = true) ->
  Forall2 (PaymentFor reservation) inputs added.
Proof.
  induction 1 as [| input payment inputs added (H1 & H2 & H3) _ IH]; intros Hfin;
    constructor.
  - pose proof (Hfin payment (or_introl eq_refl)) as F. rewrite H2 in F.
    split; [apply above_zero; [apply roundCurrency_finite; exact F | exact H1] |].
    split; [rewrite H2; apply roundCurrency_Rounded2 | exact H3].
  - apply IH. intros p Hp. apply Hfin. right. exact Hp.
Qed.

(** X21.  A [settleBill] that returns and leaves finite amounts in the store
    was given at least one payment, each above zero, and has appended to
    the payments table one record for each, in order, for the amount to two
    decimals, which it reports; the payments of its summary are those the
    reservation had, followed by the new ones, and the bill keeps its
    charges.  (An amount below half a cent is above zero, and is recorded
    as a payment of 0.) *)
Theorem settleBill_returned (input : SettleBillInput) (s s' : Store)
    (summary : BillSummary) :
  NoDup (map bl_id (st_bills s)) ->
  settleBill input s = (s', inr summary) ->
  Storable s' ->
  exists reservation newPayments,
    cache_get reservationsTable (sbi_reservationId input) (st_reservations s)
    = Some reservation
    /\ sbi_payments input <> []
    /\ bs_newPayments summary = Some newPayments
    /\ Forall2 (PaymentFor reservation) (sbi_payments input) newPayments
    /\ st_payments s' = (st_payments s ++ newPayments)%list
    /\ bs_payments summary
       = (filter (fun payment => p_reservationId payment =? r_id reservation)
            (st_payments s) ++ newPayments)%list
    /\ bl_charges (bs_bill summary) = postedCharges (r_id reservation) s
    /\ postedCharges (r_id reservation) s' = postedCharges (r_id reservation) s.
Proof.
  intros Hnd H Hst. unfold settleBill in H.
  destruct (List.length (sbi_payments input) =? 0)%nat eqn:Hlen; [discriminate H |].
  apply bind_inr in H as (reservation & s0 & Hres & H).
  apply resolveReservation_inr in Hres as [-> Hres].
  exists reservation.
  apply bind_inr in H as (bill & s1 & Hbill & H).
  pose proof (ensureBill_charges _ _ _ _ Hbill) as Hbefore.
  apply (ensureBill_anchor _ _ _ _ Hnd) in Hbill as [HB1 Hsame1].
  apply bind_inr in H as ([currentBill created] & s2 & Hrec & H).
  apply (recordPayments_exact _ _ _ _ _ _ _ _ HB1) in Hrec
    as (added & Hcreated & Hall & Hpay2 & HB2 & Hcharges2).
  cbn [app] in Hcreated. subst created. cbn [fst snd] in H.
  apply bind_inr in H as (totals & s3 & Hsync & H).
  apply syncReservationBilling_inr in Hsync as (_ & Hpay3 & Hbills3 & _).
  apply bind_inr in H as (payments & s4 & Hp & H).
  rewrite getPaymentsForReservation_run in Hp. injection Hp as <- <-.
  apply ret_inr in H as [-> ->]. cbn [bs_bill bs_payments bs_newPayments].
  exists added.
  destruct Hsame1 as (_ & A1 & _).
  assert (st_payments s3 = (st_payments s ++ added)%list) as Hpay by congruence.
  split; [exact Hres |].
  split; [intros Hnil; rewrite Hnil in Hlen; discriminate Hlen |].
  split; [reflexivity |].
  split.
  { apply (Recorded_PaymentFor _ _ _ Hall). intros payment Hin.
    apply (Storable_payment _ _ Hst). rewrite Hpay. apply in_or_app. right. exact Hin. }
  split; [exact Hpay |].
  split; [| split].
  - rewrite Hpay, filter_app. f_equal.
    clear - Hall. induction Hall as [| i p l l' Hp _ IH]; [reflexivity |].
    cbn [filter]. destruct Hp as (_ & _ & -> & _). rewrite String.eqb_refl, IH.
    reflexivity.
  - congruence.
  - rewrite (BillOf_posted s3 _ currentBill); [congruence |].
    apply (BillOf_same s2); [exact Hbills3 | exact HB2].
Qed.
End LedgerWrites.

(** ** The ledger on the example hotel *)

Lemma one_bill_per_reservation_witness : OneBillEach Hotel.posted.
Proof.
  refine (proj1 (proj2 (one_bill_per_reservation (P := Runtime.platform) Hotel.fresh _))
            Hotel.allNights).
  split; constructor.
Defined.


(** The minibar names a night in its metadata and is no room night. *)
Lemma addAddonCharge_returned_witness :
  exists summary,
    snd (addAddonCharge (P := Runtime.platform) HotelRuns.minibar Hotel.fresh)
    = inr summary
    /\ (exists amount, dbl (aci_amount HotelRuns.minibar) = Fin amount /\ (0 < amount)%Q)
    /\ hasRoomChargeForDate (bs_bill summary) "2026-01-02" = false.
Proof.
  assert (Storable
            (fst (addAddonCharge (P := Runtime.platform) HotelRuns.minibar Hotel.fresh)))
    as Hst by (vm_compute; reflexivity).
  destruct (addAddonCharge (P := Runtime.platform) HotelRuns.minibar Hotel.fresh)
    as [s' [e | summary]] eqn:Hrun; [vm_compute in Hrun; discriminate Hrun |].
  exists summary. split; [reflexivity |].
  destruct (addAddonCharge_returned (P := Runtime.platform)
              HotelRuns.minibar Hotel.fresh s' summary (NoDup_nil string) Hrun Hst)
    as (reservation & charge & _ & Hamount & _ & _ & _ & _ & _ & _ & Hnights & _).
  split; [exact Hamount |]. rewrite Hnights. reflexivity.
Defined.

(** A tenth of a cent is taken as a payment, of nothing. *)
Lemma settleBill_returned_witness :
  exists summary,
    snd (settleBill (P := Runtime.platform)
           (Hotel.settlement [HotelRuns.tinyPayment]) Hotel.posted)
    = inr summary
    /\ option_map (map p_amount) (bs_newPayments summary) = Some [cents 0].
Proof.
  assert (Storable
            (fst (settleBill (P := Runtime.platform)
                    (Hotel.settlement [HotelRuns.tinyPayment]) Hotel.posted)))
    as Hst by (vm_compute; reflexivity).
  destruct (settleBill (P := Runtime.platform)
              (Hotel.settlement [HotelRuns.tinyPayment]) Hotel.posted)
    as [s' [e | summary]] eqn:Hrun; [vm_compute in Hrun; discriminate Hrun |].
  exists summary. split; [reflexivity |].
  destruct (settleBill_returned (P := Runtime.platform) _ Hotel.posted _ _
              ltac:(vm_compute; repeat constructor; intros []) Hrun Hst)
    as (reservation & newPayments & _ & _ & Hnew & Hall & _).
  rewrite Hnew. cbn [option_map Hotel.settlement sbi_payments] in Hall |- *.
  inversion Hall as [| i p l l' (_ & Hamount & _) Hnil]; subst.
  inversion Hnil; subst. cbn [map]. do 2 f_equal.
  assert (dbl (spi_amount HotelRuns.tinyPayment)
          = Fin (1152921504606847 # 1152921504606846976)) as E
      by (vm_compute; reflexivity).
  apply (Rounded2_value _ _ _ 0 E Hamount).
  split; [vm_compute; discriminate | intros T; vm_compute in T; discriminate T].
Defined.

(** ** The totals of the ledger *)

Section Conservation.
Context {P : Platform}.




End Conservation.


(** ** Tax and totals *)


Section Tax.

(** X22.  The tax of a charge.  [calculateTax] reads the store and leaves it as
    it is.  The rate is CGST plus SGST of the first tax row of the
    configured property, a missing one counting as 0, and 0 without such a
    row; the hotel code it is given plays no part.  The tax is the product
    of the amount and a hundredth of the rate, as the doubles give it, to
    two decimals, and the total is the amount plus the tax to two decimals:
    for a modest amount and a tax in hundredths the total is their decimal
    sum.  At rate 0 the tax of a finite amount is 0. *)
Theorem calculateTax_returned (hotelCode : string) (amount : num) (s s' : Store)
    (tax : TaxResult) :
  calculateTax hotelCode amount s = (s', inr tax) ->
  s' = s
  /\ (exists profile,
        hd_error (st_property s) = Some profile
        /\ tr_gstPercent tax
           = match find (fun record => tx_hotelCode record =? pp_hotelCode profile)
                     (st_taxes s) with
             | Some row => nadd (nullish (tx_cgst row) (of_Z 0))
                             (nullish (tx_sgst row) (of_Z 0))
             | None => of_Z 0
             end)
  /\ Rounded2 (nmul amount (ndiv100 (tr_gstPercent tax))) (tr_taxAmount tax)
  /\ Rounded2 (nadd amount (tr_taxAmount tax)) (tr_totalAmount tax)
  /\ (forall a t : Z,
        amount = cents a -> tr_taxAmount tax = cents t ->
        (Z.abs a + Z.abs t < 2 ^ 49)%Z ->
        tr_totalAmount tax = cents (a + t))
  /\ (forall q, dbl amount = Fin q -> tr_gstPercent tax = of_Z 0 ->
        tr_taxAmount tax = of_Z 0).
Proof.
  intros H. unfold calculateTax in H.
  apply bind_inr in H as (taxes & s1 & Htaxes & H).
  apply ret_inr in H as [-> ->].
  cbn [tr_gstPercent tr_taxAmount tr_totalAmount].
  unfold getTaxConfig, ensurePropertyProfile, getPropertyProfile, bind in Htaxes.
  destruct (hd_error (st_property s)) as [profile |] eqn:Hp; [| discriminate Htaxes].
  cbn [ret] in Htaxes. injection Htaxes as <- <-.
  split; [reflexivity |].
  split.
  { exists profile. split; [reflexivity |].
    destruct (find _ (st_taxes s)); reflexivity. }
  split; [apply roundCurrency_Rounded2 | split; [apply roundCurrency_Rounded2 |]].
  split.
  - intros a t -> -> Hb. apply roundCurrency_nadd_cents. exact Hb.
  - intros q Hq ->. unfold nmul. rewrite Hq.
    change (dbl (ndiv100 (of_Z 0))) with (Fin 0). cbv iota.
    rewrite (binary64_zero (q * 0)) by ring. reflexivity.
Qed.
End Tax.

(** 1000.25 at 18 percent: the double product lies below 180.045, so the
    tax is 180.04 and the total 1180.29. *)
Lemma calculateTax_returned_witness :
  exists tax,
    calculateTax "elsewhere" (cents 100025) HotelRuns.gst18
    = (HotelRuns.gst18, inr tax)
    /\ tr_gstPercent tax = of_Z 18
    /\ Rounded2 (nmul (cents 100025) (ndiv100 (of_Z 18))) (cents 18004)
    /\ tr_taxAmount tax = cents 18004
    /\ tr_totalAmount tax = cents 118029.
Proof.
  destruct (calculateTax "elsewhere" (cents 100025) HotelRuns.gst18)
    as [s' [e | tax]] eqn:Hrun; [vm_compute in Hrun; discriminate Hrun |].
  destruct (calculateTax_returned _ _ _ _ _ Hrun)
    as (Hs & (profile & Hp & Hrate) & Htax & _ & Hcents & _).
  exists tax. rewrite Hs.
  assert (tr_taxAmount tax = cents 18004) as E.
  { vm_compute in Hrun. injection Hrun as _ <-. vm_compute. reflexivity. }
  split; [reflexivity | split; [| split; [| split; [exact E |]]]].
  - rewrite Hrate. vm_compute in Hp. injection Hp as <-. vm_compute. reflexivity.
  - assert (tr_gstPercent tax = of_Z 18) as R.
    { rewrite Hrate. vm_compute in Hp. injection Hp as <-. vm_compute. reflexivity. }
    rewrite R, E in Htax. exact Htax.
  - apply (Hcents 100025 18004)%Z; [reflexivity | exact E | vm_compute; reflexivity].
Defined.

Lemma Modest_le (small large : list Z) :
  (List.length small <= List.length large)%nat ->
  (sum_abs small <= sum_abs large)%Z ->
  Modest large -> Modest small.
Proof.
  unfold Modest. intros Hl Hs Hm. pose proof (sum_abs_nonneg small).
  pose proof (sum_abs_nonneg large). nia.
Qed.

(** X23.  On hundredths the ledger's arithmetic is that of the decimals: on a
    bill whose charges and payments are modest amounts in hundredths, the
    totals are the decimal sums and their difference; one more charge
    raises the grand total and the balance due by its total amount, and one
    more payment leaves the grand total and lowers the balance due by its
    amount; no rounding of a double shows in the totals. *)
Theorem computeTotals_step (bill : BillRecord) (payments : list PaymentRecord)
    (charge : BillCharge) (payment : PaymentRecord) (cs ps : list Z) (c p : Z) :
  map bc_totalAmount (bl_charges bill) = map cents cs ->
  map p_amount payments = map cents ps ->
  bc_totalAmount charge = cents c ->
  p_amount payment = cents p ->
  Modest (cs ++ ps ++ [c; p]) ->
  let before := computeTotals bill payments in
  let charged :=
    computeTotals
      (mergeBill bill {| bu_folios := None;
                         bu_charges := Some ((bl_charges bill ++ [charge])%list);
                         bu_updatedAt := None |})
      payments in
  let paid := computeTotals bill ((payments ++ [payment])%list) in
  (grandTotal before = cents (sum_Z cs)
   /\ paymentsTotal before = cents (sum_Z ps)
   /\ balanceDue before = cents (sum_Z cs - sum_Z ps))
  /\ (grandTotal charged = cents (sum_Z cs + c)
      /\ balanceDue charged = cents (sum_Z cs - sum_Z ps + c)
      /\ paymentsTotal charged = paymentsTotal before)
  /\ (grandTotal paid = grandTotal before
      /\ paymentsTotal paid = cents (sum_Z ps + p)
      /\ balanceDue paid = cents (sum_Z cs - sum_Z ps - p))
  /\ grandTotal charged
     = roundCurrency (nadd (grandTotal before) (bc_totalAmount charge))
  /\ balanceDue charged
     = roundCurrency (nadd (balanceDue before) (bc_totalAmount charge))
  /\ paymentsTotal paid
     = roundCurrency (nadd (paymentsTotal before) (p_amount payment))
  /\ balanceDue paid
     = roundCurrency (nsub (balanceDue before) (p_amount payment)).
Proof.
  intros Hcharges Hpayments Hcharge Hpayment Hm. cbv zeta.
  assert (Modest (cs ++ ps)) as M0.
  { revert Hm. apply Modest_le; rewrite ?length_app, ?sum_abs_app;
      cbn [List.length sum_abs fold_right]; lia. }
  assert (Modest ((cs ++ [c]) ++ ps)) as M1.
  { revert Hm. apply Modest_le; rewrite ?length_app, ?sum_abs_app;
      cbn [List.length sum_abs fold_right]; lia. }
  assert (Modest (cs ++ (ps ++ [p]))) as M2.
  { revert Hm. apply Modest_le; rewrite ?length_app, ?sum_abs_app;
      cbn [List.length sum_abs fold_right]; lia. }
  assert (sum_abs (cs ++ ps ++ [c; p]) < 2 ^ 49)%Z as Hall.
  { apply Modest_sum. exact Hm. }
  rewrite !sum_abs_app in Hall. cbn [sum_abs fold_right] in Hall.
  pose proof (sum_Z_abs cs) as Acs. pose proof (sum_Z_abs ps) as Aps.
  destruct (computeTotals_cents bill payments cs ps Hcharges Hpayments M0)
    as (G0 & P0 & B0).
  destruct (computeTotals_cents
              (mergeBill bill {| bu_folios := None;
                                 bu_charges := Some ((bl_charges bill ++ [charge])%list);
                                 bu_updatedAt := None |})
              payments (cs ++ [c]) ps) as (G1 & P1 & B1); [| exact Hpayments | exact M1 |].
  { cbn [mergeBill bl_charges nullish bu_charges]. rewrite !map_app, Hcharges.
    cbn [map]. rewrite Hcharge. reflexivity. }
  destruct (computeTotals_cents bill (payments ++ [payment])%list cs (ps ++ [p]))
    as (G2 & P2 & B2); [exact Hcharges | | exact M2 |].
  { rewrite !map_app, Hpayments. cbn [map]. rewrite Hpayment. reflexivity. }
  rewrite sum_Z_app in G1, B1, P2, B2. cbn [sum_Z fold_right] in G1, B1, P2, B2.
  rewrite Z.add_0_r in G1, B1, P2, B2.
  rewrite G0, P0, B0, G1, P1, B1, G2, P2, B2, Hcharge, Hpayment.
  rewrite !roundCurrency_nadd_cents, roundCurrency_nsub_cents by lia.
  repeat split; f_equal; lia.
Qed.

(** A coffee at 0.10 on the bill and paid; a tea at 0.20 brings the total
    to 0.30 and the balance to 0.20, where the doubles 0.1 and 0.2 add up
    to 0.30000000000000004. *)
Lemma computeTotals_step_witness :
  grandTotal
    (computeTotals
       (mergeBill HotelRuns.coffeeBill
          {| bu_folios := None;
             bu_charges := Some ((bl_charges HotelRuns.coffeeBill ++ [HotelRuns.tea])%list);
             bu_updatedAt := None |})
       [HotelRuns.coins])
  = cents 30
  /\ balanceDue
       (computeTotals
          (mergeBill HotelRuns.coffeeBill
             {| bu_folios := None;
                bu_charges := Some ((bl_charges HotelRuns.coffeeBill ++ [HotelRuns.tea])%list);
                bu_updatedAt := None |})
          [HotelRuns.coins])
     = cents 20
  /\ nadd (cents 10) (cents 20) = Fin (1351079888211149 # 4503599627370496).
Proof.
  destruct (computeTotals_step HotelRuns.coffeeBill [HotelRuns.coins] HotelRuns.tea
              HotelRuns.coins [10] [10] 20 10)%Z
    as (_ & (G & B & _) & _);
    try (vm_compute; reflexivity).
  split; [exact G | split; [exact B |]]. vm_compute. reflexivity.
Defined.

(** ** Folios and summaries *)

Section Folios.
Context {P : Platform}.


(** X25.  [getBillSummary] is a read that may write: when it returns for a
    reservation that has a bill, the store is as it was and the summary
    shows that bill; for a reservation without one it has opened a bill,
    appended to the bills table, with no charge and one folio called
    Primary, and the summary shows a grand total of 0.  Either way
    reservations and payments are untouched, the payments shown are the
    stored payments of the reservation and the totals are those of the
    bill and these payments. *)
Theorem getBillSummary_returned (reservationId : string) (s s' : Store)
    (summary : BillSummary) :
  getBillSummary reservationId s = (s', inr summary) ->
  exists reservation,
    cache_get reservationsTable reservationId (st_reservations s) = Some reservation
    /\ st_reservations s' = st_reservations s
    /\ st_payments s' = st_payments s
    /\ bs_payments summary
       = filter (fun payment => p_reservationId payment =? r_id reservation)
           (st_payments s)
    /\ bs_totals summary = computeTotals (bs_bill summary) (bs_payments summary)
    /\ match find (billFor (r_id reservation)) (st_bills s) with
       | Some bill => s' = s /\ bs_bill summary = bill
       | None =>
           st_bills s' = (st_bills s ++ [bs_bill summary])%list
           /\ bl_reservationId (bs_bill summary) = r_id reservation
           /\ bl_charges (bs_bill summary) = []
           /\ map f_name (bl_folios (bs_bill summary)) = [DEFAULT_FOLIO_NAME]
           /\ grandTotal (bs_totals summary) = of_Z 0
       end.
Proof.
  intros H. unfold getBillSummary in H.
  apply bind_inr in H as (reservation & s0 & Hres & H).
  apply resolveReservation_inr in Hres as [-> Hres].
  exists reservation. split; [exact Hres |].
  apply bind_inr in H as (bill & s1 & Hbill & H).
  unfold toBillSummary in H.
  apply bind_inr in H as (payments & s2 & Hp & H).
  rewrite getPaymentsForReservation_run in Hp. injection Hp as <- <-.
  apply ret_inr in H as [-> ->]. cbn [bs_bill bs_payments bs_totals].
  unfold ensureBillForReservation in Hbill.
  apply bind_inr in Hbill as (bills & s0 & Hb & Hbill).
  unfold getAll in Hb. injection Hb as <- <-.
  cbn [t_records billsTable] in Hbill.
  change (fun bill => bl_reservationId bill =? r_id reservation)
    with (billFor (r_id reservation)) in Hbill.
  destruct (find (billFor (r_id reservation)) (st_bills s)) as [existing |].
  - apply ret_inr in Hbill as [-> ->]. repeat split; reflexivity.
  - apply bind_inr in Hbill as (timestamp & s2 & Hnow & Hbill).
    unfold now in Hnow. injection Hnow as <- <-.
    apply bind_inr in Hbill as (folio & s3 & Hfolio & Hbill).
    unfold ensureDefaultFolio in Hfolio.
    apply bind_inr in Hfolio as (fid & s4 & Hid & Hfolio).
    unfold nanoid in Hid. injection Hid as <- <-.
    apply ret_inr in Hfolio as [-> ->].
    apply insert_bill_inr in Hbill as (Hx & _ & Hbills & (Hr & Hpay & _)).
    cbn [st_bills st_payments st_reservations set_tick] in Hbills, Hr, Hpay.
    rewrite Hpay.
    split; [exact Hr | split; [reflexivity | split; [reflexivity | split; [reflexivity |]]]].
    split; [exact Hbills |].
    rewrite Hx. cbn [bl_reservationId bl_charges bl_folios map f_name].
    repeat split.
Qed.
End Folios.

Lemma getBillSummary_returned_witness :
  exists summary,
    snd (getBillSummary (P := Runtime.platform) "res1" Hotel.fresh) = inr summary
    /\ map bl_reservationId
         (st_bills (fst (getBillSummary (P := Runtime.platform) "res1" Hotel.fresh)))
       = ["res1"].
Proof.
  destruct (getBillSummary (P := Runtime.platform) "res1" Hotel.fresh)
    as [s' [e | summary]] eqn:Hrun; [vm_compute in Hrun; discriminate Hrun |].
  exists summary. split; [reflexivity |].
  destruct (getBillSummary_returned (P := Runtime.platform) _ _ _ _ Hrun)
    as (reservation & Hres & _ & _ & _ & _ & Hnew).
  vm_compute in Hres. injection Hres as <-.
  cbn [find Hotel.fresh Hotel.store st_bills] in Hnew.
  destruct Hnew as (Hbills & Hrid & _).
  cbn [fst]. rewrite Hbills. cbn [app map]. rewrite Hrid. reflexivity.
Defined.


(** ** Alerts *)





Section AlertsAfterStay.
Context {P : Platform}.

(** The reservations a late-checkout or payment-pending alert can be
    about: never one that is checked out or cancelled. *)
Lemma alert_about (reservations : list ReservationRecord) (todayKey : string)
    (trigger : AlertTrigger) :
  In trigger (evaluateLateCheckoutAlerts reservations todayKey
              ++ evaluatePaymentPendingAlerts reservations todayKey)%list ->
  exists reservation,
    In reservation reservations
    /\ aboutReservation trigger = Some (r_id reservation)
    /\ r_status reservation <> CHECKED_OUT
    /\ r_status reservation <> CANCELLED
    /\ (at_type trigger = LATE_CHECKOUT ->
        r_status reservation = CHECKED_IN
        /\ (r_departureDate reservation <? todayKey) = true)
    /\ (at_type trigger = PAYMENT_PENDING ->
        ngtCent (b_balanceDue (r_billing reservation)) = true
        /\ (r_departureDate reservation <=? todayKey) = true).
Proof.
  intros Hin. apply in_app_or in Hin as [Hin | Hin].
  - unfold evaluateLateCheckoutAlerts in Hin.
    apply in_map_iff in Hin as (reservation & <- & Hin).
    apply filter_In in Hin as [Hin Hp]. apply andb_prop in Hp as [Hstatus Hlate].
    apply ReservationStatus_eqb_eq in Hstatus.
    exists reservation. split; [exact Hin | split; [reflexivity |]].
    rewrite Hstatus. split; [discriminate | split; [discriminate |]].
    split; [intros _; split; [reflexivity | exact Hlate] | discriminate].
  - unfold evaluatePaymentPendingAlerts in Hin.
    apply in_map_iff in Hin as (reservation & <- & Hin).
    apply filter_In in Hin as [Hin Hp]. cbn zeta in Hp.
    exists reservation. split; [exact Hin | split; [reflexivity |]].
    destruct (r_status reservation); cbn [ReservationStatus_eqb orb] in Hp;
      try discriminate Hp;
      (split; [discriminate | split; [discriminate |]]);
      (split; [discriminate |]); intros _; apply andb_prop in Hp; exact Hp.
Qed.

(** X27.  Once a guest is checked out the reservation raises no alert: after a
    [checkOut] that returned, in a table with unique identifiers, neither
    [evaluateLateCheckoutAlerts] nor [evaluatePaymentPendingAlerts] yields
    a trigger about that reservation, whatever the day; and the alerts they
    do yield are about reservations that are neither checked out nor
    cancelled. *)
Theorem checkOut_silences_alerts (input : CheckOutInput) (s s' : Store)
    (result : CheckOutResult) (todayKey : string) (trigger : AlertTrigger) :
  NoDup (map r_id (st_reservations s)) ->
  checkOut input s = (s', inr result) ->
  In trigger (evaluateLateCheckoutAlerts (st_reservations s') todayKey
              ++ evaluatePaymentPendingAlerts (st_reservations s') todayKey)%list ->
  aboutReservation trigger <> Some (co_reservationId input)
  /\ exists reservation,
       In reservation (st_reservations s)
       /\ aboutReservation trigger = Some (r_id reservation)
       /\ r_status reservation <> CHECKED_OUT
       /\ r_status reservation <> CANCELLED.
Proof.
  intros Hnd H Hin.
  apply checkOut_inr in H
    as (reservation & roomId & room & Hres & _ & _ & _ & _ & _ & _ & Hstored & Hs' & _).
  apply alert_about in Hin as (r & Hr & Habout & Hout & Hcancelled & _).
  rewrite Hs' in Hr.
  apply (In_cache_replace reservationsTable) in Hr; [| exact Hnd].
  cbn [t_key reservationsTable] in Hr.
  destruct Hr as [-> | [Hr Hother]].
  - exfalso. apply Hout. rewrite Hstored. reflexivity.
  - split; [rewrite Habout; congruence |].
    exists r. split; [exact Hr | split; [exact Habout | split; assumption]].
Qed.
End AlertsAfterStay.

Lemma checkOut_silences_alerts_witness :
  evaluateLateCheckoutAlerts
    (st_reservations (fst (checkOut (P := Runtime.platform) HotelRuns.leave
                             HotelRuns.house)))
    "2026-02-01"
  = [].
Proof.
  destruct (checkOut (P := Runtime.platform) HotelRuns.leave HotelRuns.house)
    as [s' [e | result]] eqn:Hrun; [vm_compute in Hrun; discriminate Hrun |].
  cbn [fst].
  destruct (evaluateLateCheckoutAlerts (st_reservations s') "2026-02-01")
    as [| trigger rest] eqn:Hlate; [reflexivity | exfalso].
  destruct (checkOut_silences_alerts (P := Runtime.platform) HotelRuns.leave
              HotelRuns.house s' result "2026-02-01" trigger)
    as (Hne & reservation & Hin & Habout & _).
  - vm_compute. repeat constructor. intros [].
  - exact Hrun.
  - rewrite Hlate. left. reflexivity.
  - destruct Hin as [<- | []]. apply Hne. exact Habout.
Defined.

(** ** Every update goes through the availability check *)

Section Recheck.
Context {P : Platform}.

(** X28.  [updateReservation] checks availability whatever the update changes, a
    cancellation or a change of the notes included.  For a reservation
    that can be edited and whose dates are in order: when it holds no room,
    an [ensureAvailabilityForType] that throws for its type and dates makes
    the update throw the same error; when it holds a room of the property,
    a reservation that stands against the room makes the update throw the
    409, unless the update names a room type that is not the room's, which
    is tested first and answered with a 400.  Either way nothing is
    written. *)
Theorem updateReservation_rechecks_availability (id : string)
    (input : UpdateReservationInput) (s : Store) (existing : ReservationRecord)
    (nights : num) :
  cache_get reservationsTable id (st_reservations s) = Some existing ->
  r_status existing <> CHECKED_OUT ->
  let arrivalDate := nullish (in_arrivalDate input) (r_arrivalDate existing) in
  let departureDate := nullish (in_departureDate input) (r_departureDate existing) in
  let roomId := nullish_opt (in_roomId input) (r_roomId existing) in
  let roomType := nullish (in_roomType input) (r_roomType existing) in
  nightsBetween arrivalDate departureDate = inr nights ->
  (forall e,
      truthy_ostr roomId = false ->
      snd (ensureAvailabilityForType (r_hotelCode existing) roomType arrivalDate
             departureDate (Some (r_id existing)) s) = inl e ->
      updateReservation id input s = (s, inl e))
  /\ (forall held room,
         roomId = Some held -> held <> "" ->
         cache_get roomsTable held (st_rooms s) = Some room ->
         rm_hotelCode room = r_hotelCode existing ->
         existsb (conflicts held arrivalDate departureDate (Some (r_id existing)))
                 (st_reservations s) = true ->
         updateReservation id input s
         = (s, inl (if truthy_ostr (in_roomType input)
                       && negb (rm_type room =? nullish (in_roomType input) "")
                    then HttpError 400 "Room type does not match selected room"
                    else RoomUnavailable))).
Proof.
  intros Hget Hstatus arrivalDate departureDate roomId roomType Hnights.
  assert (forall k : option ReservationRecord -> M ReservationRecord,
             bind (getById reservationsTable id) k s = k (Some existing) s) as Hfound.
  { intros k. apply bind_run. unfold getById. cbn [t_records reservationsTable].
    rewrite Hget. reflexivity. }
  assert (assertEditable existing = inr tt) as Hedit.
  { unfold assertEditable. destruct (r_status existing); try reflexivity.
    contradiction Hstatus. reflexivity. }
  split.
  - intros e Hroom Hfail. unfold updateReservation. rewrite Hfound, Hedit.
    cbn [lift]. rewrite (bind_run _ _ s s tt) by reflexivity.
    fold arrivalDate departureDate. rewrite Hnights. cbn [lift].
    rewrite (bind_run _ _ s s nights) by reflexivity.
    fold roomId roomType. rewrite Hroom.
    apply bind_fail. apply bind_fail.
    rewrite (surjective_pairing (ensureAvailabilityForType _ _ _ _ _ s)), Hfail.
    rewrite ensureAvailabilityForType_run. reflexivity.
  - intros held room Hheld Hne Hroom Hhotel Htaken.
    unfold updateReservation. rewrite Hfound, Hedit.
    cbn [lift]. rewrite (bind_run _ _ s s tt) by reflexivity.
    fold arrivalDate departureDate. rewrite Hnights. cbn [lift].
    rewrite (bind_run _ _ s s nights) by reflexivity.
    fold roomId roomType. rewrite Hheld. cbn [truthy_ostr nullish].
    apply truthy_str_iff in Hne. rewrite Hne.
    apply bind_fail.
    rewrite (bind_run _ _ s s (Some room))
      by (unfold getById; cbn [t_records roomsTable]; rewrite Hroom; reflexivity).
    unfold ensureRoomBelongsToHotel. rewrite Hhotel, String.eqb_refl. cbn [negb lift].
    rewrite (bind_run _ _ s s tt) by reflexivity.
    destruct (truthy_ostr (in_roomType input)
              && negb (rm_type room =? nullish (in_roomType input) "")).
    + reflexivity.
    + apply bind_fail. rewrite ensureRoomAvailable_run, Htaken. reflexivity.
Qed.

(** X29.  An [assignRoom] that returns has written the room and its type on the
    reservation and nothing else: read back, the reservation is the one
    returned, with its status, dates and billing as they were; the room
    passed the availability check; and the rooms table is untouched.
    There is no test of the status: the reservation of a guest in the house
    can be moved, and no room changes its status for it. *)
Theorem assignRoom_returned (reservationId roomId : string) (s s' : Store)
    (payload : ReservationRecord) :
  assignRoom reservationId roomId s = (s', inr payload) ->
  exists reservation room,
    getById reservationsTable reservationId s = (s, inr (Some reservation))
    /\ getById roomsTable roomId s = (s, inr (Some room))
    /\ rm_hotelCode room = r_hotelCode reservation
    /\ ensureRoomAvailable roomId (r_arrivalDate reservation)
         (r_departureDate reservation) (Some reservationId) s = (s, inr tt)
    /\ getById reservationsTable reservationId s' = (s', inr (Some payload))
    /\ r_roomId payload = Some roomId
    /\ r_roomType payload = rm_type room
    /\ r_status payload = r_status reservation
    /\ r_arrivalDate payload = r_arrivalDate reservation
    /\ r_departureDate payload = r_departureDate reservation
    /\ r_billing payload = r_billing reservation
    /\ st_rooms s' = st_rooms s
    /\ st_bills s' = st_bills s
    /\ st_payments s' = st_payments s.
Proof.
  intros H.
  apply assignRoom_inr in H
    as (reservation & room & Hres & Hroom & Hhotel & Hfree & Kp & Hrid & Htype & Hstatus
        & Harr & Hdep & Hbilling & Hs' & Hrooms & Hbooks).
  exists reservation, room.
  unfold getById. cbn [t_records reservationsTable roomsTable].
  rewrite Hres, Hroom, ensureRoomAvailable_run, Hfree.
  split; [reflexivity | split; [reflexivity | split; [exact Hhotel |]]].
  split; [reflexivity |].
  split.
  { rewrite Hs', (cache_get_replace reservationsTable _ _ reservation);
      [reflexivity | exact Hres | exact Kp]. }
  split; [exact Hrid | split; [exact Htype | split; [exact Hstatus |]]].
  split; [exact Harr | split; [exact Hdep | split; [exact Hbilling |]]].
  split; [exact Hrooms |].
  unfold books in Hbooks. cbn [st_bills st_payments set_reservations] in Hbooks.
  split; congruence.
Qed.
End Recheck.

(** The cancellation of a booking without a room is refused because the
    house is full; the guest of room 102 who asks for room 101 is refused
    because it is taken, and, asking for it as a room of type STD, because
    it is none. *)
Lemma updateReservation_rechecks_availability_witness :
  updateReservation (P := Runtime.platform) "res2" HotelRuns.cancel HotelRuns.full
  = (HotelRuns.full,
     inl (HttpError 409 "No availability for the requested room type and dates"))
  /\ updateReservation (P := Runtime.platform) "res2" (HotelRuns.moveTo101 None)
       HotelRuns.neighbours
     = (HotelRuns.neighbours,
        inl (HttpError 409 "Room is not available for the selected dates"))
  /\ updateReservation (P := Runtime.platform) "res2" (HotelRuns.moveTo101 (Some "STD"))
       HotelRuns.neighbours
     = (HotelRuns.neighbours,
        inl (HttpError 400 "Room type does not match selected room")).
Proof.
  split; [| split].
  - refine (proj1 (updateReservation_rechecks_availability (P := Runtime.platform) "res2"
                     HotelRuns.cancel HotelRuns.full HotelRuns.waiting (of_Z 3)
                     eq_refl _ eq_refl)
              _ eq_refl eq_refl).
    discriminate.
  - refine (proj2 (updateReservation_rechecks_availability (P := Runtime.platform) "res2"
                     (HotelRuns.moveTo101 None) HotelRuns.neighbours HotelRuns.neighbour
                     (of_Z 3) eq_refl _ eq_refl)
              "101" (Hotel.room "101" "101" AVAILABLE) eq_refl _ eq_refl eq_refl eq_refl);
      discriminate.
  - refine (proj2 (updateReservation_rechecks_availability (P := Runtime.platform) "res2"
                     (HotelRuns.moveTo101 (Some "STD")) HotelRuns.neighbours
                     HotelRuns.neighbour (of_Z 3) eq_refl _ eq_refl)
              "101" (Hotel.room "101" "101" AVAILABLE) eq_refl _ eq_refl eq_refl eq_refl);
      discriminate.
Defined.

(** The guest in the house is moved to room 102; room 101 stays OCCUPIED
    and room 102 AVAILABLE. *)
Lemma assignRoom_returned_witness :
  exists payload,
    snd (assignRoom (P := Runtime.platform) "res1" "102" HotelRuns.twoRooms)
    = inr payload
    /\ r_roomId payload = Some "102"
    /\ r_status payload = CHECKED_IN
    /\ map rm_status
         (st_rooms (fst (assignRoom (P := Runtime.platform) "res1" "102"
                           HotelRuns.twoRooms)))
       = [OCCUPIED; AVAILABLE].
Proof.
  destruct (assignRoom (P := Runtime.platform) "res1" "102" HotelRuns.twoRooms)
    as [s' [e | payload]] eqn:Hrun; [vm_compute in Hrun; discriminate Hrun |].
  destruct (assignRoom_returned (P := Runtime.platform) _ _ _ _ _ Hrun)
    as (reservation & room & Hres & _ & _ & _ & _ & Hroom & _ & Hstatus & _ & _ & _
        & Hrooms & _).
  exists payload. cbn [fst]. rewrite Hrooms.
  split; [reflexivity | split; [exact Hroom | split; [| reflexivity]]].
  rewrite Hstatus. vm_compute in Hres. injection Hres as <-. reflexivity.
Defined.

(** ** Listing reservations *)

Section Listing.
Context {P : Platform}.

End Listing.


